(** * A columnar data engine: CSV ingestion and table operations

    Shallow embedding of [src/app/functions.py] (class [DataFrame], class
    [GroupBy], [parse_csv_line], [infer_type], [read_csv],
    [read_csv_parallel], [_parse_csv_chunk]) and proofs of properties of
    these functions.

    Conventions of the embedding.
    - Cell values are the four scalar kinds the engine produces: [None],
      [int], [float] and [str].  A Python [float] is a binary64 number,
      carried as a [spec_float] and computed with the binary64 operations of
      [SpecFloat] (precision 53, maximal exponent 1024).
    - Python strings are [string]s of 8-bit characters, the characters with
      a code point below 256; [isspace], [isdigit], [strip], [int] and
      [float] are given on all of them.  Files are ASCII text, so byte
      offsets and character offsets agree; they are read in text mode, where
      a line ends at a line feed, at a carriage return or at the two in this
      order.
    - A Python [dict] is an association list in insertion order: assigning
      to a present key replaces its value in place, assigning to an absent
      key appends an entry.
    - A function that can raise returns a [result]; the exception kinds are
      the ones the code raises or lets escape. *)

From Stdlib Require Import List String Ascii Bool Arith ZArith QArith Lia.
From Stdlib Require Import Permutation Sorted.
From Stdlib Require Floats.SpecFloat.
Import ListNotations.

Close Scope Q_scope.
Local Open Scope string_scope.
Local Open Scope list_scope.

(** ** Exceptions and fallible computations *)

Inductive exn : Type :=
| KeyError
| ValueError
| TypeError
| IndexError
| OverflowError
| ZeroDivisionError
| Exception.

Inductive result (A : Type) : Type :=
| Ok (a : A)
| Raise (e : exn).

Arguments Ok {A} a.
Arguments Raise {A} e.

Definition bind {A B : Type} (m : result A) (f : A -> result B) : result B :=
  match m with
  | Ok a => f a
  | Raise e => Raise e
  end.

Notation "'do' x <- m ; k" := (bind m (fun x => k))
  (at level 10, x pattern, m at level 100, k at level 200).

Definition is_ok {A : Type} (m : result A) : bool :=
  match m with Ok _ => true | Raise _ => false end.

(** [for x in l: acc = f acc x], stopping at the first exception. *)
Fixpoint foldM {A B : Type} (f : B -> A -> result B) (l : list A) (acc : B)
  : result B :=
  match l with
  | [] => Ok acc
  | x :: l' => do acc' <- f acc x; foldM f l' acc'
  end.

(** [[f x for x in l]], stopping at the first exception. *)
Fixpoint mapM {A B : Type} (f : A -> result B) (l : list A) : result (list B) :=
  match l with
  | [] => Ok []
  | x :: l' => do y <- f x; do ys <- mapM f l'; Ok (y :: ys)
  end.

(** ** Characters and the string builtins the code calls *)

Definition quote_char : ascii := ascii_of_nat 34.
Definition dot_char : ascii := "."%char.
Definition minus_char : ascii := "-"%char.
Definition plus_char : ascii := "+"%char.
Definition underscore_char : ascii := "_"%char.
Definition newline_char : ascii := ascii_of_nat 10.
Definition return_char : ascii := ascii_of_nat 13.

(** The decimal digits [0] to [9], the only digits [int] and [float]
    read. *)
Definition isdecimal (c : ascii) : bool :=
  (48 <=? nat_of_ascii c)%nat && (nat_of_ascii c <=? 57)%nat.

(** [c.isdigit()]: the decimal digits and the superscripts two, three and
    one (178, 179, 185). *)
Definition isdigit (c : ascii) : bool :=
  let n := nat_of_ascii c in
  isdecimal c || (n =? 178)%nat || (n =? 179)%nat || (n =? 185)%nat.

Definition digit_value (c : ascii) : Z := Z.of_nat (nat_of_ascii c - 48).

(** [c.isspace()]: tab, line feed, vertical tab, form feed, carriage
    return, the four separators 28..31, the space, next line (133) and the
    no-break space (160). *)
Definition isspace (c : ascii) : bool :=
  let n := nat_of_ascii c in
  ((9 <=? n)%nat && (n <=? 13)%nat) || ((28 <=? n)%nat && (n <=? 32)%nat) ||
  (n =? 133)%nat || (n =? 160)%nat.

(** The blanks [int] and [float] ignore around a number: those of
    [isspace] without the separators 28..31. *)
Definition number_space (c : ascii) : bool :=
  let n := nat_of_ascii c in
  ((9 <=? n)%nat && (n <=? 13)%nat) || (n =? 32)%nat ||
  (n =? 133)%nat || (n =? 160)%nat.

Fixpoint lstrip (s : string) : string :=
  match s with
  | String c s' => if isspace c then lstrip s' else s
  | EmptyString => EmptyString
  end.

(** [rstrip] drops the trailing run of whitespace: a character is kept when
    something that is not whitespace follows it or it is not whitespace. *)
Fixpoint rstrip (s : string) : string :=
  match s with
  | EmptyString => EmptyString
  | String c s' =>
      match rstrip s' with
      | EmptyString => if isspace c then EmptyString else String c EmptyString
      | r => String c r
      end
  end.

(** [s.strip()]. *)
Definition strip (s : string) : string := rstrip (lstrip s).

(** The argument of [int] and [float] without the blanks around it. *)
Fixpoint number_lstrip (s : string) : string :=
  match s with
  | String c s' => if number_space c then number_lstrip s' else s
  | EmptyString => EmptyString
  end.

Fixpoint number_rstrip (s : string) : string :=
  match s with
  | EmptyString => EmptyString
  | String c s' =>
      match number_rstrip s' with
      | EmptyString =>
          if number_space c then EmptyString else String c EmptyString
      | r => String c r
      end
  end.

Definition number_strip (s : string) : string :=
  number_rstrip (number_lstrip s).

(** [c in s]. *)
Fixpoint contains (c : ascii) (s : string) : bool :=
  match s with
  | EmptyString => false
  | String c' s' => Ascii.eqb c' c || contains c s'
  end.

(** Digit groups of numeric literals: digits with single underscores allowed
    between two digits.  [digitpart s] splits off the longest such prefix and
    returns its digits (underscores removed); [None] when [s] does not start
    with a digit. *)
Fixpoint digits_tail (s : string) : list ascii * string :=
  match s with
  | String c s' =>
      if isdecimal c then
        let (ds, r) := digits_tail s' in (c :: ds, r)
      else if Ascii.eqb c underscore_char then
        match s' with
        | String c' _ =>
            if isdecimal c' then digits_tail s' else ([], s)
        | EmptyString => ([], s)
        end
      else ([], s)
  | EmptyString => ([], s)
  end.

Definition digitpart (s : string) : option (list ascii * string) :=
  match s with
  | String c _ => if isdecimal c then Some (digits_tail s) else None
  | EmptyString => None
  end.

Definition digits_to_Z (ds : list ascii) : Z :=
  fold_left (fun acc c => (10 * acc + digit_value c)%Z) ds 0%Z.

(** An optional sign: [true] for [-]. *)
Definition sign_prefix (s : string) : bool * string :=
  match s with
  | String c s' =>
      if Ascii.eqb c minus_char then (true, s')
      else if Ascii.eqb c plus_char then (false, s')
      else (false, s)
  | EmptyString => (false, s)
  end.

(** [sys.get_int_max_str_digits()], which nothing in the code changes: the
    most digits [int] converts. *)
Definition int_max_str_digits : nat := 4300.

(** [int(s)] in base 10 on a [str]: the blanks around the number are
    ignored, then come an optional sign and one digit group of at most
    [int_max_str_digits] digits, leading zeros counted; [None] stands for
    [ValueError]. *)
Definition py_int (s : string) : option Z :=
  let (neg, body) := sign_prefix (number_strip s) in
  match digitpart body with
  | Some (ds, EmptyString) =>
      if (int_max_str_digits <? List.length ds)%nat then None
      else Some (if neg then (- digits_to_Z ds)%Z else digits_to_Z ds)
  | _ => None
  end.

(** *** Binary64 numbers *)

Definition float : Type := SpecFloat.spec_float.

Definition prec : Z := 53.
Definition emax : Z := 1024.

Definition float_add : float -> float -> float := SpecFloat.SFadd prec emax.
Definition float_div : float -> float -> float := SpecFloat.SFdiv prec emax.

Definition is_infinite (f : float) : bool :=
  match f with SpecFloat.S754_infinity _ => true | _ => false end.

(** The binary64 number nearest to the integer [z] (ties to even); it is an
    infinity when [z] is out of range. *)
Definition round_Z (z : Z) : float :=
  SpecFloat.binary_normalize prec emax z 0 false.

(** The binary64 number nearest to [n / d] for integers [n] and [d > 0]. *)
Definition round_quotient (neg : bool) (n d : positive) : float :=
  SpecFloat.SFdiv prec emax
    (SpecFloat.S754_finite neg n 0) (SpecFloat.S754_finite false d 0).

(** The binary64 number nearest to [m * 10^e], negated when [neg]. *)
Definition round_decimal (neg : bool) (m : Z) (e : Z) : float :=
  match m with
  | Zpos p =>
      match e with
      | Zneg k => round_quotient neg p (Pos.pow 10 k)
      | _ => SpecFloat.binary_normalize prec emax
               (if neg then (- (m * 10 ^ e))%Z else (m * 10 ^ e)%Z) 0 false
      end
  | _ => SpecFloat.S754_zero neg
  end.

(** The exponent part of a float literal: [e] or [E], an optional sign and a
    digit group.  A missing exponent is [0]. *)
Definition exponent_part (s : string) : option (Z * string) :=
  match s with
  | String c s' =>
      if Ascii.eqb c "e"%char || Ascii.eqb c "E"%char then
        let (neg, body) := sign_prefix s' in
        match digitpart body with
        | Some (ds, r) =>
            Some (if neg then (- digits_to_Z ds)%Z else digits_to_Z ds, r)
        | None => None
        end
      else Some (0%Z, s)
  | EmptyString => Some (0%Z, s)
  end.

(** [float(s)] on a [str] holding a decimal literal: the blanks around the
    number are ignored; then an optional sign, digits with an optional
    fraction (or a fraction alone) and an optional exponent.  [None] stands
    for [ValueError].  The spellings of infinities and NaNs are left out:
    they start with a letter, or a sign followed by a letter, and
    [infer_type] never passes such a string to [float]. *)
Definition py_float (s : string) : option float :=
  let (neg, body) := sign_prefix (number_strip s) in
  let '(ipart, after_int) :=
    match digitpart body with
    | Some (ds, r) => (Some ds, r)
    | None => (None, body)
    end in
  let '(fpart, after_frac) :=
    match after_int with
    | String c r =>
        if Ascii.eqb c dot_char then
          match digitpart r with
          | Some (ds, r') => (Some ds, r')
          | None => (None, r)
          end
        else (None, after_int)
    | EmptyString => (None, after_int)
    end in
  match ipart, fpart with
  | None, None => None
  | _, _ =>
      let ids := match ipart with Some ds => ds | None => [] end in
      let fds := match fpart with Some ds => ds | None => [] end in
      match exponent_part after_frac with
      | Some (e, EmptyString) =>
          Some (round_decimal neg (digits_to_Z (ids ++ fds))
                  (e - Z.of_nat (List.length fds)))
      | _ => None
      end
  end.

(** ** Scalars *)

Inductive Scalar : Type :=
| Null
| Int (z : Z)
| Float (f : float)
| Text (s : string).

(** *** Equality and order of scalars

    Python compares an [int] with a [float], and two [float]s, by their
    exact values, so [1 == 1.0].  [exact_value] is the value of a number in
    the rationals extended with the two infinities; NaN has none.  (Python
    also treats an object as equal to itself when it looks a key up; object
    identity is not part of this model, so a NaN key equals nothing.) *)

Inductive xnum : Type :=
| XNaN
| XNegInf
| XFin (q : Q)
| XPosInf.

Definition float_value (f : float) : xnum :=
  match f with
  | SpecFloat.S754_zero _ => XFin 0
  | SpecFloat.S754_infinity s => if s then XNegInf else XPosInf
  | SpecFloat.S754_nan => XNaN
  | SpecFloat.S754_finite s m e =>
      let sm := if s then Zneg m else Zpos m in
      XFin (match e with
            | Zneg k => Qmake sm (Pos.pow 2 k)
            | _ => Qmake (sm * 2 ^ e) 1
            end)
  end.

Definition exact_value (v : Scalar) : option xnum :=
  match v with
  | Int z => Some (XFin (inject_Z z))
  | Float f => Some (float_value f)
  | _ => None
  end.

Definition xnum_compare (a b : xnum) : option comparison :=
  match a, b with
  | XNaN, _ | _, XNaN => None
  | XNegInf, XNegInf => Some Eq
  | XNegInf, _ => Some Lt
  | _, XNegInf => Some Gt
  | XPosInf, XPosInf => Some Eq
  | XPosInf, _ => Some Gt
  | _, XPosInf => Some Lt
  | XFin p, XFin q => Some (Qcompare p q)
  end.

(** [v == w]. *)
Definition py_eq (v w : Scalar) : bool :=
  match v, w with
  | Null, Null => true
  | Text s, Text t => String.eqb s t
  | _, _ =>
      match exact_value v, exact_value w with
      | Some a, Some b =>
          match xnum_compare a b with Some Eq => true | _ => false end
      | _, _ => false
      end
  end.

(** [v < w]: numbers among themselves, strings among themselves (by code
    points); every other pair raises [TypeError], [None < None] included. *)
Definition py_lt (v w : Scalar) : result bool :=
  match v, w with
  | Text s, Text t => Ok (String.ltb s t)
  | _, _ =>
      match exact_value v, exact_value w with
      | Some a, Some b =>
          Ok (match xnum_compare a b with Some Lt => true | _ => false end)
      | _, _ => Raise TypeError
      end
  end.

(** [float(z)] for an [int]: [OverflowError] when out of range. *)
Definition float_of_int (z : Z) : result float :=
  let f := round_Z z in
  if is_infinite f then Raise OverflowError else Ok f.

(** [v + w]. *)
Definition py_add (v w : Scalar) : result Scalar :=
  match v, w with
  | Int a, Int b => Ok (Int (a + b))
  | Int a, Float g => do f <- float_of_int a; Ok (Float (float_add f g))
  | Float f, Int b => do g <- float_of_int b; Ok (Float (float_add f g))
  | Float f, Float g => Ok (Float (float_add f g))
  | Text s, Text t => Ok (Text (s ++ t))
  | _, _ => Raise TypeError
  end.

(** [v / n] for a count [n] (true division): the quotient of two [int]s is
    rounded once, from the exact quotient. *)
Definition py_truediv (v : Scalar) (n : nat) : result Scalar :=
  match v with
  | Int a =>
      match n with
      | O => Raise ZeroDivisionError
      | S _ =>
          let q := match a with
                   | Z0 => SpecFloat.S754_zero false
                   | Zpos p => round_quotient false p (Pos.of_nat n)
                   | Zneg p => round_quotient true p (Pos.of_nat n)
                   end in
          if is_infinite q then Raise OverflowError else Ok (Float q)
      end
  | Float f =>
      match n with
      | O => Raise ZeroDivisionError
      | S _ => do g <- float_of_int (Z.of_nat n); Ok (Float (float_div f g))
      end
  | _ => Raise TypeError
  end.

(** [sum(values)]: the running total starts at the [int] 0. *)
Definition py_sum (values : list Scalar) : result Scalar :=
  foldM py_add values (Int 0).

(** [min(values)] on a non-empty list keeps the first smallest item; the
    empty list raises [ValueError]. *)
Definition py_min (values : list Scalar) : result Scalar :=
  match values with
  | [] => Raise ValueError
  | v :: vs =>
      foldM (fun m x => do b <- py_lt x m; Ok (if b then x else m)) vs v
  end.

(** [max(values)] keeps the first largest item ([x > m] is [m < x]). *)
Definition py_max (values : list Scalar) : result Scalar :=
  match values with
  | [] => Raise ValueError
  | v :: vs =>
      foldM (fun m x => do b <- py_lt m x; Ok (if b then x else m)) vs v
  end.

(** Tuples of scalars (sort keys and grouping keys).  Two tuples are
    compared at the first position where their items differ; when there is
    none the shorter one is the smaller. *)
Fixpoint tuple_eq (a b : list Scalar) : bool :=
  match a, b with
  | [], [] => true
  | x :: a', y :: b' => py_eq x y && tuple_eq a' b'
  | _, _ => false
  end.

Fixpoint tuple_lt (a b : list Scalar) : result bool :=
  match a, b with
  | x :: a', y :: b' => if py_eq x y then tuple_lt a' b' else py_lt x y
  | [], _ :: _ => Ok true
  | _, [] => Ok false
  end.

(** ** Dictionaries and lists *)

(** The equality a key type brings ([__eq__]). *)
Class KeyEq (K : Type) : Type := key_eqb : K -> K -> bool.

#[global] Instance string_KeyEq : KeyEq string := String.eqb.
#[global] Instance Scalar_KeyEq : KeyEq Scalar := py_eq.
#[global] Instance tuple_KeyEq : KeyEq (list Scalar) := tuple_eq.

Definition dict (K V : Type) : Type := list (K * V).

Section Dict.
Context {K V : Type} `{KeyEq K}.

(** [d.get(k)]. *)
Fixpoint dict_get (d : dict K V) (k : K) : option V :=
  match d with
  | [] => None
  | (k', v) :: d' => if key_eqb k' k then Some v else dict_get d' k
  end.

(** [k in d]. *)
Definition dict_mem (d : dict K V) (k : K) : bool :=
  match dict_get d k with Some _ => true | None => false end.

(** [d[k]]. *)
Definition getitem (d : dict K V) (k : K) : result V :=
  match dict_get d k with Some v => Ok v | None => Raise KeyError end.

(** [d[k] = v]. *)
Fixpoint dict_set (d : dict K V) (k : K) (v : V) : dict K V :=
  match d with
  | [] => [(k, v)]
  | (k', v') :: d' =>
      if key_eqb k' k then (k', v) :: d' else (k', v') :: dict_set d' k v
  end.

Definition dict_keys (d : dict K V) : list K := map fst d.
Definition dict_values (d : dict K V) : list V := map snd d.

(** [{k: v for (k, v) in kvs}]. *)
Definition dict_of_list (kvs : list (K * V)) : dict K V :=
  fold_left (fun d kv => dict_set d (fst kv) (snd kv)) kvs [].
End Dict.

(** [d[k].append(x)] on a dictionary of lists. *)
Definition dict_append {K A : Type} `{KeyEq K} (d : dict K (list A)) (k : K)
    (x : A) : result (dict K (list A)) :=
  do l <- getitem d k; Ok (dict_set d k (l ++ [x])).

(** [{k: f(k) for k in ks}] with a value expression that can raise. *)
Definition dict_comprehension {K V : Type} `{KeyEq K} (ks : list K)
    (f : K -> result V) : result (dict K V) :=
  foldM (fun d k => do v <- f k; Ok (dict_set d k v)) ks [].

(** [l[i]]. *)
Definition list_item {A : Type} (l : list A) (i : nat) : result A :=
  match nth_error l i with Some x => Ok x | None => Raise IndexError end.

(** [c in l] for a list of names. *)
Definition name_in (c : string) (l : list string) : bool :=
  existsb (String.eqb c) l.

(** [len(set(l))] for a list of lengths. *)
Definition count_distinct (l : list nat) : nat :=
  List.length (nodup Nat.eq_dec l).

(** [sorted(items, key=key, reverse=reverse)].  The keys are computed first;
    the sort is stable and uses [<] only.  With [reverse] the list is
    reversed, sorted and reversed again, which keeps equal items in their
    original order.  The stable sort is an insertion sort: under a total
    preorder every stable sort returns the same list. *)
Section Sorted.
Context {K A : Type} (lt : K -> K -> result bool).

Fixpoint insert_sorted (x : K * A) (l : list (K * A))
  : result (list (K * A)) :=
  match l with
  | [] => Ok [x]
  | y :: l' =>
      do b <- lt (fst x) (fst y);
      if b then Ok (x :: l)
      else do r <- insert_sorted x l'; Ok (y :: r)
  end.

Definition stable_sort (l : list (K * A)) : result (list (K * A)) :=
  foldM (fun acc x => insert_sorted x acc) l [].

Definition sort_keyed (keyed : list (K * A)) (reverse : bool)
  : result (list A) :=
  do s <- stable_sort (if reverse then rev keyed else keyed);
  Ok (map snd (if reverse then rev s else s)).

Definition py_sorted (items : list A) (key : A -> result K) (reverse : bool)
  : result (list A) :=
  do keys <- mapM key items;
  sort_keyed (combine keys items) reverse.
End Sorted.

(** ** The table: class [DataFrame] *)

Definition column : Type := list Scalar.

Record DataFrame : Type := mkDataFrame {
  data : dict string column;
  columns : list string
}.

(** [DataFrame(data)] for a [dict] of columns: the columns are copied, the
    column names are the keys in order, and columns of different lengths
    are refused. *)
Definition DataFrame_init (d : dict string column) : result DataFrame :=
  let data := dict_of_list d in
  let columns := dict_keys d in
  match data with
  | [] => Ok (mkDataFrame data columns)
  | _ :: _ =>
      let lengths := map (@List.length Scalar) (dict_values data) in
      if (1 <? count_distinct lengths)%nat then Raise ValueError
      else Ok (mkDataFrame data columns)
  end.

(** [len(self)]. *)
Definition len (self : DataFrame) : nat :=
  match data self with
  | [] => 0
  | (_, values) :: _ => List.length values
  end.

(** [self.data[col][i]]. *)
Definition cell (self : DataFrame) (col : string) (i : nat) : result Scalar :=
  do values <- getitem (data self) col; list_item values i.

(** [v is not None and v != ''], the filter of the aggregations. *)
Definition is_valid (v : Scalar) : bool :=
  match v with
  | Null => false
  | _ => negb (py_eq v (Text ""))
  end.

(** The chain of tests on [func_name] that [DataFrame.aggregate] and
    [GroupBy.agg] both apply to the values of a column. *)
Definition agg_value (func_name : string) (values : column) : result Scalar :=
  if func_name =? "count" then Ok (Int (Z.of_nat (List.length values)))
  else if func_name =? "sum" then py_sum (filter is_valid values)
  else if func_name =? "mean" then
    let numeric_values := filter is_valid values in
    match numeric_values with
    | [] => Ok Null
    | _ :: _ =>
        do s <- py_sum numeric_values;
        py_truediv s (List.length numeric_values)
    end
  else if func_name =? "min" then
    let valid_values := filter is_valid values in
    match valid_values with
    | [] => Ok Null
    | _ :: _ => py_min valid_values
    end
  else if func_name =? "max" then
    let valid_values := filter is_valid values in
    match valid_values with
    | [] => Ok Null
    | _ :: _ => py_max valid_values
    end
  else Raise ValueError.

(** [self.aggregate(column, func_name)]. *)
Definition aggregate (self : DataFrame) (column : string) (func_name : string)
  : result Scalar :=
  if negb (name_in column (columns self)) then Raise KeyError
  else do values <- getitem (data self) column; agg_value func_name values.

(** [self.add_column(column_name, values)]. *)
Definition add_column (self : DataFrame) (column_name : string)
    (values : column) : result DataFrame :=
  if negb (List.length values =? len self)%nat then Raise ValueError
  else
    do new_data <- dict_comprehension (columns self)
                     (fun col => getitem (data self) col);
    DataFrame_init (dict_set new_data column_name values).

(** [self.rename_columns(mapping)]: the loop fills [new_data] and
    [new_columns]; the names of the result are then overwritten with
    [new_columns]. *)
Definition rename_step (self : DataFrame) (mapping : dict string string)
    (acc : dict string column * list string) (col : string)
  : result (dict string column * list string) :=
  let (new_data, new_columns) := acc in
  do values <- getitem (data self) col;
  match dict_get mapping col with
  | Some new_col_name =>
      Ok (dict_set new_data new_col_name values, new_columns ++ [new_col_name])
  | None => Ok (dict_set new_data col values, new_columns ++ [col])
  end.

Definition rename_columns (self : DataFrame) (mapping : dict string string)
  : result DataFrame :=
  do acc <- foldM (rename_step self mapping) (columns self) ([], []);
  let (new_data, new_columns) := acc in
  do result <- DataFrame_init new_data;
  Ok (mkDataFrame (data result) new_columns).

(** [self.sort(by, ascending)] with [by] a list of names. *)
Definition get_sort_key (self : DataFrame) (by_ : list string) (idx : nat)
  : result (list Scalar) :=
  mapM (fun col => cell self col idx) by_.

Definition sorted_indices (self : DataFrame) (by_ : list string)
    (ascending : bool) : result (list nat) :=
  py_sorted tuple_lt (seq 0 (len self)) (get_sort_key self by_)
    (negb ascending).

Definition sort (self : DataFrame) (by_ : list string) (ascending : bool)
  : result DataFrame :=
  if negb (forallb (fun col => name_in col (columns self)) by_)
  then Raise KeyError
  else
    do idxs <- sorted_indices self by_ ascending;
    do new_data <- dict_comprehension (columns self)
                     (fun col => mapM (fun idx => cell self col idx) idxs);
    DataFrame_init new_data.

(** *** Join *)

(** [if k not in index: index[k] = []] followed by [index[k].append(i)],
    the step that builds [right_index] in [join] and [groups] in
    [GroupBy._create_groups].  When the key is absent the entry that was
    just inserted is the one [index[k]] finds again (it is the same
    object), so the new entry is [[i]]. *)
Definition index_add {K : Type} `{KeyEq K} (index : dict K (list nat)) (k : K)
    (i : nat) : dict K (list nat) :=
  match dict_get index k with
  | Some l => dict_set index k (l ++ [i])
  | None => index ++ [(k, [i])]
  end.

Definition build_right_index (other : DataFrame) (right_key : string)
  : result (dict Scalar (list nat)) :=
  foldM (fun index i =>
           do key_value <- cell other right_key i;
           Ok (index_add index key_value i))
        (seq 0 (len other)) [].

(** [f"{col}_right"]. *)
Definition right_name (col : string) : string := String.append col "_right".

Definition join_result_columns (self other : DataFrame) (right_key : string)
  : list string :=
  fold_left (fun result_columns col =>
               if negb (name_in col result_columns)
               then result_columns ++ [col]
               else if negb (col =? right_key)
                    then result_columns ++ [right_name col]
                    else result_columns)
            (columns other) (columns self).

(** [for col in self.columns: result_data[col].append(value col)]. *)
Definition append_left (self : DataFrame) (value : string -> result Scalar)
    (result_data : dict string column) : result (dict string column) :=
  foldM (fun rd col => do v <- value col; dict_append rd col v)
        (columns self) result_data.

(** The loop over [other.columns] that the three branches of [join] share:
    the right key is skipped when the left table has a column of that name,
    a name of the left table gets the suffix, and [value col] is
    appended. *)
Definition append_right (self other : DataFrame) (right_key : string)
    (value : string -> result Scalar) (result_data : dict string column)
  : result (dict string column) :=
  foldM (fun rd col =>
           if (col =? right_key) && name_in col (columns self) then Ok rd
           else
             let result_col :=
               if name_in col (columns self) && negb (col =? right_key)
               then right_name col else col in
             do v <- value col; dict_append rd result_col v)
        (columns other) result_data.

Definition how_in (how : string) (kinds : list string) : bool :=
  existsb (String.eqb how) kinds.

(** The left-driven pass: the state is [result_data] and the set
    [matched_right_rows]. *)
Definition join_left_row (self other : DataFrame)
    (left_key right_key how : string) (right_index : dict Scalar (list nat))
    (st : dict string column * list nat) (i : nat)
  : result (dict string column * list nat) :=
  let (result_data, matched_right_rows) := st in
  do left_key_value <- cell self left_key i;
  match dict_get right_index left_key_value with
  | Some js =>
      foldM (fun (st' : dict string column * list nat) j =>
               let (rd, matched) := st' in
               let matched' := if existsb (Nat.eqb j) matched then matched
                               else matched ++ [j] in
               do rd1 <- append_left self (fun col => cell self col i) rd;
               do rd2 <- append_right self other right_key
                           (fun col => cell other col j) rd1;
               Ok (rd2, matched'))
            js (result_data, matched_right_rows)
  | None =>
      if how_in how ["left"; "outer"] then
        do rd1 <- append_left self (fun col => cell self col i) result_data;
        do rd2 <- append_right self other right_key (fun _ => Ok Null) rd1;
        Ok (rd2, matched_right_rows)
      else Ok st
  end.

(** The pass over the right rows that no left row matched. *)
Definition join_right_row (self other : DataFrame)
    (left_key right_key : string) (matched_right_rows : list nat)
    (result_data : dict string column) (j : nat)
  : result (dict string column) :=
  if existsb (Nat.eqb j) matched_right_rows then Ok result_data
  else
    do rd1 <- append_left self
                (fun col => if col =? left_key then cell other right_key j
                            else Ok Null)
                result_data;
    append_right self other right_key (fun col => cell other col j) rd1.

(** [self.join(other, on, left_on, right_on, how)]. *)
Definition join (self other : DataFrame) (on left_on right_on : option string)
    (how : string) : result DataFrame :=
  do keys <- match on, left_on, right_on with
             | Some k, _, _ => Ok (k, k)
             | None, Some l, Some r => Ok (l, r)
             | _, _, _ => Raise ValueError
             end;
  let (left_key, right_key) := keys in
  if negb (name_in left_key (columns self)) then Raise KeyError
  else if negb (name_in right_key (columns other)) then Raise KeyError
  else
    do right_index <- build_right_index other right_key;
    let result_columns := join_result_columns self other right_key in
    let result_data : dict string column :=
      dict_of_list (map (fun col => (col, [])) result_columns) in
    do st <- foldM (join_left_row self other left_key right_key how right_index)
               (seq 0 (len self)) (result_data, []);
    let (result_data1, matched_right_rows) := st in
    do result_data2 <-
      (if how_in how ["right"; "outer"] then
         foldM (join_right_row self other left_key right_key matched_right_rows)
           (seq 0 (len other)) result_data1
       else Ok result_data1);
    DataFrame_init result_data2.

(** ** Grouping: class [GroupBy] *)

Record GroupBy : Type := mkGroupBy {
  df : DataFrame;
  by_ : list string;
  _groups : dict (list Scalar) (list nat)
}.

(** [GroupBy._create_groups]: the rows are scanned top to bottom and each
    row index is appended under its key tuple. *)
Definition _create_groups (dataframe : DataFrame) (by_ : list string)
  : result (dict (list Scalar) (list nat)) :=
  foldM (fun groups i =>
           do key_values <- mapM (fun col => cell dataframe col i) by_;
           Ok (index_add groups key_values i))
        (seq 0 (len dataframe)) [].

(** [self.groupby(by)] with [by] a list of names. *)
Definition groupby (self : DataFrame) (by_ : list string) : result GroupBy :=
  if negb (forallb (fun col => name_in col (columns self)) by_)
  then Raise KeyError
  else do groups <- _create_groups self by_; Ok (mkGroupBy self by_ groups).

(** [for i, col in enumerate(self.by): result_data[col].append(key_values[i])]. *)
Definition append_keys (by_ : list string) (key_values : list Scalar)
    (result_data : dict string column) : result (dict string column) :=
  foldM (fun rd (ic : nat * string) =>
           let (i, col) := ic in
           do v <- list_item key_values i; dict_append rd col v)
        (combine (seq 0 (List.length by_)) by_) result_data.

(** The inner loop of [agg] over [aggregations.items()] for one group. *)
Definition append_aggregates (self : GroupBy)
    (aggregations : dict string string) (indices : list nat)
    (result_data : dict string column) : result (dict string column) :=
  foldM (fun rd (cf : string * string) =>
           let (col, func_name) := cf in
           if name_in col (by_ self) then Ok rd
           else
             do values <- mapM (fun i => cell (df self) col i) indices;
             do v <- agg_value func_name values;
             dict_append rd col v)
        aggregations result_data.

(** [self.agg(aggregations)] for a [dict] from column names to function
    names. *)
Definition agg (self : GroupBy) (aggregations : dict string string)
  : result DataFrame :=
  let result_data0 : dict string column :=
    dict_of_list (map (fun col => (col, [])) (by_ self)) in
  let result_data1 :=
    fold_left (fun rd col => if negb (name_in col (by_ self))
                             then dict_set rd col [] else rd)
              (dict_keys aggregations) result_data0 in
  do result_data <-
    foldM (fun rd (g : list Scalar * list nat) =>
             let (key_values, indices) := g in
             do rd1 <- append_keys (by_ self) key_values rd;
             append_aggregates self aggregations indices rd1)
          (_groups self) result_data1;
  DataFrame_init result_data.

(** [self.agg(func_name)] for a single function name: it is applied to every
    column that is not a grouping column. *)
Definition agg_all (self : GroupBy) (func_name : string) : result DataFrame :=
  agg self
    (dict_of_list
       (map (fun col => (col, func_name))
            (filter (fun col => negb (name_in col (by_ self)))
                    (columns (df self))))).

(** [self.sum(column)]. *)
Definition GroupBy_sum (self : GroupBy) (column : string) : result DataFrame :=
  agg self [(column, "sum")].

(** ** CSV lines and fields *)

(** The loop of [parse_csv_line]: [line] is what remains to be read from
    index [i] on. *)
Fixpoint parse_csv_loop (separator : ascii) (line : string) (in_quotes : bool)
    (current_field : string) (fields : list string) : list string :=
  match line with
  | EmptyString => fields ++ [current_field]
  | String char rest =>
      if Ascii.eqb char quote_char then
        match in_quotes, rest with
        | true, String next rest' =>
            if Ascii.eqb next quote_char
            then parse_csv_loop separator rest' in_quotes
                   (current_field ++ String quote_char EmptyString) fields
            else parse_csv_loop separator rest (negb in_quotes)
                   current_field fields
        | _, _ =>
            parse_csv_loop separator rest (negb in_quotes) current_field fields
        end
      else if Ascii.eqb char separator && negb in_quotes then
        parse_csv_loop separator rest in_quotes EmptyString
          (fields ++ [current_field])
      else
        parse_csv_loop separator rest in_quotes
          (current_field ++ String char EmptyString) fields
  end.

Definition parse_csv_line (line : string) (separator : ascii) : list string :=
  parse_csv_loop separator line false EmptyString [].

(** [infer_type(value)]. *)
Definition numeric_shape (value : string) : bool :=
  match value with
  | String c0 rest =>
      isdigit c0 ||
      match rest with
      | String c1 _ => Ascii.eqb c0 minus_char && isdigit c1
      | EmptyString => false
      end
  | EmptyString => false
  end.

Definition infer_type (value : string) : Scalar :=
  match value with
  | EmptyString => Null
  | String _ _ =>
      if numeric_shape value then
        if negb (contains dot_char value) then
          match py_int value with
          | Some n => Int n
          | None => Text value
          end
        else
          match py_float value with
          | Some f => Float f
          | None => Text value
          end
      else Text value
  end.

(** ** Reading files *)

(** An open text file: its content and the position of the next read. *)
Fixpoint drop (n : nat) (s : string) : string :=
  match n, s with
  | O, _ => s
  | S n', String _ s' => drop n' s'
  | S _, EmptyString => EmptyString
  end.

(** The next line of [s] as text mode hands it over, and the number of
    characters of [s] it takes.  The line ends at a line feed, at a carriage
    return followed by a line feed, or at a carriage return alone; in the
    line each of these ends is a single line feed.  The last line of a file
    may have no end. *)
Fixpoint take_line (s : string) : string * nat :=
  match s with
  | EmptyString => (EmptyString, 0)
  | String c s' =>
      if Ascii.eqb c newline_char then (String newline_char EmptyString, 1)
      else if Ascii.eqb c return_char then
        match s' with
        | String c' _ =>
            if Ascii.eqb c' newline_char
            then (String newline_char EmptyString, 2)
            else (String newline_char EmptyString, 1)
        | EmptyString => (String newline_char EmptyString, 1)
        end
      else let (line, taken) := take_line s' in (String c line, S taken)
  end.

(** [f.readline()] at position [pos]: the line and [f.tell()] after it,
    which is the offset of the next line.  (After a carriage return that no
    line feed follows the interpreter's [tell] does not return an offset but
    a number that also encodes the state of its decoder; the files of the
    properties below have no such line end.) *)
Definition readline (content : string) (pos : nat) : string * nat :=
  let (line, taken) := take_line (drop pos content) in
  (line, pos + taken).

(** The step that [read_csv] and both loops of [_parse_csv_chunk] apply to
    a line that was read: strip it, skip it when it is empty or has the
    wrong number of fields, else append its fields to the columns.  The
    second component tells whether a row was appended. *)
Definition convert_field (skip_type_inference : bool) (field : string)
  : Scalar :=
  if skip_type_inference then
    match field with EmptyString => Null | _ => Text field end
  else infer_type field.

Definition append_record (columns : list string) (separator : ascii)
    (skip_type_inference : bool) (data : dict string column) (line : string)
  : result (dict string column * bool) :=
  let line := strip line in
  match line with
  | EmptyString => Ok (data, false)
  | _ =>
      let fields := parse_csv_line line separator in
      if negb (List.length fields =? List.length columns)%nat
      then Ok (data, false)
      else
        do data' <- foldM (fun d (cf : string * string) =>
                             dict_append d (fst cf)
                               (convert_field skip_type_inference (snd cf)))
                          (combine columns fields) data;
        Ok (data', true)
  end.

(** [for line in f] of [read_csv], from position [pos]; [fuel] bounds the
    number of lines and [nrows] is the optional limit on rows. *)
Fixpoint read_lines (fuel : nat) (content : string) (columns : list string)
    (separator : ascii) (skip_type_inference : bool) (nrows : option nat)
    (pos rows_read : nat) (data : dict string column)
  : result (dict string column) :=
  match fuel with
  | O => Ok data
  | S fuel' =>
      let (line, pos') := readline content pos in
      match line with
      | EmptyString => Ok data
      | _ =>
          do r <- append_record columns separator skip_type_inference data line;
          let (data', added) := r in
          let rows_read' := if added then S rows_read else rows_read in
          if added && match nrows with
                      | Some n => (n <=? rows_read')%nat
                      | None => false
                      end
          then Ok data'
          else read_lines fuel' content columns separator skip_type_inference
                 nrows pos' rows_read' data'
      end
  end.

(** [read_csv(filename, separator, nrows, skip_type_inference)] on a file
    that exists; every exception of the body is re-raised as [Exception]. *)
Definition read_csv (content : string) (separator : ascii)
    (nrows : option nat) (skip_type_inference : bool) : result DataFrame :=
  let body :=
    let (header, pos) := readline content 0 in
    let header_line := strip header in
    match header_line with
    | EmptyString => Raise ValueError
    | _ =>
        let columns := map strip (parse_csv_line header_line separator) in
        let data : dict string column :=
          dict_of_list (map (fun col => (col, [])) columns) in
        read_lines (S (String.length content)) content columns separator
          skip_type_inference nrows pos 0 data
    end in
  match body with
  | Ok data => DataFrame_init data
  | Raise _ => Raise Exception
  end.

(** The [while f.tell() < end_byte] loop of [_parse_csv_chunk]. *)
Fixpoint chunk_main_loop (fuel : nat) (content : string)
    (columns : list string) (separator : ascii) (skip_type_inference : bool)
    (end_byte pos : nat) (data : dict string column)
  : result (dict string column * nat) :=
  match fuel with
  | O => Ok (data, pos)
  | S fuel' =>
      if (pos <? end_byte)%nat then
        let (line, pos') := readline content pos in
        match line with
        | EmptyString => Ok (data, pos')
        | _ =>
            do r <- append_record columns separator skip_type_inference
                      data line;
            chunk_main_loop fuel' content columns separator
              skip_type_inference end_byte pos' (fst r)
        end
      else Ok (data, pos)
  end.

(** The [for _ in range(5)] loop of [_parse_csv_chunk]: up to [count] more
    lines, while the position is less than 5000 bytes past [end_byte]. *)
Fixpoint chunk_lookahead (count : nat) (content : string)
    (columns : list string) (separator : ascii) (skip_type_inference : bool)
    (end_byte pos : nat) (data : dict string column)
  : result (dict string column) :=
  match count with
  | O => Ok data
  | S count' =>
      if (end_byte + 5000 <=? pos)%nat then Ok data
      else
        let (line, pos') := readline content pos in
        match line with
        | EmptyString => Ok data
        | _ =>
            do r <- append_record columns separator skip_type_inference
                      data line;
            chunk_lookahead count' content columns separator
              skip_type_inference end_byte pos' (fst r)
        end
  end.

(** [_parse_csv_chunk(filename, start_byte, end_byte, columns, separator,
    skip_type_inference, encoding)]: both branches of the first test read
    and drop one line, after a seek when [start_byte > 0]. *)
Definition _parse_csv_chunk (content : string) (start_byte end_byte : nat)
    (columns : list string) (separator : ascii) (skip_type_inference : bool)
  : result (dict string column) :=
  let data : dict string column :=
    dict_of_list (map (fun col => (col, [])) columns) in
  let pos0 :=
    if (0 <? start_byte)%nat then snd (readline content start_byte)
    else snd (readline content 0) in
  do r <- chunk_main_loop (S (String.length content)) content columns
            separator skip_type_inference end_byte pos0 data;
  let (data1, pos1) := r in
  chunk_lookahead 5 content columns separator skip_type_inference end_byte
    pos1 data1.

(** [l[a:b] = new] for [0 <= a <= b]. *)
Definition slice_assign {A : Type} (l : list A) (a b : nat) (new : list A)
  : list A :=
  firstn a l ++ new ++ skipn b l.

(** The tasks of [read_csv_parallel]: one byte range per process, the last
    one ending at the end of the file. *)
Definition chunk_tasks (header_size file_size num_processes : nat)
  : list (nat * nat) :=
  let data_size := file_size - header_size in
  let chunk_size := data_size / num_processes in
  map (fun i =>
         (header_size + i * chunk_size,
          if (i <? num_processes - 1)%nat
          then header_size + (i + 1) * chunk_size
          else file_size))
      (seq 0 num_processes).

(** The combining loop of [read_csv_parallel]. *)
Definition combine_chunk (columns : list string)
    (st : dict string column * nat) (chunk_data : dict string column)
  : result (dict string column * nat) :=
  let (combined_data, current_pos) := st in
  do first <- list_item columns 0;
  do first_col <- getitem chunk_data first;
  let chunk_size := List.length first_col in
  if (0 <? chunk_size)%nat then
    do combined' <-
      foldM (fun cd col =>
               do target <- getitem cd col;
               do source <- getitem chunk_data col;
               Ok (dict_set cd col
                     (slice_assign target current_pos
                        (current_pos + chunk_size) source)))
            columns combined_data;
    Ok (combined', current_pos + chunk_size)
  else Ok st.

(** [read_csv_parallel(filename, separator, num_processes,
    skip_type_inference)] on a file that exists.  The pool returns the
    results of the tasks in the order of the tasks. *)
Definition read_csv_parallel (content : string) (separator : ascii)
    (num_processes : nat) (skip_type_inference : bool) : result DataFrame :=
  let file_size := String.length content in
  let (header_line, header_size) := readline content 0 in
  let columns := map strip (parse_csv_line (strip header_line) separator) in
  match num_processes with
  | O => Raise ZeroDivisionError
  | S _ =>
      let tasks := chunk_tasks header_size file_size num_processes in
      do results <-
        mapM (fun t : nat * nat =>
                _parse_csv_chunk content (fst t) (snd t) columns separator
                  skip_type_inference)
             tasks;
      do first <- list_item columns 0;
      do sizes <- mapM (fun chunk_data : dict string column =>
                          do c <- getitem chunk_data first;
                          Ok (List.length c))
                       results;
      let total_rows := fold_left Nat.add sizes 0 in
      let combined_data : dict string column :=
        dict_of_list (map (fun col => (col, repeat Null total_rows)) columns) in
      do st <- foldM (combine_chunk columns) results (combined_data, 0);
      DataFrame_init (fst st)
  end.

(** ** Tables as objects in a store

    The definitions above compute the table an operation returns.  This
    module keeps what they leave out: a [DataFrame], its [data] dictionary,
    its [columns] list and every column are objects with an address, and
    [append], item assignment and attribute assignment change an object in
    place.  The operations are the same methods, written over the store.
    The index structures a call builds for itself and that hold row numbers
    only ([right_index], [matched_right_rows], [groups], the row dictionary
    passed to a filter condition) stay plain values.  A computation returns
    the store also when it raises. *)
Module Store.

Definition addr : Type := nat.

Inductive obj : Type :=
| OList (items : list Scalar)
| ONames (names : list string)
| ODict (entries : dict string addr)
| OFrame (data_ref columns_ref : addr).

Definition heap : Type := list obj.

Definition M (A : Type) : Type := heap -> result A * heap.

Definition ret {A : Type} (x : A) : M A := fun h => (Ok x, h).
Definition raise {A : Type} (e : exn) : M A := fun h => (Raise e, h).
Definition lift {A : Type} (r : result A) : M A := fun h => (r, h).

Definition mbind {A B : Type} (m : M A) (f : A -> M B) : M B :=
  fun h =>
    match m h with
    | (Ok x, h') => f x h'
    | (Raise e, h') => (Raise e, h')
    end.

Notation "x <- m ;; k" := (mbind m (fun x => k))
  (at level 61, m at next level, right associativity).
Notation "m ;; k" := (mbind m (fun _ => k))
  (at level 61, right associativity).

Fixpoint mfor {A : Type} (l : list A) (f : A -> M unit) : M unit :=
  match l with
  | [] => ret tt
  | x :: l' => f x ;; mfor l' f
  end.

Fixpoint mmap {A B : Type} (f : A -> M B) (l : list A) : M (list B) :=
  match l with
  | [] => ret []
  | x :: l' => y <- f x ;; ys <- mmap f l' ;; ret (y :: ys)
  end.

Fixpoint mfold {A B : Type} (f : B -> A -> M B) (l : list A) (acc : B) : M B :=
  match l with
  | [] => ret acc
  | x :: l' => acc' <- f acc x ;; mfold f l' acc'
  end.

(** *** Objects *)

Definition alloc (o : obj) : M addr :=
  fun h => (Ok (List.length h), h ++ [o]).

Definition load (a : addr) : M obj :=
  fun h =>
    match nth_error h a with
    | Some o => (Ok o, h)
    | None => (Raise TypeError, h)
    end.

Definition store (a : addr) (o : obj) : M unit :=
  fun h =>
    if (a <? List.length h)%nat
    then (Ok tt, firstn a h ++ o :: skipn (S a) h)
    else (Raise TypeError, h).

Definition get_list (a : addr) : M (list Scalar) :=
  o <- load a ;;
  match o with OList l => ret l | _ => raise TypeError end.

Definition get_names (a : addr) : M (list string) :=
  o <- load a ;;
  match o with ONames l => ret l | _ => raise TypeError end.

Definition get_dict (a : addr) : M (dict string addr) :=
  o <- load a ;;
  match o with ODict es => ret es | _ => raise TypeError end.

(** [t.data] and [t.columns]. *)
Definition data_of (t : addr) : M addr :=
  o <- load t ;;
  match o with OFrame d _ => ret d | _ => raise TypeError end.

Definition columns_of (t : addr) : M addr :=
  o <- load t ;;
  match o with OFrame _ c => ret c | _ => raise TypeError end.

(** [l.append(v)] on a column and on a list of names. *)
Definition list_append (a : addr) (v : Scalar) : M unit :=
  l <- get_list a ;; store a (OList (l ++ [v])).

Definition names_append (a : addr) (x : string) : M unit :=
  l <- get_names a ;; store a (ONames (l ++ [x])).

(** [d[k]] and [d[k] = a] on a dictionary of columns. *)
Definition dict_getitem (d : addr) (k : string) : M addr :=
  es <- get_dict d ;; lift (getitem es k).

Definition dict_setitem (d : addr) (k : string) (a : addr) : M unit :=
  es <- get_dict d ;; store d (ODict (dict_set es k a)).

(** [t.columns = c]. *)
Definition set_columns (t : addr) (c : addr) : M unit :=
  d <- data_of t ;; store t (OFrame d c).

(** [list(x)] and a list display. *)
Definition copy_list (a : addr) : M addr :=
  l <- get_list a ;; alloc (OList l).

Definition new_list (l : list Scalar) : M addr := alloc (OList l).

(** [{col: f(col) for col in names}] and
    [{col: f(col, values) for col, values in entries}]. *)
Definition dict_comp (names : list string) (f : string -> M addr) : M addr :=
  d <- alloc (ODict []) ;;
  mfor names (fun col => a <- f col ;; dict_setitem d col a) ;;
  ret d.

Definition dict_comp_items (entries : dict string addr)
    (f : string -> addr -> M addr) : M addr :=
  d <- alloc (ODict []) ;;
  mfor entries (fun e => a <- f (fst e) (snd e) ;; dict_setitem d (fst e) a) ;;
  ret d.

(** The names in [t.columns] and the items of [t.data], as the loops of the
    methods see them. *)
Definition column_names (t : addr) : M (list string) :=
  c <- columns_of t ;; get_names c.

Definition data_items (t : addr) : M (dict string addr) :=
  d <- data_of t ;; get_dict d.

(** [DataFrame(data)] for a dictionary of columns. *)
Definition DataFrame_init (d : addr) : M addr :=
  entries <- get_dict d ;;
  data <- dict_comp_items entries (fun _ values => copy_list values) ;;
  columns <- alloc (ONames (dict_keys entries)) ;;
  entries' <- get_dict data ;;
  lengths <- mmap (fun e : string * addr =>
                     l <- get_list (snd e) ;; ret (List.length l))
                  entries' ;;
  match entries' with
  | [] => alloc (OFrame data columns)
  | _ :: _ =>
      if (1 <? count_distinct lengths)%nat then raise ValueError
      else alloc (OFrame data columns)
  end.

(** [len(t)]. *)
Definition len (t : addr) : M nat :=
  entries <- data_items t ;;
  match entries with
  | [] => ret 0
  | (_, a) :: _ => l <- get_list a ;; ret (List.length l)
  end.

(** [t.data[col]] and [t.data[col][i]]. *)
Definition column_of (t : addr) (col : string) : M addr :=
  d <- data_of t ;; dict_getitem d col.

Definition cell (t : addr) (col : string) (i : nat) : M Scalar :=
  a <- column_of t col ;; l <- get_list a ;; lift (list_item l i).

(** [values[:n]] and [values[start:]] for an integer bound. *)
Definition slice_to {A : Type} (l : list A) (n : Z) : list A :=
  if (0 <=? n)%Z then firstn (Z.to_nat n) l
  else firstn (List.length l - Z.to_nat (- n)) l.

Definition slice_from {A : Type} (l : list A) (start : Z) : list A :=
  if (0 <=? start)%Z then skipn (Z.to_nat start) l
  else skipn (List.length l - Z.to_nat (- start)) l.

(** [self.head(n)] and [self.tail(n)]. *)
Definition head (self : addr) (n : Z) : M addr :=
  entries <- data_items self ;;
  new_data <- dict_comp_items entries
                (fun _ values => l <- get_list values ;; new_list (slice_to l n)) ;;
  DataFrame_init new_data.

Definition tail (self : addr) (n : Z) : M addr :=
  entries <- data_items self ;;
  new_data <- dict_comp_items entries
                (fun _ values =>
                   l <- get_list values ;; new_list (slice_from l (- n))) ;;
  DataFrame_init new_data.

(** [self.filter(condition)]; the condition is a function of the row
    dictionary and does not touch the store. *)
Definition filter (self : addr)
    (condition : dict string Scalar -> result bool) : M addr :=
  names <- column_names self ;;
  filtered_data <- dict_comp names (fun _ => new_list []) ;;
  n <- len self ;;
  mfor (seq 0 n)
         (fun i =>
            row <- mmap (fun col => v <- cell self col i ;; ret (col, v)) names ;;
            keep <- lift (condition (dict_of_list row)) ;;
            if keep : bool then
              mfor names
                (fun col =>
                   target <- dict_getitem filtered_data col ;;
                   v <- cell self col i ;;
                   list_append target v)
            else ret tt) ;;
  DataFrame_init filtered_data.

(** [self.filter_by_value(column, value)]. *)
Definition filter_by_value (self : addr) (column : string) (value : Scalar)
  : M addr :=
  names <- column_names self ;;
  if negb (name_in column names) then raise KeyError
  else filter self (fun row => do v <- getitem row column; Ok (py_eq v value)).

(** [self.select(columns)] and [self.drop(columns)] for lists of names. *)
Definition select (self : addr) (columns : list string) : M addr :=
  names <- column_names self ;;
  if negb (forallb (fun col => name_in col names) columns) then raise KeyError
  else
    new_data <- dict_comp columns
                  (fun col => a <- column_of self col ;; copy_list a) ;;
    DataFrame_init new_data.

Definition drop (self : addr) (columns : list string) : M addr :=
  names <- column_names self ;;
  let remaining_cols :=
    List.filter (fun col => negb (name_in col columns)) names in
  select self remaining_cols.

(** [{col: list(self.data[col]) for col in self.columns}], the first line of
    the column transforms. *)
Definition copy_data (self : addr) : M addr :=
  names <- column_names self ;;
  dict_comp names (fun col => a <- column_of self col ;; copy_list a).

(** [self.sort(by, ascending)]. *)
Definition sort (self : addr) (by_ : list string) (ascending : bool) : M addr :=
  names <- column_names self ;;
  if negb (forallb (fun col => name_in col names) by_) then raise KeyError
  else
    n <- len self ;;
    keys <- mmap (fun idx => mmap (fun col => cell self col idx) by_)
              (seq 0 n) ;;
    sorted_indices <- lift (sort_keyed tuple_lt (combine keys (seq 0 n))
                              (negb ascending)) ;;
    new_data <- dict_comp names
                  (fun col =>
                     l <- mmap (fun idx => cell self col idx) sorted_indices ;;
                     new_list l) ;;
    DataFrame_init new_data.

(** [self.add_column(column_name, values)]; [values] is a list object of
    the caller. *)
Definition add_column (self : addr) (column_name : string) (values : addr)
  : M addr :=
  l <- get_list values ;;
  n <- len self ;;
  if negb (List.length l =? n)%nat then raise ValueError
  else
    new_data <- copy_data self ;;
    a <- copy_list values ;;
    dict_setitem new_data column_name a ;;
    DataFrame_init new_data.

(** [self.rename_columns(mapping)]. *)
Definition rename_columns (self : addr) (mapping : dict string string)
  : M addr :=
  new_data <- alloc (ODict []) ;;
  new_columns <- alloc (ONames []) ;;
  names <- column_names self ;;
  mfor names
         (fun col =>
            let new_col_name :=
              match dict_get mapping col with Some n => n | None => col end in
            a <- column_of self col ;;
            a' <- copy_list a ;;
            dict_setitem new_data new_col_name a' ;;
            names_append new_columns new_col_name) ;;
  result <- DataFrame_init new_data ;;
  set_columns result new_columns ;;
  ret result.

(** The three column transforms end alike: the list under [column] in
    [new_data] is replaced by the list of the converted values. *)
Definition map_column (self : addr) (column : string)
    (f : Scalar -> result Scalar) : M addr :=
  names <- column_names self ;;
  if negb (name_in column names) then raise KeyError
  else
    new_data <- copy_data self ;;
    a <- dict_getitem new_data column ;;
    l <- get_list a ;;
    l' <- lift (mapM f l) ;;
    a' <- new_list l' ;;
    dict_setitem new_data column a' ;;
    DataFrame_init new_data.

(** [self.fillna_column(column, value)]. *)
Definition fillna_column (self : addr) (column : string) (value : Scalar)
  : M addr :=
  map_column self column (fun v => Ok (if is_valid v then v else value)).

(** [self.convert_column_type(column, target_type)]: [target_type] is the
    callable; its [ValueError] and [TypeError] are caught. *)
Definition convert_value (target_type : Scalar -> result Scalar) (v : Scalar)
  : result Scalar :=
  if is_valid v then
    match target_type v with
    | Raise ValueError | Raise TypeError => Ok v
    | r => r
    end
  else Ok Null.

Definition convert_column_type (self : addr) (column : string)
    (target_type : Scalar -> result Scalar) : M addr :=
  map_column self column (convert_value target_type).

(** [self.round_column(column, decimals)]; the builtin [round] is the
    parameter [py_round]. *)
Definition round_value (py_round : Scalar -> Z -> result Scalar)
    (decimals : Z) (v : Scalar) : result Scalar :=
  match v with
  | Int _ | Float _ => py_round v decimals
  | _ => Ok v
  end.

Definition round_column (py_round : Scalar -> Z -> result Scalar)
    (self : addr) (column : string) (decimals : Z) : M addr :=
  map_column self column (round_value py_round decimals).

(** [self.join(other, on, left_on, right_on, how)]. *)
Definition build_right_index (other : addr) (right_key : string)
  : M (dict Scalar (list nat)) :=
  n <- len other ;;
  mfold (fun index i =>
           key_value <- cell other right_key i ;;
           ret (index_add index key_value i))
        (seq 0 n) [].

Definition join_result_columns (self other : addr) (right_key : string)
  : M addr :=
  names <- column_names self ;;
  result_columns <- alloc (ONames names) ;;
  other_names <- column_names other ;;
  mfor other_names
    (fun col =>
       current <- get_names result_columns ;;
       if negb (name_in col current) then names_append result_columns col
       else if negb (col =? right_key)
            then names_append result_columns (right_name col)
            else ret tt) ;;
  ret result_columns.

Definition append_left (self : addr) (value : string -> M Scalar)
    (result_data : addr) : M unit :=
  names <- column_names self ;;
  mfor names
    (fun col =>
       target <- dict_getitem result_data col ;;
       v <- value col ;;
       list_append target v).

Definition append_right (self other : addr) (right_key : string)
    (value : string -> M Scalar) (result_data : addr) : M unit :=
  names <- column_names self ;;
  other_names <- column_names other ;;
  mfor other_names
    (fun col =>
       if (col =? right_key) && name_in col names then ret tt
       else
         let result_col :=
           if name_in col names && negb (col =? right_key)
           then right_name col else col in
         target <- dict_getitem result_data result_col ;;
         v <- value col ;;
         list_append target v).

Definition join_left_row (self other : addr) (left_key right_key how : string)
    (right_index : dict Scalar (list nat)) (result_data : addr)
    (matched_right_rows : list nat) (i : nat) : M (list nat) :=
  left_key_value <- cell self left_key i ;;
  match dict_get right_index left_key_value with
  | Some js =>
      mfold (fun matched j =>
               let matched' := if existsb (Nat.eqb j) matched then matched
                               else matched ++ [j] in
               append_left self (fun col => cell self col i) result_data ;;
               append_right self other right_key
                 (fun col => cell other col j) result_data ;;
               ret matched')
            js matched_right_rows
  | None =>
      if how_in how ["left"; "outer"] then
        append_left self (fun col => cell self col i) result_data ;;
        append_right self other right_key (fun _ => ret Null) result_data ;;
        ret matched_right_rows
      else ret matched_right_rows
  end.

Definition join_right_row (self other : addr) (left_key right_key : string)
    (matched_right_rows : list nat) (result_data : addr) (j : nat) : M unit :=
  if existsb (Nat.eqb j) matched_right_rows then ret tt
  else
    append_left self
      (fun col => if col =? left_key then cell other right_key j else ret Null)
      result_data ;;
    append_right self other right_key (fun col => cell other col j) result_data.

Definition join (self other : addr) (on left_on right_on : option string)
    (how : string) : M addr :=
  keys <- lift (match on, left_on, right_on with
                | Some k, _, _ => Ok (k, k)
                | None, Some l, Some r => Ok (l, r)
                | _, _, _ => Raise ValueError
                end) ;;
  let left_key := fst keys in
  let right_key := snd keys in
  names <- column_names self ;;
  other_names <- column_names other ;;
  if negb (name_in left_key names) then raise KeyError
  else if negb (name_in right_key other_names) then raise KeyError
  else
    right_index <- build_right_index other right_key ;;
    result_columns <- join_result_columns self other right_key ;;
    result_names <- get_names result_columns ;;
    result_data <- dict_comp result_names (fun _ => new_list []) ;;
    n <- len self ;;
    matched_right_rows <-
      mfold (join_left_row self other left_key right_key how right_index
               result_data)
            (seq 0 n) [] ;;
    (if how_in how ["right"; "outer"] then
       m <- len other ;;
       mfor (seq 0 m)
         (join_right_row self other left_key right_key matched_right_rows
            result_data)
     else ret tt) ;;
    DataFrame_init result_data.

(** [self.groupby(by)] and [GroupBy.agg(aggregations)]. *)
Record GroupBy : Type := mkGroupBy {
  df : addr;
  by_ : list string;
  _groups : dict (list Scalar) (list nat)
}.

Definition _create_groups (dataframe : addr) (by_ : list string)
  : M (dict (list Scalar) (list nat)) :=
  n <- len dataframe ;;
  mfold (fun groups i =>
           key_values <- mmap (fun col => cell dataframe col i) by_ ;;
           ret (index_add groups key_values i))
        (seq 0 n) [].

Definition groupby (self : addr) (by_ : list string) : M GroupBy :=
  names <- column_names self ;;
  if negb (forallb (fun col => name_in col names) by_) then raise KeyError
  else groups <- _create_groups self by_ ;; ret (mkGroupBy self by_ groups).

Definition agg (self : GroupBy) (aggregations : dict string string) : M addr :=
  result_data <- dict_comp (by_ self) (fun _ => new_list []) ;;
  mfor (dict_keys aggregations)
    (fun col =>
       if negb (name_in col (by_ self))
       then a <- new_list [] ;; dict_setitem result_data col a
       else ret tt) ;;
  mfor (_groups self)
    (fun g =>
       let key_values := fst g in
       let indices := snd g in
       mfor (combine (seq 0 (List.length (by_ self))) (by_ self))
         (fun ic =>
            target <- dict_getitem result_data (snd ic) ;;
            v <- lift (list_item key_values (fst ic)) ;;
            list_append target v) ;;
       mfor aggregations
         (fun cf =>
            let col := fst cf in
            let func_name := snd cf in
            if name_in col (by_ self) then ret tt
            else
              values <- mmap (fun i => cell (df self) col i) indices ;;
              v <- lift (agg_value func_name values) ;;
              target <- dict_getitem result_data col ;;
              list_append target v)) ;;
  DataFrame_init result_data.

Definition groupby_agg (self : addr) (by_ : list string)
    (aggregations : dict string string) : M addr :=
  g <- groupby self by_ ;; agg g aggregations.

(** *** What a computation may change

    [fresh n o]: the object [o] refers only to objects at addresses from
    [n] on.  [closed n h]: every object of [h] at an address from [n] on is
    such an object.  [keeps n m post]: run in a store of at least [n]
    objects that is closed from [n] on, [m] leaves the first [n] objects as
    they are, leaves the store closed, and a value it returns satisfies
    [post]. *)
Definition fresh (n : nat) (o : obj) : Prop :=
  match o with
  | OList _ | ONames _ => True
  | ODict es => Forall (fun e : string * addr => n <= snd e) es
  | OFrame d c => n <= d /\ n <= c
  end.

Definition fresh_entries (n : nat) (es : dict string addr) : Prop :=
  Forall (fun e : string * addr => n <= snd e) es.

Definition closed (n : nat) (h : heap) : Prop :=
  forall a o, n <= a -> nth_error h a = Some o -> fresh n o.

Definition keeps {A : Type} (n : nat) (m : M A) (post : A -> Prop) : Prop :=
  forall h, n <= List.length h -> closed n h ->
    firstn n (snd (m h)) = firstn n h /\
    n <= List.length (snd (m h)) /\
    closed n (snd (m h)) /\
    (forall x, fst (m h) = Ok x -> post x).

(** The transforms of a table, with their arguments, and the call of a
    transform on the table at [self]. *)
Inductive transform : Type :=
| Select (columns : list string)
| Drop (columns : list string)
| Filter (condition : dict string Scalar -> result bool)
| FilterByValue (column : string) (value : Scalar)
| Sort (by_ : list string) (ascending : bool)
| AddColumn (column_name : string) (values : addr)
| RenameColumns (mapping : dict string string)
| FillnaColumn (column : string) (value : Scalar)
| ConvertColumnType (column : string) (target_type : Scalar -> result Scalar)
| RoundColumn (py_round : Scalar -> Z -> result Scalar) (column : string)
    (decimals : Z)
| Head (n : Z)
| Tail (n : Z)
| Join (other : addr) (on left_on right_on : option string) (how : string)
| JoinWith (other : addr) (on left_on right_on : option string) (how : string)
| GroupByAgg (by_ : list string) (aggregations : dict string string).

Definition call (op : transform) (self : addr) : M addr :=
  match op with
  | Select columns => select self columns
  | Drop columns => drop self columns
  | Filter condition => filter self condition
  | FilterByValue column value => filter_by_value self column value
  | Sort by_ ascending => sort self by_ ascending
  | AddColumn column_name values => add_column self column_name values
  | RenameColumns mapping => rename_columns self mapping
  | FillnaColumn column value => fillna_column self column value
  | ConvertColumnType column target_type =>
      convert_column_type self column target_type
  | RoundColumn py_round column decimals =>
      round_column py_round self column decimals
  | Head n => head self n
  | Tail n => tail self n
  | Join other on left_on right_on how =>
      join self other on left_on right_on how
  | JoinWith other on left_on right_on how =>
      join other self on left_on right_on how
  | GroupByAgg by_ aggregations => groupby_agg self by_ aggregations
  end.

(** The objects that make up the table at [t]: its name list and its
    columns, read from the store. *)
Definition table_of (h : heap) (t : addr)
  : result (list string * dict string (list Scalar)) :=
  fst ((names <- column_names t ;;
        entries <- data_items t ;;
        cols <- mmap (fun e : string * addr =>
                        l <- get_list (snd e) ;; ret (fst e, l))
                     entries ;;
        ret (names, cols)) h).

(** A computation that only reads: when it returns a value it leaves the
    store as it was, and it returns the same value in every store that
    extends this one. *)
Definition reads {A : Type} (m : M A) : Prop :=
  forall h x h1, m h = (Ok x, h1) ->
    h1 = h /\ forall ext, m (h ++ ext) = (Ok x, h ++ ext).

End Store.

(** ** Definitions used to state the properties *)

(** A field written between quotes: every quote of [body] is doubled. *)
Fixpoint escape_quotes (body : string) : string :=
  match body with
  | EmptyString => EmptyString
  | String c body' =>
      if Ascii.eqb c quote_char
      then String quote_char (String quote_char (escape_quotes body'))
      else String c (escape_quotes body')
  end.

Definition quoted (body : string) : string :=
  String quote_char (escape_quotes body ++ String quote_char EmptyString).

(** The number of quotes in [s]: the quotes of a text are closed when it
    is even. *)
Fixpoint quotes_in (s : string) : nat :=
  match s with
  | EmptyString => 0
  | String c s' => (if Ascii.eqb c quote_char then 1 else 0) + quotes_in s'
  end.

Definition starts_with (c : ascii) (s : string) : bool :=
  match s with
  | String c' _ => Ascii.eqb c' c
  | EmptyString => false
  end.

(** The fields of a record joined by the separator. *)
Definition join_fields (separator : ascii) (fields : list string) : string :=
  String.concat (String separator EmptyString) fields.

(** [cur] put in front of the first field. *)
Definition prepend_field (cur : string) (fields : list string) : list string :=
  match fields with
  | f :: fs => (cur ++ f)%string :: fs
  | [] => []
  end.

(** The shape [infer_type] takes for a number: a first character that is a
    digit, or a minus sign followed by a digit. *)
Definition begins_numeric (value : string) : Prop :=
  exists c rest,
    value = String c rest /\
    (isdigit c = true \/
     (c = minus_char /\ exists c1 rest', rest = String c1 rest' /\
                                         isdigit c1 = true)).

(** A table as the constructor builds it: the names are the keys of [data]
    in order, no name occurs twice, and all columns have the length
    [len]. *)
Definition well_formed (t : DataFrame) : Prop :=
  columns t = dict_keys (data t) /\
  NoDup (dict_keys (data t)) /\
  Forall (fun values : column => List.length values = len t)
         (dict_values (data t)).

(** A line of text holds no line feed and no carriage return. *)
Definition one_line (l : string) : Prop :=
  contains newline_char l = false /\ contains return_char l = false.

(** A file of lines, each ended by a line feed. *)
Definition file_of_lines (lines : list string) : string :=
  String.concat EmptyString
    (map (fun l => (l ++ String newline_char EmptyString)%string) lines).

(** The only column of a one-column table. *)
Definition single_column (name : string) (values : column) : DataFrame :=
  mkDataFrame [(name, values)] [name].

(** The values stored under a name ([[]] when the name is absent), the
    value at a row, the key tuple of a row and the row itself. *)
Definition column_values (t : DataFrame) (col : string) : column :=
  match dict_get (data t) col with
  | Some values => values
  | None => []
  end.

Definition value_at (t : DataFrame) (col : string) (i : nat) : Scalar :=
  nth i (column_values t col) Null.

Definition key_at (t : DataFrame) (by_ : list string) (i : nat) : list Scalar :=
  map (fun col => value_at t col i) by_.

Definition row_at (t : DataFrame) (i : nat) : list Scalar :=
  key_at t (columns t) i.

Definition rows (t : DataFrame) : list (list Scalar) :=
  map (row_at t) (seq 0 (len t)).

(** Two key tuples are comparable when [<] orders them one way or the
    other, or they are equal. *)
Definition comparable (a b : list Scalar) : Prop :=
  tuple_lt a b = Ok true \/ tuple_lt b a = Ok true \/ tuple_eq a b = true.

(** The table whose rows are the rows of [t] taken in the order [idxs]. *)
Definition reorder (t : DataFrame) (idxs : list nat) : DataFrame :=
  mkDataFrame
    (map (fun kv : string * column =>
            (fst kv, map (fun i => nth i (snd kv) Null) idxs))
         (data t))
    (columns t).

(** Keyed items [(key, position in the input)] in the output of a stable
    sort.  [ordered]: [x] may stand before [y], because its key is smaller,
    or the keys are equal and [x] comes before [y] in the input.
    [earlier]: [y] was in the input before [x], and their keys can be
    compared. *)
Section SortOrder.
Context {K : Type} (lt : K -> K -> result bool) (eqk : K -> K -> bool).
Context (before : nat -> nat -> Prop).

Definition ordered (x y : K * nat) : Prop :=
  lt (fst x) (fst y) = Ok true \/
  (eqk (fst x) (fst y) = true /\ before (snd x) (snd y)).

Definition orderable (a b : K) : Prop :=
  lt a b = Ok true \/ lt b a = Ok true \/ eqk a b = true.

Definition earlier (y x : K * nat) : Prop :=
  orderable (fst x) (fst y) /\ before (snd y) (snd x).
End SortOrder.

(** The order of the output of [sort]: for the rows at [i] and [j], with
    [i] first, the key of [i] is the smaller one (the larger one when
    descending), or the keys are equal and [i] is the earlier row. *)
Definition sort_order (t : DataFrame) (by_ : list string) (ascending : bool)
    (i j : nat) : Prop :=
  (if ascending
   then tuple_lt (key_at t by_ i) (key_at t by_ j) = Ok true
   else tuple_lt (key_at t by_ j) (key_at t by_ i) = Ok true) \/
  (tuple_eq (key_at t by_ i) (key_at t by_ j) = true /\ i < j).

(** Grouping rows by key.  [ks] lists the key of every row.  Row [i] is a
    first occurrence when no earlier row has an equal key; the group of a
    first occurrence is the row itself and the later rows with an equal
    key; [first_seen_groups] lists the groups in the order of their first
    rows. *)
Section FirstSeen.
Context {K : Type} `{KeyEq K} (d : K).

Definition is_first (ks : list K) (i : nat) : bool :=
  negb (existsb (fun j => key_eqb (nth j ks d) (nth i ks d)) (seq 0 i)).

Definition first_rows (ks : list K) : list nat :=
  filter (is_first ks) (seq 0 (List.length ks)).

Definition group_of (ks : list K) (i : nat) : K * list nat :=
  (nth i ks d,
   i :: filter (fun j => key_eqb (nth i ks d) (nth j ks d))
          (seq (S i) (List.length ks - S i))).

Definition first_seen_groups (ks : list K) : dict K (list nat) :=
  map (group_of ks) (first_rows ks).

(** The rows whose key equals [k], in order. *)
Definition matching_rows (ks : list K) (k : K) : list nat :=
  filter (fun j => key_eqb (nth j ks d) k) (seq 0 (List.length ks)).

(** What one more row, [n] with key [k], does to a group. *)
Definition add_row (k : K) (n : nat) (e : K * list nat) : K * list nat :=
  (fst e, snd e ++ (if key_eqb (fst e) k then [n] else [])).

(** The index built by scanning the rows top to bottom. *)
Definition scan_index (ks : list K) : dict K (list nat) :=
  fold_left (fun index ik => index_add index (snd ik) (fst ik))
            (combine (seq 0 (List.length ks)) ks) [].
End FirstSeen.

(** Tables built row by row.  [append_cells d vs] appends to each column
    of [d], in order, the value at the same position in [vs];
    [table_of_rows names rws] is the dictionary of columns named [names]
    whose rows are [rws]. *)
Definition append_cells (d : dict string column) (vs : list Scalar)
  : dict string column :=
  map (fun ev : (string * column) * Scalar =>
         (fst (fst ev), snd (fst ev) ++ [snd ev]))
      (combine d vs).

Definition table_of_rows (names : list string) (rws : list (list Scalar))
  : dict string column :=
  fold_left append_cells rws (map (fun col => (col, [])) names).

(** The values of column [col] at the rows [indices]. *)
Definition values_at (t : DataFrame) (col : string) (indices : list nat)
  : column :=
  map (value_at t col) indices.

(** The aggregated columns of [agg]: those of [aggregations] that are not
    grouping columns. *)
Definition aggregated (by_ : list string) (aggregations : dict string string)
  : dict string string :=
  filter (fun cf : string * string => negb (name_in (fst cf) by_))
         aggregations.

(** The keys of the rows of [t] for the grouping columns [by_], and the
    groups of [t] in first-seen order. *)
Definition row_keys (t : DataFrame) (by_ : list string) : list (list Scalar) :=
  map (key_at t by_) (seq 0 (len t)).

Definition groups_of (t : DataFrame) (by_ : list string)
  : dict (list Scalar) (list nat) :=
  first_seen_groups [] (row_keys t by_).

(** The cell [agg] appends for a function name and the values of a group
    ([Null] stands in when the aggregation raises), and the row it appends
    for a group: the key of the group, then one cell for each aggregated
    column. *)
Definition agg_cell (func_name : string) (values : column) : Scalar :=
  match agg_value func_name values with
  | Ok v => v
  | Raise _ => Null
  end.

Definition group_row (t : DataFrame) (by_ : list string)
    (aggregations : dict string string) (g : list Scalar * list nat)
  : list Scalar :=
  fst g ++
  map (fun cf : string * string =>
         agg_cell (snd cf) (values_at t (fst cf) (snd g)))
      (aggregated by_ aggregations).

(** The names of the result of [agg]. *)
Definition agg_columns (by_ : list string) (aggregations : dict string string)
  : list string :=
  by_ ++ dict_keys (aggregated by_ aggregations).

(** The result of [join].  [right_columns]: the columns of the right table
    that go to the result (the right key is left out when the left table
    has a column of that name); [right_names]: the names they get;
    [join_columns]: the names of the result. *)
Definition right_columns (self other : DataFrame) (right_key : string)
  : list string :=
  filter (fun col => negb ((col =? right_key) && name_in col (columns self)))
         (columns other).

Definition right_names (self other : DataFrame) (right_key : string)
  : list string :=
  map (fun col => if name_in col (columns self) && negb (col =? right_key)
                  then right_name col else col)
      (right_columns self other right_key).

Definition join_columns (self other : DataFrame) (right_key : string)
  : list string :=
  columns self ++ right_names self other right_key.

(** The right rows whose key equals the key of the left row [i]. *)
Definition matches (self other : DataFrame) (left_key right_key : string)
    (i : nat) : list nat :=
  matching_rows Null (column_values other right_key)
    (value_at self left_key i).

Definition right_values (self other : DataFrame) (right_key : string)
    (j : nat) : list Scalar :=
  map (fun col => value_at other col j) (right_columns self other right_key).

Definition null_values (self other : DataFrame) (right_key : string)
  : list Scalar :=
  map (fun _ => Null) (right_columns self other right_key).

(** The rows the left-driven pass emits for the left row [i]: one for each
    matching right row; when there is none, one row with Null on the right
    for the kinds [left] and [outer], and no row otherwise. *)
Definition left_row_output (self other : DataFrame)
    (left_key right_key how : string) (i : nat) : list (list Scalar) :=
  match matches self other left_key right_key i with
  | [] =>
      if how_in how ["left"; "outer"]
      then [row_at self i ++ null_values self other right_key]
      else []
  | js => map (fun j => row_at self i ++ right_values self other right_key j) js
  end.

Definition left_pass_rows (self other : DataFrame)
    (left_key right_key how : string) : list (list Scalar) :=
  flat_map (left_row_output self other left_key right_key how)
           (seq 0 (len self)).

(** The right rows that some left row matches, and the rows the second
    pass emits for the others under the kinds [right] and [outer]. *)
Definition matched_rows (self other : DataFrame) (left_key right_key : string)
  : list nat :=
  flat_map (matches self other left_key right_key) (seq 0 (len self)).

Definition unmatched_row (self other : DataFrame)
    (left_key right_key : string) (j : nat) : list Scalar :=
  map (fun col => if col =? left_key then value_at other right_key j else Null)
      (columns self) ++
  right_values self other right_key j.

Definition right_pass_rows (self other : DataFrame)
    (left_key right_key how : string) : list (list Scalar) :=
  if how_in how ["right"; "outer"] then
    map (unmatched_row self other left_key right_key)
        (filter (fun j => negb (existsb (Nat.eqb j)
                                  (matched_rows self other left_key right_key)))
                (seq 0 (len other)))
  else [].

Definition join_rows (self other : DataFrame)
    (left_key right_key how : string) : list (list Scalar) :=
  left_pass_rows self other left_key right_key how ++
  right_pass_rows self other left_key right_key how.

(** Two lists of row numbers with the same members. *)
Definition same_members (a b : list nat) : Prop :=
  forall j, existsb (Nat.eqb j) a = existsb (Nat.eqb j) b.

(** ** The other methods of [DataFrame] and [GroupBy], [describe], and
    [to_dict_records] of [backend/services/utils.py]

    They are kept in a module of their own: [filter] and [drop] are the
    names of the methods. *)

Module Table.

(** [DataFrame(data)] for a list of row dictionaries: the empty list is
    refused; the names are the keys of the first row, and a row that lacks
    a name gives [None] ([row.get(col, None)]). *)
Definition DataFrame_init_records (records : list (dict string Scalar))
  : result DataFrame :=
  match records with
  | [] => Raise ValueError
  | first :: _ =>
      let columns := dict_keys first in
      let data0 : dict string column :=
        dict_of_list (map (fun col => (col, [])) columns) in
      do data <-
        foldM (fun d (row : dict string Scalar) =>
                 foldM (fun d col =>
                          dict_append d col
                            (match dict_get row col with
                             | Some v => v
                             | None => Null
                             end))
                       columns d)
              records data0;
      match data with
      | [] => Ok (mkDataFrame data columns)
      | _ :: _ =>
          let lengths := map (@List.length Scalar) (dict_values data) in
          if (1 <? count_distinct lengths)%nat then Raise ValueError
          else Ok (mkDataFrame data columns)
      end
  end.

(** [self[key]] for a column name. *)
Definition getitem_column (self : DataFrame) (key : string) : result column :=
  if negb (dict_mem (data self) key) then Raise KeyError
  else getitem (data self) key.

(** [self.head(n)] and [self.tail(n)]: the slices [values[:n]] and
    [values[-n:]] of every column. *)
Definition head (self : DataFrame) (n : Z) : result DataFrame :=
  DataFrame_init
    (dict_of_list
       (map (fun kv : string * column => (fst kv, Store.slice_to (snd kv) n))
            (data self))).

Definition tail (self : DataFrame) (n : Z) : result DataFrame :=
  DataFrame_init
    (dict_of_list
       (map (fun kv : string * column =>
               (fst kv, Store.slice_from (snd kv) (- n)%Z))
            (data self))).

(** [self.shape()]. *)
Definition shape (self : DataFrame) : nat * nat :=
  (len self, List.length (columns self)).

(** [self.copy()]. *)
Definition copy (self : DataFrame) : result DataFrame :=
  DataFrame_init
    (dict_of_list
       (map (fun kv : string * column => (fst kv, snd kv)) (data self))).

(** [self.filter(condition)]: [condition] is the callable; it gets the row
    as a dictionary and its result is taken as a truth value. *)
Definition filter (self : DataFrame)
    (condition : dict string Scalar -> result bool) : result DataFrame :=
  let filtered_data0 : dict string column :=
    dict_of_list (map (fun col => (col, [])) (columns self)) in
  do filtered_data <-
    foldM (fun fd i =>
             do row <- dict_comprehension (columns self)
                         (fun col => cell self col i);
             do keep <- condition row;
             if keep then
               foldM (fun fd col => do v <- cell self col i;
                                    dict_append fd col v)
                     (columns self) fd
             else Ok fd)
          (seq 0 (len self)) filtered_data0;
  DataFrame_init filtered_data.

(** [self.filter_by_value(column, value)]. *)
Definition filter_by_value (self : DataFrame) (column : string)
    (value : Scalar) : result DataFrame :=
  if negb (name_in column (columns self)) then Raise KeyError
  else filter self (fun row => do v <- getitem row column;
                               Ok (py_eq v value)).

(** [self.select(columns)] and [self.drop(columns)] for a list of names. *)
Definition select (self : DataFrame) (cols : list string) : result DataFrame :=
  if negb (forallb (fun col => name_in col (columns self)) cols)
  then Raise KeyError
  else
    do new_data <- dict_comprehension cols
                     (fun col => getitem (data self) col);
    DataFrame_init new_data.

Definition drop (self : DataFrame) (cols : list string) : result DataFrame :=
  select self
    (List.filter (fun col => negb (name_in col cols)) (columns self)).

(** [self.fillna_column(column, value)]. *)
Definition fillna_column (self : DataFrame) (column : string) (value : Scalar)
  : result DataFrame :=
  if negb (name_in column (columns self)) then Raise KeyError
  else
    do new_data <- dict_comprehension (columns self)
                     (fun col => getitem (data self) col);
    do values <- getitem new_data column;
    DataFrame_init
      (dict_set new_data column
         (map (fun v => if is_valid v then v else value) values)).

(** [self.convert_column_type(column, target_type)]: [target_type] is the
    callable; a [ValueError] or [TypeError] it raises keeps the value, any
    other exception escapes. *)
Definition convert_column_type (self : DataFrame) (column : string)
    (target_type : Scalar -> result Scalar) : result DataFrame :=
  if negb (name_in column (columns self)) then Raise KeyError
  else
    do new_data <- dict_comprehension (columns self)
                     (fun col => getitem (data self) col);
    do values <- getitem new_data column;
    do converted <- mapM (Store.convert_value target_type) values;
    DataFrame_init (dict_set new_data column converted).

(** [self.round_column(column, decimals)]; the builtin [round] is the
    parameter [py_round]. *)
Definition round_column (py_round : Scalar -> Z -> result Scalar)
    (self : DataFrame) (column : string) (decimals : Z) : result DataFrame :=
  if negb (name_in column (columns self)) then Raise KeyError
  else
    do new_data <- dict_comprehension (columns self)
                     (fun col => getitem (data self) col);
    do values <- getitem new_data column;
    do rounded <- mapM (Store.round_value py_round decimals) values;
    DataFrame_init (dict_set new_data column rounded).

(** [GroupBy.count()], and [mean], [min], [max] next to [GroupBy_sum]. *)
Definition GroupBy_count (self : GroupBy) : result DataFrame :=
  let result_data0 : dict string column :=
    dict_of_list (map (fun col => (col, [])) (by_ self)) in
  let result_data1 := dict_set result_data0 "count" [] in
  do result_data <-
    foldM (fun rd (g : list Scalar * list nat) =>
             let (key_values, indices) := g in
             do rd1 <- append_keys (by_ self) key_values rd;
             dict_append rd1 "count" (Int (Z.of_nat (List.length indices))))
          (_groups self) result_data1;
  DataFrame_init result_data.

Definition GroupBy_mean (self : GroupBy) (column : string) : result DataFrame :=
  agg self [(column, "mean")].

Definition GroupBy_min (self : GroupBy) (column : string) : result DataFrame :=
  agg self [(column, "min")].

Definition GroupBy_max (self : GroupBy) (column : string) : result DataFrame :=
  agg self [(column, "max")].

(** [describe(dataframe)]: a dictionary from the names of the columns that
    hold a number to their five statistics. *)
Definition is_number (v : Scalar) : bool :=
  match v with
  | Int _ | Float _ => true
  | _ => false
  end.

Definition describe (dataframe : DataFrame)
  : result (dict string (dict string Scalar)) :=
  foldM (fun stats col =>
           do values <- getitem (data dataframe) col;
           let numeric_values := List.filter is_number values in
           match numeric_values with
           | [] => Ok stats
           | _ :: _ =>
               do total <- py_sum numeric_values;
               do mean <- py_truediv total (List.length numeric_values);
               do lo <- py_min numeric_values;
               do hi <- py_max numeric_values;
               do total' <- py_sum numeric_values;
               Ok (dict_set stats col
                     [("count", Int (Z.of_nat (List.length numeric_values)));
                      ("mean", mean); ("min", lo); ("max", hi);
                      ("sum", total')])
           end)
        (columns dataframe) [].

(** [to_dict_records(df)] of [backend/services/utils.py]. *)
Definition to_dict_records (df : DataFrame)
  : result (list (dict string Scalar)) :=
  if (len df =? 0)%nat then Ok []
  else
    mapM (fun i => dict_comprehension (columns df) (fun col => cell df col i))
         (seq 0 (len df)).

End Table.

(** ** A service: [get_top_cities] of [backend/services/top_cities.py] *)

Module Services.

(** [s.upper()] on ASCII text. *)
Definition upper_char (c : ascii) : ascii :=
  let n := nat_of_ascii c in
  if (97 <=? n)%nat && (n <=? 122)%nat then ascii_of_nat (n - 32) else c.

Fixpoint upper (s : string) : string :=
  match s with
  | EmptyString => EmptyString
  | String c s' => String (upper_char c) (upper s')
  end.

(** [get_top_cities(state, limit)]: [city_summary] is the table
    [load_city_summary()] returns and [py_round] the builtin [round]. *)
Definition get_top_cities (py_round : Scalar -> Z -> result Scalar)
    (city_summary : DataFrame) (state : string) (limit : Z)
  : result (list (dict string Scalar)) :=
  do df <- Table.filter_by_value city_summary "State" (Text (upper state));
  if (len df =? 0)%nat then Ok []
  else
    do df <- sort df ["total_accidents"] false;
    do df <- Table.head df limit;
    do df <- Table.round_column py_round df "avg_severity" 2;
    do df <- rename_columns df [("City", "city"); ("State", "state")];
    do df <- Table.select df
               ["city"; "state"; "total_accidents"; "avg_severity"];
    Table.to_dict_records df.

End Services.

(** The row [i] of [t] as the dictionary [filter] and [to_dict_records]
    build, and the table whose columns are the columns of [t] mapped by
    [f]. *)
Definition row_dict (t : DataFrame) (i : nat) : dict string Scalar :=
  map (fun col => (col, value_at t col i)) (columns t).

Definition map_columns (f : column -> column) (t : DataFrame) : DataFrame :=
  mkDataFrame (map (fun kv : string * column => (fst kv, f (snd kv))) (data t))
    (columns t).

(** The name [rename_columns] gives to a column. *)
Definition renamed (mapping : dict string string) (col : string) : string :=
  match dict_get mapping col with
  | Some new_col_name => new_col_name
  | None => col
  end.

(** What [read_csv] makes of one line of a file with [ncols] columns: no
    row for a blank line or a line with another number of fields, else the
    row of the converted fields; and the rows it keeps under the limit
    [nrows], which is tested after a row is appended. *)
Definition record_of_line (ncols : nat) (separator : ascii)
    (skip_type_inference : bool) (line : string) : list (list Scalar) :=
  match strip line with
  | EmptyString => []
  | String c s =>
      let fields := parse_csv_line (String c s) separator in
      if (List.length fields =? ncols)%nat
      then [map (convert_field skip_type_inference) fields]
      else []
  end.

Definition rows_limit (nrows : option nat) (rws : list (list Scalar))
  : list (list Scalar) :=
  match nrows with
  | None => rws
  | Some n => firstn (Nat.max 1 n) rws
  end.

(** A field as the usual CSV writers write it: between quotes when it holds
    a quote or the separator, as it is otherwise; and a record written
    field by field. *)
Definition written (separator : ascii) (field : string) : string :=
  if contains quote_char field || contains separator field
  then quoted field
  else field.

Definition written_record (separator : ascii) (fields : list string)
  : string :=
  join_fields separator (map (written separator) fields).

(** The record [get_top_cities] returns for the row [i] of the city
    summary; [rounded] is what [round] makes of a number. *)
Definition city_record (rounded : Scalar -> Scalar) (t : DataFrame) (i : nat)
  : dict string Scalar :=
  [("city", value_at t "City" i);
   ("state", value_at t "State" i);
   ("total_accidents", value_at t "total_accidents" i);
   ("avg_severity",
    let v := value_at t "avg_severity" i in
    if Table.is_number v then rounded v else v)].

(** * Properties *)

(** ** Fallible computations *)

Lemma bind_ok {A B : Type} (m : result A) (f : A -> result B) (b : B) :
  bind m f = Ok b -> exists a, m = Ok a /\ f a = Ok b.
Proof.
  destruct m as [a|e]; simpl; intros E; [eauto | discriminate].
Qed.

Ltac inv_bind H :=
  let x := fresh "x" in
  let Hx := fresh "Hx" in
  apply bind_ok in H; destruct H as [x [Hx H]].

(** ** Strings *)

Lemma append_assoc (a b c : string) : ((a ++ b) ++ c = a ++ (b ++ c))%string.
Proof.
  induction a as [|x a IH]; simpl; [reflexivity | now rewrite IH].
Qed.

Lemma append_empty_r (a : string) : (a ++ "" = a)%string.
Proof.
  induction a as [|x a IH]; simpl; [reflexivity | now rewrite IH].
Qed.

(** Induction on strings two characters at a time, for loops that look one
    character ahead. *)
Lemma string_pair_ind (P : string -> Prop) :
  P EmptyString ->
  (forall c, P (String c EmptyString)) ->
  (forall c1 c2 s, P s -> P (String c2 s) -> P (String c1 (String c2 s))) ->
  forall s, P s.
Proof.
  intros H0 H1 H2 s.
  assert (H : P s /\ forall c, P (String c s)).
  { induction s as [|c s [IHa IHb]].
    - split; [exact H0 | exact H1].
    - split; [apply IHb | intros c'; apply H2; [exact IHa | apply IHb]]. }
  exact (proj1 H).
Qed.

(** ** The line parser *)

(** What the loop has collected so far is a prefix of its result: the
    fields already closed come first and the pending field is the start of
    the next one. *)
Lemma prepend_field_app (cur : string) (a b : list string) :
  a <> [] -> prepend_field cur (a ++ b) = prepend_field cur a ++ b.
Proof.
  destruct a; [congruence | reflexivity].
Qed.

Lemma parse_csv_loop_cons (separator char : ascii) (rest : string)
    (in_quotes : bool) (current_field : string) (fields : list string) :
  parse_csv_loop separator (String char rest) in_quotes current_field fields =
  if Ascii.eqb char quote_char then
    match in_quotes, rest with
    | true, String next rest' =>
        if Ascii.eqb next quote_char
        then parse_csv_loop separator rest' in_quotes
               (current_field ++ String quote_char EmptyString) fields
        else parse_csv_loop separator rest (negb in_quotes)
               current_field fields
    | _, _ =>
        parse_csv_loop separator rest (negb in_quotes) current_field fields
    end
  else if Ascii.eqb char separator && negb in_quotes then
    parse_csv_loop separator rest in_quotes EmptyString
      (fields ++ [current_field])
  else
    parse_csv_loop separator rest in_quotes
      (current_field ++ String char EmptyString) fields.
Proof. reflexivity. Qed.

Ltac parse_step := rewrite parse_csv_loop_cons; cbv beta iota.

Lemma parse_csv_loop_acc (separator : ascii) (line : string) :
  forall in_quotes cur fields,
    parse_csv_loop separator line in_quotes cur fields =
    fields ++ prepend_field cur
                (parse_csv_loop separator line in_quotes EmptyString []).
Proof.
  induction line as [| c | c1 c2 s IHs IHc] using string_pair_ind;
    intros q cur fields.
  - simpl. now rewrite append_empty_r.
  - simpl. destruct (Ascii.eqb c quote_char).
    + destruct q; simpl; now rewrite append_empty_r.
    + destruct (Ascii.eqb c separator && negb q); simpl.
      * now rewrite append_empty_r, <- app_assoc.
      * reflexivity.
  - rewrite !(parse_csv_loop_cons separator c1).
    destruct (Ascii.eqb c1 quote_char).
    + destruct q.
      * destruct (Ascii.eqb c2 quote_char).
        -- rewrite (IHs true (cur ++ _)%string fields).
           rewrite (IHs true (EmptyString ++ _)%string []).
           generalize (parse_csv_loop separator s true EmptyString []).
           intros [|f fs]; simpl; [reflexivity | now rewrite append_assoc].
        -- apply IHc.
      * apply IHc.
    + destruct (Ascii.eqb c1 separator && negb q).
      * rewrite (IHc q EmptyString (fields ++ [cur])).
        rewrite (IHc q EmptyString ([] ++ [EmptyString])).
        generalize (parse_csv_loop separator (String c2 s) q EmptyString []).
        intros r; simpl; rewrite append_empty_r, <- app_assoc; reflexivity.
      * rewrite (IHc q (cur ++ _)%string fields).
        rewrite (IHc q (EmptyString ++ _)%string []).
        generalize (parse_csv_loop separator (String c2 s) q EmptyString []).
        intros [|f fs]; simpl; [reflexivity | now rewrite append_assoc].
Qed.

Lemma parse_csv_loop_nonempty (separator : ascii) (line : string) :
  forall in_quotes cur fields,
    parse_csv_loop separator line in_quotes cur fields <> [].
Proof.
  induction line as [| c | c1 c2 s IHs IHc] using string_pair_ind;
    intros q cur fields.
  - simpl. now destruct fields.
  - simpl. destruct (Ascii.eqb c quote_char).
    + destruct q; simpl; now destruct fields.
    + destruct (Ascii.eqb c separator && negb q); simpl;
        [now destruct (fields ++ [cur]) | now destruct fields].
  - rewrite (parse_csv_loop_cons separator c1).
    destruct (Ascii.eqb c1 quote_char).
    + destruct q; [destruct (Ascii.eqb c2 quote_char)|]; auto.
    + destruct (Ascii.eqb c1 separator && negb q); auto.
Qed.

(** Outside quotes, characters that are neither a quote nor the separator
    go to the pending field. *)
Lemma parse_csv_loop_plain (separator : ascii) (pre : string) :
  forall rest cur fields,
    contains quote_char pre = false ->
    contains separator pre = false ->
    parse_csv_loop separator (pre ++ rest) false cur fields =
    parse_csv_loop separator rest false (cur ++ pre) fields.
Proof.
  induction pre as [|c pre IH]; intros rest cur fields Hq Hs.
  - simpl. now rewrite append_empty_r.
  - simpl in Hq, Hs. apply orb_false_iff in Hq, Hs.
    destruct Hq as [Hq1 Hq2], Hs as [Hs1 Hs2].
    change (String c pre ++ rest)%string with (String c (pre ++ rest)).
    parse_step. rewrite Hq1, Hs1. simpl andb. cbv iota.
    rewrite IH by assumption. rewrite append_assoc. reflexivity.
Qed.

(** Inside quotes, up to the closing quote: the doubled quotes of the
    escaped body give one quote each and every other character, the
    separator included, is kept; no field is closed. *)
Lemma parse_csv_loop_quoted (separator : ascii) (body : string) :
  forall rest cur fields,
    starts_with quote_char rest = false ->
    parse_csv_loop separator
      (escape_quotes body ++ String quote_char rest) true cur fields =
    parse_csv_loop separator rest false (cur ++ body) fields.
Proof.
  induction body as [|c body IH]; intros rest cur fields Hrest.
  - change (escape_quotes "" ++ String quote_char rest)%string
      with (String quote_char rest).
    parse_step. rewrite Ascii.eqb_refl, append_empty_r.
    destruct rest as [|c' rest']; [reflexivity|].
    simpl in Hrest. now rewrite Hrest.
  - simpl escape_quotes. destruct (Ascii.eqb c quote_char) eqn:Ec.
    + apply Ascii.eqb_eq in Ec. subst c.
      change (parse_csv_loop separator
                (String quote_char
                   (String quote_char
                      (escape_quotes body ++ String quote_char rest)))
                true cur fields =
              parse_csv_loop separator rest false
                (cur ++ String quote_char body) fields).
      parse_step. rewrite Ascii.eqb_refl.
      rewrite IH by assumption. rewrite append_assoc. reflexivity.
    + change (parse_csv_loop separator
                (String c (escape_quotes body ++ String quote_char rest))
                true cur fields =
              parse_csv_loop separator rest false
                (cur ++ String c body) fields).
      parse_step. rewrite Ec, andb_false_r.
      rewrite IH by assumption. rewrite append_assoc. reflexivity.
Qed.

Lemma parse_csv_line_quoted (separator : ascii) (pre body post : string) :
  contains quote_char pre = false ->
  contains separator pre = false ->
  starts_with quote_char post = false ->
  parse_csv_line (pre ++ quoted body ++ post) separator =
  prepend_field (pre ++ body) (parse_csv_line post separator).
Proof.
  intros Hq Hs Hpost. unfold parse_csv_line, quoted.
  rewrite parse_csv_loop_plain by assumption.
  change (String quote_char (escape_quotes body ++ String quote_char "") ++ post)%string
    with (String quote_char
            ((escape_quotes body ++ String quote_char "") ++ post)).
  rewrite append_assoc.
  change (String quote_char "" ++ post)%string with (String quote_char post).
  parse_step. rewrite Ascii.eqb_refl.
  change (negb false) with true.
  rewrite parse_csv_loop_quoted by assumption.
  rewrite parse_csv_loop_acc. reflexivity.
Qed.

Lemma prepend_field_empty (l : list string) : prepend_field EmptyString l = l.
Proof. now destruct l. Qed.

Lemma even_S (n : nat) : Nat.even (S n) = negb (Nat.even n).
Proof. now rewrite Nat.even_succ, <- Nat.negb_even. Qed.

(** A separator met outside quotes closes the pending field: what follows
    it is parsed as a line of its own. *)
Lemma parse_csv_loop_separator (separator : ascii) (tail : string)
    (cur : string) (fields : list string) :
  separator <> quote_char ->
  parse_csv_loop separator (String separator tail) false cur fields =
  (fields ++ [cur]) ++ parse_csv_line tail separator.
Proof.
  intros Hsep. parse_step.
  replace (Ascii.eqb separator quote_char) with false
    by (symmetry; now apply Ascii.eqb_neq).
  rewrite Ascii.eqb_refl. cbn [andb negb].
  rewrite parse_csv_loop_acc, prepend_field_empty. reflexivity.
Qed.

(** A text in which the quotes are closed, followed by a separator: the
    fields of the text, then the fields of what follows the separator. *)
Lemma parse_csv_loop_split (separator : ascii) (tail : string) :
  separator <> quote_char ->
  forall (head : string) (q : bool) (cur : string) (fields : list string),
    Nat.even (quotes_in head) = negb q ->
    parse_csv_loop separator (head ++ String separator tail) q cur fields =
    parse_csv_loop separator head q cur fields ++
    parse_csv_line tail separator.
Proof.
  intros Hsep.
  assert (Hsq : Ascii.eqb separator quote_char = false)
    by now apply Ascii.eqb_neq.
  induction head as [| c | c1 c2 s IHs IHc] using string_pair_ind;
    intros q cur fields Hq.
  - destruct q; [discriminate|].
    change (EmptyString ++ String separator tail)%string
      with (String separator tail).
    now rewrite parse_csv_loop_separator.
  - change (String c EmptyString ++ String separator tail)%string
      with (String c (String separator tail)).
    cbn [quotes_in] in Hq. rewrite !(parse_csv_loop_cons separator c).
    destruct (Ascii.eqb c quote_char).
    + destruct q; [|discriminate]. rewrite Hsq. cbn [negb].
      now rewrite parse_csv_loop_separator.
    + destruct q; [discriminate|]. cbn [negb andb].
      rewrite andb_true_r.
      destruct (Ascii.eqb c separator);
        now rewrite parse_csv_loop_separator.
  - change (String c1 (String c2 s) ++ String separator tail)%string
      with (String c1 (String c2 (s ++ String separator tail))).
    change (String c2 (s ++ String separator tail))
      with (String c2 s ++ String separator tail)%string in *.
    rewrite !(parse_csv_loop_cons separator c1).
    change (quotes_in (String c1 (String c2 s)))
      with ((if Ascii.eqb c1 quote_char then 1 else 0) +
            quotes_in (String c2 s)) in Hq.
    destruct (Ascii.eqb c1 quote_char).
    + change (1 + quotes_in (String c2 s)) with (S (quotes_in (String c2 s)))
        in Hq.
      rewrite even_S in Hq.
      change (String c2 s ++ String separator tail)%string
        with (String c2 (s ++ String separator tail)).
      destruct q.
      * destruct (Ascii.eqb c2 quote_char) eqn:E2.
        -- apply IHs. cbn [quotes_in] in Hq. rewrite E2 in Hq.
           cbn [Nat.add] in Hq. rewrite even_S in Hq.
           now rewrite negb_involutive in Hq.
        -- change (String c2 (s ++ String separator tail))
             with (String c2 s ++ String separator tail)%string.
           apply IHc. cbn [negb] in *.
           now destruct (Nat.even (quotes_in (String c2 s))).
      * change (String c2 (s ++ String separator tail))
          with (String c2 s ++ String separator tail)%string.
        apply IHc. cbn [negb] in *.
        now destruct (Nat.even (quotes_in (String c2 s))).
    + cbn [Nat.add] in Hq.
      destruct (Ascii.eqb c1 separator && negb q); now apply IHc.
Qed.

(** C6.  For every separator and every line, [parse_csv_line] returns at
    least one field, and the empty line gives one empty field.  A quoted
    region decodes to its body, in whatever field it stands.  In a line
    made of a plain prefix, a quoted region and a remainder that does not
    start with a quote, the field that holds the region is the prefix, then
    the body with one quote for each doubled quote and with its separator
    characters kept as content, then the first field of the remainder; the
    fields after it are those of the remainder.  When such a text follows
    the separator that ends a text [head] whose quotes are closed, the
    fields of the line are the fields of [head] and then these fields. *)
Theorem parse_csv_line_fields :
  forall (separator : ascii) (line head pre body post : string),
    contains quote_char pre = false ->
    contains separator pre = false ->
    starts_with quote_char post = false ->
    (1 <= List.length (parse_csv_line line separator))%nat /\
    parse_csv_line EmptyString separator = [EmptyString] /\
    exists f fs,
      parse_csv_line post separator = f :: fs /\
      parse_csv_line (pre ++ quoted body ++ post) separator =
      (pre ++ body ++ f)%string :: fs /\
      (separator <> quote_char ->
       Nat.even (quotes_in head) = true ->
       parse_csv_line
         (head ++ String separator (pre ++ quoted body ++ post)) separator =
       parse_csv_line head separator ++ (pre ++ body ++ f)%string :: fs).
Proof.
  intros separator line head pre body post Hq Hs Hpost. split; [|split].
  - unfold parse_csv_line.
    pose proof (parse_csv_loop_nonempty separator line false EmptyString []) as H.
    destruct (parse_csv_loop separator line false EmptyString []);
      [congruence | simpl; lia].
  - reflexivity.
  - assert (Hregion : exists f fs,
              parse_csv_line post separator = f :: fs /\
              parse_csv_line (pre ++ quoted body ++ post) separator =
              (pre ++ body ++ f)%string :: fs).
    { rewrite parse_csv_line_quoted by assumption.
      pose proof (parse_csv_loop_nonempty separator post false EmptyString [])
        as H.
      unfold parse_csv_line.
      destruct (parse_csv_loop separator post false EmptyString [])
        as [|f fs]; [congruence|].
      exists f, fs. split; [reflexivity|].
      simpl. now rewrite append_assoc. }
    destruct Hregion as (f & fs & Hpostf & Hfield).
    exists f, fs. split; [exact Hpostf|]. split; [exact Hfield|].
    intros Hsep Hhead. unfold parse_csv_line at 1.
    rewrite (parse_csv_loop_split separator _ Hsep head false EmptyString []
               Hhead).
    now rewrite Hfield.
Qed.

Lemma parse_csv_line_fields_witness :
  parse_csv_line
    ("x" ++ quoted ("Smith, " ++ String quote_char "J") ++ ",2")%string
    ","%char =
  [("xSmith, " ++ String quote_char "J")%string; "2"] /\
  parse_csv_line ("1" ++ String "," (quoted "Smith, J."))%string ","%char =
  ["1"; "Smith, J."].
Proof.
  split.
  - destruct (parse_csv_line_fields ","%char "" "" "x"
                ("Smith, " ++ String quote_char "J")%string ",2"
                eq_refl eq_refl eq_refl) as [_ [_ [f [fs [H1 [H2 _]]]]]].
    rewrite H2. vm_compute in H1. injection H1 as <- <-. reflexivity.
  - destruct (parse_csv_line_fields ","%char "" "1" "" "Smith, J." ""
                eq_refl eq_refl eq_refl) as [_ [_ [f [fs [H1 [_ H3]]]]]].
    vm_compute in H1. injection H1 as <- <-.
    exact (H3 ltac:(discriminate) eq_refl).
Defined.

(** A record written with every field quoted is read back field by field,
    whatever the fields contain, for a separator other than the quote. *)
Lemma parse_csv_line_roundtrip (separator : ascii) (fields : list string) :
  separator <> quote_char ->
  fields <> [] ->
  parse_csv_line (join_fields separator (map quoted fields)) separator = fields.
Proof.
  intros Hsep Hne. induction fields as [|x fields IH]; [congruence|].
  destruct fields as [|y fields].
  - change (join_fields separator (map quoted [x])) with (quoted x).
    pose proof (parse_csv_line_quoted separator "" x "" eq_refl eq_refl eq_refl)
      as H.
    change ("" ++ quoted x ++ "")%string with (quoted x ++ "")%string in H.
    rewrite append_empty_r in H. rewrite H.
    change (prepend_field ("" ++ x) (parse_csv_line "" separator))
      with [(x ++ "")%string].
    now rewrite append_empty_r.
  - change (join_fields separator (map quoted (x :: y :: fields)))
      with (quoted x ++ String separator "" ++
            join_fields separator (map quoted (y :: fields)))%string.
    change (String separator "" ++
            join_fields separator (map quoted (y :: fields)))%string
      with (String separator
              (join_fields separator (map quoted (y :: fields)))).
    pose proof (parse_csv_line_quoted separator "" x
                  (String separator
                     (join_fields separator (map quoted (y :: fields))))
                  eq_refl eq_refl) as H.
    change ("" ++ quoted x ++
            String separator
              (join_fields separator (map quoted (y :: fields))))%string
      with (quoted x ++
            String separator
              (join_fields separator (map quoted (y :: fields))))%string in H.
    rewrite H.
    + unfold parse_csv_line. parse_step.
      assert (Ascii.eqb separator quote_char = false) as ->
          by now apply Ascii.eqb_neq.
      rewrite Ascii.eqb_refl. simpl andb. cbv iota.
      rewrite parse_csv_loop_acc.
      fold (parse_csv_line (join_fields separator (map quoted (y :: fields)))
              separator).
      rewrite IH by congruence. simpl. now rewrite append_empty_r.
    + simpl. now apply Ascii.eqb_neq.
Qed.

(** ** Type inference *)

Lemma numeric_shape_spec (value : string) :
  numeric_shape value = true <-> begins_numeric value.
Proof.
  split.
  - destruct value as [|c rest]; [discriminate|]. simpl. intros H.
    exists c, rest. split; [reflexivity|].
    apply orb_true_iff in H. destruct H as [H|H]; [now left|right].
    destruct rest as [|c1 rest']; [discriminate|].
    apply andb_true_iff in H. destruct H as [H1 H2].
    apply Ascii.eqb_eq in H1. eauto.
  - intros (c & rest & -> & [H | (-> & c1 & rest' & -> & H)]); simpl.
    + now rewrite H.
    + rewrite H. reflexivity.
Qed.

(** What a decimal digit is not. *)
Lemma isdecimal_char (c : ascii) :
  isdecimal c = true ->
  isdigit c = true /\ number_space c = false /\
  Ascii.eqb c minus_char = false /\ Ascii.eqb c plus_char = false /\
  Ascii.eqb c dot_char = false /\ Ascii.eqb c underscore_char = false.
Proof.
  destruct c as [[] [] [] [] [] [] [] []]; vm_compute; intros H;
    try discriminate H; repeat split.
Qed.

Lemma number_rstrip_digits (ds : list ascii) :
  Forall (fun c => isdecimal c = true) ds ->
  number_rstrip (string_of_list_ascii ds) = string_of_list_ascii ds.
Proof.
  induction 1 as [|c ds Hc _ IH]; [reflexivity|].
  cbn [string_of_list_ascii number_rstrip]. rewrite IH.
  destruct (string_of_list_ascii ds); [|reflexivity].
  now rewrite (proj1 (proj2 (isdecimal_char c Hc))).
Qed.

Lemma number_rstrip_cons (c : ascii) (s : string) :
  s <> EmptyString -> number_rstrip s = s ->
  number_rstrip (String c s) = String c s.
Proof.
  intros Hne Hs. cbn [number_rstrip]. rewrite Hs.
  destruct s; [congruence | reflexivity].
Qed.

Lemma digits_tail_digits (ds : list ascii) :
  Forall (fun c => isdecimal c = true) ds ->
  digits_tail (string_of_list_ascii ds) = (ds, EmptyString).
Proof.
  induction 1 as [|c ds Hc _ IH]; [reflexivity|].
  cbn [string_of_list_ascii digits_tail]. now rewrite Hc, IH.
Qed.

Lemma contains_dot_digits (ds : list ascii) :
  Forall (fun c => isdecimal c = true) ds ->
  contains dot_char (string_of_list_ascii ds) = false.
Proof.
  induction 1 as [|c ds Hc _ IH]; [reflexivity|].
  cbn [string_of_list_ascii contains]. rewrite IH.
  destruct (isdecimal_char c Hc) as (_ & _ & _ & _ & Hd & _).
  now rewrite Hd.
Qed.

(** [int] on a string of decimal digits, with or without a minus sign in
    front: the number they write, up to the limit on the digits. *)
Lemma py_int_digits (neg : bool) (ds : list ascii) :
  ds <> [] ->
  Forall (fun c => isdecimal c = true) ds ->
  py_int (if neg then String minus_char (string_of_list_ascii ds)
          else string_of_list_ascii ds) =
  if (int_max_str_digits <? List.length ds)%nat then None
  else Some (if neg then (- digits_to_Z ds)%Z else digits_to_Z ds).
Proof.
  intros Hne Hds. destruct ds as [|c ds]; [congruence|].
  pose proof (number_rstrip_digits (c :: ds) Hds) as Hr.
  pose proof (digits_tail_digits (c :: ds) Hds) as Ht.
  inversion Hds as [|? ? Hc _]; subst.
  destruct (isdecimal_char c Hc) as (_ & Hsp & Hm & Hp & _ & _).
  cbn [string_of_list_ascii] in *.
  unfold py_int, number_strip. destruct neg.
  - assert (Hsm : number_space minus_char = false) by reflexivity.
    cbn [number_lstrip]. rewrite Hsm.
    rewrite (number_rstrip_cons minus_char
               (String c (string_of_list_ascii ds)) ltac:(discriminate) Hr).
    cbn [sign_prefix]. rewrite Ascii.eqb_refl.
    unfold digitpart. now rewrite Hc, Ht.
  - cbn [number_lstrip]. rewrite Hsp, Hr.
    cbn [sign_prefix]. rewrite Hm, Hp.
    unfold digitpart. now rewrite Hc, Ht.
Qed.

(** C7.  [infer_type] returns Null for the empty string.  For a string
    that begins with a digit, or with a minus sign followed by a digit, it
    returns the Integer that [int] parses when the string has no dot and the
    Float that [float] parses when it has one, and the string itself as
    Text when the parse fails.  Every other non-empty string is returned
    as Text.  In particular a string of decimal digits, with or without a
    minus sign in front, becomes the Integer it writes, unless it has more
    digits than [int] accepts: then it stays Text.  So 1.2.3 stays Text and
    007 becomes the Integer 7; 12 followed by a space becomes 12, and 12
    followed by the separator 31 stays Text. *)
Theorem infer_type_policy :
  forall value : string,
    (value = EmptyString -> infer_type value = Null) /\
    (begins_numeric value -> contains dot_char value = false ->
     match py_int value with
     | Some n => infer_type value = Int n
     | None => infer_type value = Text value
     end) /\
    (begins_numeric value -> contains dot_char value = true ->
     match py_float value with
     | Some f => infer_type value = Float f
     | None => infer_type value = Text value
     end) /\
    (value <> EmptyString -> ~ begins_numeric value ->
     infer_type value = Text value) /\
    (forall (neg : bool) (ds : list ascii),
       let digits := string_of_list_ascii ds in
       let written := if neg then String minus_char digits else digits in
       value = written -> ds <> [] ->
       Forall (fun c => isdecimal c = true) ds ->
       infer_type value =
       if (List.length ds <=? int_max_str_digits)%nat
       then Int (if neg then (- digits_to_Z ds)%Z else digits_to_Z ds)
       else Text value) /\
    infer_type "1.2.3" = Text "1.2.3" /\
    infer_type "007" = Int 7 /\
    infer_type "12 " = Int 12 /\
    infer_type (String "1" (String "2" (String (ascii_of_nat 31) "")))
    = Text (String "1" (String "2" (String (ascii_of_nat 31) ""))).
Proof.
  intros value.
  assert (Hint : begins_numeric value -> contains dot_char value = false ->
                 match py_int value with
                 | Some n => infer_type value = Int n
                 | None => infer_type value = Text value
                 end).
  { intros Hs Hd. apply numeric_shape_spec in Hs.
    destruct value as [|c rest]; [discriminate|].
    unfold infer_type. rewrite Hs, Hd. simpl negb. cbv iota.
    now destruct (py_int (String c rest)). }
  split; [now intros ->|]. split; [exact Hint|]. split; [|split; [|split]].
  - intros Hs Hd. apply numeric_shape_spec in Hs.
    destruct value as [|c rest]; [discriminate|].
    unfold infer_type. rewrite Hs, Hd. simpl negb. cbv iota.
    now destruct (py_float (String c rest)).
  - intros Hne Hs. destruct value as [|c rest]; [congruence|].
    unfold infer_type.
    destruct (numeric_shape (String c rest)) eqn:E; [|reflexivity].
    apply numeric_shape_spec in E. contradiction.
  - intros neg ds digits written Hv Hne Hds.
    assert (Hshape : begins_numeric value).
    { destruct ds as [|c ds]; [congruence|].
      inversion Hds as [|? ? Hc _]; subst.
      destruct (isdecimal_char c Hc) as (Hdig & _).
      unfold written, digits. cbn [string_of_list_ascii]. destruct neg.
      - exists minus_char, (String c (string_of_list_ascii ds)).
        split; [reflexivity|]. right. split; [reflexivity|]. eauto.
      - exists c, (string_of_list_ascii ds). split; [reflexivity|now left]. }
    assert (Hdot : contains dot_char value = false).
    { rewrite Hv. unfold written, digits. destruct neg;
        cbn [contains]; now rewrite contains_dot_digits. }
    specialize (Hint Hshape Hdot).
    pose proof (py_int_digits neg ds Hne Hds) as Hp.
    fold digits in Hp. fold written in Hp. rewrite <- Hv in Hp.
    rewrite Hp in Hint. rewrite Nat.leb_antisym.
    now destruct (int_max_str_digits <? List.length ds)%nat.
  - repeat split.
Qed.

Lemma infer_type_policy_witness :
  infer_type "-12" = Int (-12) /\ infer_type "2.50" = Float (round_quotient false 5 2)
  /\ infer_type "1e5" = Text "1e5" /\ infer_type "N/A" = Text "N/A".
Proof.
  assert (Hneg : begins_numeric "-12").
  { exists minus_char, "12". split; [reflexivity|right].
    split; [reflexivity|]. exists "1"%char, "2". now split. }
  assert (Hdig : forall c rest, isdigit c = true ->
                                begins_numeric (String c rest)).
  { intros c rest H. exists c, rest. split; [reflexivity | now left]. }
  split; [|split; [|split]].
  - exact (proj1 (proj2 (infer_type_policy "-12")) Hneg eq_refl).
  - exact (proj1 (proj2 (proj2 (infer_type_policy "2.50")))
             (Hdig "2"%char ".50" eq_refl) eq_refl).
  - exact (proj1 (proj2 (infer_type_policy "1e5"))
             (Hdig "1"%char "e5" eq_refl) eq_refl).
  - apply (proj1 (proj2 (proj2 (proj2 (infer_type_policy "N/A"))))).
    + discriminate.
    + intros (c & rest & E & [H | (Hc & _)]); injection E as <- <-;
        discriminate.
Defined.

(** ** Dictionaries keyed by names *)

Section NameDict.
Context {V : Type}.
Implicit Types (d : dict string V) (k : string) (v : V).

Lemma name_key_eqb (a b : string) : key_eqb a b = String.eqb a b.
Proof. reflexivity. Qed.

Lemma dict_get_set_same d k v : dict_get (dict_set d k v) k = Some v.
Proof.
  induction d as [|[k' v'] d IH]; simpl; rewrite ?name_key_eqb.
  - now rewrite String.eqb_refl.
  - destruct (String.eqb_spec k' k) as [->|Hne]; simpl; rewrite ?name_key_eqb.
    + now rewrite String.eqb_refl.
    + destruct (String.eqb_spec k' k); [contradiction | exact IH].
Qed.

Lemma dict_get_set_other d k k' v :
  k' <> k -> dict_get (dict_set d k v) k' = dict_get d k'.
Proof.
  intros Hne. induction d as [|[k0 v0] d IH]; simpl; rewrite ?name_key_eqb.
  - destruct (String.eqb_spec k k'); [congruence | reflexivity].
  - destruct (String.eqb_spec k0 k) as [->|Hk]; simpl; rewrite ?name_key_eqb.
    + destruct (String.eqb_spec k k'); [congruence | reflexivity].
    + destruct (String.eqb_spec k0 k'); [reflexivity | exact IH].
Qed.

Lemma dict_get_in_keys d k :
  dict_get d k <> None <-> In k (dict_keys d).
Proof.
  induction d as [|[k' v'] d IH]; simpl; rewrite ?name_key_eqb.
  - split; [congruence | contradiction].
  - destruct (String.eqb_spec k' k) as [->|Hne].
    + split; [now left | discriminate].
    + rewrite IH. split; [now right | intros [H|H]; [contradiction | exact H]].
Qed.

Lemma dict_mem_in_keys d k : dict_mem d k = true <-> In k (dict_keys d).
Proof.
  unfold dict_mem. rewrite <- dict_get_in_keys.
  destruct (dict_get d k); split; congruence.
Qed.

Lemma dict_keys_set_present d k v :
  In k (dict_keys d) -> dict_keys (dict_set d k v) = dict_keys d.
Proof.
  induction d as [|[k' v'] d IH]; simpl; [contradiction|].
  rewrite name_key_eqb.
  destruct (String.eqb_spec k' k) as [->|Hne]; simpl; [reflexivity|].
  intros [H|H]; [contradiction | now rewrite IH].
Qed.

Lemma dict_keys_set_absent d k v :
  ~ In k (dict_keys d) -> dict_keys (dict_set d k v) = dict_keys d ++ [k].
Proof.
  induction d as [|[k' v'] d IH]; simpl; [reflexivity|].
  rewrite name_key_eqb. intros Hn.
  destruct (String.eqb_spec k' k) as [->|Hne]; simpl.
  - exfalso. apply Hn. now left.
  - rewrite IH; [reflexivity | tauto].
Qed.

Lemma dict_set_absent d k v :
  ~ In k (dict_keys d) -> dict_set d k v = d ++ [(k, v)].
Proof.
  induction d as [|[k' v'] d IH]; simpl; [reflexivity|].
  rewrite name_key_eqb. intros Hn.
  destruct (String.eqb_spec k' k) as [->|Hne]; simpl.
  - exfalso. apply Hn. now left.
  - rewrite IH; [reflexivity | tauto].
Qed.

Lemma dict_set_NoDup d k v :
  NoDup (dict_keys d) -> NoDup (dict_keys (dict_set d k v)).
Proof.
  intros Hnd. destruct (in_dec string_dec k (dict_keys d)) as [Hin|Hn].
  - now rewrite dict_keys_set_present.
  - rewrite dict_keys_set_absent by assumption.
    apply NoDup_app; [exact Hnd | repeat constructor; simpl; tauto |].
    intros x Hx [<-|[]]. contradiction.
Qed.

Lemma dict_get_NoDup_in d k v :
  NoDup (dict_keys d) -> In (k, v) d -> dict_get d k = Some v.
Proof.
  induction d as [|[k' v'] d IH]; simpl; [contradiction|].
  rewrite name_key_eqb. intros Hnd [E|Hin].
  - injection E as -> ->. now rewrite String.eqb_refl.
  - inversion Hnd as [|? ? Hnot Hnd']; subst.
    destruct (String.eqb_spec k' k) as [->|Hne]; [|now apply IH].
    exfalso. apply Hnot. change k with (fst (k, v)). now apply in_map.
Qed.

(** A display whose keys are distinct is the dictionary itself. *)
Lemma fold_dict_set_NoDup (kvs acc : dict string V) :
  NoDup (dict_keys (acc ++ kvs)) ->
  fold_left (fun d kv => dict_set d (fst kv) (snd kv)) kvs acc = acc ++ kvs.
Proof.
  revert acc. induction kvs as [|[k v] kvs IH]; intros acc Hnd; simpl.
  - now rewrite app_nil_r.
  - rewrite dict_set_absent.
    + rewrite IH; rewrite <- app_assoc; [reflexivity | exact Hnd].
    + unfold dict_keys in *. rewrite map_app in Hnd. simpl in Hnd.
      apply NoDup_remove_2 in Hnd. rewrite in_app_iff in Hnd. tauto.
Qed.

Lemma dict_of_list_NoDup d : NoDup (dict_keys d) -> dict_of_list d = d.
Proof. intros H. unfold dict_of_list. now rewrite fold_dict_set_NoDup. Qed.

(** Copying the entries of a dictionary under its own keys gives the
    dictionary back. *)
Lemma foldM_copy_entries (f : V -> V) (kvs acc : dict string V) (d : dict string V) :
  NoDup (dict_keys (acc ++ kvs)) ->
  (forall k v, In (k, v) kvs -> dict_get d k = Some v) ->
  foldM (fun new_data col => do v <- getitem d col; Ok (dict_set new_data col (f v)))
        (dict_keys kvs) acc =
  Ok (acc ++ map (fun kv => (fst kv, f (snd kv))) kvs).
Proof.
  revert acc. induction kvs as [|[k v] kvs IH]; intros acc Hnd Hget; simpl.
  - now rewrite app_nil_r.
  - unfold getitem. rewrite (Hget k v) by now left. simpl.
    rewrite dict_set_absent.
    + rewrite IH.
      * now rewrite <- app_assoc.
      * unfold dict_keys in *. rewrite <- app_assoc, !map_app in *.
        simpl in *. exact Hnd.
      * intros k' v' Hin. apply Hget. now right.
    + unfold dict_keys in *. rewrite map_app in Hnd. simpl in Hnd.
      apply NoDup_remove_2 in Hnd. rewrite in_app_iff in Hnd. tauto.
Qed.

End NameDict.

Lemma dict_comprehension_copy (d : dict string column) :
  NoDup (dict_keys d) ->
  dict_comprehension (dict_keys d) (fun col => getitem d col) = Ok d.
Proof.
  intros Hnd. unfold dict_comprehension.
  rewrite (foldM_copy_entries (fun v => v) d [] d).
  - simpl. f_equal. induction d as [|[k v] d IH]; simpl; [reflexivity|].
    f_equal. apply IH. now inversion Hnd.
  - exact Hnd.
  - intros k v Hin. now apply dict_get_NoDup_in.
Qed.

Lemma name_in_spec (c : string) (l : list string) :
  name_in c l = true <-> In c l.
Proof.
  unfold name_in. rewrite existsb_exists. split.
  - intros (x & Hx & E). apply String.eqb_eq in E. now subst.
  - intros H. exists c. split; [exact H | apply String.eqb_refl].
Qed.

(** ** The constructor *)

Lemma count_distinct_same (n : nat) (l : list nat) :
  Forall (fun x => x = n) l -> (1 <? count_distinct l)%nat = false.
Proof.
  intros H. unfold count_distinct. apply Nat.ltb_ge.
  induction H as [|x l -> Hl IH]; simpl; [lia|].
  destruct (in_dec Nat.eq_dec n l) as [Hin|Hn]; [exact IH|].
  destruct l as [|y l]; simpl; [lia|].
  inversion Hl; subst. exfalso. apply Hn. now left.
Qed.

Lemma DataFrame_init_ok (d : dict string column) (n : nat) :
  NoDup (dict_keys d) ->
  Forall (fun values : column => List.length values = n) (dict_values d) ->
  DataFrame_init d = Ok (mkDataFrame d (dict_keys d)).
Proof.
  intros Hnd Hlen. unfold DataFrame_init.
  rewrite dict_of_list_NoDup by assumption.
  destruct d as [|kv d]; [reflexivity|].
  rewrite (count_distinct_same n); [reflexivity|].
  rewrite Forall_map. exact Hlen.
Qed.

(** ** Renaming columns *)

(** C10.  [rename_columns] with a mapping that sends two columns to one
    name: on a table with the two columns [a] and [b], the result lists the
    new name [c] twice while its data holds a single column under [c], the
    values of [b]; the values of [a] are gone. *)
Theorem rename_columns_collision :
  forall (a b c : string) (va vb : column),
    a <> b ->
    List.length va = List.length vb ->
    rename_columns (mkDataFrame [(a, va); (b, vb)] [a; b]) [(a, c); (b, c)] =
    Ok (mkDataFrame [(c, vb)] [c; c]).
Proof.
  intros a b c va vb Hab Hlen. apply String.eqb_neq in Hab.
  unfold rename_columns, rename_step, getitem.
  cbn [foldM columns data bind dict_get].
  unfold key_eqb, string_KeyEq. rewrite !String.eqb_refl, Hab.
  cbn [bind dict_get dict_set app].
  unfold key_eqb, string_KeyEq. rewrite !String.eqb_refl.
  reflexivity.
Qed.

Lemma rename_columns_collision_witness :
  rename_columns
    (mkDataFrame [("a", [Int 1; Int 2]); ("b", [Int 3; Int 4])] ["a"; "b"])
    [("a", "c"); ("b", "c")] =
  Ok (mkDataFrame [("c", [Int 3; Int 4])] ["c"; "c"]).
Proof.
  apply (rename_columns_collision "a" "b" "c" [Int 1; Int 2] [Int 3; Int 4]).
  - discriminate.
  - reflexivity.
Defined.

(** ** Adding a column *)

Lemma Forall_dict_set {V : Type} (P : V -> Prop) (d : dict string V)
    (k : string) (v : V) :
  Forall P (dict_values d) -> P v -> Forall P (dict_values (dict_set d k v)).
Proof.
  intros Hd Hv. induction d as [|[k' v'] d IH]; simpl.
  - now constructor.
  - inversion Hd; subst.
    destruct (key_eqb k' k); simpl; constructor; auto.
Qed.

Lemma len_dict_set (t : DataFrame) (k : string) (values : column) :
  Forall (fun vs : column => List.length vs = len t) (dict_values (data t)) ->
  List.length values = len t ->
  Forall (fun vs : column => List.length vs = len t)
         (dict_values (dict_set (data t) k values)).
Proof. intros H1 H2. now apply Forall_dict_set. Qed.

(** The claim as the specification words it fails: the values given for an
    existing name replace the column stored under it. *)
Lemma add_column_replaces_existing :
  ~ (forall (t : DataFrame) (c : string) (values : column) (r : DataFrame),
        well_formed t -> In c (columns t) ->
        add_column t c values = Ok r ->
        dict_get (data r) c = dict_get (data t) c).
Proof.
  intros H.
  specialize (H (mkDataFrame [("K", [Int 1; Int 2]); ("v", [Text "a"; Text "b"])]
                   ["K"; "v"])
                "K" [Int 7; Int 8]
                (mkDataFrame [("K", [Int 7; Int 8]); ("v", [Text "a"; Text "b"])]
                   ["K"; "v"])).
  assert (Hwf : well_formed
                  (mkDataFrame
                     [("K", [Int 1; Int 2]); ("v", [Text "a"; Text "b"])]
                     ["K"; "v"])).
  { split; [reflexivity|]. split.
    - repeat constructor; simpl; intuition discriminate.
    - repeat constructor. }
  specialize (H Hwf (or_introl eq_refl) eq_refl). discriminate H.
Qed.

(** C2, amended.  On a well-formed table [add_column] fails exactly when
    the number of values differs from the number of rows.  When it
    succeeds, the result is well formed, holds the given values under the
    given name and every other column unchanged; a name the table did not
    have is added as the last column, and for a name the table has the
    names stay as they are and the values stored under the name are
    replaced. *)
Theorem add_column_spec :
  forall (t : DataFrame) (column_name : string) (values : column),
    well_formed t ->
    is_ok (add_column t column_name values) =
      (List.length values =? len t)%nat /\
    (List.length values = len t ->
     exists r,
       add_column t column_name values = Ok r /\
       well_formed r /\
       dict_get (data r) column_name = Some values /\
       (forall c, c <> column_name ->
                  dict_get (data r) c = dict_get (data t) c) /\
       (In column_name (columns t) -> columns r = columns t) /\
       (~ In column_name (columns t) ->
        columns r = columns t ++ [column_name])).
Proof.
  intros t name values (Hcols & Hnd & Hlen).
  unfold add_column. rewrite Hcols, dict_comprehension_copy by assumption.
  cbn [bind].
  destruct (Nat.eqb_spec (List.length values) (len t)) as [E|E];
    cbn [negb]; [|split; [reflexivity | contradiction]].
  assert (Hinit : DataFrame_init (dict_set (data t) name values) =
                  Ok (mkDataFrame (dict_set (data t) name values)
                        (dict_keys (dict_set (data t) name values)))).
  { apply (DataFrame_init_ok _ (len t)).
    - now apply dict_set_NoDup.
    - now apply len_dict_set. }
  rewrite Hinit. split; [reflexivity|]. intros _.
  eexists; split; [reflexivity|]. cbn [data columns].
  split; [|split; [|split; [|split]]].
  - split; [reflexivity|]. split; [now apply dict_set_NoDup|].
    cbn [data].
    assert (Hl : len (mkDataFrame (dict_set (data t) name values)
                        (dict_keys (dict_set (data t) name values))) = len t).
    { unfold len. cbn [data].
      destruct (data t) as [|[k v] d] eqn:Ed; simpl.
      - unfold len in E. rewrite Ed in E. exact E.
      - destruct (key_eqb k name); simpl; [|reflexivity].
        unfold len in E. rewrite Ed in E. exact E. }
    rewrite Hl. now apply len_dict_set.
  - apply dict_get_set_same.
  - intros c Hc. now apply dict_get_set_other.
  - intros Hin. now apply dict_keys_set_present.
  - intros Hn. now apply dict_keys_set_absent.
Qed.

Lemma add_column_spec_witness :
  exists r,
    add_column (mkDataFrame [("K", [Int 1; Int 2])] ["K"]) "z" [Int 7; Int 8]
      = Ok r /\
    columns r = ["K"; "z"].
Proof.
  assert (Hwf : well_formed (mkDataFrame [("K", [Int 1; Int 2])] ["K"])).
  { split; [reflexivity|]. split.
    - repeat constructor; simpl; intuition discriminate.
    - repeat constructor. }
  destruct (proj2 (add_column_spec _ "z" [Int 7; Int 8] Hwf) eq_refl)
    as (r & Hr & _ & _ & _ & _ & Hnew).
  exists r. split; [exact Hr|].
  apply Hnew. simpl. intuition discriminate.
Defined.

(** ** Parallel reading *)

(** C1 does not hold of [read_csv_parallel].  Every worker drops the line
    at which its range starts, the first worker included, whose range
    starts at the first record; and a worker reads up to five lines past
    the end of its range, which the next worker reads again.  On the file
    with the header [id] and the records 1, 2, 3, 4: [read_csv] returns the
    four records; one worker returns 2, 3, 4; two workers return 2, 3, 4,
    4; three workers return 2, 3, 4, 3, 4, 4. *)
Theorem read_csv_parallel_loses_and_repeats :
  let f := file_of_lines ["id"; "1"; "2"; "3"; "4"] in
  read_csv f ","%char None false =
    Ok (single_column "id" [Int 1; Int 2; Int 3; Int 4]) /\
  read_csv_parallel f ","%char 1 false =
    Ok (single_column "id" [Int 2; Int 3; Int 4]) /\
  read_csv_parallel f ","%char 2 false =
    Ok (single_column "id" [Int 2; Int 3; Int 4; Int 4]) /\
  read_csv_parallel f ","%char 3 false =
    Ok (single_column "id" [Int 2; Int 3; Int 4; Int 3; Int 4; Int 4]).
Proof. vm_compute. repeat split. Qed.

(** The work of the single worker on that file: its range is the whole of
    the data, and the first record is the line it drops. *)
Lemma first_worker_drops_first_record :
  let f := file_of_lines ["id"; "1"; "2"; "3"; "4"] in
  chunk_tasks 3 (String.length f) 1 = [(3, 11)] /\
  readline f 3 = (("1" ++ String newline_char EmptyString)%string, 5) /\
  _parse_csv_chunk f 3 11 ["id"] ","%char false =
    Ok [("id", [Int 2; Int 3; Int 4])].
Proof. vm_compute. repeat split. Qed.

(** ** Equality and order of scalars *)

Lemma xnum_compare_eq_sym (a b : xnum) :
  xnum_compare a b = Some Eq -> xnum_compare b a = Some Eq.
Proof.
  destruct a, b; simpl; try congruence.
  intros H. injection H as H. f_equal.
  apply Qeq_alt in H. apply Qeq_alt. now symmetry.
Qed.

Lemma xnum_compare_eq_trans (a b c : xnum) :
  xnum_compare a b = Some Eq -> xnum_compare b c = Some Eq ->
  xnum_compare a c = Some Eq.
Proof.
  destruct a, b, c; simpl; try congruence.
  intros H1 H2. injection H1 as H1. injection H2 as H2. f_equal.
  apply Qeq_alt in H1, H2. apply Qeq_alt. now rewrite H1.
Qed.

Lemma xnum_compare_lt_trans (a b c : xnum) :
  xnum_compare a b = Some Lt -> xnum_compare b c = Some Lt ->
  xnum_compare a c = Some Lt.
Proof.
  destruct a, b, c; simpl; try congruence.
  intros H1 H2. injection H1 as H1. injection H2 as H2. f_equal.
  apply Qlt_alt in H1, H2. apply Qlt_alt. now apply Qlt_trans with q0.
Qed.

Lemma xnum_compare_lt_eq (a b c : xnum) :
  xnum_compare a b = Some Lt -> xnum_compare b c = Some Eq ->
  xnum_compare a c = Some Lt.
Proof.
  destruct a, b, c; simpl; try congruence.
  intros H1 H2. injection H1 as H1. injection H2 as H2. f_equal.
  apply Qlt_alt in H1. apply Qeq_alt in H2. apply Qlt_alt. now rewrite <- H2.
Qed.

Lemma xnum_compare_eq_lt (a b c : xnum) :
  xnum_compare a b = Some Eq -> xnum_compare b c = Some Lt ->
  xnum_compare a c = Some Lt.
Proof.
  destruct a, b, c; simpl; try congruence.
  intros H1 H2. injection H1 as H1. injection H2 as H2. f_equal.
  apply Qeq_alt in H1. apply Qlt_alt in H2. apply Qlt_alt. now rewrite H1.
Qed.

Lemma xnum_compare_lt_flip (a b : xnum) :
  xnum_compare a b = Some Lt -> xnum_compare b a = Some Gt.
Proof.
  destruct a, b; simpl; try congruence.
  intros H. injection H as H. f_equal.
  apply Qlt_alt in H. now apply Qgt_alt.
Qed.

(** Strings are ordered character by character. *)
Lemma ascii_compare_lt_trans (a b c : ascii) :
  Ascii.compare a b = Lt -> Ascii.compare b c = Lt -> Ascii.compare a c = Lt.
Proof.
  unfold Ascii.compare. rewrite !N.compare_lt_iff. apply N.lt_trans.
Qed.

Lemma ascii_compare_eq (a b : ascii) : Ascii.compare a b = Eq -> a = b.
Proof. apply Ascii.compare_eq_iff. Qed.

Lemma ascii_compare_refl (a : ascii) : Ascii.compare a a = Eq.
Proof. unfold Ascii.compare. apply N.compare_refl. Qed.

Lemma string_compare_lt_trans (a : string) :
  forall b c, String.compare a b = Lt -> String.compare b c = Lt ->
              String.compare a c = Lt.
Proof.
  induction a as [|x a IH]; intros [|y b] [|z c]; simpl; try congruence.
  destruct (Ascii.compare x y) eqn:Exy; try discriminate;
    destruct (Ascii.compare y z) eqn:Eyz; try discriminate; intros H1 H2.
  - apply ascii_compare_eq in Exy, Eyz. subst.
    rewrite ascii_compare_refl. now apply IH with b.
  - apply ascii_compare_eq in Exy. subst. now rewrite Eyz.
  - apply ascii_compare_eq in Eyz. subst. now rewrite Exy.
  - now rewrite (ascii_compare_lt_trans x y z).
Qed.

Lemma string_compare_refl (a : string) : String.compare a a = Eq.
Proof.
  induction a as [|x a IH]; simpl; [reflexivity|].
  now rewrite ascii_compare_refl.
Qed.

Lemma string_ltb_trans (a b c : string) :
  String.ltb a b = true -> String.ltb b c = true -> String.ltb a c = true.
Proof.
  unfold String.ltb.
  destruct (String.compare a b) eqn:E1; try discriminate.
  destruct (String.compare b c) eqn:E2; try discriminate.
  now rewrite (string_compare_lt_trans a b c).
Qed.

Lemma string_ltb_irrefl (a : string) : String.ltb a a = false.
Proof. unfold String.ltb. now rewrite string_compare_refl. Qed.

Lemma string_ltb_asym (a b : string) :
  String.ltb a b = true -> String.ltb b a = false.
Proof.
  unfold String.ltb. rewrite (String.compare_antisym a b).
  now destruct (String.compare b a).
Qed.

Lemma py_eq_cases (v w : Scalar) :
  py_eq v w = true <->
  (v = Null /\ w = Null) \/
  (exists s, v = Text s /\ w = Text s) \/
  (exists a b, exact_value v = Some a /\ exact_value w = Some b /\
               xnum_compare a b = Some Eq).
Proof.
  split.
  - destruct v, w; cbn [py_eq exact_value]; try discriminate;
      try (intros _; now left);
      try (destruct (xnum_compare _ _) as [[]|] eqn:E; try discriminate;
           intros _; right; right; eauto).
    intros H. apply String.eqb_eq in H. subst. right; left; eauto.
  - intros [[-> ->] | [(s & -> & ->) | (a & b & Ha & Hb & E)]].
    + reflexivity.
    + apply String.eqb_refl.
    + destruct v, w; cbn [py_eq exact_value] in *; try discriminate;
        injection Ha as <-; injection Hb as <-; now rewrite E.
Qed.

Lemma py_lt_cases (v w : Scalar) :
  py_lt v w = Ok true <->
  (exists s t, v = Text s /\ w = Text t /\ String.ltb s t = true) \/
  (exists a b, exact_value v = Some a /\ exact_value w = Some b /\
               xnum_compare a b = Some Lt).
Proof.
  split.
  - destruct v, w; cbn [py_lt exact_value]; try discriminate;
      try (destruct (xnum_compare _ _) as [[]|] eqn:E; try discriminate;
           intros _; right; eauto).
    intros H. injection H as H. left; eauto.
  - intros [(s & t & -> & -> & H) | (a & b & Ha & Hb & E)].
    + cbn. now rewrite H.
    + destruct v, w; cbn [py_lt exact_value] in *; try discriminate;
        injection Ha as <-; injection Hb as <-; now rewrite E.
Qed.

Lemma py_eq_sym (v w : Scalar) : py_eq v w = true -> py_eq w v = true.
Proof.
  rewrite !py_eq_cases.
  intros [[-> ->] | [(s & -> & ->) | (a & b & Ha & Hb & E)]].
  - now left.
  - right; left; eauto.
  - right; right. exists b, a. auto using xnum_compare_eq_sym.
Qed.

Ltac scalar_cases :=
  repeat match goal with
         | H : _ \/ _ |- _ => destruct H
         | H : _ /\ _ |- _ => destruct H
         | H : exists _, _ |- _ => destruct H
         end;
  subst; cbn [exact_value] in *; try discriminate;
  repeat match goal with
         | H : Text _ = Text _ |- _ => injection H as H; subst
         | H : Some _ = Some _ |- _ => injection H as H; subst
         | H1 : exact_value ?v = Some ?a, H2 : exact_value ?v = Some ?b |- _ =>
             rewrite H1 in H2; injection H2 as H2; subst
         end;
  try discriminate.

Lemma py_eq_trans (u v w : Scalar) :
  py_eq u v = true -> py_eq v w = true -> py_eq u w = true.
Proof.
  rewrite !py_eq_cases. intros H1 H2. scalar_cases.
  - now left.
  - right; left; eauto.
  - right; right. eauto 6 using xnum_compare_eq_trans.
Qed.

Lemma py_lt_trans (u v w : Scalar) :
  py_lt u v = Ok true -> py_lt v w = Ok true -> py_lt u w = Ok true.
Proof.
  rewrite !py_lt_cases. intros H1 H2. scalar_cases.
  - left. eauto 6 using string_ltb_trans.
  - right. eauto 6 using xnum_compare_lt_trans.
Qed.

Lemma py_lt_eq_compat (u v w : Scalar) :
  py_lt u v = Ok true -> py_eq v w = true -> py_lt u w = Ok true.
Proof.
  rewrite !py_lt_cases, py_eq_cases. intros H1 H2. scalar_cases.
  - left; eauto 6.
  - right. eauto 6 using xnum_compare_lt_eq.
Qed.

Lemma py_eq_lt_compat (u v w : Scalar) :
  py_eq u v = true -> py_lt v w = Ok true -> py_lt u w = Ok true.
Proof.
  rewrite !py_lt_cases, py_eq_cases. intros H1 H2. scalar_cases.
  - left; eauto 6.
  - right. eauto 6 using xnum_compare_eq_lt.
Qed.

Lemma py_lt_not_eq (v w : Scalar) : py_lt v w = Ok true -> py_eq v w = false.
Proof.
  rewrite py_lt_cases.
  intros [(s & t & -> & -> & H) | (a & b & Ha & Hb & E)].
  - cbn. apply String.eqb_neq. intros ->.
    now rewrite string_ltb_irrefl in H.
  - destruct v, w; cbn [py_eq exact_value] in *; try discriminate;
      injection Ha as <-; injection Hb as <-; now rewrite E.
Qed.

Lemma py_lt_asym (v w : Scalar) : py_lt v w = Ok true -> py_lt w v = Ok false.
Proof.
  rewrite py_lt_cases.
  intros [(s & t & -> & -> & H) | (a & b & Ha & Hb & E)].
  - cbn. now rewrite (string_ltb_asym s t).
  - apply xnum_compare_lt_flip in E.
    destruct v, w; cbn [py_lt exact_value] in *; try discriminate;
      injection Ha as <-; injection Hb as <-; now rewrite E.
Qed.

(** ** Equality and order of tuples *)

Lemma tuple_eq_sym (a : list Scalar) :
  forall b, tuple_eq a b = true -> tuple_eq b a = true.
Proof.
  induction a as [|x a IH]; intros [|y b]; simpl; try congruence.
  intros H. apply andb_true_iff in H. destruct H as [H1 H2].
  now rewrite (py_eq_sym _ _ H1), (IH _ H2).
Qed.

Lemma tuple_eq_trans (a : list Scalar) :
  forall b c, tuple_eq a b = true -> tuple_eq b c = true ->
              tuple_eq a c = true.
Proof.
  induction a as [|x a IH]; intros [|y b] [|z c]; simpl; try congruence.
  intros H H'. apply andb_true_iff in H, H'.
  destruct H as [H1 H2], H' as [H1' H2'].
  now rewrite (py_eq_trans _ _ _ H1 H1'), (IH _ _ H2 H2').
Qed.

Lemma py_eq_false_left (x y z : Scalar) :
  py_eq x y = true -> py_eq x z = false -> py_eq y z = false.
Proof.
  intros H1 H2. destruct (py_eq y z) eqn:E; [|reflexivity].
  now rewrite (py_eq_trans _ _ _ H1 E) in H2.
Qed.

Lemma py_eq_false_right (x y z : Scalar) :
  py_eq y z = true -> py_eq x y = false -> py_eq x z = false.
Proof.
  intros H1 H2. destruct (py_eq x z) eqn:E; [|reflexivity].
  now rewrite (py_eq_trans _ _ _ E (py_eq_sym _ _ H1)) in H2.
Qed.

Lemma tuple_lt_not_eq (a : list Scalar) :
  forall b, tuple_lt a b = Ok true -> tuple_eq a b = false.
Proof.
  induction a as [|x a IH]; intros [|y b]; simpl; try congruence.
  destruct (py_eq x y) eqn:E; simpl; [apply IH | reflexivity].
Qed.

Lemma tuple_eq_lt_false (a : list Scalar) :
  forall b, tuple_eq a b = true -> tuple_lt a b = Ok false.
Proof.
  induction a as [|x a IH]; intros [|y b]; simpl; try congruence.
  intros H. apply andb_true_iff in H. destruct H as [H1 H2].
  rewrite H1. now apply IH.
Qed.

Lemma tuple_lt_asym (a : list Scalar) :
  forall b, tuple_lt a b = Ok true -> tuple_lt b a = Ok false.
Proof.
  induction a as [|x a IH]; intros [|y b]; simpl; try congruence.
  destruct (py_eq x y) eqn:E.
  - rewrite (py_eq_sym _ _ E). apply IH.
  - intros H. destruct (py_eq y x) eqn:E'.
    + now rewrite (py_eq_sym _ _ E') in E.
    + now apply py_lt_asym.
Qed.

Lemma tuple_lt_trans (a : list Scalar) :
  forall b c, tuple_lt a b = Ok true -> tuple_lt b c = Ok true ->
              tuple_lt a c = Ok true.
Proof.
  induction a as [|x a IH]; intros [|y b] [|z c]; simpl; try congruence.
  destruct (py_eq x y) eqn:Exy; destruct (py_eq y z) eqn:Eyz; intros H1 H2.
  - rewrite (py_eq_trans _ _ _ Exy Eyz). now apply IH with b.
  - rewrite (py_eq_false_left y x z (py_eq_sym _ _ Exy) Eyz).
    now apply py_eq_lt_compat with y.
  - rewrite (py_eq_false_right x y z Eyz Exy).
    now apply py_lt_eq_compat with y.
  - rewrite (py_lt_not_eq _ _ (py_lt_trans _ _ _ H1 H2)).
    now apply py_lt_trans with y.
Qed.

Lemma tuple_lt_eq_compat (a : list Scalar) :
  forall b c, tuple_lt a b = Ok true -> tuple_eq b c = true ->
              tuple_lt a c = Ok true.
Proof.
  induction a as [|x a IH]; intros [|y b] [|z c]; simpl; try congruence.
  intros H1 H2. apply andb_true_iff in H2. destruct H2 as [Eyz H2].
  destruct (py_eq x y) eqn:Exy.
  - rewrite (py_eq_trans _ _ _ Exy Eyz). now apply IH with b.
  - rewrite (py_eq_false_right x y z Eyz Exy).
    now apply py_lt_eq_compat with y.
Qed.

Lemma tuple_eq_lt_compat (a : list Scalar) :
  forall b c, tuple_eq a b = true -> tuple_lt b c = Ok true ->
              tuple_lt a c = Ok true.
Proof.
  induction a as [|x a IH]; intros [|y b] [|z c]; simpl; try congruence.
  intros H1 H2. apply andb_true_iff in H1. destruct H1 as [Exy H1].
  destruct (py_eq y z) eqn:Eyz.
  - rewrite (py_eq_trans _ _ _ Exy Eyz). now apply IH with b.
  - rewrite (py_eq_false_left y x z (py_eq_sym _ _ Exy) Eyz).
    now apply py_eq_lt_compat with y.
Qed.

(** ** Loops that do not raise *)

Lemma mapM_ok {A B : Type} (f : A -> result B) (g : A -> B) (l : list A) :
  (forall x, In x l -> f x = Ok (g x)) -> mapM f l = Ok (map g l).
Proof.
  induction l as [|x l IH]; intros H; simpl; [reflexivity|].
  rewrite (H x) by now left. simpl.
  rewrite IH; [reflexivity|]. intros y Hy. apply H. now right.
Qed.

Lemma foldM_app {A B : Type} (f : B -> A -> result B) (l1 l2 : list A)
    (acc : B) :
  foldM f (l1 ++ l2) acc = do acc' <- foldM f l1 acc; foldM f l2 acc'.
Proof.
  revert acc. induction l1 as [|x l1 IH]; intros acc; simpl; [reflexivity|].
  destruct (f acc x); simpl; [apply IH | reflexivity].
Qed.

(** ** Cells of a well-formed table *)

Lemma well_formed_column_length (t : DataFrame) (col : string) :
  well_formed t -> In col (columns t) ->
  exists values, dict_get (data t) col = Some values /\
                 List.length values = len t.
Proof.
  intros (Hcols & Hnd & Hlen) Hin. rewrite Hcols in Hin.
  apply dict_get_in_keys in Hin.
  destruct (dict_get (data t) col) as [values|] eqn:E; [|congruence].
  exists values. split; [reflexivity|].
  rewrite Forall_forall in Hlen. apply Hlen.
  clear - E. induction (data t) as [|[k v] d IH]; simpl in *; [discriminate|].
  destruct (key_eqb k col); [injection E as ->; now left | right; auto].
Qed.

Lemma cell_ok (t : DataFrame) (col : string) (i : nat) :
  well_formed t -> In col (columns t) -> i < len t ->
  cell t col i = Ok (value_at t col i).
Proof.
  intros Hwf Hin Hi.
  destruct (well_formed_column_length t col Hwf Hin) as (values & E & Hl).
  unfold cell, getitem, value_at, column_values. rewrite E. simpl.
  unfold list_item.
  destruct (nth_error values i) as [v|] eqn:En.
  - now rewrite (nth_error_nth _ _ _ En).
  - apply nth_error_None in En. lia.
Qed.

Lemma get_sort_key_ok (t : DataFrame) (by_ : list string) (i : nat) :
  well_formed t -> incl by_ (columns t) -> i < len t ->
  get_sort_key t by_ i = Ok (key_at t by_ i).
Proof.
  intros Hwf Hby Hi. unfold get_sort_key, key_at.
  apply mapM_ok. intros col Hc. apply cell_ok; auto.
Qed.

(** ** The stable sort *)

Section StableSort.
Context {K : Type} (lt : K -> K -> result bool) (eqk : K -> K -> bool).
Context (before : nat -> nat -> Prop).

Hypothesis lt_trans : forall a b c,
  lt a b = Ok true -> lt b c = Ok true -> lt a c = Ok true.
Hypothesis lt_eq : forall a b c,
  lt a b = Ok true -> eqk b c = true -> lt a c = Ok true.
Hypothesis lt_asym : forall a b, lt a b = Ok true -> lt b a = Ok false.
Hypothesis eq_lt_false : forall a b, eqk a b = true -> lt a b = Ok false.
Hypothesis eq_sym : forall a b, eqk a b = true -> eqk b a = true.

Local Abbreviation ordered := (ordered lt eqk before).
Local Abbreviation earlier := (earlier lt eqk before).

Lemma insert_sorted_ok (x : K * nat) (l : list (K * nat)) :
  StronglySorted ordered l ->
  Forall (fun y => earlier y x) l ->
  exists l', insert_sorted lt x l = Ok l' /\
             Permutation l' (x :: l) /\
             StronglySorted ordered l'.
Proof.
  intros Hs. induction Hs as [|y l Hs IH Hy]; intros Hx.
  - exists [x]. repeat split; auto. repeat constructor.
  - inversion Hx as [|? ? [Hc Hb] Hx']; subst. simpl.
    assert (Hskip : lt (fst x) (fst y) = Ok false ->
                    ordered y x ->
                    exists l', (do r <- insert_sorted lt x l; Ok (y :: r)) = Ok l' /\
                               Permutation l' (x :: y :: l) /\
                               StronglySorted ordered l').
    { intros _ Hyx. destruct (IH Hx') as (l' & E & Hp & Hs').
      exists (y :: l'). rewrite E. simpl. repeat split.
      - rewrite Hp. apply perm_swap.
      - constructor; [exact Hs'|].
        apply Forall_forall. intros z Hz.
        apply (Permutation_in _ Hp) in Hz. destruct Hz as [<-|Hz];
          [exact Hyx | rewrite Forall_forall in Hy; now apply Hy]. }
    destruct Hc as [Hlt | [Hgt | Heq]].
    + rewrite Hlt. simpl. exists (x :: y :: l). repeat split; auto.
      constructor; [now constructor|].
      constructor; [now left|].
      apply Forall_forall. intros z Hz. rewrite Forall_forall in Hy.
      destruct (Hy z Hz) as [H | [H _]]; left; eauto.
    + rewrite (lt_asym _ _ Hgt). simpl. apply Hskip; [auto | now left].
    + rewrite (eq_lt_false _ _ Heq). simpl.
      apply Hskip; [auto | right; auto].
Qed.

Lemma stable_sort_acc (l : list (K * nat)) :
  forall acc,
    StronglySorted ordered acc ->
    Forall (fun y => Forall (fun x => earlier y x) l) acc ->
    ForallOrdPairs earlier l ->
    exists s, foldM (fun acc x => insert_sorted lt x acc) l acc = Ok s /\
              Permutation s (acc ++ l) /\
              StronglySorted ordered s.
Proof.
  induction l as [|x l IH]; intros acc Hs Hacc Hl; simpl.
  - exists acc. rewrite app_nil_r. auto.
  - inversion Hl as [|? ? Hx Hl']; subst.
    destruct (insert_sorted_ok x acc Hs) as (acc' & E & Hp & Hs').
    { eapply Forall_impl; [|exact Hacc]. intros y Hy. now inversion Hy. }
    rewrite E. simpl.
    destruct (IH acc' Hs') as (s & E' & Hp' & Hs''); [|exact Hl'|].
    + apply Forall_forall. intros y Hy.
      apply (Permutation_in _ Hp) in Hy. destruct Hy as [<-|Hy].
      * exact Hx.
      * rewrite Forall_forall in Hacc. specialize (Hacc y Hy).
        now inversion Hacc.
    + exists s. repeat split; auto.
      rewrite Hp', Hp. now rewrite <- Permutation_middle.
Qed.

Lemma stable_sort_ok (l : list (K * nat)) :
  ForallOrdPairs earlier l ->
  exists s, stable_sort lt l = Ok s /\
            Permutation s l /\
            StronglySorted ordered s.
Proof.
  intros Hl. apply (stable_sort_acc l []); auto; constructor.
Qed.

End StableSort.

Lemma StronglySorted_app_inv {A : Type} (R : A -> A -> Prop)
    (l1 l2 l3 : list A) (i j : A) :
  StronglySorted R (l1 ++ i :: l2 ++ j :: l3) -> R i j.
Proof.
  induction l1 as [|x l1 IH]; simpl; intros H.
  - inversion H as [|? ? _ Hall]; subst.
    rewrite Forall_forall in Hall. apply Hall.
    apply in_or_app. right. now left.
  - inversion H; subst. auto.
Qed.

Lemma StronglySorted_rev {A : Type} (R : A -> A -> Prop) (l : list A) :
  StronglySorted R l -> StronglySorted (fun x y => R y x) (rev l).
Proof.
  induction 1 as [|x l Hs IH Hx]; simpl; [constructor|].
  assert (G : forall l', StronglySorted (fun x y => R y x) l' ->
                         Forall (fun y => R x y) l' ->
                         StronglySorted (fun x y => R y x) (l' ++ [x])).
  { clear. induction l' as [|y l' IH]; simpl; intros Hs Hx.
    - repeat constructor.
    - inversion Hs; subst. inversion Hx; subst.
      constructor; [auto|].
      apply Forall_app. split; [assumption | now repeat constructor]. }
  apply G; [exact IH|].
  apply Forall_forall. intros y Hy. apply in_rev in Hy.
  rewrite Forall_forall in Hx. now apply Hx.
Qed.

Lemma StronglySorted_weaken {A : Type} (R R' : A -> A -> Prop) (l : list A) :
  (forall x y, R x y -> R' x y) -> StronglySorted R l -> StronglySorted R' l.
Proof.
  intros HR. induction 1 as [|x l Hs IH Hx]; constructor; [exact IH|].
  eapply Forall_impl; [|exact Hx]. auto.
Qed.

Lemma StronglySorted_map_snd {K : Type} (R : K * nat -> K * nat -> Prop)
    (f : nat -> K) (s : list (K * nat)) :
  StronglySorted R s ->
  (forall x, In x s -> x = (f (snd x), snd x)) ->
  StronglySorted (fun i j => R (f i, i) (f j, j)) (map snd s).
Proof.
  induction 1 as [|x s Hs IH Hx]; intros Hf; simpl; [constructor|].
  constructor.
  - apply IH. intros y Hy. apply Hf. now right.
  - apply Forall_forall. intros j Hj. apply in_map_iff in Hj.
    destruct Hj as (y & <- & Hy). rewrite Forall_forall in Hx.
    rewrite <- (Hf x) by now left. rewrite <- (Hf y) by now right.
    now apply Hx.
Qed.

Lemma combine_map_seq {K : Type} (f : nat -> K) (l : list nat) :
  combine (map f l) l = map (fun i => (f i, i)) l.
Proof. induction l as [|i l IH]; simpl; [reflexivity | now rewrite IH]. Qed.

Lemma ForallOrdPairs_map {A B : Type} (R : B -> B -> Prop) (f : A -> B)
    (l : list A) :
  ForallOrdPairs (fun x y => R (f x) (f y)) l -> ForallOrdPairs R (map f l).
Proof.
  induction 1 as [|x l Hx Hl IH]; simpl; constructor; [|exact IH].
  apply Forall_forall. intros y Hy. apply in_map_iff in Hy.
  destruct Hy as (z & <- & Hz). rewrite Forall_forall in Hx. now apply Hx.
Qed.

Lemma ForallOrdPairs_seq (R : nat -> nat -> Prop) (start n : nat) :
  (forall i j, start <= i -> i < j -> j < start + n -> R i j) ->
  ForallOrdPairs R (seq start n).
Proof.
  revert start. induction n as [|n IH]; intros start H; simpl; constructor.
  - apply Forall_forall. intros j Hj. apply in_seq in Hj. apply H; lia.
  - apply IH. intros i j Hi Hij Hj. apply H; lia.
Qed.

Lemma ForallOrdPairs_rev {A : Type} (R : A -> A -> Prop) (l : list A) :
  ForallOrdPairs R l -> ForallOrdPairs (fun x y => R y x) (rev l).
Proof.
  induction 1 as [|x l Hx Hl IH]; simpl; [constructor|].
  assert (G : forall l', ForallOrdPairs (fun x y => R y x) l' ->
                         Forall (fun y => R x y) l' ->
                         ForallOrdPairs (fun x y => R y x) (l' ++ [x])).
  { clear. induction l' as [|y l' IH]; simpl; intros Hs Hx.
    - repeat constructor.
    - inversion Hs; subst. inversion Hx; subst.
      constructor; [|auto].
      apply Forall_app. split; [assumption | now repeat constructor]. }
  apply G; [exact IH|].
  apply Forall_forall. intros y Hy. apply in_rev in Hy.
  rewrite Forall_forall in Hx. now apply Hx.
Qed.

Lemma sorted_indices_ok (t : DataFrame) (by_ : list string) (ascending : bool) :
  well_formed t ->
  incl by_ (columns t) ->
  (forall i j, i < len t -> j < len t ->
               comparable (key_at t by_ i) (key_at t by_ j)) ->
  exists idxs,
    sorted_indices t by_ ascending = Ok idxs /\
    Permutation idxs (seq 0 (len t)) /\
    StronglySorted (sort_order t by_ ascending) idxs.
Proof.
  intros Hwf Hby Hcmp. unfold sorted_indices, py_sorted.
  rewrite (mapM_ok _ (key_at t by_)).
  2:{ intros i Hi. apply in_seq in Hi. apply get_sort_key_ok; auto; lia. }
  cbn [bind]. rewrite combine_map_seq. unfold sort_keyed.
  set (keyed := map (fun i => (key_at t by_ i, i)) (seq 0 (len t))).
  assert (Hform : forall s, Permutation s keyed ->
                  forall x, In x s -> x = (key_at t by_ (snd x), snd x)).
  { intros s Hp x Hx. apply (Permutation_in _ Hp) in Hx.
    apply in_map_iff in Hx. now destruct Hx as (i & <- & _). }
  assert (Hidx : forall s, Permutation s keyed ->
                 Permutation (map snd s) (seq 0 (len t))).
  { intros s Hp. rewrite Hp. unfold keyed. rewrite map_map. simpl.
    now rewrite map_id. }
  assert (Hpairs : forall before : nat -> nat -> Prop,
             (forall i j, i < j -> before i j) ->
             ForallOrdPairs (earlier tuple_lt tuple_eq before) keyed).
  { intros before Hb. apply ForallOrdPairs_map. apply ForallOrdPairs_seq.
    intros i j _ Hij Hj. split; simpl; [|auto].
    destruct (Hcmp j i) as [H | [H | H]]; try lia;
      unfold orderable; auto. }
  destruct ascending; cbn [negb].
  - destruct (stable_sort_ok tuple_lt tuple_eq Nat.lt
                tuple_lt_trans tuple_lt_eq_compat tuple_lt_asym
                tuple_eq_lt_false tuple_eq_sym keyed)
      as (s & E & Hp & Hs); [now apply Hpairs|].
    rewrite E. cbn [bind]. exists (map snd s). repeat split; auto.
    apply (StronglySorted_map_snd _ (key_at t by_)) in Hs;
      [exact Hs | now apply Hform].
  - destruct (stable_sort_ok tuple_lt tuple_eq (fun i j => j < i)
                tuple_lt_trans tuple_lt_eq_compat tuple_lt_asym
                tuple_eq_lt_false tuple_eq_sym (rev keyed))
      as (s & E & Hp & Hs).
    { apply ForallOrdPairs_rev.
      apply ForallOrdPairs_map. apply ForallOrdPairs_seq.
      intros i j _ Hij Hj. split; simpl; [|auto].
      destruct (Hcmp i j) as [H | [H | H]]; try lia;
        unfold orderable; auto. }
    rewrite E. cbn [bind].
    assert (Hp' : Permutation s keyed)
      by (rewrite Hp; symmetry; apply Permutation_rev).
    exists (map snd (rev s)). repeat split; auto.
    + rewrite <- Permutation_rev. auto.
    + rewrite map_rev. apply StronglySorted_rev.
      apply (StronglySorted_map_snd _ (key_at t by_)) in Hs;
        [|now apply Hform].
      eapply StronglySorted_weaken; [|exact Hs].
      intros i j [H | [H1 H2]]; [now left | right].
      split; [now apply tuple_eq_sym | exact H2].
Qed.

Lemma dict_comprehension_ok {V : Type} (ks : list string)
    (f : string -> result V) (g : string -> V) :
  NoDup ks ->
  (forall k, In k ks -> f k = Ok (g k)) ->
  dict_comprehension ks f = Ok (map (fun k => (k, g k)) ks).
Proof.
  intros Hnd Hf. unfold dict_comprehension.
  assert (G : forall acc : dict string V,
             NoDup (dict_keys acc ++ ks) ->
             foldM (fun d k => do v <- f k; Ok (dict_set d k v)) ks acc =
             Ok (acc ++ map (fun k => (k, g k)) ks)).
  { induction ks as [|k ks IH]; intros acc Hacc; simpl.
    - now rewrite app_nil_r.
    - rewrite (Hf k) by now left. simpl.
      rewrite dict_set_absent.
      + rewrite IH.
        * now rewrite <- app_assoc.
        * now inversion Hnd.
        * intros k' Hk'. apply Hf. now right.
        * unfold dict_keys in *. rewrite map_app, <- app_assoc. exact Hacc.
      + apply NoDup_remove_2 in Hacc. rewrite in_app_iff in Hacc. tauto. }
  apply (G []). exact Hnd.
Qed.

Lemma value_at_entry (t : DataFrame) (kv : string * column) (i : nat) :
  NoDup (dict_keys (data t)) -> In kv (data t) ->
  value_at t (fst kv) i = nth i (snd kv) Null.
Proof.
  intros Hnd Hin. unfold value_at, column_values.
  destruct kv as [k v]. cbn [fst snd].
  now rewrite (dict_get_NoDup_in _ _ _ Hnd Hin).
Qed.

Lemma map_nth_seq {A : Type} (l : list A) (d : A) :
  map (fun p => nth p l d) (seq 0 (List.length l)) = l.
Proof.
  induction l as [|x l IH]; simpl; [reflexivity|].
  f_equal. rewrite <- seq_shift, map_map. exact IH.
Qed.

Lemma len_reorder (t : DataFrame) (idxs : list nat) :
  data t <> [] -> len (reorder t idxs) = List.length idxs.
Proof.
  unfold len, reorder. cbn [data].
  destruct (data t) as [|[k v] d]; [congruence|]. intros _. simpl.
  now rewrite length_map.
Qed.

Lemma rows_reorder (t : DataFrame) (idxs : list nat) :
  well_formed t ->
  Forall (fun i => i < len t) idxs ->
  rows (reorder t idxs) = map (row_at t) idxs.
Proof.
  intros (Hcols & Hnd & Hlen) Hidx. unfold rows.
  assert (Hcase : data t = [] \/ data t <> [])
    by (destruct (data t); [left | right]; congruence).
  destruct Hcase as [Ed | Ed].
  - destruct idxs as [|i idxs]; [unfold len, reorder; now rewrite Ed|].
    inversion Hidx; subst. unfold len in *. rewrite Ed in *. lia.
  - rewrite len_reorder by assumption.
    transitivity (map (row_at t)
                    (map (fun p => nth p idxs 0) (seq 0 (List.length idxs))));
      [|now rewrite map_nth_seq].
    rewrite map_map. apply map_ext_in. intros p Hp. apply in_seq in Hp.
    unfold row_at, key_at. cbn [columns reorder].
    apply map_ext_in. intros c Hc. rewrite Hcols in Hc.
    apply in_map_iff in Hc. destruct Hc as ([k v] & <- & Hkv).
    cbn [fst].
    assert (Hnd' : NoDup (dict_keys (data (reorder t idxs)))).
    { unfold dict_keys, reorder. cbn [data]. rewrite map_map. exact Hnd. }
    assert (Hin' : In (k, map (fun i => nth i v Null) idxs)
                      (data (reorder t idxs))).
    { unfold reorder. cbn [data]. apply in_map_iff. exists (k, v). auto. }
    pose proof (value_at_entry _ _ p Hnd' Hin') as E1.
    pose proof (value_at_entry t (k, v) (nth p idxs 0) Hnd Hkv) as E2.
    cbn [fst snd] in E1, E2. rewrite E1, E2.
    assert (Hp' : p < List.length idxs) by lia.
    rewrite (nth_indep _ Null (nth 0 v Null))
      by (rewrite length_map; exact Hp').
    rewrite (map_nth (fun i => nth i v Null) idxs 0 p). reflexivity.
Qed.

Lemma sort_reorders (t : DataFrame) (by_ : list string) (ascending : bool)
    (idxs : list nat) :
  well_formed t ->
  incl by_ (columns t) ->
  sorted_indices t by_ ascending = Ok idxs ->
  Forall (fun i => i < len t) idxs ->
  sort t by_ ascending = Ok (reorder t idxs).
Proof.
  intros Hwf Hby E Hidx. unfold sort. rewrite E.
  assert (forallb (fun col => name_in col (columns t)) by_ = true) as ->.
  { apply forallb_forall. intros c Hc. apply name_in_spec. now apply Hby. }
  cbn [negb bind].
  destruct Hwf as (Hcols & Hnd & Hlen).
  rewrite (dict_comprehension_ok _ _
             (fun col => map (fun i => value_at t col i) idxs)).
  - cbn [bind].
    assert (Hd : map (fun k => (k, map (fun i => value_at t k i) idxs))
                   (columns t) = data (reorder t idxs)).
    { rewrite Hcols. unfold dict_keys, reorder. cbn [data].
      rewrite map_map. apply map_ext_in. intros kv Hkv. f_equal.
      apply map_ext. intros i. now apply value_at_entry. }
    rewrite Hd.
    rewrite (DataFrame_init_ok _ (List.length idxs)).
    + unfold reorder at 2. cbn [data]. unfold dict_keys. rewrite map_map.
      cbn [fst]. unfold reorder. f_equal. f_equal. now rewrite Hcols.
    + unfold dict_keys, reorder. cbn [data]. rewrite map_map. exact Hnd.
    + unfold dict_values, reorder. cbn [data]. rewrite map_map.
      apply Forall_map. apply Forall_forall. intros kv _. cbn [snd].
      now rewrite length_map.
  - now rewrite Hcols.
  - intros k Hk. apply mapM_ok. intros i Hi.
    rewrite Forall_forall in Hidx. apply cell_ok; auto.
    now split.
Qed.

(** C8.  On a well-formed table whose key tuples are mutually comparable,
    [sort] by existing columns returns the rows of the table in an order
    [idxs] that is a permutation of the row numbers, sorted by key in the
    direction asked for, and stable: of two rows with equal key tuples, the
    one that comes first in the output is the one that comes first in the
    input. *)
Theorem sort_stable :
  forall (t : DataFrame) (by_ : list string) (ascending : bool),
    well_formed t ->
    incl by_ (columns t) ->
    (forall i j, i < len t -> j < len t ->
                 comparable (key_at t by_ i) (key_at t by_ j)) ->
    exists idxs r,
      sort t by_ ascending = Ok r /\
      columns r = columns t /\
      rows r = map (row_at t) idxs /\
      Permutation idxs (seq 0 (len t)) /\
      StronglySorted (sort_order t by_ ascending) idxs /\
      (forall l1 i l2 j l3,
          idxs = l1 ++ i :: l2 ++ j :: l3 ->
          tuple_eq (key_at t by_ i) (key_at t by_ j) = true ->
          i < j).
Proof.
  intros t by_ ascending Hwf Hby Hcmp.
  destruct (sorted_indices_ok t by_ ascending Hwf Hby Hcmp)
    as (idxs & E & Hp & Hs).
  assert (Hidx : Forall (fun i => i < len t) idxs).
  { apply Forall_forall. intros i Hi. apply (Permutation_in _ Hp) in Hi.
    apply in_seq in Hi. lia. }
  exists idxs, (reorder t idxs). split; [|split; [|split; [|split; [|split]]]].
  - now apply sort_reorders.
  - reflexivity.
  - now apply rows_reorder.
  - exact Hp.
  - exact Hs.
  - intros l1 i l2 j l3 -> Heq.
    apply StronglySorted_app_inv in Hs.
    destruct Hs as [H | [_ H]]; [|exact H].
    destruct ascending.
    + apply tuple_lt_not_eq in H. congruence.
    + apply tuple_lt_not_eq in H. apply tuple_eq_sym in Heq. congruence.
Qed.

Lemma sort_stable_witness :
  let t := mkDataFrame
             [("k", [Int 2; Int 1; Int 2; Int 1]);
              ("v", [Text "a"; Text "b"; Text "c"; Text "d"])]
             ["k"; "v"] in
  sort t ["k"] false =
  Ok (mkDataFrame
        [("k", [Int 2; Int 2; Int 1; Int 1]);
         ("v", [Text "a"; Text "c"; Text "b"; Text "d"])]
        ["k"; "v"]).
Proof.
  intros t.
  assert (Hwf : well_formed t).
  { split; [reflexivity|]. split.
    - repeat constructor; simpl; intuition discriminate.
    - repeat constructor. }
  assert (Hby : incl ["k"] (columns t)).
  { intros c [<-|[]]. now left. }
  assert (Hcmp : forall i j, i < len t -> j < len t ->
                             comparable (key_at t ["k"] i) (key_at t ["k"] j)).
  { intros i j Hi Hj. change (len t) with 4 in Hi, Hj.
    destruct i as [|[|[|[|i]]]]; try lia;
      destruct j as [|[|[|[|j]]]]; try lia;
      vm_compute; intuition congruence. }
  destruct (sort_stable t ["k"] false Hwf Hby Hcmp)
    as (idxs & r & E & _). rewrite E. vm_compute in E.
  now injection E as <-.
Defined.

(** ** Grouping rows by key *)

Section FirstSeenFacts.
Context {K : Type} `{KeyEq K} (d : K).

Hypothesis key_sym : forall a b : K, key_eqb a b = true -> key_eqb b a = true.
Hypothesis key_trans : forall a b c : K,
  key_eqb a b = true -> key_eqb b c = true -> key_eqb a c = true.

Lemma key_eqb_false_trans (a b c : K) :
  key_eqb a b = true -> key_eqb a c = false -> key_eqb b c = false.
Proof.
  intros H1 H2. destruct (key_eqb b c) eqn:E; [|reflexivity].
  now rewrite (key_trans _ _ _ H1 E) in H2.
Qed.

Lemma key_eqb_equiv_right (a b c : K) :
  key_eqb b c = true -> key_eqb a b = key_eqb a c.
Proof.
  intros Hbc. destruct (key_eqb a b) eqn:E1, (key_eqb a c) eqn:E2; auto.
  - now rewrite (key_trans _ _ _ E1 Hbc) in E2.
  - now rewrite (key_trans _ _ _ E2 (key_sym _ _ Hbc)) in E1.
Qed.

Lemma combine_snoc {A B : Type} (l : list A) (m : list B) (x : A) (y : B) :
  List.length l = List.length m ->
  combine (l ++ [x]) (m ++ [y]) = combine l m ++ [(x, y)].
Proof.
  revert m. induction l as [|a l IH]; intros [|b m] Hl; simpl in *;
    try discriminate; [reflexivity|].
  f_equal. apply IH. now injection Hl.
Qed.

Lemma scan_index_app (ks : list K) (k : K) :
  scan_index (ks ++ [k]) =
  index_add (scan_index ks) k (List.length ks).
Proof.
  unfold scan_index. rewrite length_app. simpl List.length.
  rewrite Nat.add_1_r, seq_S. simpl.
  rewrite combine_snoc by now rewrite length_seq.
  now rewrite fold_left_app.
Qed.

(** Looking a key up in the index gives the rows that have an equal key,
    in order, and nothing when there is none. *)
Lemma matching_rows_app (ks : list K) (k' k : K) :
  matching_rows d (ks ++ [k']) k =
  matching_rows d ks k ++ (if key_eqb k' k then [List.length ks] else []).
Proof.
  unfold matching_rows. rewrite length_app. simpl List.length.
  rewrite Nat.add_1_r, seq_S, filter_app. simpl.
  rewrite nth_middle. f_equal.
  apply filter_ext_in. intros j Hj. apply in_seq in Hj.
  now rewrite app_nth1 by lia.
Qed.

Lemma dict_get_index_add_same (index : dict K (list nat)) (k' k : K) (n : nat) :
  key_eqb k' k = true ->
  dict_get (index_add index k' n) k =
  Some (match dict_get index k with Some l => l ++ [n] | None => [n] end).
Proof.
  intros E. unfold index_add.
  assert (Hsame : forall e : K, key_eqb e k' = key_eqb e k)
    by (intros e; now apply key_eqb_equiv_right).
  induction index as [|[e l] index IH]; cbn [dict_get dict_set app].
  - now rewrite E.
  - rewrite (Hsame e). destruct (key_eqb e k) eqn:Ee.
    + cbn [dict_set dict_get]. now rewrite ?(Hsame e), Ee.
    + destruct (dict_get index k') as [l'|] eqn:Eg;
        cbn [dict_set dict_get app]; rewrite ?(Hsame e), Ee;
        cbn [dict_get]; rewrite ?Ee; exact IH.
Qed.

Lemma dict_get_index_add_other (index : dict K (list nat)) (k' k : K) (n : nat) :
  key_eqb k' k = false ->
  dict_get (index_add index k' n) k = dict_get index k.
Proof.
  intros E. unfold index_add.
  induction index as [|[e l] index IH]; cbn [dict_get dict_set app].
  - now rewrite E.
  - destruct (key_eqb e k') eqn:Ee.
    + cbn [dict_set dict_get]. rewrite ?Ee. cbn [dict_get].
      destruct (key_eqb e k) eqn:Ek; [|reflexivity].
      exfalso. rewrite (key_trans _ _ _ (key_sym _ _ Ee) Ek) in E.
      discriminate.
    + destruct (dict_get index k') as [l'|] eqn:Eg;
        cbn [dict_set dict_get app]; rewrite ?Ee; cbn [dict_get];
        destruct (key_eqb e k); auto.
Qed.

Lemma dict_get_scan_index (ks : list K) (k : K) :
  dict_get (scan_index ks) k =
  match matching_rows d ks k with
  | [] => None
  | l => Some l
  end.
Proof.
  induction ks as [|k' ks IH] using rev_ind; [reflexivity|].
  rewrite scan_index_app, matching_rows_app.
  destruct (key_eqb k' k) eqn:E.
  - rewrite dict_get_index_add_same by assumption. rewrite IH.
    destruct (matching_rows d ks k); reflexivity.
  - rewrite dict_get_index_add_other by assumption. rewrite IH.
    now rewrite app_nil_r.
Qed.

(** The index lists the groups in the order of their first rows. *)
Lemma existsb_ext_in {A : Type} (f g : A -> bool) (l : list A) :
  (forall x, In x l -> f x = g x) -> existsb f l = existsb g l.
Proof.
  induction l as [|x l IH]; intros Hfg; simpl; [reflexivity|].
  rewrite (Hfg x) by now left. f_equal. apply IH.
  intros y Hy. apply Hfg. now right.
Qed.

Lemma is_first_app (ks : list K) (k : K) (i : nat) :
  i < List.length ks -> is_first d (ks ++ [k]) i = is_first d ks i.
Proof.
  intros Hi. unfold is_first. f_equal. rewrite (app_nth1 ks [k] d Hi).
  apply existsb_ext_in. intros j Hj. apply in_seq in Hj.
  now rewrite app_nth1 by lia.
Qed.

Lemma is_first_last (ks : list K) (k : K) :
  is_first d (ks ++ [k]) (List.length ks) =
  negb (existsb (fun j => key_eqb (nth j ks d) k) (seq 0 (List.length ks))).
Proof.
  unfold is_first. f_equal. rewrite nth_middle.
  apply existsb_ext_in. intros j Hj. apply in_seq in Hj.
  now rewrite app_nth1 by lia.
Qed.

Lemma first_rows_app (ks : list K) (k : K) :
  first_rows d (ks ++ [k]) =
  first_rows d ks ++
  (if is_first d (ks ++ [k]) (List.length ks) then [List.length ks] else []).
Proof.
  unfold first_rows. rewrite length_app. simpl List.length.
  rewrite Nat.add_1_r, seq_S, filter_app. simpl. f_equal.
  apply filter_ext_in. intros i Hi. apply in_seq in Hi.
  apply is_first_app. lia.
Qed.

Lemma first_rows_bound (ks : list K) (i : nat) :
  In i (first_rows d ks) -> i < List.length ks.
Proof.
  unfold first_rows. intros Hi. apply filter_In in Hi.
  destruct Hi as [Hi _]. apply in_seq in Hi. lia.
Qed.

Lemma group_of_app (ks : list K) (k : K) (i : nat) :
  i < List.length ks ->
  group_of d (ks ++ [k]) i = add_row k (List.length ks) (group_of d ks i).
Proof.
  intros Hi. unfold group_of, add_row. cbn [fst snd].
  rewrite (app_nth1 ks [k] d Hi). f_equal.
  rewrite length_app. simpl List.length.
  replace (List.length ks + 1 - S i) with (S (List.length ks - S i)) by lia.
  rewrite seq_S, filter_app.
  replace (S i + (List.length ks - S i)) with (List.length ks) by lia.
  simpl. rewrite nth_middle. do 2 f_equal.
  apply filter_ext_in. intros j Hj. apply in_seq in Hj.
  now rewrite app_nth1 by lia.
Qed.

Lemma group_of_last (ks : list K) (k : K) :
  group_of d (ks ++ [k]) (List.length ks) = (k, [List.length ks]).
Proof.
  unfold group_of. rewrite nth_middle, length_app. simpl List.length.
  replace (List.length ks + 1 - S (List.length ks)) with 0 by lia.
  reflexivity.
Qed.

Lemma index_add_cons_other (e : K * list nat) (index : dict K (list nat))
    (k : K) (n : nat) :
  key_eqb (fst e) k = false ->
  index_add (e :: index) k n = e :: index_add index k n.
Proof.
  intros E. unfold index_add. destruct e as [k' l]. cbn [fst] in E.
  cbn [dict_get]. rewrite E.
  destruct (dict_get index k); cbn [dict_set app]; now rewrite ?E.
Qed.

Lemma index_add_groups (index : dict K (list nat)) (k : K) (n : nat) :
  ForallOrdPairs (fun e e' => key_eqb (fst e) (fst e') = false) index ->
  index_add index k n =
  map (add_row k n) index ++
  (if existsb (fun e => key_eqb (fst e) k) index then [] else [(k, [n])]).
Proof.
  induction 1 as [|e index He Hp IH]; [reflexivity|].
  cbn [map existsb]. destruct (key_eqb (fst e) k) eqn:E.
  - cbn [orb]. rewrite app_nil_r. unfold index_add. destruct e as [k' l].
    cbn [fst] in *. cbn [dict_get]. rewrite E. cbn [dict_set]. rewrite E.
    unfold add_row at 1. cbn [fst snd]. rewrite E. f_equal.
    rewrite <- (map_id index) at 1. apply map_ext_in.
    intros [k0 l0] Hin. unfold add_row. cbn [fst snd].
    rewrite Forall_forall in He. specialize (He _ Hin). cbn [fst] in He.
    assert (E0 : key_eqb k0 k = false).
    { destruct (key_eqb k0 k) eqn:E0; [|reflexivity].
      now rewrite (key_trans _ _ _ E (key_sym _ _ E0)) in He. }
    now rewrite E0, app_nil_r.
  - cbn [orb]. rewrite index_add_cons_other by assumption.
    rewrite IH. unfold add_row at 2. rewrite E, app_nil_r.
    now destruct e.
Qed.

Lemma ForallOrdPairs_filter {A : Type} (R : A -> A -> Prop) (f : A -> bool)
    (l : list A) :
  ForallOrdPairs (fun x y => f x = true -> f y = true -> R x y) l ->
  ForallOrdPairs R (filter f l).
Proof.
  induction 1 as [|x l Hx Hl IH]; simpl; [constructor|].
  destruct (f x) eqn:E; [|exact IH]. constructor; [|exact IH].
  apply Forall_forall. intros y Hy. apply filter_In in Hy.
  destruct Hy as [Hy Ey]. rewrite Forall_forall in Hx. now apply Hx.
Qed.

Lemma first_rows_distinct (ks : list K) :
  ForallOrdPairs
    (fun i i' => key_eqb (nth i ks d) (nth i' ks d) = false)
    (first_rows d ks).
Proof.
  unfold first_rows. apply ForallOrdPairs_filter.
  apply ForallOrdPairs_seq. intros i i' _ Hii' _ _ Hf.
  unfold is_first in Hf. apply negb_true_iff in Hf.
  destruct (key_eqb (nth i ks d) (nth i' ks d)) eqn:E; [|reflexivity].
  assert (existsb (fun j => key_eqb (nth j ks d) (nth i' ks d)) (seq 0 i')
          = true); [|congruence].
  apply existsb_exists. exists i. split; [apply in_seq; lia | exact E].
Qed.

Lemma first_seen_groups_distinct (ks : list K) :
  ForallOrdPairs (fun e e' => key_eqb (fst e) (fst e') = false)
    (first_seen_groups d ks).
Proof.
  unfold first_seen_groups. apply ForallOrdPairs_map. cbn [group_of fst].
  apply first_rows_distinct.
Qed.

(** Every row has an equal first row. *)
Lemma first_row_found (ks : list K) (k : K) :
  forall j, j < List.length ks -> key_eqb (nth j ks d) k = true ->
            exists i, In i (first_rows d ks) /\
                      key_eqb (nth i ks d) k = true.
Proof.
  intros j. induction j as [j IH] using lt_wf_ind. intros Hj E.
  destruct (is_first d ks j) eqn:Ef.
  - exists j. split; [|exact E]. unfold first_rows. apply filter_In.
    split; [apply in_seq; lia | exact Ef].
  - unfold is_first in Ef. apply negb_false_iff in Ef.
    apply existsb_exists in Ef. destruct Ef as (j' & Hj' & E').
    apply in_seq in Hj'. apply (IH j'); [lia | lia |].
    now apply key_trans with (nth j ks d).
Qed.

Lemma existsb_first_rows (ks : list K) (k : K) :
  existsb (fun e => key_eqb (fst e) k) (first_seen_groups d ks) =
  existsb (fun j => key_eqb (nth j ks d) k) (seq 0 (List.length ks)).
Proof.
  unfold first_seen_groups.
  destruct (existsb (fun j => key_eqb (nth j ks d) k)
              (seq 0 (List.length ks))) eqn:E.
  - apply existsb_exists in E. destruct E as (j & Hj & E).
    apply in_seq in Hj. destruct (first_row_found ks k j) as (i & Hi & Ei);
      [lia | exact E |].
    apply existsb_exists. exists (group_of d ks i). split; [|exact Ei].
    now apply in_map.
  - destruct (existsb _ (map _ _)) eqn:E'; [|reflexivity].
    apply existsb_exists in E'. destruct E' as (e & He & Ee).
    apply in_map_iff in He. destruct He as (i & <- & Hi).
    assert (existsb (fun j => key_eqb (nth j ks d) k)
              (seq 0 (List.length ks)) = true); [|congruence].
    apply existsb_exists. exists i. split; [|exact Ee].
    apply in_seq. apply first_rows_bound in Hi. lia.
Qed.

(** Scanning the rows top to bottom builds one group for each distinct
    key, in the order in which the keys are first seen. *)
Lemma scan_index_first_seen (ks : list K) :
  scan_index ks = first_seen_groups d ks.
Proof.
  induction ks as [|k ks IH] using rev_ind; [reflexivity|].
  rewrite scan_index_app, IH.
  rewrite index_add_groups by apply first_seen_groups_distinct.
  unfold first_seen_groups at 3. rewrite first_rows_app, map_app. f_equal.
  - unfold first_seen_groups. rewrite map_map. apply map_ext_in.
    intros i Hi. symmetry. apply group_of_app.
    now apply first_rows_bound.
  - rewrite existsb_first_rows, is_first_last.
    destruct (existsb _ _); cbn [negb map]; [reflexivity|].
    now rewrite group_of_last.
Qed.

End FirstSeenFacts.

(** ** Tables built row by row *)

Lemma dict_get_app_here {V : Type} (pre rest : dict string V) (k : string)
    (v : V) :
  ~ In k (dict_keys pre) -> dict_get (pre ++ (k, v) :: rest) k = Some v.
Proof.
  induction pre as [|[k' v'] pre IH]; intros Hn; cbn [app dict_get].
  - unfold key_eqb, string_KeyEq. now rewrite String.eqb_refl.
  - unfold key_eqb, string_KeyEq.
    destruct (String.eqb_spec k' k) as [->|Hne].
    + exfalso. apply Hn. now left.
    + apply IH. intros Hin. apply Hn. now right.
Qed.

Lemma dict_set_app_here {V : Type} (pre rest : dict string V) (k : string)
    (v v' : V) :
  ~ In k (dict_keys pre) ->
  dict_set (pre ++ (k, v) :: rest) k v' = pre ++ (k, v') :: rest.
Proof.
  induction pre as [|[k0 v0] pre IH]; intros Hn; cbn [app dict_set].
  - unfold key_eqb, string_KeyEq. now rewrite String.eqb_refl.
  - unfold key_eqb, string_KeyEq.
    destruct (String.eqb_spec k0 k) as [->|Hne].
    + exfalso. apply Hn. now left.
    + f_equal. apply IH. intros Hin. apply Hn. now right.
Qed.

Lemma dict_append_here (pre rest : dict string column) (k : string)
    (l : column) (v : Scalar) :
  ~ In k (dict_keys pre) ->
  dict_append (pre ++ (k, l) :: rest) k v = Ok (pre ++ (k, l ++ [v]) :: rest).
Proof.
  intros Hn. unfold dict_append, getitem.
  rewrite dict_get_app_here by assumption. cbn [bind].
  now rewrite dict_set_app_here.
Qed.

Lemma append_cells_keys (d : dict string column) (vs : list Scalar) :
  List.length vs = List.length d ->
  dict_keys (append_cells d vs) = dict_keys d.
Proof.
  revert vs. induction d as [|[k l] d IH]; intros [|v vs] Hl;
    simpl in *; try discriminate; [reflexivity|].
  f_equal. apply IH. now injection Hl.
Qed.

Lemma append_cells_length (d : dict string column) (vs : list Scalar) :
  List.length vs = List.length d ->
  List.length (append_cells d vs) = List.length d.
Proof.
  intros Hl. unfold append_cells. rewrite length_map, length_combine. lia.
Qed.

Lemma append_cells_app (d1 d2 : dict string column) (vs1 vs2 : list Scalar) :
  List.length vs1 = List.length d1 ->
  append_cells (d1 ++ d2) (vs1 ++ vs2) =
  append_cells d1 vs1 ++ append_cells d2 vs2.
Proof.
  revert vs1. induction d1 as [|e d1 IH]; intros [|v vs1] Hl;
    simpl in *; try discriminate; [reflexivity|].
  unfold append_cells in *. simpl. f_equal. apply IH. now injection Hl.
Qed.

(** Appending one value to each column of a segment of the dictionary, in
    the order of the segment. *)
Lemma foldM_dict_append_segment (mid : dict string column) :
  forall (pre post : dict string column) (vs : list Scalar),
    NoDup (dict_keys (pre ++ mid ++ post)) ->
    List.length vs = List.length mid ->
    foldM (fun rd (kv : string * Scalar) => dict_append rd (fst kv) (snd kv))
          (combine (dict_keys mid) vs) (pre ++ mid ++ post) =
    Ok (pre ++ append_cells mid vs ++ post).
Proof.
  induction mid as [|[k l] mid IH]; intros pre post [|v vs] Hnd Hl;
    simpl in Hl; try discriminate; [reflexivity|].
  injection Hl as Hl.
  assert (Hk : ~ In k (dict_keys pre)).
  { unfold dict_keys in *. rewrite map_app in Hnd. simpl in Hnd.
    apply NoDup_remove_2 in Hnd. rewrite in_app_iff in Hnd. tauto. }
  cbn [dict_keys map combine foldM fst snd].
  change (((k, l) :: mid) ++ post) with ((k, l) :: mid ++ post).
  rewrite dict_append_here by assumption. cbn [bind].
  specialize (IH (pre ++ [(k, l ++ [v])]) post vs).
  rewrite <- !app_assoc in IH. cbn [app] in IH.
  apply IH; [|exact Hl].
  unfold dict_keys in *. rewrite !map_app in *. simpl in *.
  rewrite ?map_app in *. exact Hnd.
Qed.

(** A loop that appends, for each item it does not skip, a computed value
    to the column named after the item. *)
Lemma foldM_append_values {X : Type} (skip : X -> bool) (name : X -> string)
    (val : X -> result Scalar) (g : X -> Scalar) (xs : list X) :
  (forall x, In x xs -> skip x = false -> val x = Ok (g x)) ->
  forall rd,
    foldM (fun rd x => if skip x then Ok rd
                       else do v <- val x; dict_append rd (name x) v) xs rd =
    foldM (fun rd (kv : string * Scalar) => dict_append rd (fst kv) (snd kv))
          (map (fun x => (name x, g x)) (filter (fun x => negb (skip x)) xs))
          rd.
Proof.
  induction xs as [|x xs IH]; intros Hval rd; [reflexivity|].
  cbn [foldM filter]. destruct (skip x) eqn:E; cbn [negb bind].
  - apply IH. intros y Hy. apply Hval. now right.
  - rewrite (Hval x) by (auto; now left). cbn [map foldM bind fst snd].
    destruct (dict_append rd (name x) (g x)); cbn [bind]; [|reflexivity].
    apply IH. intros y Hy. apply Hval. now right.
Qed.

Lemma combine_map_fst_snd {A B : Type} (l : list (A * B)) :
  combine (map fst l) (map snd l) = l.
Proof.
  induction l as [|[a b] l IH]; simpl; [reflexivity | now rewrite IH].
Qed.

(** The tables [table_of_rows] builds. *)
Lemma table_of_rows_snoc (names : list string) (rws : list (list Scalar))
    (r : list Scalar) :
  table_of_rows names (rws ++ [r]) = append_cells (table_of_rows names rws) r.
Proof. unfold table_of_rows. now rewrite fold_left_app. Qed.

Lemma table_of_rows_shape (names : list string) (rws : list (list Scalar)) :
  Forall (fun r => List.length r = List.length names) rws ->
  dict_keys (table_of_rows names rws) = names /\
  Forall (fun values : column => List.length values = List.length rws)
         (dict_values (table_of_rows names rws)).
Proof.
  induction rws as [|r rws IH] using rev_ind; intros Hr.
  - unfold table_of_rows, dict_keys, dict_values. cbn [fold_left].
    rewrite !map_map. cbn [fst snd]. rewrite map_id. split; [reflexivity|].
    apply Forall_map. apply Forall_forall. reflexivity.
  - apply Forall_app in Hr. destruct Hr as [Hr Hr1].
    inversion Hr1 as [|? ? Hlen _]; subst.
    destruct (IH Hr) as [Hk Hv]. rewrite table_of_rows_snoc.
    assert (Hl : List.length r = List.length (table_of_rows names rws)).
    { rewrite Hlen.
      transitivity (List.length (dict_keys (table_of_rows names rws)));
        [now rewrite Hk | unfold dict_keys; apply length_map]. }
    split; [now rewrite append_cells_keys|].
    rewrite length_app. simpl.
    unfold dict_values, append_cells. rewrite map_map.
    apply Forall_map. apply Forall_forall. intros [[k l] v] Hin. cbn [fst snd].
    rewrite length_app. simpl. f_equal.
    apply in_combine_l in Hin. unfold dict_values in Hv.
    rewrite Forall_map, Forall_forall in Hv. apply (Hv _ Hin).
Qed.

(** The column of a name is the list of the values the rows have at the
    position of the name. *)
Lemma combine_seq_nth {A B : Type} (names : list A) (d : B) :
  forall (r : list B) (s : nat),
    List.length r = List.length names ->
    combine (combine (seq s (List.length names)) names) r =
    map (fun jc => (jc, nth (fst jc - s) r d))
        (combine (seq s (List.length names)) names).
Proof.
  induction names as [|c names IH]; intros [|v r] s Hl; simpl in Hl;
    try discriminate; [reflexivity|].
  cbn [List.length seq combine map fst]. rewrite Nat.sub_diag. cbn [nth].
  f_equal. rewrite IH by now injection Hl.
  apply map_ext_in. intros [j c'] Hin. cbn [fst]. f_equal.
  apply in_combine_l in Hin. apply in_seq in Hin.
  replace (j - s) with (S (j - S s)) by lia. reflexivity.
Qed.

Lemma combine_map_l {A B C : Type} (f : A -> C) (l : list A) (r : list B) :
  combine (map f l) r = map (fun xv => (f (fst xv), snd xv)) (combine l r).
Proof.
  revert r. induction l as [|x l IH]; intros [|v r]; simpl; try reflexivity.
  now rewrite IH.
Qed.

Lemma map_snd_combine_seq {A : Type} (names : list A) (s : nat) :
  map snd (combine (seq s (List.length names)) names) = names.
Proof.
  revert s. induction names as [|c names IH]; intros s; simpl;
    [reflexivity | now rewrite IH].
Qed.

Lemma map_fst_combine_seq {A : Type} (names : list A) (s : nat) :
  map fst (combine (seq s (List.length names)) names) =
  seq s (List.length names).
Proof.
  revert s. induction names as [|c names IH]; intros s; simpl;
    [reflexivity | now rewrite IH].
Qed.

Lemma table_of_rows_columns (names : list string) (rws : list (list Scalar)) :
  Forall (fun r => List.length r = List.length names) rws ->
  table_of_rows names rws =
  map (fun jc : nat * string =>
         (snd jc, map (fun r => nth (fst jc) r Null) rws))
      (combine (seq 0 (List.length names)) names).
Proof.
  induction rws as [|r rws IH] using rev_ind; intros Hr.
  - unfold table_of_rows. cbn [fold_left map].
    rewrite <- (map_snd_combine_seq names 0) at 1. now rewrite map_map.
  - apply Forall_app in Hr. destruct Hr as [Hr Hr1].
    inversion Hr1 as [|? ? Hlen _]; subst.
    rewrite table_of_rows_snoc, (IH Hr). unfold append_cells.
    rewrite combine_map_l, (combine_seq_nth names Null r 0 Hlen).
    rewrite !map_map. apply map_ext. intros [j c]. cbn [fst snd].
    now rewrite map_app, Nat.sub_0_r.
Qed.

Lemma rows_table_of_rows (names : list string) (rws : list (list Scalar)) :
  NoDup names -> names <> [] ->
  Forall (fun r => List.length r = List.length names) rws ->
  rows (mkDataFrame (table_of_rows names rws) names) = rws.
Proof.
  intros Hnd Hne Hr. rewrite (table_of_rows_columns names rws Hr).
  set (L := combine (seq 0 (List.length names)) names).
  set (F := fun jc : nat * string =>
              (snd jc, map (fun r : list Scalar => nth (fst jc) r Null) rws)).
  set (t := mkDataFrame (map F L) names).
  assert (Hlen : len t = List.length rws).
  { unfold len, t. cbn [data]. subst L.
    destruct names as [|c names]; [congruence|]. simpl.
    now rewrite length_map. }
  assert (Hkeys : dict_keys (data t) = names).
  { unfold t, dict_keys. cbn [data]. rewrite map_map. cbn [F fst].
    apply map_snd_combine_seq. }
  unfold rows. rewrite Hlen.
  transitivity (map (fun i => nth i rws []) (seq 0 (List.length rws)));
    [|apply map_nth_seq].
  apply map_ext_in. intros i Hi. apply in_seq in Hi.
  unfold row_at, key_at. cbn [columns t].
  rewrite <- (map_snd_combine_seq names 0) at 1. fold L. rewrite map_map.
  transitivity (map (fun jc : nat * string => nth (fst jc) (nth i rws []) Null) L).
  - apply map_ext_in. intros [j c] Hin.
    assert (Hin' : In (F (j, c)) (data t)) by (now apply in_map).
    assert (Hnd' : NoDup (dict_keys (data t))) by now rewrite Hkeys.
    pose proof (value_at_entry t (F (j, c)) i Hnd' Hin') as E.
    cbn [F fst snd] in E. cbn [fst snd]. rewrite E.
    rewrite (nth_indep _ Null (nth j [] Null))
      by (rewrite length_map; lia).
    now rewrite (map_nth (fun r => nth j r Null) rws [] i).
  - rewrite <- map_map with (f := fst) (g := fun j => nth j (nth i rws []) Null).
    subst L. rewrite map_fst_combine_seq.
    rewrite Forall_forall in Hr.
    rewrite <- (Hr (nth i rws [])) by (apply nth_In; lia).
    apply map_nth_seq.
Qed.

(** ** Grouping and aggregation *)

Lemma foldM_ext {A B : Type} (f g : B -> A -> result B) (l : list A) :
  (forall acc x, In x l -> f acc x = g acc x) ->
  forall acc, foldM f l acc = foldM g l acc.
Proof.
  induction l as [|x l IH]; intros Hfg acc; [reflexivity|].
  cbn [foldM]. rewrite (Hfg acc x) by now left.
  destruct (g acc x); cbn [bind]; [|reflexivity].
  apply IH. intros acc' y Hy. apply Hfg. now right.
Qed.

Lemma foldM_ok_fold {A B : Type} (f : B -> A -> result B) (g : B -> A -> B)
    (l : list A) :
  (forall acc x, In x l -> f acc x = Ok (g acc x)) ->
  forall acc, foldM f l acc = Ok (fold_left g l acc).
Proof.
  induction l as [|x l IH]; intros Hfg acc; [reflexivity|].
  cbn [foldM fold_left]. rewrite (Hfg acc x) by now left. cbn [bind].
  apply IH. intros acc' y Hy. apply Hfg. now right.
Qed.

Lemma key_at_ok (t : DataFrame) (by_ : list string) (i : nat) :
  well_formed t -> incl by_ (columns t) -> i < len t ->
  mapM (fun col => cell t col i) by_ = Ok (key_at t by_ i).
Proof. apply get_sort_key_ok. Qed.

Lemma row_keys_length (t : DataFrame) (by_ : list string) :
  List.length (row_keys t by_) = len t.
Proof. unfold row_keys. now rewrite length_map, length_seq. Qed.

Lemma row_keys_nth (t : DataFrame) (by_ : list string) (i : nat) :
  i < len t -> nth i (row_keys t by_) [] = key_at t by_ i.
Proof.
  intros Hi. unfold row_keys.
  rewrite (nth_indep _ [] (key_at t by_ 0))
    by now rewrite length_map, length_seq.
  rewrite (map_nth (key_at t by_) (seq 0 (len t)) 0 i).
  now rewrite seq_nth.
Qed.

Lemma _create_groups_ok (t : DataFrame) (by_ : list string) :
  well_formed t -> incl by_ (columns t) ->
  _create_groups t by_ = Ok (groups_of t by_).
Proof.
  intros Hwf Hby. unfold _create_groups, groups_of.
  rewrite <- (scan_index_first_seen [] tuple_eq_sym tuple_eq_trans).
  rewrite (foldM_ok_fold _ (fun groups i =>
                             index_add groups (key_at t by_ i) i)).
  - f_equal. unfold scan_index. rewrite row_keys_length. unfold row_keys.
    generalize (seq 0 (len t)) as l. generalize (@nil (list Scalar * list nat)).
    intros acc l. revert acc.
    induction l as [|i l IH]; intros acc; [reflexivity|].
    cbn [map combine fold_left fst snd]. apply IH.
  - intros acc i Hi. apply in_seq in Hi.
    rewrite key_at_ok by (auto; lia). reflexivity.
Qed.

Lemma groupby_ok (t : DataFrame) (by_ : list string) :
  well_formed t -> incl by_ (columns t) ->
  groupby t by_ = Ok (mkGroupBy t by_ (groups_of t by_)).
Proof.
  intros Hwf Hby. unfold groupby.
  assert (forallb (fun col => name_in col (columns t)) by_ = true) as ->.
  { apply forallb_forall. intros c Hc. apply name_in_spec. now apply Hby. }
  cbn [negb]. now rewrite _create_groups_ok.
Qed.

Lemma groups_of_shape (t : DataFrame) (by_ : list string)
    (g : list Scalar * list nat) :
  In g (groups_of t by_) ->
  List.length (fst g) = List.length by_ /\
  Forall (fun i => i < len t) (snd g).
Proof.
  unfold groups_of, first_seen_groups. intros Hg.
  apply in_map_iff in Hg. destruct Hg as (i & <- & Hi).
  assert (Hi' : i < len t).
  { unfold first_rows in Hi. apply filter_In in Hi. destruct Hi as [Hi _].
    apply in_seq in Hi. rewrite row_keys_length in Hi. lia. }
  unfold group_of. cbn [fst snd]. split.
  - rewrite row_keys_nth by assumption. unfold key_at. apply length_map.
  - constructor; [exact Hi'|]. apply Forall_forall. intros j Hj.
    apply filter_In in Hj. destruct Hj as [Hj _]. apply in_seq in Hj.
    rewrite row_keys_length in Hj. lia.
Qed.

(** Appending a row to a table in two passes: the cells of the first names,
    then the cells of the remaining names. *)
Lemma dict_keys_app {V : Type} (a b : dict string V) :
  dict_keys (a ++ b) = dict_keys a ++ dict_keys b.
Proof. unfold dict_keys. apply map_app. Qed.

Lemma dict_keys_firstn {V : Type} (n : nat) (d : dict string V) :
  dict_keys (firstn n d) = firstn n (dict_keys d).
Proof. unfold dict_keys. symmetry. apply firstn_map. Qed.

Lemma dict_keys_skipn {V : Type} (n : nat) (d : dict string V) :
  dict_keys (skipn n d) = skipn n (dict_keys d).
Proof. unfold dict_keys. symmetry. apply skipn_map. Qed.

Lemma firstn_app_exact {A : Type} (l1 l2 : list A) :
  firstn (List.length l1) (l1 ++ l2) = l1.
Proof.
  rewrite firstn_app, Nat.sub_diag, firstn_all. simpl. apply app_nil_r.
Qed.

Lemma skipn_app_exact {A : Type} (l1 l2 : list A) :
  skipn (List.length l1) (l1 ++ l2) = l2.
Proof.
  rewrite skipn_app, Nat.sub_diag, skipn_all. reflexivity.
Qed.

Lemma append_row_in_two_passes (T : dict string column) (k1 k2 : list string)
    (vs1 vs2 : list Scalar) :
  NoDup (dict_keys T) ->
  dict_keys T = k1 ++ k2 ->
  List.length vs1 = List.length k1 ->
  List.length vs2 = List.length k2 ->
  exists T1,
    foldM (fun rd (kv : string * Scalar) => dict_append rd (fst kv) (snd kv))
          (combine k1 vs1) T = Ok T1 /\
    foldM (fun rd (kv : string * Scalar) => dict_append rd (fst kv) (snd kv))
          (combine k2 vs2) T1 = Ok (append_cells T (vs1 ++ vs2)).
Proof.
  intros Hnd Hk Hl1 Hl2.
  set (n := List.length k1).
  assert (HT : T = firstn n T ++ skipn n T) by (symmetry; apply firstn_skipn).
  assert (Hk1 : dict_keys (firstn n T) = k1)
    by (rewrite dict_keys_firstn, Hk; apply firstn_app_exact).
  assert (Hk2 : dict_keys (skipn n T) = k2)
    by (rewrite dict_keys_skipn, Hk; apply skipn_app_exact).
  assert (Hn1 : List.length vs1 = List.length (firstn n T)).
  { rewrite Hl1, <- Hk1. unfold dict_keys. now rewrite length_map. }
  assert (Hn2 : List.length vs2 = List.length (skipn n T)).
  { rewrite Hl2, <- Hk2. unfold dict_keys. now rewrite length_map. }
  exists (append_cells (firstn n T) vs1 ++ skipn n T). split.
  - rewrite <- Hk1. rewrite HT at 2.
    apply (foldM_dict_append_segment (firstn n T) [] (skipn n T) vs1);
      [|exact Hn1].
    cbn [app]. now rewrite <- HT.
  - rewrite <- Hk2.
    assert (E : append_cells T (vs1 ++ vs2) =
                append_cells (firstn n T) vs1 ++ append_cells (skipn n T) vs2).
    { rewrite <- (append_cells_app _ _ _ _ Hn1). now rewrite <- HT. }
    rewrite E.
    pose proof (foldM_dict_append_segment (skipn n T)
                  (append_cells (firstn n T) vs1) [] vs2) as G.
    rewrite !app_nil_r in G. apply G; [|exact Hn2].
    rewrite dict_keys_app, append_cells_keys by exact Hn1.
    rewrite <- dict_keys_app, <- HT. exact Hnd.
Qed.

Lemma filter_true {A : Type} (l : list A) : filter (fun _ => true) l = l.
Proof. induction l as [|x l IH]; simpl; [reflexivity | now rewrite IH]. Qed.

Lemma combine_names_values {A : Type} (names : list string) (vs : list A)
    (d : A) :
  List.length vs = List.length names ->
  map (fun ic : nat * string => (snd ic, nth (fst ic) vs d))
      (combine (seq 0 (List.length names)) names) = combine names vs.
Proof.
  intros Hl.
  transitivity (map (fun x : (nat * string) * A => (snd (fst x), snd x))
                  (combine (combine (seq 0 (List.length names)) names) vs)).
  - rewrite (combine_seq_nth names d vs 0 Hl), map_map.
    apply map_ext. intros [j c]. cbn [fst snd]. now rewrite Nat.sub_0_r.
  - rewrite <- (map_snd_combine_seq names 0) at 3.
    now rewrite combine_map_l.
Qed.

Lemma combine_map_both {A B C : Type} (f : A -> B) (g : A -> C) (l : list A) :
  combine (map f l) (map g l) = map (fun x => (f x, g x)) l.
Proof. induction l as [|x l IH]; simpl; [reflexivity | now rewrite IH]. Qed.

Lemma bind_assoc {A B C : Type} (m : result A) (f : A -> result B)
    (g : B -> result C) :
  bind (bind m f) g = bind m (fun x => bind (f x) g).
Proof. now destruct m. Qed.

Lemma append_keys_cells (by_ : list string) (key_values : list Scalar)
    (rd : dict string column) :
  List.length key_values = List.length by_ ->
  append_keys by_ key_values rd =
  foldM (fun rd (kv : string * Scalar) => dict_append rd (fst kv) (snd kv))
        (combine by_ key_values) rd.
Proof.
  intros Hl. unfold append_keys.
  rewrite <- (combine_names_values by_ key_values Null Hl).
  rewrite <- (filter_true (combine (seq 0 (List.length by_)) by_)) at 2.
  rewrite <- (foldM_append_values (fun _ => false) snd
                (fun ic : nat * string => list_item key_values (fst ic))).
  - apply foldM_ext. intros acc [i col] _. reflexivity.
  - intros [i col] Hin _. cbn [fst]. unfold list_item.
    apply in_combine_l in Hin. apply in_seq in Hin.
    destruct (nth_error key_values i) as [v|] eqn:E.
    + now rewrite (nth_error_nth _ _ _ E).
    + apply nth_error_None in E. lia.
Qed.

Lemma values_at_ok (t : DataFrame) (col : string) (indices : list nat) :
  well_formed t -> In col (columns t) ->
  Forall (fun i => i < len t) indices ->
  mapM (fun i => cell t col i) indices = Ok (values_at t col indices).
Proof.
  intros Hwf Hc Hi. apply mapM_ok. intros i Hin.
  rewrite Forall_forall in Hi. apply cell_ok; auto.
Qed.

Lemma append_aggregates_cells (t : DataFrame) (bys : list string)
    (groups : dict (list Scalar) (list nat))
    (aggregations : dict string string) (indices : list nat)
    (rd : dict string column) :
  well_formed t ->
  (forall cf, In cf (aggregated bys aggregations) -> In (fst cf) (columns t)) ->
  Forall (fun i => i < len t) indices ->
  (forall cf, In cf (aggregated bys aggregations) ->
              is_ok (agg_value (snd cf) (values_at t (fst cf) indices)) = true) ->
  append_aggregates (mkGroupBy t bys groups) aggregations indices rd =
  foldM (fun rd (kv : string * Scalar) => dict_append rd (fst kv) (snd kv))
        (combine (dict_keys (aggregated bys aggregations))
           (map (fun cf : string * string =>
                   agg_cell (snd cf) (values_at t (fst cf) indices))
                (aggregated bys aggregations)))
        rd.
Proof.
  intros Hwf Hcols Hidx Hok. unfold append_aggregates, dict_keys.
  rewrite combine_map_both. cbn [by_ df]. unfold aggregated.
  rewrite <- (foldM_append_values
               (fun cf : string * string => name_in (fst cf) bys) fst
               (fun cf : string * string =>
                  do values <- mapM (fun i => cell t (fst cf) i) indices;
                  agg_value (snd cf) values)).
  - apply foldM_ext. intros acc [col func_name] _. cbn [fst snd].
    destruct (name_in col bys); [reflexivity|].
    now rewrite bind_assoc.
  - intros cf Hin Hskip.
    assert (Hagg : In cf (aggregated bys aggregations)).
    { unfold aggregated. apply filter_In. split; [exact Hin|].
      now rewrite Hskip. }
    rewrite values_at_ok; auto. cbn [bind].
    specialize (Hok cf Hagg). unfold agg_cell.
    now destruct (agg_value (snd cf) (values_at t (fst cf) indices)).
Qed.

Lemma aggregated_keys (bys : list string) (aggregations : dict string string) :
  dict_keys (aggregated bys aggregations) =
  filter (fun col => negb (name_in col bys)) (dict_keys aggregations).
Proof.
  unfold aggregated, dict_keys.
  induction aggregations as [|[c f] l IH]; simpl; [reflexivity|].
  destruct (name_in c bys); simpl; now rewrite IH.
Qed.

Lemma NoDup_agg_columns (bys : list string) (aggregations : dict string string) :
  NoDup bys -> NoDup (dict_keys aggregations) ->
  NoDup (agg_columns bys aggregations).
Proof.
  intros H1 H2. unfold agg_columns. rewrite aggregated_keys.
  apply NoDup_app; [exact H1 | now apply NoDup_filter |].
  intros c Hc Hf. apply filter_In in Hf. destruct Hf as [_ Hf].
  apply negb_true_iff in Hf.
  apply name_in_spec in Hc. congruence.
Qed.

Lemma agg_initial (bys : list string) (aggregations : dict string string) :
  NoDup bys -> NoDup (dict_keys aggregations) ->
  fold_left (fun (rd : dict string column) col =>
               if negb (name_in col bys) then dict_set rd col [] else rd)
            (dict_keys aggregations)
            (dict_of_list (map (fun col => (col, [])) bys)) =
  table_of_rows (agg_columns bys aggregations) [].
Proof.
  intros H1 H2. pose proof (NoDup_agg_columns _ _ H1 H2) as Hnd.
  unfold agg_columns in *. rewrite aggregated_keys in *.
  unfold table_of_rows. cbn [fold_left].
  rewrite dict_of_list_NoDup
    by (unfold dict_keys; rewrite map_map; cbn [fst]; now rewrite map_id).
  clear H1 H2. revert Hnd. generalize (dict_keys aggregations) as cols.
  intros cols. revert bys.
  assert (G : forall (bys0 pre : list string),
             NoDup (pre ++ filter (fun col => negb (name_in col bys0)) cols) ->
             fold_left (fun (rd : dict string column) col =>
                          if negb (name_in col bys0) then dict_set rd col []
                          else rd)
                       cols (map (fun col => (col, [])) pre) =
             map (fun col => (col, []))
                 (pre ++ filter (fun col => negb (name_in col bys0)) cols)).
  { intros bys0. induction cols as [|c cols IH]; intros pre Hnd;
      cbn [fold_left filter].
    - now rewrite app_nil_r.
    - cbn [filter] in Hnd. destruct (negb (name_in c bys0)) eqn:E.
      + rewrite dict_set_absent.
        * replace (pre ++ c :: filter (fun col => negb (name_in col bys0)) cols)
            with ((pre ++ [c]) ++
                  filter (fun col => negb (name_in col bys0)) cols)
            by (now rewrite <- app_assoc).
          rewrite <- IH by (now rewrite <- app_assoc).
          f_equal. now rewrite map_app.
        * unfold dict_keys. rewrite map_map. cbn [fst]. rewrite map_id.
          apply NoDup_remove_2 in Hnd. rewrite in_app_iff in Hnd. tauto.
      + now apply IH. }
  intros bys Hnd. now apply G.
Qed.

(** The loop of [agg] over the groups appends one row for each group. *)
Lemma agg_groups_loop (t : DataFrame) (bys : list string)
    (all_groups : dict (list Scalar) (list nat))
    (aggregations : dict string string) :
  well_formed t ->
  NoDup (agg_columns bys aggregations) ->
  (forall cf, In cf (aggregated bys aggregations) -> In (fst cf) (columns t)) ->
  forall (groups : dict (list Scalar) (list nat)) (rws : list (list Scalar)),
    Forall (fun r => List.length r =
                     List.length (agg_columns bys aggregations)) rws ->
    (forall g, In g groups ->
               List.length (fst g) = List.length bys /\
               Forall (fun i => i < len t) (snd g) /\
               forall cf, In cf (aggregated bys aggregations) ->
                 is_ok (agg_value (snd cf) (values_at t (fst cf) (snd g)))
                 = true) ->
    foldM (fun rd (g : list Scalar * list nat) =>
             let (key_values, indices) := g in
             do rd1 <- append_keys bys key_values rd;
             append_aggregates (mkGroupBy t bys all_groups) aggregations
               indices rd1)
          groups (table_of_rows (agg_columns bys aggregations) rws) =
    Ok (table_of_rows (agg_columns bys aggregations)
          (rws ++ map (group_row t bys aggregations) groups)).
Proof.
  intros Hwf Hnd Hcols groups.
  induction groups as [|[kv idxs] groups IH]; intros rws Hr Hg.
  - cbn [foldM map]. now rewrite app_nil_r.
  - cbn [foldM map].
    destruct (Hg (kv, idxs) (or_introl eq_refl)) as (Hkv & Hidx & Hok).
    cbn [fst snd] in Hkv, Hidx, Hok.
    destruct (table_of_rows_shape _ rws Hr) as [Hk _].
    destruct (append_row_in_two_passes
                (table_of_rows (agg_columns bys aggregations) rws)
                bys (dict_keys (aggregated bys aggregations)) kv
                (map (fun cf : string * string =>
                        agg_cell (snd cf) (values_at t (fst cf) idxs))
                     (aggregated bys aggregations)))
      as (T1 & E1 & E2).
    + now rewrite Hk.
    + exact Hk.
    + exact Hkv.
    + unfold dict_keys. now rewrite !length_map.
    + rewrite append_keys_cells by exact Hkv. rewrite E1. cbn [bind].
      rewrite append_aggregates_cells by assumption. rewrite E2. cbn [bind].
      rewrite <- table_of_rows_snoc.
      change (kv ++ map (fun cf : string * string =>
                           agg_cell (snd cf) (values_at t (fst cf) idxs))
                      (aggregated bys aggregations))
        with (group_row t bys aggregations (kv, idxs)).
      rewrite IH.
      * now rewrite <- app_assoc.
      * apply Forall_app. split; [exact Hr|]. constructor; [|constructor].
        unfold group_row, agg_columns, dict_keys. cbn [fst snd].
        rewrite !length_app, !length_map. now rewrite Hkv.
      * intros g Hin. apply Hg. now right.
Qed.

Lemma agg_ok (t : DataFrame) (bys : list string)
    (groups : dict (list Scalar) (list nat))
    (aggregations : dict string string) :
  well_formed t ->
  NoDup bys ->
  NoDup (dict_keys aggregations) ->
  (forall cf, In cf (aggregated bys aggregations) -> In (fst cf) (columns t)) ->
  (forall g, In g groups ->
             List.length (fst g) = List.length bys /\
             Forall (fun i => i < len t) (snd g) /\
             forall cf, In cf (aggregated bys aggregations) ->
               is_ok (agg_value (snd cf) (values_at t (fst cf) (snd g)))
               = true) ->
  agg (mkGroupBy t bys groups) aggregations =
  Ok (mkDataFrame
        (table_of_rows (agg_columns bys aggregations)
           (map (group_row t bys aggregations) groups))
        (agg_columns bys aggregations)).
Proof.
  intros Hwf Hby Hagg Hcols Hg. unfold agg.
  cbn [by_ _groups]. cbv zeta.
  pose proof (NoDup_agg_columns _ _ Hby Hagg) as Hnd.
  match goal with
  | |- context [foldM ?f groups ?init] =>
      replace init with (table_of_rows (agg_columns bys aggregations) [])
        by (symmetry; now apply agg_initial)
  end.
  rewrite (agg_groups_loop t bys groups aggregations Hwf Hnd Hcols groups []);
    [|constructor | exact Hg].
  cbn [bind app].
  assert (Hr : Forall (fun r => List.length r =
                                List.length (agg_columns bys aggregations))
                 (map (group_row t bys aggregations) groups)).
  { apply Forall_map. apply Forall_forall. intros g Hin.
    destruct (Hg g Hin) as (Hkv & _).
    unfold group_row, agg_columns, dict_keys.
    rewrite !length_app, !length_map. now rewrite Hkv. }
  destruct (table_of_rows_shape _ _ Hr) as [Hk Hv].
  rewrite (DataFrame_init_ok _ _ (eq_ind_r (fun l => NoDup l) Hnd Hk) Hv).
  now rewrite Hk.
Qed.

Lemma groupby_agg_ok (t : DataFrame) (bys : list string)
    (aggregations : dict string string) :
  well_formed t ->
  NoDup bys ->
  incl bys (columns t) ->
  NoDup (dict_keys aggregations) ->
  (forall cf, In cf (aggregated bys aggregations) -> In (fst cf) (columns t)) ->
  (forall g cf, In g (groups_of t bys) ->
                In cf (aggregated bys aggregations) ->
                is_ok (agg_value (snd cf) (values_at t (fst cf) (snd g)))
                = true) ->
  (do g <- groupby t bys; agg g aggregations) =
  Ok (mkDataFrame
        (table_of_rows (agg_columns bys aggregations)
           (map (group_row t bys aggregations) (groups_of t bys)))
        (agg_columns bys aggregations)).
Proof.
  intros Hwf Hby Hincl Hagg Hcols Hok.
  rewrite groupby_ok by assumption. cbn [bind].
  apply agg_ok; auto.
  intros g Hg. destruct (groups_of_shape t bys g Hg) as [H1 H2].
  repeat split; auto.
Qed.

Lemma group_row_length (t : DataFrame) (bys : list string)
    (aggregations : dict string string) (g : list Scalar * list nat) :
  In g (groups_of t bys) ->
  List.length (group_row t bys aggregations g) =
  List.length (agg_columns bys aggregations).
Proof.
  intros Hg. destruct (groups_of_shape t bys g Hg) as [H1 _].
  unfold group_row, agg_columns, dict_keys.
  rewrite !length_app, !length_map. now rewrite H1.
Qed.

(** C4.  Grouping a well-formed table by existing columns and aggregating
    gives one row for each distinct key tuple, in the order in which the
    keys are first seen from the top: the rows of the result are those of
    the groups of the first rows (the rows with no earlier row of equal
    key), in the order of these rows, and each starts with the key of its
    first row.  Grouping the rows (CA, 5), (TX, 3), (CA, 2) by [s] and
    summing [n] gives (CA, 7), (TX, 3). *)
Theorem groupby_first_seen_order :
  forall (t : DataFrame) (bys : list string)
         (aggregations : dict string string),
    well_formed t ->
    NoDup bys -> bys <> [] ->
    incl bys (columns t) ->
    NoDup (dict_keys aggregations) ->
    (forall cf, In cf (aggregated bys aggregations) ->
                In (fst cf) (columns t)) ->
    (forall g cf, In g (groups_of t bys) ->
                  In cf (aggregated bys aggregations) ->
                  is_ok (agg_value (snd cf) (values_at t (fst cf) (snd g)))
                  = true) ->
    (exists r,
        (do g <- groupby t bys; agg g aggregations) = Ok r /\
        columns r = agg_columns bys aggregations /\
        rows r = map (group_row t bys aggregations) (groups_of t bys) /\
        map (firstn (List.length bys)) (rows r) =
        map (key_at t bys) (first_rows [] (row_keys t bys))) /\
    (do g <- groupby
               (mkDataFrame
                  [("s", [Text "CA"; Text "TX"; Text "CA"]);
                   ("n", [Int 5; Int 3; Int 2])] ["s"; "n"]) ["s"];
     GroupBy_sum g "n") =
    Ok (mkDataFrame [("s", [Text "CA"; Text "TX"]); ("n", [Int 7; Int 3])]
          ["s"; "n"]).
Proof.
  intros t bys aggregations Hwf Hby Hne Hincl Hagg Hcols Hok.
  split; [|reflexivity].
  eexists. split; [now apply groupby_agg_ok|]. cbn [columns].
  assert (Hrows : rows (mkDataFrame
                          (table_of_rows (agg_columns bys aggregations)
                             (map (group_row t bys aggregations)
                                (groups_of t bys)))
                          (agg_columns bys aggregations)) =
                  map (group_row t bys aggregations) (groups_of t bys)).
  { apply rows_table_of_rows.
    - now apply NoDup_agg_columns.
    - unfold agg_columns. destruct bys; [congruence | discriminate].
    - apply Forall_map. apply Forall_forall. intros g Hg.
      now apply group_row_length. }
  split; [reflexivity|]. split; [exact Hrows|].
  rewrite Hrows. unfold groups_of, first_seen_groups. rewrite !map_map.
  apply map_ext_in. intros i Hi.
  assert (Hi' : i < len t).
  { apply first_rows_bound in Hi. now rewrite row_keys_length in Hi. }
  unfold group_row, group_of. cbn [fst snd].
  rewrite row_keys_nth by assumption.
  assert (Hl : List.length (key_at t bys i) = List.length bys)
    by (unfold key_at; apply length_map).
  rewrite <- Hl. apply firstn_app_exact.
Qed.

Lemma groupby_first_seen_order_witness :
  let t := mkDataFrame
             [("s", [Text "CA"; Text "TX"; Text "CA"]);
              ("n", [Int 5; Int 3; Int 2])] ["s"; "n"] in
  exists r,
    (do g <- groupby t ["s"]; agg g [("n", "count")]) = Ok r /\
    rows r = [[Text "CA"; Int 2]; [Text "TX"; Int 1]].
Proof.
  intros t.
  assert (Hwf : well_formed t).
  { split; [reflexivity|]. split.
    - repeat constructor; simpl; intuition discriminate.
    - repeat constructor. }
  destruct (groupby_first_seen_order t ["s"] [("n", "count")]) as [(r & E & _ & Hr & _) _].
  - exact Hwf.
  - repeat constructor. simpl. tauto.
  - discriminate.
  - intros c [<-|[]]. now left.
  - repeat constructor. simpl. tauto.
  - intros cf [<-|[]]. right. now left.
  - intros g cf _ [<-|[]]. reflexivity.
  - exists r. split; [exact E | exact Hr].
Defined.

(** ** Aggregates of integers *)

Lemma py_eq_int (a b : Z) : py_eq (Int a) (Int b) = (a =? b)%Z.
Proof.
  unfold py_eq. cbn [exact_value xnum_compare].
  unfold Qcompare, inject_Z. cbn [Qnum Qden]. rewrite !Z.mul_1_r.
  now rewrite Z.eqb_compare.
Qed.

Lemma py_lt_int (a b : Z) : py_lt (Int a) (Int b) = Ok (a <? b)%Z.
Proof.
  unfold py_lt. cbn [exact_value xnum_compare].
  unfold Qcompare, inject_Z. cbn [Qnum Qden]. rewrite !Z.mul_1_r.
  now rewrite Z.ltb_compare.
Qed.

Lemma py_sum_ints (zs : list Z) :
  forall a, foldM py_add (map Int zs) (Int a) =
            Ok (Int (fold_left Z.add zs a)).
Proof.
  induction zs as [|z zs IH]; intros a; [reflexivity|].
  cbn [map foldM fold_left py_add bind]. apply IH.
Qed.

Lemma py_min_ints (zs : list Z) :
  forall a,
    foldM (fun m x => do b <- py_lt x m; Ok (if b then x else m))
          (map Int zs) (Int a) =
    Ok (Int (fold_left Z.min zs a)).
Proof.
  induction zs as [|z zs IH]; intros a; [reflexivity|].
  cbn [map foldM fold_left]. rewrite py_lt_int. cbn [bind].
  destruct (Z.ltb_spec z a).
  - rewrite IH. now rewrite (Z.min_r a z) by lia.
  - rewrite IH. now rewrite (Z.min_l a z) by lia.
Qed.

Lemma py_max_ints (zs : list Z) :
  forall a,
    foldM (fun m x => do b <- py_lt m x; Ok (if b then x else m))
          (map Int zs) (Int a) =
    Ok (Int (fold_left Z.max zs a)).
Proof.
  induction zs as [|z zs IH]; intros a; [reflexivity|].
  cbn [map foldM fold_left]. rewrite py_lt_int. cbn [bind].
  destruct (Z.ltb_spec a z).
  - rewrite IH. now rewrite (Z.max_r a z) by lia.
  - rewrite IH. now rewrite (Z.max_l a z) by lia.
Qed.

(** C5.  [count] is the number of values, whatever they are.  [sum],
    [mean], [min] and [max] are computed from the values that are neither
    Null nor the empty string: they are the sum of these values, their sum
    divided by their number, the smallest and the largest of them; for
    integers, the integer sum, the quotient of the sum by the number of
    values left, the least and the greatest integer.  When no value is left,
    [sum] is 0 and [mean], [min] and [max] are Null.
    [DataFrame.aggregate] applies this to a column, and [GroupBy.agg] to
    the values a column has at the rows of each group. *)
Theorem aggregation_null_handling :
  forall (t : DataFrame) (bys : list string)
         (aggregations : dict string string) (values : column),
    well_formed t ->
    NoDup bys ->
    incl bys (columns t) ->
    NoDup (dict_keys aggregations) ->
    (forall cf, In cf (aggregated bys aggregations) ->
                In (fst cf) (columns t)) ->
    (forall g cf, In g (groups_of t bys) ->
                  In cf (aggregated bys aggregations) ->
                  is_ok (agg_value (snd cf) (values_at t (fst cf) (snd g)))
                  = true) ->
    (forall v, is_valid v = false <-> v = Null \/ v = Text "") /\
    agg_value "count" values = Ok (Int (Z.of_nat (List.length values))) /\
    (forall f, In f ["sum"; "mean"; "min"; "max"] ->
               agg_value f values = agg_value f (filter is_valid values)) /\
    (filter is_valid values = [] ->
     agg_value "sum" values = Ok (Int 0) /\
     agg_value "mean" values = Ok Null /\
     agg_value "min" values = Ok Null /\
     agg_value "max" values = Ok Null) /\
    (filter is_valid values <> [] ->
     agg_value "sum" values = py_sum (filter is_valid values) /\
     agg_value "mean" values =
       (do s <- py_sum (filter is_valid values);
        py_truediv s (List.length (filter is_valid values))) /\
     agg_value "min" values = py_min (filter is_valid values) /\
     agg_value "max" values = py_max (filter is_valid values)) /\
    (forall (z : Z) (zs : list Z),
       filter is_valid values = map Int (z :: zs) ->
       agg_value "sum" values = Ok (Int (fold_left Z.add zs z)) /\
       agg_value "mean" values =
         py_truediv (Int (fold_left Z.add zs z)) (S (List.length zs)) /\
       agg_value "min" values = Ok (Int (fold_left Z.min zs z)) /\
       agg_value "max" values = Ok (Int (fold_left Z.max zs z))) /\
    (forall col f, In col (columns t) ->
                   aggregate t col f = agg_value f (column_values t col)) /\
    (exists r,
        (do g <- groupby t bys; agg g aggregations) = Ok r /\
        data r = table_of_rows (agg_columns bys aggregations)
                   (map (group_row t bys aggregations) (groups_of t bys)) /\
        forall g cf, In g (groups_of t bys) ->
                     In cf (aggregated bys aggregations) ->
                     agg_value (snd cf) (values_at t (fst cf) (snd g)) =
                     Ok (agg_cell (snd cf) (values_at t (fst cf) (snd g))) /\
                     List.length (values_at t (fst cf) (snd g)) =
                     List.length (snd g)).
Proof.
  intros t bys aggregations values Hwf Hby Hincl Hagg Hcols Hok.
  assert (Hfilter : filter is_valid (filter is_valid values) =
                    filter is_valid values).
  { induction values as [|v vs IH]; simpl; [reflexivity|].
    destruct (is_valid v) eqn:E; simpl; rewrite ?E, IH; reflexivity. }
  split; [|split; [|split; [|split; [|split; [|split; [|split]]]]]].
  - intros v. split.
    + destruct v as [| z | f | s]; cbn; try discriminate; auto.
      destruct s; [auto | discriminate].
    + intros [-> | ->]; reflexivity.
  - reflexivity.
  - intros f Hf. simpl in Hf.
    destruct Hf as [<- | [<- | [<- | [<- | []]]]];
      unfold agg_value; cbn [String.eqb Ascii.eqb Bool.eqb];
      cbv beta iota; now rewrite Hfilter.
  - intros E. unfold agg_value. cbn [String.eqb Ascii.eqb Bool.eqb].
    cbv beta iota. rewrite E. repeat split.
  - intros E. unfold agg_value. cbn [String.eqb Ascii.eqb Bool.eqb].
    cbv beta iota.
    destruct (filter is_valid values) as [|v vs]; [congruence|].
    repeat split.
  - intros z zs E. unfold agg_value. cbn [String.eqb Ascii.eqb Bool.eqb].
    cbv beta iota. rewrite E. cbn [map List.length].
    replace (py_sum (Int z :: map Int zs))
      with (@Ok Scalar (Int (fold_left Z.add zs z)))
      by (symmetry; exact (py_sum_ints (z :: zs) 0%Z)).
    cbn [bind py_min py_max]. rewrite length_map, py_min_ints, py_max_ints.
    repeat split.
  - intros col f Hc. unfold aggregate.
    apply name_in_spec in Hc. rewrite Hc. cbn [negb].
    apply name_in_spec in Hc.
    destruct (well_formed_column_length t col Hwf Hc) as (vs & E & _).
    unfold getitem, column_values. now rewrite E.
  - eexists. split; [now apply groupby_agg_ok|]. cbn [data].
    split; [reflexivity|]. intros g cf Hg Hcf. split.
    + specialize (Hok g cf Hg Hcf). unfold agg_cell.
      now destruct (agg_value (snd cf) (values_at t (fst cf) (snd g))).
    + unfold values_at. apply length_map.
Qed.

Lemma aggregation_null_handling_witness :
  let t := mkDataFrame
             [("s", [Text "CA"; Text "TX"; Text "CA"; Text "TX"]);
              ("n", [Int 5; Null; Text ""; Text ""])] ["s"; "n"] in
  (exists r,
      (do g <- groupby t ["s"]; agg g [("n", "sum")]) = Ok r /\
      data r = [("s", [Text "CA"; Text "TX"]); ("n", [Int 5; Int 0])]) /\
  agg_value "sum" [Int 5; Null; Int 2; Text ""] = Ok (Int 7) /\
  agg_value "min" [Int 5; Null; Int 2; Text ""] = Ok (Int 2) /\
  agg_value "max" [Int 5; Null; Int 2; Text ""] = Ok (Int 5).
Proof.
  intros t.
  assert (Hwf : well_formed t).
  { split; [reflexivity|]. split.
    - repeat constructor; simpl; intuition discriminate.
    - repeat constructor. }
  destruct (aggregation_null_handling t ["s"] [("n", "sum")]
              [Int 5; Null; Int 2; Text ""])
    as (_ & _ & _ & _ & _ & Hints & _ & (r & E & Hr & _)).
  - exact Hwf.
  - repeat constructor. simpl. tauto.
  - intros c [<-|[]]. now left.
  - repeat constructor. simpl. tauto.
  - intros cf [<-|[]]. right. now left.
  - intros g cf Hg [<-|[]]. vm_compute in Hg.
    destruct Hg as [<- | [<- | []]]; reflexivity.
  - split; [exists r; split; [exact E | exact Hr]|].
    destruct (Hints 5%Z [2%Z] eq_refl) as (Hsum & _ & Hmin & Hmax).
    split; [exact Hsum|]. split; [exact Hmin | exact Hmax].
Defined.

(** ** Join *)

Lemma column_values_length (t : DataFrame) (col : string) :
  well_formed t -> In col (columns t) ->
  List.length (column_values t col) = len t.
Proof.
  intros Hwf Hc.
  destruct (well_formed_column_length t col Hwf Hc) as (vs & E & Hl).
  unfold column_values. now rewrite E.
Qed.

Lemma combine_seq_values {A : Type} (l : list A) (d : A) :
  combine (seq 0 (List.length l)) l =
  map (fun i => (i, nth i l d)) (seq 0 (List.length l)).
Proof.
  rewrite <- (map_nth_seq l d) at 2.
  rewrite <- (map_id (seq 0 (List.length l))) at 1.
  now rewrite combine_map_both.
Qed.

Lemma build_right_index_ok (other : DataFrame) (right_key : string) :
  well_formed other -> In right_key (columns other) ->
  build_right_index other right_key =
  Ok (scan_index (column_values other right_key)).
Proof.
  intros Hwf Hc. unfold build_right_index.
  rewrite (foldM_ok_fold _ (fun index i =>
                             index_add index (value_at other right_key i) i)).
  - f_equal. unfold scan_index.
    rewrite (combine_seq_values _ Null).
    rewrite column_values_length by assumption.
    generalize (seq 0 (len other)) as l.
    generalize (@nil (Scalar * list nat)).
    intros acc l. revert acc.
    induction l as [|i l IH]; intros acc; [reflexivity|].
    cbn [map fold_left fst snd]. apply IH.
  - intros acc i Hi. apply in_seq in Hi.
    rewrite cell_ok by (auto; lia). reflexivity.
Qed.

Lemma right_index_lookup (self other : DataFrame) (left_key right_key : string)
    (i : nat) :
  dict_get (scan_index (column_values other right_key))
           (value_at self left_key i) =
  match matches self other left_key right_key i with
  | [] => None
  | js => Some js
  end.
Proof.
  unfold matches.
  apply (dict_get_scan_index Null py_eq_sym py_eq_trans).
Qed.

Lemma matches_bound (self other : DataFrame) (left_key right_key : string)
    (i j : nat) :
  well_formed other -> In right_key (columns other) ->
  In j (matches self other left_key right_key i) -> j < len other.
Proof.
  intros Hwf Hc Hj. unfold matches, matching_rows in Hj.
  apply filter_In in Hj. destruct Hj as [Hj _]. apply in_seq in Hj.
  rewrite column_values_length in Hj by assumption. lia.
Qed.

(** The names of the result. *)
Lemma join_result_columns_ok (self other : DataFrame) (right_key : string) :
  NoDup (join_columns self other right_key) ->
  join_result_columns self other right_key =
  join_columns self other right_key.
Proof.
  unfold join_result_columns, join_columns, right_names, right_columns.
  generalize (columns other) as cols. intros cols.
  assert (G : forall pre,
             incl (columns self) pre ->
             NoDup (pre ++
                    map (fun col => if name_in col (columns self) &&
                                       negb (col =? right_key)
                                    then right_name col else col)
                        (filter (fun col => negb ((col =? right_key) &&
                                                  name_in col (columns self)))
                                cols)) ->
             fold_left (fun result_columns col =>
                          if negb (name_in col result_columns)
                          then result_columns ++ [col]
                          else if negb (col =? right_key)
                               then result_columns ++ [right_name col]
                               else result_columns)
                       cols pre =
             pre ++
             map (fun col => if name_in col (columns self) &&
                                negb (col =? right_key)
                             then right_name col else col)
                 (filter (fun col => negb ((col =? right_key) &&
                                           name_in col (columns self)))
                         cols)).
  { induction cols as [|c cols IH]; intros pre Hincl Hnd;
      cbn [fold_left filter map].
    - now rewrite app_nil_r.
    - cbn [filter] in Hnd.
      destruct (name_in c (columns self)) eqn:Ein.
      + (* a name of the left table *)
        assert (Hpre : name_in c pre = true).
        { apply name_in_spec. apply Hincl. now apply name_in_spec. }
        rewrite Hpre. cbn [negb].
        destruct (c =? right_key) eqn:Ek; cbn [negb andb] in *.
        * now apply IH.
        * cbn [map] in *. rewrite Ein, Ek in *. cbn [negb andb] in *.
          rewrite IH.
          -- now rewrite <- app_assoc.
          -- intros x Hx. apply in_or_app. left. now apply Hincl.
          -- now rewrite <- app_assoc.
      + (* a name the left table does not have *)
        rewrite andb_false_r in *. cbn [negb map] in *.
        rewrite Ein in *. cbn [andb] in *.
        assert (Hpre : name_in c pre = false).
        { destruct (name_in c pre) eqn:E; [|reflexivity].
          apply name_in_spec in E. apply NoDup_remove_2 in Hnd.
          exfalso. apply Hnd. apply in_or_app. now left. }
        rewrite Hpre. cbn [negb].
        rewrite IH.
        * now rewrite <- app_assoc.
        * intros x Hx. apply in_or_app. left. now apply Hincl.
        * now rewrite <- app_assoc. }
  intros Hnd. apply G; [apply incl_refl | exact Hnd].
Qed.

(** One row of the result: the cells of the left columns, then the cells
    of the right columns. *)
Lemma append_left_cells (self : DataFrame) (value : string -> result Scalar)
    (g : string -> Scalar) (rd : dict string column) :
  (forall col, In col (columns self) -> value col = Ok (g col)) ->
  append_left self value rd =
  foldM (fun rd (kv : string * Scalar) => dict_append rd (fst kv) (snd kv))
        (combine (columns self) (map g (columns self))) rd.
Proof.
  intros Hval. unfold append_left.
  rewrite <- (map_id (columns self)) at 2. rewrite combine_map_both.
  rewrite <- (filter_true (columns self)) at 2.
  rewrite <- (foldM_append_values (fun _ => false) (fun col => col) value).
  - reflexivity.
  - intros col Hc _. now apply Hval.
Qed.

Lemma append_right_cells (self other : DataFrame) (right_key : string)
    (value : string -> result Scalar) (g : string -> Scalar)
    (rd : dict string column) :
  (forall col, In col (right_columns self other right_key) ->
               value col = Ok (g col)) ->
  append_right self other right_key value rd =
  foldM (fun rd (kv : string * Scalar) => dict_append rd (fst kv) (snd kv))
        (combine (right_names self other right_key)
           (map g (right_columns self other right_key)))
        rd.
Proof.
  intros Hval. unfold append_right, right_names, right_columns.
  rewrite combine_map_both.
  rewrite <- (foldM_append_values
               (fun col => (col =? right_key) && name_in col (columns self))
               (fun col => if name_in col (columns self) &&
                              negb (col =? right_key)
                           then right_name col else col)
               value).
  - reflexivity.
  - intros col Hc Hskip. apply Hval. unfold right_columns.
    apply filter_In. split; [exact Hc | now rewrite Hskip].
Qed.

Lemma emit_row (self other : DataFrame) (right_key : string)
    (lvalue rvalue : string -> result Scalar) (gl gr : string -> Scalar)
    (rws : list (list Scalar)) :
  NoDup (join_columns self other right_key) ->
  Forall (fun r => List.length r =
                   List.length (join_columns self other right_key)) rws ->
  (forall col, In col (columns self) -> lvalue col = Ok (gl col)) ->
  (forall col, In col (right_columns self other right_key) ->
               rvalue col = Ok (gr col)) ->
  (do rd1 <- append_left self lvalue
               (table_of_rows (join_columns self other right_key) rws);
   append_right self other right_key rvalue rd1) =
  Ok (table_of_rows (join_columns self other right_key)
        (rws ++ [map gl (columns self) ++
                 map gr (right_columns self other right_key)])).
Proof.
  intros Hnd Hr Hl Hrv.
  destruct (table_of_rows_shape _ rws Hr) as [Hk _].
  destruct (append_row_in_two_passes
              (table_of_rows (join_columns self other right_key) rws)
              (columns self) (right_names self other right_key)
              (map gl (columns self))
              (map gr (right_columns self other right_key)))
    as (T1 & E1 & E2).
  - now rewrite Hk.
  - exact Hk.
  - apply length_map.
  - unfold right_names. now rewrite !length_map.
  - rewrite (append_left_cells self lvalue gl) by assumption.
    rewrite E1. cbn [bind].
    rewrite (append_right_cells self other right_key rvalue gr) by assumption.
    rewrite E2. now rewrite table_of_rows_snoc.
Qed.

Lemma join_row_length (self other : DataFrame) (right_key : string)
    (gl gr : string -> Scalar) :
  List.length (map gl (columns self) ++
               map gr (right_columns self other right_key)) =
  List.length (join_columns self other right_key).
Proof.
  unfold join_columns, right_names. now rewrite !length_app, !length_map.
Qed.

(** Membership in the set of matched rows. *)
Lemma same_members_add (a b : list nat) (j : nat) :
  same_members a b ->
  same_members (if existsb (Nat.eqb j) a then a else a ++ [j]) (b ++ [j]).
Proof.
  intros H x. rewrite existsb_app. cbn [existsb]. rewrite orb_false_r.
  destruct (existsb (Nat.eqb j) a) eqn:E.
  - rewrite <- H. destruct (Nat.eqb_spec x j) as [->|Hne].
    + rewrite E. reflexivity.
    + now rewrite orb_false_r.
  - rewrite existsb_app. cbn [existsb]. rewrite orb_false_r. now rewrite H.
Qed.

Section LeftPass.
Context (self other : DataFrame) (left_key right_key how : string).
Hypothesis Hself : well_formed self.
Hypothesis Hother : well_formed other.
Hypothesis Hlk : In left_key (columns self).
Hypothesis Hrk : In right_key (columns other).
Hypothesis Hnd : NoDup (join_columns self other right_key).

Local Abbreviation K := (join_columns self other right_key).
Local Abbreviation row_ok :=
  (fun r : list Scalar => List.length r = List.length K).

Lemma right_columns_incl (col : string) :
  In col (right_columns self other right_key) -> In col (columns other).
Proof. unfold right_columns. intros H. now apply filter_In in H. Qed.

Lemma matched_loop (i : nat) (js : list nat) :
  i < len self ->
  Forall (fun j => j < len other) js ->
  forall (rws : list (list Scalar)) (matched seen : list nat),
    Forall row_ok rws ->
    same_members matched seen ->
    exists matched',
      foldM (fun (st' : dict string column * list nat) j =>
               let (rd, matched) := st' in
               let matched' := if existsb (Nat.eqb j) matched then matched
                               else matched ++ [j] in
               do rd1 <- append_left self (fun col => cell self col i) rd;
               do rd2 <- append_right self other right_key
                           (fun col => cell other col j) rd1;
               Ok (rd2, matched'))
            js (table_of_rows K rws, matched) =
      Ok (table_of_rows K
            (rws ++ map (fun j => row_at self i ++
                                  right_values self other right_key j) js),
          matched') /\
      same_members matched' (seen ++ js).
Proof.
  intros Hi Hjs. induction Hjs as [|j js Hj Hjs IH];
    intros rws matched seen Hr Hm.
  - exists matched. cbn [foldM map]. rewrite !app_nil_r. auto.
  - cbn [foldM map].
    pose proof (emit_row self other right_key
                  (fun col => cell self col i) (fun col => cell other col j)
                  (fun col => value_at self col i)
                  (fun col => value_at other col j) rws Hnd Hr) as E.
    destruct (bind_ok _ _ _ (E (fun col Hc => cell_ok self col i Hself Hc Hi)
                (fun col Hc => cell_ok other col j Hother
                                 (right_columns_incl col Hc) Hj)))
      as (rd1 & E1 & E2).
    rewrite E1. cbn [bind]. rewrite E2. cbn [bind].
    + destruct (IH (rws ++ [row_at self i ++
                            right_values self other right_key j])
                  (if existsb (Nat.eqb j) matched then matched
                   else matched ++ [j])
                  (seen ++ [j])) as (m' & E' & Hm').
      * apply Forall_app. split; [exact Hr|]. constructor; [|constructor].
        apply join_row_length.
      * now apply same_members_add.
      * exists m'. split.
        -- unfold row_at, key_at, right_values in *. rewrite E'.
           now rewrite <- app_assoc.
        -- now rewrite <- app_assoc in Hm'.
Qed.

Lemma left_row_step (i : nat) (rws : list (list Scalar))
    (matched seen : list nat) :
  i < len self ->
  Forall row_ok rws ->
  same_members matched seen ->
  exists matched',
    join_left_row self other left_key right_key how
      (scan_index (column_values other right_key))
      (table_of_rows K rws, matched) i =
    Ok (table_of_rows K
          (rws ++ left_row_output self other left_key right_key how i),
        matched') /\
    same_members matched' (seen ++ matches self other left_key right_key i).
Proof.
  intros Hi Hr Hm. unfold join_left_row, left_row_output.
  rewrite cell_ok by assumption. cbn [bind].
  rewrite right_index_lookup.
  destruct (matches self other left_key right_key i) as [|j0 js] eqn:Em.
  - destruct (how_in how ["left"; "outer"]).
    + exists matched. split; [|now rewrite app_nil_r].
      pose proof (emit_row self other right_key
                    (fun col => cell self col i) (fun _ => Ok Null)
                    (fun col => value_at self col i) (fun _ => Null)
                    rws Hnd Hr) as E.
      destruct (bind_ok _ _ _ (E (fun col Hc => cell_ok self col i Hself Hc Hi)
                  (fun col Hc => eq_refl)))
        as (rd1 & E1 & E2).
      rewrite E1. cbn [bind]. rewrite E2. reflexivity.
    + exists matched. now rewrite !app_nil_r.
  - apply matched_loop; auto.
    apply Forall_forall. intros j Hj.
    apply (matches_bound self other left_key right_key i); auto.
    now rewrite Em.
Qed.

Lemma left_pass (l : list nat) :
  Forall (fun i => i < len self) l ->
  forall (rws : list (list Scalar)) (matched seen : list nat),
    Forall row_ok rws ->
    same_members matched seen ->
    exists matched',
      foldM (join_left_row self other left_key right_key how
               (scan_index (column_values other right_key)))
            l (table_of_rows K rws, matched) =
      Ok (table_of_rows K
            (rws ++ flat_map
                      (left_row_output self other left_key right_key how) l),
          matched') /\
      same_members matched'
        (seen ++ flat_map (matches self other left_key right_key) l).
Proof.
  induction 1 as [|i l Hi Hl IH]; intros rws matched seen Hr Hm.
  - exists matched. cbn [foldM flat_map]. now rewrite !app_nil_r.
  - cbn [foldM flat_map].
    destruct (left_row_step i rws matched seen Hi Hr Hm) as (m1 & E1 & Hm1).
    rewrite E1. cbn [bind].
    destruct (IH (rws ++ left_row_output self other left_key right_key how i)
                m1 (seen ++ matches self other left_key right_key i))
      as (m2 & E2 & Hm2); [|exact Hm1|].
    + apply Forall_app. split; [exact Hr|].
      unfold left_row_output.
      destruct (matches self other left_key right_key i) as [|j0 js].
      * destruct (how_in how ["left"; "outer"]); repeat constructor.
        apply join_row_length.
      * apply Forall_map. apply Forall_forall. intros j _.
        apply join_row_length.
    + exists m2. rewrite E2. now rewrite <- !app_assoc in *.
Qed.

Lemma right_pass (matched : list nat) (l : list nat) :
  Forall (fun j => j < len other) l ->
  forall rws : list (list Scalar),
    Forall row_ok rws ->
    foldM (join_right_row self other left_key right_key matched) l
          (table_of_rows K rws) =
    Ok (table_of_rows K
          (rws ++ map (unmatched_row self other left_key right_key)
                    (filter (fun j => negb (existsb (Nat.eqb j) matched)) l))).
Proof.
  induction 1 as [|j l Hj Hl IH]; intros rws Hr.
  - cbn [foldM filter map]. now rewrite app_nil_r.
  - cbn [foldM filter]. unfold join_right_row at 1.
    destruct (existsb (Nat.eqb j) matched); cbn [negb bind].
    + now apply IH.
    + pose proof (emit_row self other right_key
                    (fun col => if col =? left_key then cell other right_key j
                                else Ok Null)
                    (fun col => cell other col j)
                    (fun col => if col =? left_key
                                then value_at other right_key j else Null)
                    (fun col => value_at other col j) rws Hnd Hr) as E.
      rewrite E.
      * cbn [bind map]. rewrite IH.
        -- now rewrite <- app_assoc.
        -- apply Forall_app. split; [exact Hr|]. repeat constructor.
           apply join_row_length.
      * intros col Hc. destruct (col =? left_key); [|reflexivity].
        now apply cell_ok.
      * intros col Hc. apply cell_ok; auto. now apply right_columns_incl.
Qed.

End LeftPass.

Lemma filter_same_members (a b : list nat) (l : list nat) :
  same_members a b ->
  filter (fun j => negb (existsb (Nat.eqb j) a)) l =
  filter (fun j => negb (existsb (Nat.eqb j) b)) l.
Proof. intros H. apply filter_ext. intros j. now rewrite H. Qed.

Lemma Forall_seq_lt (n : nat) : Forall (fun i => i < n) (seq 0 n).
Proof. apply Forall_forall. intros i Hi. apply in_seq in Hi. lia. Qed.

Lemma join_ok (self other : DataFrame) (left_key right_key how : string) :
  well_formed self ->
  well_formed other ->
  In left_key (columns self) ->
  In right_key (columns other) ->
  NoDup (join_columns self other right_key) ->
  join self other None (Some left_key) (Some right_key) how =
  Ok (mkDataFrame
        (table_of_rows (join_columns self other right_key)
           (join_rows self other left_key right_key how))
        (join_columns self other right_key)).
Proof.
  intros Hself Hother Hlk Hrk Hnd. unfold join. cbn [bind].
  apply name_in_spec in Hlk, Hrk. rewrite Hlk, Hrk. cbn [negb].
  apply name_in_spec in Hlk, Hrk.
  rewrite build_right_index_ok by assumption. cbn [bind].
  rewrite join_result_columns_ok by assumption.
  replace (dict_of_list
             (map (fun col : string => (col, @nil Scalar))
                (join_columns self other right_key)))
    with (table_of_rows (join_columns self other right_key) []).
  2:{ unfold table_of_rows. cbn [fold_left]. symmetry.
      apply dict_of_list_NoDup. unfold dict_keys. rewrite map_map.
      cbn [fst]. now rewrite map_id. }
  destruct (left_pass self other left_key right_key how Hself Hother Hlk Hrk
              Hnd (seq 0 (len self)) (Forall_seq_lt _) [] [] [])
    as (matched & E & Hm); [constructor | intros j; reflexivity |].
  cbn [app] in E, Hm.
  fold (left_pass_rows self other left_key right_key how) in E.
  fold (matched_rows self other left_key right_key) in Hm.
  rewrite E. cbn [bind].
  assert (Hleft : Forall (fun r => List.length r =
                            List.length (join_columns self other right_key))
                    (left_pass_rows self other left_key right_key how)).
  { unfold left_pass_rows. apply Forall_forall. intros r Hr.
    apply in_flat_map in Hr. destruct Hr as (i & _ & Hr).
    unfold left_row_output in Hr.
    destruct (matches self other left_key right_key i) as [|j0 js].
    - destruct (how_in how ["left"; "outer"]); [|contradiction].
      destruct Hr as [<-|[]]. apply join_row_length.
    - apply in_map_iff in Hr. destruct Hr as (j & <- & _).
      apply join_row_length. }
  assert (Hall : Forall (fun r => List.length r =
                           List.length (join_columns self other right_key))
                   (join_rows self other left_key right_key how)).
  { unfold join_rows. apply Forall_app. split; [exact Hleft|].
    unfold right_pass_rows. destruct (how_in how ["right"; "outer"]);
      [|constructor].
    apply Forall_map. apply Forall_forall. intros j _.
    apply join_row_length. }
  assert (E2 : (if how_in how ["right"; "outer"]
                then foldM (join_right_row self other left_key right_key
                              matched)
                       (seq 0 (len other))
                       (table_of_rows (join_columns self other right_key)
                          (left_pass_rows self other left_key right_key how))
                else Ok (table_of_rows (join_columns self other right_key)
                           (left_pass_rows self other left_key right_key how)))
               = Ok (table_of_rows (join_columns self other right_key)
                       (join_rows self other left_key right_key how))).
  { unfold join_rows, right_pass_rows.
    destruct (how_in how ["right"; "outer"]); [|now rewrite app_nil_r].
    rewrite (right_pass self other left_key right_key);
      try assumption; [|apply Forall_seq_lt].
    now rewrite (filter_same_members _ _ _ Hm). }
  rewrite E2. cbn [bind].
  destruct (table_of_rows_shape _ _ Hall) as [Hk Hv].
  rewrite (DataFrame_init_ok _ _ (eq_ind_r (fun l => NoDup l) Hnd Hk) Hv).
  now rewrite Hk.
Qed.



(** ** Tables in the store are not changed *)

Module StoreFacts.
Import Store.

Lemma keeps_ret {A : Type} (n : nat) (x : A) (post : A -> Prop) :
  post x -> keeps n (ret x) post.
Proof.
  intros Hx h Hn Hc. cbn. repeat split; auto. intros y E.
  now injection E as <-.
Qed.

Lemma keeps_raise {A : Type} (n : nat) (e : exn) (post : A -> Prop) :
  keeps n (raise e) post.
Proof. intros h Hn Hc. cbn. repeat split; auto. discriminate. Qed.

Lemma keeps_lift {A : Type} (n : nat) (r : result A) (post : A -> Prop) :
  (forall x, r = Ok x -> post x) -> keeps n (lift r) post.
Proof. intros Hr h Hn Hc. cbn. repeat split; auto. Qed.

Lemma keeps_bind {A B : Type} (n : nat) (m : M A) (f : A -> M B)
    (P : A -> Prop) (Q : B -> Prop) :
  keeps n m P -> (forall x, P x -> keeps n (f x) Q) ->
  keeps n (mbind m f) Q.
Proof.
  intros Hm Hf h Hn Hc. destruct (Hm h Hn Hc) as (H1 & H2 & H3 & H4).
  unfold mbind. destruct (m h) as [[x|e] h1]; cbn [fst snd] in *.
  - destruct (Hf x (H4 x eq_refl) h1 H2 H3) as (G1 & G2 & G3 & G4).
    repeat split; auto. congruence.
  - repeat split; auto. discriminate.
Qed.

Lemma keeps_weaken {A : Type} (n : nat) (m : M A) (P Q : A -> Prop) :
  keeps n m P -> (forall x, P x -> Q x) -> keeps n m Q.
Proof.
  intros Hm HPQ h Hn Hc. destruct (Hm h Hn Hc) as (H1 & H2 & H3 & H4).
  repeat split; auto.
Qed.

Lemma keeps_alloc (n : nat) (o : obj) :
  fresh n o -> keeps n (alloc o) (fun a => n <= a).
Proof.
  intros Ho h Hn Hc. unfold alloc. cbn [fst snd]. repeat split.
  - rewrite firstn_app. replace (n - List.length h) with 0 by lia.
    cbn [firstn]. apply app_nil_r.
  - rewrite length_app. lia.
  - intros a o' Ha E. destruct (Nat.lt_ge_cases a (List.length h)) as [Hlt|Hge].
    + rewrite nth_error_app1 in E by assumption. now apply (Hc a).
    + rewrite nth_error_app2 in E by assumption.
      destruct (a - List.length h) as [|k];
        [now injection E as <- | now destruct k].
  - intros a E. injection E as <-. exact Hn.
Qed.

Lemma keeps_load (n : nat) (a : addr) :
  keeps n (load a) (fun o => n <= a -> fresh n o).
Proof.
  intros h Hn Hc. unfold load.
  destruct (nth_error h a) as [o|] eqn:E; cbn [fst snd]; repeat split; auto;
    try discriminate.
  intros o' E' Ha. injection E' as <-. now apply (Hc a).
Qed.

Lemma nth_error_replace {A : Type} (l : list A) (a b : nat) (x : A) :
  a < List.length l ->
  nth_error (firstn a l ++ x :: skipn (S a) l) b =
  if Nat.eqb b a then Some x else nth_error l b.
Proof.
  intros Ha. destruct (Nat.eqb_spec b a) as [->|Hne].
  - rewrite nth_error_app2 by (rewrite length_firstn; lia).
    rewrite length_firstn.
    replace (a - Nat.min a (List.length l)) with 0 by lia. reflexivity.
  - destruct (Nat.lt_ge_cases b a) as [Hlt|Hge].
    + rewrite nth_error_app1 by (rewrite length_firstn; lia).
      rewrite nth_error_firstn.
      destruct (Nat.ltb_spec b a); [reflexivity | lia].
    + rewrite nth_error_app2 by (rewrite length_firstn; lia).
      rewrite length_firstn.
      replace (b - Nat.min a (List.length l)) with (S (b - S a)) by lia.
      cbn [nth_error]. rewrite nth_error_skipn. f_equal. lia.
Qed.

Lemma keeps_store (n : nat) (a : addr) (o : obj) :
  n <= a -> fresh n o -> keeps n (store a o) (fun _ => True).
Proof.
  intros Ha Ho h Hn Hc. unfold store.
  destruct (Nat.ltb_spec a (List.length h)) as [Hlt|Hge]; cbn [fst snd];
    [|repeat split; auto].
  repeat split; auto.
  - rewrite firstn_app, length_firstn.
    replace (n - Nat.min a (List.length h)) with 0 by lia.
    cbn [firstn]. rewrite app_nil_r, firstn_firstn.
    now replace (Nat.min n a) with n by lia.
  - rewrite length_app, length_firstn. cbn [List.length].
    rewrite length_skipn. lia.
  - intros b o' Hb E. rewrite nth_error_replace in E by assumption.
    destruct (Nat.eqb b a); [now injection E as <- | now apply (Hc b)].
Qed.

Lemma keeps_mfor {A : Type} (n : nat) (l : list A) (f : A -> M unit) :
  (forall x, In x l -> keeps n (f x) (fun _ => True)) ->
  keeps n (mfor l f) (fun _ => True).
Proof.
  induction l as [|x l IH]; intros Hf; cbn [mfor].
  - now apply keeps_ret.
  - eapply keeps_bind; [apply Hf; now left|]. intros _ _. apply IH.
    intros y Hy. apply Hf. now right.
Qed.

Lemma keeps_mmap {A B : Type} (n : nat) (l : list A) (f : A -> M B)
    (P : B -> Prop) :
  (forall x, In x l -> keeps n (f x) P) ->
  keeps n (mmap f l) (Forall P).
Proof.
  induction l as [|x l IH]; intros Hf; cbn [mmap].
  - apply keeps_ret. constructor.
  - eapply keeps_bind; [apply Hf; now left|]. intros y Hy.
    eapply keeps_bind; [apply IH; intros z Hz; apply Hf; now right|].
    intros ys Hys. apply keeps_ret. now constructor.
Qed.

Lemma keeps_mfold {A B : Type} (n : nat) (l : list A) (f : B -> A -> M B)
    (I : B -> Prop) :
  (forall acc x, I acc -> keeps n (f acc x) I) ->
  forall acc, I acc -> keeps n (mfold f l acc) I.
Proof.
  intros Hf. induction l as [|x l IH]; intros acc Hacc; cbn [mfold].
  - now apply keeps_ret.
  - eapply keeps_bind; [now apply Hf|]. intros acc' Hacc'. now apply IH.
Qed.

(** Objects of each kind. *)
Lemma keeps_get_list (n : nat) (a : addr) :
  keeps n (get_list a) (fun _ => True).
Proof.
  unfold get_list. eapply keeps_bind; [apply keeps_load|].
  intros [] _; (apply keeps_raise || now apply keeps_ret).
Qed.

Lemma keeps_get_names (n : nat) (a : addr) :
  keeps n (get_names a) (fun _ => True).
Proof.
  unfold get_names. eapply keeps_bind; [apply keeps_load|].
  intros [] _; (apply keeps_raise || now apply keeps_ret).
Qed.


Lemma keeps_get_dict (n : nat) (a : addr) :
  keeps n (get_dict a) (fun es => n <= a -> fresh_entries n es).
Proof.
  unfold get_dict. eapply keeps_bind; [apply keeps_load|].
  intros [] H; (apply keeps_raise || (apply keeps_ret; exact H)).
Qed.

Lemma keeps_data_of (n : nat) (t : addr) :
  keeps n (data_of t) (fun d => n <= t -> n <= d).
Proof.
  unfold data_of. eapply keeps_bind; [apply keeps_load|].
  intros [] H; (apply keeps_raise || (apply keeps_ret; intros Ht)).
  now destruct (H Ht).
Qed.

Lemma keeps_columns_of (n : nat) (t : addr) :
  keeps n (columns_of t) (fun c => n <= t -> n <= c).
Proof.
  unfold columns_of. eapply keeps_bind; [apply keeps_load|].
  intros [] H; (apply keeps_raise || (apply keeps_ret; intros Ht)).
  now destruct (H Ht).
Qed.

Lemma keeps_list_append (n : nat) (a : addr) (v : Scalar) :
  n <= a -> keeps n (list_append a v) (fun _ => True).
Proof.
  intros Ha. unfold list_append.
  eapply keeps_bind; [apply keeps_get_list|]. intros l _.
  now apply keeps_store.
Qed.

Lemma keeps_names_append (n : nat) (a : addr) (x : string) :
  n <= a -> keeps n (names_append a x) (fun _ => True).
Proof.
  intros Ha. unfold names_append.
  eapply keeps_bind; [apply keeps_get_names|]. intros l _.
  now apply keeps_store.
Qed.

Lemma getitem_in {V : Type} (es : dict string V) (k : string) (v : V) :
  getitem es k = Ok v -> exists k', In (k', v) es.
Proof.
  unfold getitem. induction es as [|[k' v'] es IH]; cbn [dict_get];
    [discriminate|].
  destruct (key_eqb k' k).
  - intros E. injection E as <-. exists k'. now left.
  - intros E. destruct (IH E) as (k0 & Hin). exists k0. now right.
Qed.

Lemma keeps_dict_getitem (n : nat) (d : addr) (k : string) :
  keeps n (dict_getitem d k) (fun a => n <= d -> n <= a).
Proof.
  unfold dict_getitem. eapply keeps_bind; [apply keeps_get_dict|].
  intros es Hes. apply keeps_lift. intros a E Hd.
  destruct (getitem_in es k a E) as (k' & Hin).
  specialize (Hes Hd). unfold fresh_entries in Hes.
  rewrite Forall_forall in Hes. apply (Hes _ Hin).
Qed.

Lemma fresh_entries_set (n : nat) (es : dict string addr) (k : string)
    (a : addr) :
  fresh_entries n es -> n <= a -> fresh_entries n (dict_set es k a).
Proof.
  intros Hes Ha. induction Hes as [|[k' a'] es He Hes IH]; cbn [dict_set].
  - now repeat constructor.
  - destruct (key_eqb k' k); constructor; auto.
Qed.

Lemma keeps_dict_setitem (n : nat) (d : addr) (k : string) (a : addr) :
  n <= d -> n <= a -> keeps n (dict_setitem d k a) (fun _ => True).
Proof.
  intros Hd Ha. unfold dict_setitem.
  eapply keeps_bind; [apply keeps_get_dict|]. intros es Hes.
  apply keeps_store; [exact Hd|]. cbn [fresh].
  apply fresh_entries_set; auto.
Qed.

Lemma keeps_set_columns (n : nat) (t c : addr) :
  n <= t -> n <= c -> keeps n (set_columns t c) (fun _ => True).
Proof.
  intros Ht Hc. unfold set_columns.
  eapply keeps_bind; [apply keeps_data_of|]. intros d Hd.
  apply keeps_store; [exact Ht|]. cbn [fresh]. auto.
Qed.

Lemma keeps_new_list (n : nat) (l : list Scalar) :
  keeps n (new_list l) (fun a => n <= a).
Proof. apply keeps_alloc. exact I. Qed.

Lemma keeps_copy_list (n : nat) (a : addr) :
  keeps n (copy_list a) (fun a' => n <= a').
Proof.
  unfold copy_list. eapply keeps_bind; [apply keeps_get_list|].
  intros l _. apply keeps_alloc. exact I.
Qed.

Lemma keeps_dict_comp (n : nat) (names : list string) (f : string -> M addr) :
  (forall col, keeps n (f col) (fun a => n <= a)) ->
  keeps n (dict_comp names f) (fun d => n <= d).
Proof.
  intros Hf. unfold dict_comp.
  eapply keeps_bind; [apply keeps_alloc; constructor|]. intros d Hd.
  eapply keeps_bind.
  - apply keeps_mfor. intros col _.
    eapply keeps_bind; [apply Hf|]. intros a Ha.
    now apply keeps_dict_setitem.
  - intros _ _. now apply keeps_ret.
Qed.

Lemma keeps_dict_comp_items (n : nat) (entries : dict string addr)
    (f : string -> addr -> M addr) :
  (forall col a, keeps n (f col a) (fun a' => n <= a')) ->
  keeps n (dict_comp_items entries f) (fun d => n <= d).
Proof.
  intros Hf. unfold dict_comp_items.
  eapply keeps_bind; [apply keeps_alloc; constructor|]. intros d Hd.
  eapply keeps_bind.
  - apply keeps_mfor. intros e _.
    eapply keeps_bind; [apply Hf|]. intros a Ha.
    now apply keeps_dict_setitem.
  - intros _ _. now apply keeps_ret.
Qed.

Lemma keeps_any {A : Type} (n : nat) (m : M A) (P : A -> Prop) :
  keeps n m P -> keeps n m (fun _ => True).
Proof. intros H. eapply keeps_weaken; [exact H | auto]. Qed.

Lemma keeps_column_names (n : nat) (t : addr) :
  keeps n (column_names t) (fun _ => True).
Proof.
  unfold column_names. eapply keeps_bind; [apply keeps_columns_of|].
  intros c _. apply keeps_get_names.
Qed.

Lemma keeps_data_items (n : nat) (t : addr) :
  keeps n (data_items t) (fun _ => True).
Proof.
  unfold data_items. eapply keeps_bind; [apply keeps_data_of|].
  intros d _. eapply keeps_any. apply keeps_get_dict.
Qed.

Lemma keeps_len (n : nat) (t : addr) : keeps n (len t) (fun _ => True).
Proof.
  unfold len. eapply keeps_bind; [apply keeps_data_items|].
  intros [|[k a] es] _; [now apply keeps_ret|].
  eapply keeps_bind; [apply keeps_get_list|]. intros l _.
  now apply keeps_ret.
Qed.

Lemma keeps_column_of (n : nat) (t : addr) (col : string) :
  keeps n (column_of t col) (fun _ => True).
Proof.
  unfold column_of. eapply keeps_bind; [apply keeps_data_of|].
  intros d _. eapply keeps_any. apply keeps_dict_getitem.
Qed.

Lemma keeps_cell (n : nat) (t : addr) (col : string) (i : nat) :
  keeps n (cell t col i) (fun _ => True).
Proof.
  unfold cell. eapply keeps_bind; [apply keeps_column_of|]. intros a _.
  eapply keeps_bind; [apply keeps_get_list|]. intros l _.
  now apply keeps_lift.
Qed.

Lemma keeps_DataFrame_init (n : nat) (d : addr) :
  keeps n (DataFrame_init d) (fun a => n <= a).
Proof.
  unfold DataFrame_init.
  eapply keeps_bind; [apply keeps_get_dict|]. intros entries _.
  eapply keeps_bind;
    [apply keeps_dict_comp_items; intros; apply keeps_copy_list|].
  intros data Hdata.
  eapply keeps_bind; [apply keeps_alloc; exact I|]. intros columns Hcolumns.
  eapply keeps_bind; [apply keeps_get_dict|]. intros entries' _.
  eapply keeps_bind.
  - apply (keeps_mmap _ _ _ (fun _ => True)). intros e _.
    eapply keeps_bind; [apply keeps_get_list|]. intros l _.
    apply keeps_ret. exact I.
  - intros lengths _.
    destruct entries'; [|destruct (_ <? _)%nat];
      try apply keeps_raise; apply keeps_alloc; cbn [fresh]; auto.
Qed.

(** A tactic that walks through a computation. *)
Ltac kleaf L := first [ apply L | eapply keeps_weaken; [apply L | cbv beta; auto] ].

Ltac kuser := fail.

Ltac ksolve :=
  cbv beta zeta in *;
  lazymatch goal with
  | |- keeps _ (mbind _ _) _ =>
      eapply keeps_bind; [ksolve | intros ? ?; ksolve]
  | |- keeps _ (if ?b then _ else _) _ => destruct b; ksolve
  | |- keeps _ (match ?x with _ => _ end) _ => destruct x; ksolve
  | |- keeps _ (ret _) _ =>
      first [ apply keeps_ret; solve [auto]
            | apply (keeps_ret _ _ (fun _ => True)); exact I ]
  | |- keeps _ (raise _) _ => apply keeps_raise
  | |- keeps _ (lift _) _ =>
      first [ apply keeps_lift; solve [auto]
            | apply (keeps_lift _ _ (fun _ => True)); auto ]
  | |- keeps _ (mfor _ _) _ =>
      first [ apply keeps_mfor; intros ? ?; ksolve
            | eapply keeps_any; apply keeps_mfor; intros ? ?; ksolve ]
  | |- keeps _ (mmap _ _) _ =>
      first [ apply (keeps_mmap _ _ _ (fun _ => True)); intros ? ?; ksolve
            | eapply keeps_any;
              apply (keeps_mmap _ _ _ (fun _ => True)); intros ? ?; ksolve ]
  | |- keeps _ (mfold _ _ _) _ =>
      first [ apply (keeps_mfold _ _ _ (fun _ => True));
              [intros ? ? ?; ksolve | exact I]
            | eapply keeps_any;
              apply (keeps_mfold _ _ _ (fun _ => True));
              [intros ? ? ?; ksolve | exact I] ]
  | |- keeps _ (get_list _) _ => kleaf keeps_get_list
  | |- keeps _ (get_names _) _ => kleaf keeps_get_names
  | |- keeps _ (get_dict _) _ => kleaf keeps_get_dict
  | |- keeps _ (data_of _) _ => kleaf keeps_data_of
  | |- keeps _ (columns_of _) _ => kleaf keeps_columns_of
  | |- keeps _ (column_names _) _ => kleaf keeps_column_names
  | |- keeps _ (data_items _) _ => kleaf keeps_data_items
  | |- keeps _ (len _) _ => kleaf keeps_len
  | |- keeps _ (column_of _ _) _ => kleaf keeps_column_of
  | |- keeps _ (cell _ _ _) _ => kleaf keeps_cell
  | |- keeps _ (new_list _) _ => kleaf keeps_new_list
  | |- keeps _ (copy_list _) _ => kleaf keeps_copy_list
  | |- keeps _ (alloc _) _ => kleaf keeps_alloc; cbn [fresh]; auto
  | |- keeps _ (dict_getitem _ _) _ => kleaf keeps_dict_getitem
  | |- keeps _ (DataFrame_init _) _ => kleaf keeps_DataFrame_init
  | |- keeps _ (list_append _ _) _ =>
      first [ apply keeps_list_append; solve [auto]
            | eapply keeps_any; apply keeps_list_append; solve [auto] ]
  | |- keeps _ (names_append _ _) _ =>
      first [ apply keeps_names_append; solve [auto]
            | eapply keeps_any; apply keeps_names_append; solve [auto] ]
  | |- keeps _ (dict_setitem _ _ _) _ =>
      first [ apply keeps_dict_setitem; solve [auto]
            | eapply keeps_any; apply keeps_dict_setitem; solve [auto] ]
  | |- keeps _ (set_columns _ _) _ =>
      first [ apply keeps_set_columns; solve [auto]
            | eapply keeps_any; apply keeps_set_columns; solve [auto] ]
  | |- keeps _ (dict_comp _ _) _ =>
      kleaf keeps_dict_comp; intros ?; ksolve
  | |- keeps _ (dict_comp_items _ _) _ =>
      kleaf keeps_dict_comp_items; intros ? ?; ksolve
  | |- _ => first [ kuser | idtac ]
  end.

(** The transforms. *)
Lemma keeps_head (n : nat) (self : addr) (k : Z) :
  keeps n (head self k) (fun a => n <= a).
Proof. unfold head. ksolve. Qed.

Lemma keeps_tail (n : nat) (self : addr) (k : Z) :
  keeps n (tail self k) (fun a => n <= a).
Proof. unfold tail. ksolve. Qed.

Lemma keeps_filter (n : nat) (self : addr)
    (condition : dict string Scalar -> result bool) :
  keeps n (filter self condition) (fun a => n <= a).
Proof. unfold filter. ksolve. Qed.

Lemma keeps_filter_by_value (n : nat) (self : addr) (column : string)
    (value : Scalar) :
  keeps n (filter_by_value self column value) (fun a => n <= a).
Proof. unfold filter_by_value. ksolve; apply keeps_filter. Qed.

Lemma keeps_select (n : nat) (self : addr) (columns : list string) :
  keeps n (select self columns) (fun a => n <= a).
Proof. unfold select. ksolve. Qed.

Lemma keeps_drop (n : nat) (self : addr) (columns : list string) :
  keeps n (drop self columns) (fun a => n <= a).
Proof. unfold drop. ksolve; apply keeps_select. Qed.

Lemma keeps_copy_data (n : nat) (self : addr) :
  keeps n (copy_data self) (fun d => n <= d).
Proof. unfold copy_data. ksolve. Qed.

Ltac kuser ::= kleaf keeps_copy_data.

Lemma keeps_sort (n : nat) (self : addr) (by_ : list string)
    (ascending : bool) :
  keeps n (sort self by_ ascending) (fun a => n <= a).
Proof. unfold sort. ksolve. Qed.

Lemma keeps_add_column (n : nat) (self : addr) (column_name : string)
    (values : addr) :
  keeps n (add_column self column_name values) (fun a => n <= a).
Proof.
  unfold add_column. ksolve.
Qed.

Lemma keeps_rename_columns (n : nat) (self : addr)
    (mapping : dict string string) :
  keeps n (rename_columns self mapping) (fun a => n <= a).
Proof. unfold rename_columns. ksolve. Qed.

Lemma keeps_map_column (n : nat) (self : addr) (column : string)
    (f : Scalar -> result Scalar) :
  keeps n (map_column self column f) (fun a => n <= a).
Proof.
  unfold map_column. ksolve.
Qed.

Lemma keeps_join_result_columns (n : nat) (self other : addr)
    (right_key : string) :
  keeps n (join_result_columns self other right_key) (fun c => n <= c).
Proof. unfold join_result_columns. ksolve. Qed.

Lemma keeps_append_left (n : nat) (self : addr) (value : string -> M Scalar)
    (result_data : addr) :
  n <= result_data ->
  (forall col, keeps n (value col) (fun _ => True)) ->
  keeps n (append_left self value result_data) (fun _ => True).
Proof.
  intros Hd Hv. unfold append_left. ksolve. apply Hv.
Qed.

Lemma keeps_append_right (n : nat) (self other : addr) (right_key : string)
    (value : string -> M Scalar) (result_data : addr) :
  n <= result_data ->
  (forall col, keeps n (value col) (fun _ => True)) ->
  keeps n (append_right self other right_key value result_data)
    (fun _ => True).
Proof.
  intros Hd Hv. unfold append_right. ksolve; apply Hv.
Qed.

Lemma keeps_build_right_index (n : nat) (other : addr) (right_key : string) :
  keeps n (build_right_index other right_key) (fun _ => True).
Proof. unfold build_right_index. ksolve. Qed.

Ltac kuser ::=
  first [ kleaf keeps_copy_data
        | kleaf keeps_join_result_columns
        | apply keeps_build_right_index
        | apply keeps_append_left; [solve [auto] | intros ?; ksolve]
        | apply keeps_append_right; [solve [auto] | intros ?; ksolve] ].

Lemma keeps_join_left_row (n : nat) (self other : addr)
    (left_key right_key how : string) (right_index : dict Scalar (list nat))
    (result_data : addr) (matched : list nat) (i : nat) :
  n <= result_data ->
  keeps n (join_left_row self other left_key right_key how right_index
             result_data matched i) (fun _ => True).
Proof. intros Hd. unfold join_left_row. ksolve. Qed.

Lemma keeps_join_right_row (n : nat) (self other : addr)
    (left_key right_key : string) (matched : list nat) (result_data : addr)
    (j : nat) :
  n <= result_data ->
  keeps n (join_right_row self other left_key right_key matched result_data j)
    (fun _ => True).
Proof. intros Hd. unfold join_right_row. ksolve. Qed.

Ltac kuser ::=
  first [ kleaf keeps_copy_data
        | kleaf keeps_join_result_columns
        | apply keeps_build_right_index
        | apply keeps_join_left_row; solve [auto]
        | apply keeps_join_right_row; solve [auto] ].

Lemma keeps_join (n : nat) (self other : addr)
    (on left_on right_on : option string) (how : string) :
  keeps n (join self other on left_on right_on how) (fun a => n <= a).
Proof. unfold join. ksolve. Qed.

Lemma keeps_groupby (n : nat) (self : addr) (by_ : list string) :
  keeps n (groupby self by_) (fun _ => True).
Proof. unfold groupby, _create_groups. ksolve. Qed.

Lemma keeps_agg (n : nat) (self : GroupBy)
    (aggregations : dict string string) :
  keeps n (agg self aggregations) (fun a => n <= a).
Proof. unfold agg. ksolve. Qed.

Lemma keeps_call (n : nat) (op : transform) (self : addr) :
  keeps n (call op self) (fun a => n <= a).
Proof.
  destruct op; cbn [call].
  - apply keeps_select.
  - apply keeps_drop.
  - apply keeps_filter.
  - apply keeps_filter_by_value.
  - apply keeps_sort.
  - apply keeps_add_column.
  - apply keeps_rename_columns.
  - apply keeps_map_column.
  - apply keeps_map_column.
  - apply keeps_map_column.
  - apply keeps_head.
  - apply keeps_tail.
  - apply keeps_join.
  - apply keeps_join.
  - unfold groupby_agg. eapply keeps_bind; [apply keeps_groupby|].
    intros g _. apply keeps_agg.
Qed.

(** *** Reading a table from a larger store *)

Lemma reads_ret {A : Type} (x : A) : reads (ret x).
Proof.
  intros h y h1 H. unfold ret in *. inversion H; subst. split; auto.
Qed.

Lemma reads_raise {A : Type} (e : exn) : reads (@raise A e).
Proof. intros h y h1 H. unfold raise in H. inversion H. Qed.

Lemma reads_lift {A : Type} (r : result A) : reads (lift r).
Proof.
  intros h y h1 H. unfold lift in *. inversion H; subst. split; auto.
Qed.

Lemma reads_bind {A B : Type} (m : M A) (f : A -> M B) :
  reads m -> (forall x, reads (f x)) -> reads (mbind m f).
Proof.
  intros Hm Hf h y h1 H. unfold mbind in H.
  destruct (m h) as [[x|e] h2] eqn:E; [|inversion H].
  destruct (Hm h x h2 E) as [-> Hx].
  destruct (Hf x h y h1 H) as [-> Hy].
  split; [reflexivity|]. intros ext. unfold mbind. rewrite Hx. apply Hy.
Qed.

Lemma reads_load (a : addr) : reads (load a).
Proof.
  intros h o h1 H. unfold load in *.
  destruct (nth_error h a) as [o'|] eqn:E; inversion H; subst.
  split; [reflexivity|]. intros ext.
  rewrite nth_error_app1 by (apply nth_error_Some; congruence).
  now rewrite E.
Qed.

Lemma reads_mmap {A B : Type} (f : A -> M B) (l : list A) :
  (forall x, reads (f x)) -> reads (mmap f l).
Proof.
  intros Hf. induction l as [|x l IH]; cbn [mmap].
  - apply reads_ret.
  - apply reads_bind; [apply Hf|]. intros y.
    apply reads_bind; [exact IH|]. intros ys. apply reads_ret.
Qed.

Ltac rsolve :=
  lazymatch goal with
  | |- reads (mbind _ _) => apply reads_bind; [rsolve | intros ?; rsolve]
  | |- reads (match ?x with _ => _ end) => destruct x; rsolve
  | |- reads (ret _) => apply reads_ret
  | |- reads (raise _) => apply reads_raise
  | |- reads (lift _) => apply reads_lift
  | |- reads (load _) => apply reads_load
  | |- reads (mmap _ _) => apply reads_mmap; intros ?; rsolve
  | |- reads (get_list _) => unfold get_list; rsolve
  | |- reads (get_names _) => unfold get_names; rsolve
  | |- reads (get_dict _) => unfold get_dict; rsolve
  | |- reads (data_of _) => unfold data_of; rsolve
  | |- reads (columns_of _) => unfold columns_of; rsolve
  | |- reads (column_names _) => unfold column_names; rsolve
  | |- reads (data_items _) => unfold data_items; rsolve
  end.

Lemma table_of_extend (h ext : heap) (t : addr)
    (content : list string * dict string (list Scalar)) :
  table_of h t = Ok content -> table_of (h ++ ext) t = Ok content.
Proof.
  unfold table_of.
  match goal with |- fst (?m h) = _ -> _ => assert (Hr : reads m) by rsolve;
    destruct (m h) as [r h1] eqn:E end.
  cbn [fst]. intros ->.
  destruct (Hr h content h1 E) as [_ Hext]. now rewrite Hext.
Qed.

Lemma closed_length (h : heap) : closed (List.length h) h.
Proof.
  intros a o Ha Hnth.
  assert (a < List.length h) by (apply nth_error_Some; congruence). lia.
Qed.

Lemma call_extends (op : transform) (self : addr) (h : heap) :
  (exists ext, snd (call op self h) = h ++ ext) /\
  (forall a, fst (call op self h) = Ok a -> List.length h <= a).
Proof.
  destruct (keeps_call (List.length h) op self h (le_n _) (closed_length h))
    as (Hfirst & _ & _ & Hpost).
  split; [|exact Hpost].
  exists (skipn (List.length h) (snd (call op self h))).
  rewrite firstn_all in Hfirst.
  rewrite <- (firstn_skipn (List.length h) (snd (call op self h))) at 1.
  now rewrite Hfirst.
Qed.

(** C9. Tables are not changed by the transforms.  Whatever the store [h]
    holds, a call of a transform (select, drop, filter, filter_by_value,
    sort, add_column, rename_columns, fillna_column, convert_column_type,
    round_column, head, tail, join on either side, groupby followed by agg)
    on the table at [t] only adds objects to the store: every object of [h]
    is afterwards what it was.  So the table [t], whose name list and
    columns were [content] before the call, has the same name list and the
    same values in every column after it, and the table the call returns is
    an object that did not exist before the call. *)
Theorem transforms_leave_tables_unchanged (op : transform) (h : heap)
    (t : addr) (content : list string * dict string (list Scalar)) :
  table_of h t = Ok content ->
  (exists ext, snd (call op t h) = h ++ ext) /\
  table_of (snd (call op t h)) t = Ok content /\
  (forall a, fst (call op t h) = Ok a ->
     List.length h <= a /\ a <> t).
Proof.
  intros Ht. destruct (call_extends op t h) as [[ext Hext] Hnew].
  split; [now exists ext|]. split.
  - rewrite Hext. now apply table_of_extend.
  - intros a Ha. specialize (Hnew a Ha). split; [exact Hnew|].
    assert (t < List.length h); [|lia].
    unfold table_of, column_names, columns_of, mbind, load in Ht.
    apply nth_error_Some. destruct (nth_error h t); [discriminate|].
    cbn in Ht. discriminate.
Qed.

Lemma transforms_leave_tables_unchanged_witness :
  let h := [OList [Int 1; Null]; ODict [("a", 0)]; ONames ["a"]; OFrame 1 2] in
  let op := FillnaColumn "a" (Int 0) in
  let content := (["a"], [("a", [Int 1; Null])]) in
  table_of h 3 = Ok content /\
  ((exists ext, snd (call op 3 h) = h ++ ext) /\
   table_of (snd (call op 3 h)) 3 = Ok content /\
   (forall a, fst (call op 3 h) = Ok a -> List.length h <= a /\ a <> 3)).
Proof.
  cbv zeta. split; [reflexivity|].
  apply (transforms_leave_tables_unchanged (FillnaColumn "a" (Int 0))
           [OList [Int 1; Null]; ODict [("a", 0)]; ONames ["a"]; OFrame 1 2]
           3 (["a"], [("a", [Int 1; Null])])).
  reflexivity.
Defined.

(** On that store the call returns the table at address 10, whose column
    has the null replaced, next to the unchanged table at address 3. *)
Example fillna_column_returns_new_table :
  let h := [OList [Int 1; Null]; ODict [("a", 0)]; ONames ["a"]; OFrame 1 2] in
  let r := call (FillnaColumn "a" (Int 0)) 3 h in
  fst r = Ok 10 /\
  table_of (snd r) 10 = Ok (["a"], [("a", [Int 1; Int 0])]) /\
  table_of (snd r) 3 = Ok (["a"], [("a", [Int 1; Null])]).
Proof. cbv zeta. repeat split; reflexivity. Qed.

End StoreFacts.

Ltac example_well_formed :=
  split; [reflexivity|]; split;
  [repeat constructor; simpl; intuition discriminate | repeat constructor].

(** * The other table operations *)

(** ** Tables mapped column by column *)

Lemma well_formed_init (t : DataFrame) :
  well_formed t -> DataFrame_init (data t) = Ok t.
Proof.
  intros (Hc & Hn & Hl). destruct t as [d c]. cbn [data columns] in *.
  subst c. apply (DataFrame_init_ok d (len (mkDataFrame d (dict_keys d)))); assumption.
Qed.

Lemma dict_keys_map_values {V W : Type} (f : V -> W) (d : dict string V) :
  dict_keys (map (fun kv : string * V => (fst kv, f (snd kv))) d) = dict_keys d.
Proof. unfold dict_keys. rewrite map_map. reflexivity. Qed.

Lemma dict_values_map_values {V W : Type} (f : V -> W) (d : dict string V) :
  dict_values (map (fun kv : string * V => (fst kv, f (snd kv))) d) =
  map f (dict_values d).
Proof. unfold dict_values. rewrite !map_map. reflexivity. Qed.

Lemma map_columns_init (f : column -> column) (t : DataFrame) (m : nat) :
  well_formed t ->
  (forall l, List.length l = len t -> List.length (f l) = m) ->
  DataFrame_init
    (dict_of_list
       (map (fun kv : string * column => (fst kv, f (snd kv))) (data t))) =
  Ok (map_columns f t) /\
  well_formed (map_columns f t).
Proof.
  intros (Hc & Hn & Hl) Hf.
  assert (Hk : NoDup (dict_keys (map (fun kv : string * column =>
                                        (fst kv, f (snd kv))) (data t))))
    by now rewrite dict_keys_map_values.
  assert (Hm : Forall (fun values : column => List.length values = m)
                 (dict_values (map (fun kv : string * column =>
                                      (fst kv, f (snd kv))) (data t)))).
  { rewrite dict_values_map_values. apply Forall_map.
    eapply Forall_impl; [|exact Hl]. intros l Hlen. now apply Hf. }
  split.
  - rewrite dict_of_list_NoDup by exact Hk.
    rewrite (DataFrame_init_ok _ m Hk Hm). unfold map_columns.
    now rewrite dict_keys_map_values, Hc.
  - unfold well_formed, map_columns. cbn [data columns].
    rewrite dict_keys_map_values. repeat split; try assumption.
    unfold len. cbn [data].
    destruct (data t) as [|[k v] d'] eqn:E; [constructor|].
    cbn [map fst snd]. rewrite (Hf v).
    + exact Hm.
    + inversion Hl; subst. unfold len. now rewrite E.
Qed.

Lemma slice_to_map {A B : Type} (g : A -> B) (l : list A) (n : Z) :
  Store.slice_to (map g l) n = map g (Store.slice_to l n).
Proof.
  unfold Store.slice_to. rewrite length_map.
  destruct (0 <=? n)%Z; now rewrite firstn_map.
Qed.

Lemma slice_from_map {A B : Type} (g : A -> B) (l : list A) (n : Z) :
  Store.slice_from (map g l) n = map g (Store.slice_from l n).
Proof.
  unfold Store.slice_from. rewrite length_map.
  destruct (0 <=? n)%Z; now rewrite skipn_map.
Qed.

Lemma slice_to_nth (l : column) (n : Z) :
  Store.slice_to l n =
  map (fun i => nth i l Null) (Store.slice_to (seq 0 (List.length l)) n).
Proof. now rewrite <- slice_to_map, map_nth_seq. Qed.

Lemma slice_from_nth (l : column) (n : Z) :
  Store.slice_from l n =
  map (fun i => nth i l Null) (Store.slice_from (seq 0 (List.length l)) n).
Proof. now rewrite <- slice_from_map, map_nth_seq. Qed.

Lemma incl_firstn {A : Type} (k : nat) (l : list A) : incl (firstn k l) l.
Proof.
  intros x Hx. rewrite <- (firstn_skipn k l). apply in_or_app. now left.
Qed.

Lemma incl_skipn {A : Type} (k : nat) (l : list A) : incl (skipn k l) l.
Proof.
  intros x Hx. rewrite <- (firstn_skipn k l). apply in_or_app. now right.
Qed.

Lemma slice_to_incl {A : Type} (l : list A) (n : Z) :
  incl (Store.slice_to l n) l.
Proof.
  unfold Store.slice_to. destruct (0 <=? n)%Z; apply incl_firstn.
Qed.

Lemma slice_from_incl {A : Type} (l : list A) (n : Z) :
  incl (Store.slice_from l n) l.
Proof.
  unfold Store.slice_from. destruct (0 <=? n)%Z; apply incl_skipn.
Qed.

Lemma map_columns_reorder (f : column -> column) (t : DataFrame)
    (idxs : list nat) :
  well_formed t ->
  (forall l, List.length l = len t ->
             f l = map (fun i => nth i l Null) idxs) ->
  map_columns f t = reorder t idxs.
Proof.
  intros (_ & _ & Hl) Hf. unfold map_columns, reorder. f_equal.
  apply map_ext_in. intros [k v] Hin. cbn [fst snd]. f_equal. apply Hf.
  rewrite Forall_forall in Hl. apply Hl. unfold dict_values.
  now apply (in_map snd) in Hin.
Qed.

Lemma rows_length (t : DataFrame) : List.length (rows t) = len t.
Proof. unfold rows. now rewrite length_map, length_seq. Qed.

Lemma incl_seq_lt (n : nat) (idxs : list nat) :
  incl idxs (seq 0 n) -> Forall (fun i => i < n) idxs.
Proof.
  intros H. apply Forall_forall. intros i Hi. apply H in Hi.
  apply in_seq in Hi. lia.
Qed.

(** X1. [head(n)] returns the rows [rows[:n]] under the same names, for every
    integer [n]: the first [n] rows (all of them when there are fewer), and
    all but the last [-n] rows when [n] is negative. *)
Theorem head_rows :
  forall (t : DataFrame) (n : Z),
    well_formed t ->
    exists r,
      Table.head t n = Ok r /\
      well_formed r /\
      columns r = columns t /\
      rows r = Store.slice_to (rows t) n /\
      (0 <= n -> len r = Nat.min (Z.to_nat n) (len t))%Z.
Proof.
  intros t n Hw.
  destruct (map_columns_init (fun l => Store.slice_to l n) t
              (List.length (Store.slice_to (seq 0 (len t)) n)) Hw)
    as [Hinit Hwf].
  { intros l Hl. rewrite slice_to_nth, length_map. now rewrite Hl. }
  exists (map_columns (fun l => Store.slice_to l n) t).
  assert (Hrows : rows (map_columns (fun l => Store.slice_to l n) t) =
                  Store.slice_to (rows t) n).
  { rewrite (map_columns_reorder _ t (Store.slice_to (seq 0 (len t)) n) Hw).
    - rewrite rows_reorder; [|exact Hw|].
      + unfold rows. now rewrite slice_to_map.
      + apply incl_seq_lt, slice_to_incl.
    - intros l Hl. now rewrite slice_to_nth, Hl. }
  split; [exact Hinit|]. split; [exact Hwf|]. split; [reflexivity|].
  split; [exact Hrows|].
  intros Hn. rewrite <- rows_length, Hrows. unfold Store.slice_to.
  apply Z.leb_le in Hn. rewrite Hn, length_firstn, rows_length. reflexivity.
Qed.

Lemma head_rows_witness :
  exists r,
    Table.head (mkDataFrame [("k", [Int 2; Int 1; Int 2]);
                             ("v", [Text "a"; Null; Text ""])] ["k"; "v"]) 2
      = Ok r /\
    rows r = [[Int 2; Text "a"]; [Int 1; Null]].
Proof.
  assert (Hwf : well_formed
                  (mkDataFrame [("k", [Int 2; Int 1; Int 2]);
                                ("v", [Text "a"; Null; Text ""])] ["k"; "v"]))
    by example_well_formed.
  destruct (head_rows _ 2 Hwf) as (r & Hr & _ & _ & Hrows & _).
  exists r. split; [exact Hr|]. rewrite Hrows. reflexivity.
Defined.

(** X2. [tail(n)] returns the rows [rows[-n:]] under the same names: the last
    [n] rows for a positive [n] (all of them when there are fewer), the rows
    from index [-n] on for a negative [n], and for [n = 0] the whole table,
    since [values[-0:]] is the whole list. *)
Theorem tail_rows :
  forall (t : DataFrame) (n : Z),
    well_formed t ->
    exists r,
      Table.tail t n = Ok r /\
      well_formed r /\
      columns r = columns t /\
      rows r = Store.slice_from (rows t) (- n)%Z /\
      (0 < n -> rows r = skipn (len t - Z.to_nat n) (rows t))%Z /\
      (n = 0%Z -> r = t).
Proof.
  intros t n Hw.
  destruct (map_columns_init (fun l => Store.slice_from l (- n)%Z) t
              (List.length (Store.slice_from (seq 0 (len t)) (- n)%Z)) Hw)
    as [Hinit Hwf].
  { intros l Hl. rewrite slice_from_nth, length_map. now rewrite Hl. }
  exists (map_columns (fun l => Store.slice_from l (- n)%Z) t).
  assert (Hrows : rows (map_columns (fun l => Store.slice_from l (- n)%Z) t) =
                  Store.slice_from (rows t) (- n)%Z).
  { rewrite (map_columns_reorder _ t
               (Store.slice_from (seq 0 (len t)) (- n)%Z) Hw).
    - rewrite rows_reorder; [|exact Hw|].
      + unfold rows. now rewrite slice_from_map.
      + apply incl_seq_lt, slice_from_incl.
    - intros l Hl. now rewrite slice_from_nth, Hl. }
  split; [exact Hinit|]. split; [exact Hwf|]. split; [reflexivity|].
  split; [exact Hrows|]. split.
  - intros Hn. rewrite Hrows. unfold Store.slice_from.
    destruct (0 <=? - n)%Z eqn:E; [apply Z.leb_le in E; lia|].
    rewrite rows_length. now rewrite Z.opp_involutive.
  - intros ->. destruct Hw as (Hc & _ & _). destruct t as [d c].
    unfold map_columns. cbn [data columns]. f_equal.
    rewrite <- (map_id d) at 2. apply map_ext. now intros [k v].
Qed.

Lemma tail_rows_witness :
  Table.tail (mkDataFrame [("k", [Int 2; Int 1; Int 2]);
                           ("v", [Text "a"; Null; Text ""])] ["k"; "v"]) 0
  = Ok (mkDataFrame [("k", [Int 2; Int 1; Int 2]);
                     ("v", [Text "a"; Null; Text ""])] ["k"; "v"]).
Proof.
  assert (Hwf : well_formed
                  (mkDataFrame [("k", [Int 2; Int 1; Int 2]);
                                ("v", [Text "a"; Null; Text ""])] ["k"; "v"]))
    by example_well_formed.
  destruct (tail_rows _ 0 Hwf) as (r & Hr & _ & _ & _ & _ & Hall).
  rewrite Hr. f_equal. now apply Hall.
Defined.

(** X3. [copy()] of a table returns an equal table. *)
Theorem copy_returns_equal_table :
  forall t : DataFrame, well_formed t -> Table.copy t = Ok t.
Proof.
  intros t Hw. unfold Table.copy.
  replace (map (fun kv : string * column => (fst kv, snd kv)) (data t))
    with (data t).
  - destruct Hw as (Hc & Hn & Hl).
    rewrite dict_of_list_NoDup by exact Hn. now apply well_formed_init.
  - rewrite <- (map_id (data t)) at 1. apply map_ext. now intros [k v].
Qed.

Lemma copy_returns_equal_table_witness :
  Table.copy (mkDataFrame [("k", [Int 2; Int 1; Int 2]);
                           ("v", [Text "a"; Null; Text ""])] ["k"; "v"])
  = Ok (mkDataFrame [("k", [Int 2; Int 1; Int 2]);
                     ("v", [Text "a"; Null; Text ""])] ["k"; "v"]).
Proof. apply copy_returns_equal_table. example_well_formed. Defined.

(** ** Projection *)

Lemma dict_comprehension_fold {V : Type} (ks : list string)
    (f : string -> result V) (g : string -> V) :
  (forall k, In k ks -> f k = Ok (g k)) ->
  dict_comprehension ks f =
  Ok (fold_left (fun d k => dict_set d k (g k)) ks []).
Proof.
  intros Hf. unfold dict_comprehension.
  apply (foldM_ok_fold _ (fun d k => dict_set d k (g k))).
  intros acc k Hk. now rewrite (Hf k Hk).
Qed.

Lemma fold_dict_set_invariant {V : Type} (P : V -> Prop) (g : string -> V)
    (ks : list string) :
  (forall k, In k ks -> P (g k)) ->
  forall d : dict string V,
    NoDup (dict_keys d) -> Forall P (dict_values d) ->
    NoDup (dict_keys (fold_left (fun d k => dict_set d k (g k)) ks d)) /\
    Forall P (dict_values (fold_left (fun d k => dict_set d k (g k)) ks d)).
Proof.
  induction ks as [|k ks IH]; intros Hg d Hn Hp; cbn [fold_left].
  - now split.
  - apply IH.
    + intros k' Hk'. apply Hg. now right.
    + now apply dict_set_NoDup.
    + apply Forall_dict_set; [exact Hp|]. apply Hg. now left.
Qed.

Lemma getitem_column_values (t : DataFrame) (col : string) :
  well_formed t -> In col (columns t) ->
  getitem (data t) col = Ok (column_values t col).
Proof.
  intros Hw Hin.
  destruct (well_formed_column_length t col Hw Hin) as (values & Hg & _).
  unfold getitem, column_values. now rewrite Hg.
Qed.

Lemma forallb_name_in (cols names : list string) :
  forallb (fun col => name_in col names) cols = true <-> incl cols names.
Proof.
  rewrite forallb_forall. unfold incl.
  split; intros H c Hc; apply name_in_spec; now apply H.
Qed.

Lemma dict_get_map_names {V : Type} (g : string -> V) (names : list string)
    (c : string) :
  In c names ->
  dict_get (map (fun k => (k, g k)) names) c = Some (g c).
Proof.
  induction names as [|k names IH]; intros Hin; [destruct Hin|].
  cbn [map dict_get]. unfold key_eqb, string_KeyEq.
  destruct (String.eqb_spec k c) as [->|Hne]; [reflexivity|].
  destruct Hin as [->|Hin]; [congruence|]. now apply IH.
Qed.

(** The table [select] returns for names without repetition. *)
Lemma select_ok (t : DataFrame) (cols : list string) :
  well_formed t -> incl cols (columns t) -> NoDup cols ->
  Table.select t cols =
  Ok (mkDataFrame (map (fun c => (c, column_values t c)) cols) cols) /\
  well_formed (mkDataFrame (map (fun c => (c, column_values t c)) cols) cols).
Proof.
  intros Hw Hincl Hnd. unfold Table.select.
  rewrite (proj2 (forallb_name_in cols (columns t)) Hincl). cbn [negb].
  rewrite (dict_comprehension_ok cols _ (column_values t) Hnd)
    by (intros k Hk; apply getitem_column_values; auto).
  cbn [bind].
  assert (Hk : dict_keys (map (fun c => (c, column_values t c)) cols) = cols).
  { unfold dict_keys. rewrite map_map. apply map_id. }
  assert (Hl : Forall (fun values : column => List.length values = len t)
                 (dict_values (map (fun c => (c, column_values t c)) cols))).
  { unfold dict_values. rewrite map_map. cbn [snd]. apply Forall_map.
    apply Forall_forall. intros c Hc. apply column_values_length; auto. }
  split.
  - rewrite (DataFrame_init_ok _ (len t)); [now rewrite Hk | now rewrite Hk | exact Hl].
  - unfold well_formed. cbn [data columns]. rewrite Hk.
    split; [reflexivity|]. split; [exact Hnd|].
    destruct cols as [|c cols]; [constructor|].
    unfold len at 1. cbn [data map].
    rewrite column_values_length; [exact Hl | exact Hw |]. apply Hincl. now left.
Qed.

(** X4. [select(columns)] raises [KeyError] when one of the names is not a
    column of the table, and returns a table when all of them are, repeated
    names included.  For names of the
    table without repetition it returns the table with these columns, in the
    order asked for and with the values they have in [t]; the rows are the
    rows of [t] cut down to the names, except that selecting no column at
    all returns the table without columns and without rows. *)
Theorem select_projects :
  forall (t : DataFrame) (cols : list string),
    well_formed t ->
    ((exists c, In c cols /\ ~ In c (columns t)) ->
     Table.select t cols = Raise KeyError) /\
    is_ok (Table.select t cols) =
      forallb (fun col => name_in col (columns t)) cols /\
    (incl cols (columns t) -> NoDup cols ->
     exists r,
       Table.select t cols = Ok r /\
       well_formed r /\
       columns r = cols /\
       (forall c, In c cols -> column_values r c = column_values t c) /\
       (cols <> [] -> rows r = map (key_at t cols) (seq 0 (len t))) /\
       (cols = [] -> r = mkDataFrame [] [])).
Proof.
  intros t cols Hw. split; [|split].
  - intros (c & Hc & Hnot). unfold Table.select.
    destruct (forallb (fun col => name_in col (columns t)) cols) eqn:E;
      [|reflexivity].
    apply forallb_name_in in E. elim Hnot. now apply E.
  - unfold Table.select.
    destruct (forallb (fun col => name_in col (columns t)) cols) eqn:E;
      [|reflexivity].
    cbn [negb]. apply forallb_name_in in E.
    rewrite (dict_comprehension_fold cols _ (column_values t))
      by (intros k Hk; apply getitem_column_values; auto).
    cbn [bind].
    destruct (fold_dict_set_invariant
                (fun values : column => List.length values = len t)
                (column_values t) cols) with (d := @nil (string * column))
      as [Hn Hl]; try constructor.
    { intros k Hk. apply column_values_length; auto. }
    now rewrite (DataFrame_init_ok _ (len t) Hn Hl).
  - intros Hincl Hnd. destruct (select_ok t cols Hw Hincl Hnd) as [Hsel Hwf].
    eexists. split; [exact Hsel|]. split; [exact Hwf|].
    split; [reflexivity|]. split; [|split].
    + intros c Hc. unfold column_values at 1. cbn [data].
      now rewrite (dict_get_map_names (column_values t) cols c Hc).
    + intros Hne. unfold rows.
      assert (Hlen : len (mkDataFrame
                            (map (fun c => (c, column_values t c)) cols) cols)
                     = len t).
      { destruct cols as [|c cols]; [congruence|]. unfold len at 1.
        cbn [data map]. apply column_values_length; [exact Hw|].
        apply Hincl. now left. }
      rewrite Hlen. apply map_ext. intros i. unfold row_at, key_at.
      cbn [columns]. apply map_ext_in. intros c Hc.
      unfold value_at. f_equal. unfold column_values at 1. cbn [data].
      now rewrite (dict_get_map_names (column_values t) cols c Hc).
    + now intros ->.
Qed.

Lemma select_projects_witness :
  exists r,
    Table.select (mkDataFrame [("k", [Int 2; Int 1; Int 2]);
                               ("v", [Text "a"; Null; Text ""])] ["k"; "v"])
      ["v"] = Ok r /\
    columns r = ["v"] /\
    rows r = [[Text "a"]; [Null]; [Text ""]].
Proof.
  assert (Hwf : well_formed
                  (mkDataFrame [("k", [Int 2; Int 1; Int 2]);
                                ("v", [Text "a"; Null; Text ""])] ["k"; "v"]))
    by example_well_formed.
  destruct (proj2 (proj2 (select_projects _ ["v"] Hwf)))
    as (r & Hr & _ & Hc & _ & Hrows & _).
  - intros c [<-|[]]. right. now left.
  - repeat constructor. simpl. intuition.
  - exists r. split; [exact Hr|]. split; [exact Hc|].
    rewrite Hrows by discriminate. reflexivity.
Defined.

Lemma NoDup_filter {A : Type} (p : A -> bool) (l : list A) :
  NoDup l -> NoDup (filter p l).
Proof.
  induction 1 as [|x l Hx Hn IH]; cbn [filter]; [constructor|].
  destruct (p x); [|exact IH]. constructor; [|exact IH].
  intros Hin. apply filter_In in Hin. now destruct Hin.
Qed.

Lemma filter_map_commute {A B : Type} (f : A -> B) (p : B -> bool)
    (l : list A) :
  filter p (map f l) = map f (filter (fun x => p (f x)) l).
Proof.
  induction l as [|x l IH]; [reflexivity|]. cbn [map filter].
  destruct (p (f x)); cbn [map]; now rewrite IH.
Qed.

(** The table [drop] returns. *)
Lemma drop_ok (t : DataFrame) (cols : list string) :
  well_formed t ->
  Table.drop t cols =
  Ok (mkDataFrame
        (filter (fun kv : string * column => negb (name_in (fst kv) cols))
                (data t))
        (filter (fun c => negb (name_in c cols)) (columns t))).
Proof.
  intros Hw. unfold Table.drop.
  destruct (select_ok t (filter (fun c => negb (name_in c cols)) (columns t)))
    as [Hsel _]; [exact Hw | | |].
  - intros c Hc. apply filter_In in Hc. now destruct Hc.
  - apply NoDup_filter. destruct Hw as (Hc & Hn & _). now rewrite Hc.
  - rewrite Hsel. do 2 f_equal.
    destruct Hw as (Hc & Hn & _). rewrite Hc. unfold dict_keys.
    rewrite (filter_map_commute fst), map_map.
    rewrite <- (map_id (filter _ (data t))) at 2.
    apply map_ext_in. intros [k v] Hin. cbn [fst snd]. f_equal.
    apply filter_In in Hin. destruct Hin as [Hin _].
    unfold column_values.
    now rewrite (dict_get_NoDup_in (data t) k v Hn Hin).
Qed.

(** X5. [drop(columns)] never raises on a table, whatever the names are: a
    name the table does not have is ignored.  It returns the table without
    the named columns; the other columns keep their order and values. *)
Theorem drop_removes_columns :
  forall (t : DataFrame) (cols : list string),
    well_formed t ->
    Table.drop t cols =
    Ok (mkDataFrame
          (filter (fun kv : string * column => negb (name_in (fst kv) cols))
                  (data t))
          (filter (fun c => negb (name_in c cols)) (columns t))) /\
    (forall r c, Table.drop t cols = Ok r ->
                 (In c (columns r) <-> In c (columns t) /\ ~ In c cols) /\
                 (In c (columns r) -> column_values r c = column_values t c)).
Proof.
  intros t cols Hw.
  pose proof (drop_ok t cols Hw) as Hdrop.
  split; [exact Hdrop|].
  intros r c Hr. rewrite Hdrop in Hr. injection Hr as <-. cbn [columns].
  split.
  - rewrite filter_In, negb_true_iff.
    split; intros [H1 H2]; (split; [exact H1|]).
    + intros Hin. apply name_in_spec in Hin. congruence.
    + destruct (name_in c cols) eqn:E; [|reflexivity].
      apply name_in_spec in E. contradiction.
  - intros Hin. apply filter_In in Hin. destruct Hin as [Hin Hkeep].
    unfold column_values. cbn [data].
    destruct Hw as (Hc & Hn & _).
    assert (Hget : forall d : dict string column,
               dict_get (filter (fun kv : string * column =>
                                   negb (name_in (fst kv) cols)) d) c =
               dict_get d c).
    { induction d as [|[k v] d IH]; [reflexivity|]. cbn [filter fst dict_get].
      unfold key_eqb, string_KeyEq.
      destruct (String.eqb_spec k c) as [->|Hne].
      - rewrite Hkeep. cbn [dict_get]. unfold key_eqb, string_KeyEq.
        now rewrite String.eqb_refl.
      - destruct (negb (name_in k cols)); [|exact IH].
        cbn [dict_get]. unfold key_eqb, string_KeyEq.
        destruct (String.eqb_spec k c); [congruence|exact IH]. }
    now rewrite Hget.
Qed.

Lemma drop_removes_columns_witness :
  Table.drop (mkDataFrame [("k", [Int 2; Int 1; Int 2]);
                           ("v", [Text "a"; Null; Text ""])] ["k"; "v"])
    ["k"; "zz"]
  = Ok (mkDataFrame [("v", [Text "a"; Null; Text ""])] ["v"]).
Proof.
  assert (Hwf : well_formed
                  (mkDataFrame [("k", [Int 2; Int 1; Int 2]);
                                ("v", [Text "a"; Null; Text ""])] ["k"; "v"]))
    by example_well_formed.
  rewrite (proj1 (drop_removes_columns _ ["k"; "zz"] Hwf)). reflexivity.
Defined.

(** ** Tables built from rows of another table *)

Lemma row_at_length (t : DataFrame) (i : nat) :
  List.length (row_at t i) = List.length (columns t).
Proof. unfold row_at, key_at. apply length_map. Qed.

Lemma table_of_rows_init (names : list string) (rws : list (list Scalar)) :
  NoDup names ->
  Forall (fun r => List.length r = List.length names) rws ->
  DataFrame_init (table_of_rows names rws) =
  Ok (mkDataFrame (table_of_rows names rws) names) /\
  well_formed (mkDataFrame (table_of_rows names rws) names).
Proof.
  intros Hnd Hrws.
  destruct (table_of_rows_shape names rws Hrws) as [Hk Hl].
  split.
  - rewrite (DataFrame_init_ok _ (List.length rws)); [now rewrite Hk | now rewrite Hk | exact Hl].
  - unfold well_formed. cbn [data columns]. rewrite Hk.
    split; [reflexivity|]. split; [exact Hnd|].
    unfold len. cbn [data].
    destruct (table_of_rows names rws) as [|[k v] d]; [constructor|].
    inversion Hl as [|? ? Hv Hd]; subst. cbn [dict_values map snd] in *.
    now rewrite Hv.
Qed.

Lemma nth_row_at (t : DataFrame) (i j : nat) (kv : string * column) :
  well_formed t ->
  nth_error (data t) j = Some kv ->
  nth j (row_at t i) Null = nth i (snd kv) Null.
Proof.
  intros (Hc & Hn & _) Hj. unfold row_at, key_at. rewrite Hc.
  unfold dict_keys. rewrite map_map.
  assert (Hlt : j < List.length (data t))
    by (apply nth_error_Some; congruence).
  rewrite (nth_indep _ Null (value_at t (fst kv) i))
    by now rewrite length_map.
  rewrite (map_nth (fun x : string * column => value_at t (fst x) i) (data t) kv).
  rewrite (nth_error_nth _ _ kv Hj).
  apply value_at_entry; [exact Hn|]. eapply nth_error_In; exact Hj.
Qed.

Lemma table_of_rows_reorder (t : DataFrame) (idxs : list nat) :
  well_formed t ->
  table_of_rows (columns t) (map (row_at t) idxs) = data (reorder t idxs).
Proof.
  intros Hw. rewrite table_of_rows_columns
    by (apply Forall_map, Forall_forall; intros; apply row_at_length).
  unfold reorder. cbn [data].
  assert (Hc : columns t = dict_keys (data t)) by apply Hw.
  rewrite Hc. unfold dict_keys.
  apply nth_ext with
    (d := (fun jc : nat * string =>
             (snd jc, map (fun r : list Scalar => nth (fst jc) r Null)
                        (map (row_at t) idxs))) (O, ""))
    (d' := (fun kv : string * column =>
              (fst kv, map (fun i => nth i (snd kv) Null) idxs)) ("", [])).
  - now rewrite !length_map, length_combine, length_seq, length_map,
      Nat.min_id.
  - intros n Hn. rewrite length_map, length_combine, length_seq, length_map,
      Nat.min_id in Hn.
    rewrite (map_nth (fun jc : nat * string =>
                        (snd jc, map (fun r : list Scalar => nth (fst jc) r Null)
                                   (map (row_at t) idxs)))).
    rewrite (map_nth (fun kv : string * column =>
                        (fst kv, map (fun i => nth i (snd kv) Null) idxs))).
    rewrite combine_nth by now rewrite length_seq, length_map.
    rewrite seq_nth by now rewrite length_map. cbn [fst snd plus].
    rewrite (map_nth fst (data t) (""%string, @nil Scalar)). f_equal.
    rewrite map_map. apply map_ext. intros i.
    apply nth_row_at; [exact Hw|]. now apply nth_error_nth'.
Qed.

Lemma well_formed_reorder (t : DataFrame) (idxs : list nat) :
  well_formed t -> well_formed (reorder t idxs).
Proof.
  intros (Hc & Hn & Hl). unfold well_formed, reorder. cbn [data columns].
  rewrite (dict_keys_map_values (fun l => map (fun i => nth i l Null) idxs)).
  split; [exact Hc|]. split; [exact Hn|].
  rewrite (dict_values_map_values (fun l => map (fun i => nth i l Null) idxs)).
  apply Forall_map, Forall_forall.
  intros l Hin. rewrite length_map. unfold len. cbn [data].
  destruct (data t) as [|[k v] d]; [destruct Hin|].
  cbn [map fst snd]. now rewrite length_map.
Qed.

Lemma append_table_row (names : list string) (rws : list (list Scalar))
    (vs : list Scalar) :
  NoDup names ->
  Forall (fun r => List.length r = List.length names) rws ->
  List.length vs = List.length names ->
  foldM (fun rd (kv : string * Scalar) => dict_append rd (fst kv) (snd kv))
        (combine names vs) (table_of_rows names rws) =
  Ok (table_of_rows names (rws ++ [vs])).
Proof.
  intros Hnd Hrws Hvs.
  destruct (table_of_rows_shape names rws Hrws) as [Hk _].
  pose proof (foldM_dict_append_segment (table_of_rows names rws) [] [] vs)
    as Hseg.
  rewrite !app_nil_r in Hseg. cbn [app] in Hseg. rewrite Hk in Hseg.
  rewrite Hseg; [now rewrite table_of_rows_snoc | exact Hnd |].
  rewrite Hvs.
  transitivity (List.length (dict_keys (table_of_rows names rws)));
    [now rewrite Hk | unfold dict_keys; apply length_map].
Qed.

Lemma append_row_of (t : DataFrame) (i : nat) (rws : list (list Scalar)) :
  well_formed t -> i < len t ->
  Forall (fun r => List.length r = List.length (columns t)) rws ->
  foldM (fun fd col => do v <- cell t col i; dict_append fd col v)
        (columns t) (table_of_rows (columns t) rws) =
  Ok (table_of_rows (columns t) (rws ++ [row_at t i])).
Proof.
  intros Hw Hi Hrws.
  change (foldM (fun fd col => do v <- cell t col i; dict_append fd col v)
                (columns t) (table_of_rows (columns t) rws))
    with (append_left t (fun col => cell t col i)
            (table_of_rows (columns t) rws)).
  rewrite (append_left_cells t _ (fun col => value_at t col i))
    by (intros col Hc; now apply cell_ok).
  apply append_table_row; [|exact Hrws|apply row_at_length].
  destruct Hw as (Hc & Hn & _). now rewrite Hc.
Qed.

Lemma row_dict_ok (t : DataFrame) (i : nat) :
  well_formed t -> i < len t ->
  dict_comprehension (columns t) (fun col => cell t col i) = Ok (row_dict t i).
Proof.
  intros Hw Hi. unfold row_dict.
  apply (dict_comprehension_ok (columns t) _ (fun col => value_at t col i)).
  - destruct Hw as (Hc & Hn & _). now rewrite Hc.
  - intros col Hc. now apply cell_ok.
Qed.

Lemma filter_loop (t : DataFrame)
    (condition : dict string Scalar -> result bool) (keep : nat -> bool)
    (l : list nat) :
  well_formed t ->
  Forall (fun i => i < len t) l ->
  (forall i, In i l -> condition (row_dict t i) = Ok (keep i)) ->
  forall rws : list (list Scalar),
    Forall (fun r => List.length r = List.length (columns t)) rws ->
    foldM (fun fd i =>
             do row <- dict_comprehension (columns t)
                         (fun col => cell t col i);
             do keep <- condition row;
             if keep then
               foldM (fun fd col => do v <- cell t col i;
                                    dict_append fd col v)
                     (columns t) fd
             else Ok fd)
          l (table_of_rows (columns t) rws) =
    Ok (table_of_rows (columns t) (rws ++ map (row_at t) (filter keep l))).
Proof.
  intros Hw. induction l as [|i l IH]; intros Hlt Hcond rws Hrws.
  - cbn. now rewrite app_nil_r.
  - inversion Hlt as [|? ? Hi Hl]; subst. cbn [foldM filter].
    rewrite (row_dict_ok t i Hw Hi). cbn [bind].
    rewrite (Hcond i (or_introl eq_refl)). cbn [bind].
    destruct (keep i).
    + rewrite (append_row_of t i rws Hw Hi Hrws). cbn [bind].
      rewrite IH; [| exact Hl | intros; apply Hcond; now right |].
      * cbn [map]. now rewrite <- app_assoc.
      * apply Forall_app. split; [exact Hrws|].
        constructor; [apply row_at_length | constructor].
    + cbn [bind]. apply IH; [exact Hl | intros; apply Hcond; now right | exact Hrws].
Qed.

(** The table [filter] returns when the condition answers on every row. *)
Lemma filter_ok (t : DataFrame)
    (condition : dict string Scalar -> result bool) (keep : nat -> bool) :
  well_formed t ->
  (forall i, i < len t -> condition (row_dict t i) = Ok (keep i)) ->
  Table.filter t condition = Ok (reorder t (filter keep (seq 0 (len t)))).
Proof.
  intros Hw Hcond. unfold Table.filter.
  assert (Hnd : NoDup (columns t))
    by (destruct Hw as (Hc & Hn & _); now rewrite Hc).
  rewrite dict_of_list_NoDup
    by (unfold dict_keys; rewrite map_map; cbn [fst]; now rewrite map_id).
  change (map (fun col : string => (col, @nil Scalar)) (columns t))
    with (table_of_rows (columns t) []).
  rewrite (filter_loop t condition keep (seq 0 (len t)) Hw).
  - cbn [bind app].
    destruct (table_of_rows_init (columns t)
                (map (row_at t) (filter keep (seq 0 (len t)))) Hnd)
      as [Hinit _].
    { apply Forall_map, Forall_forall. intros; apply row_at_length. }
    rewrite Hinit. f_equal. unfold reorder at 1.
    now rewrite table_of_rows_reorder.
  - apply Forall_seq_lt.
  - intros i Hi. apply Hcond. apply in_seq in Hi. lia.
  - constructor.
Qed.

Lemma filter_seq_lt (keep : nat -> bool) (n : nat) :
  Forall (fun i => i < n) (filter keep (seq 0 n)).
Proof.
  apply incl_seq_lt. intros i Hi. apply filter_In in Hi. now destruct Hi.
Qed.

(** X6. [filter(condition)] keeps the rows on which the condition is true,
    in their order and under the same names; an exception of the condition
    escapes, at the first row where it raises. *)
Theorem filter_keeps_matching_rows :
  forall (t : DataFrame) (condition : dict string Scalar -> result bool),
    well_formed t ->
    (forall keep : nat -> bool,
        (forall i, i < len t -> condition (row_dict t i) = Ok (keep i)) ->
        exists r,
          Table.filter t condition = Ok r /\
          well_formed r /\
          columns r = columns t /\
          rows r = map (row_at t) (filter keep (seq 0 (len t)))) /\
    (forall (keep : nat -> bool) (k : nat) (e : exn),
        k < len t ->
        (forall i, i < k -> condition (row_dict t i) = Ok (keep i)) ->
        condition (row_dict t k) = Raise e ->
        Table.filter t condition = Raise e).
Proof.
  intros t condition Hw. split.
  - intros keep Hcond. exists (reorder t (filter keep (seq 0 (len t)))).
    split; [now apply filter_ok|].
    split; [now apply well_formed_reorder|].
    split; [reflexivity|].
    apply rows_reorder; [exact Hw | apply filter_seq_lt].
  - intros keep k e Hk Hcond He. unfold Table.filter.
    assert (Hnd : NoDup (columns t))
      by (destruct Hw as (Hc & Hn & _); now rewrite Hc).
    rewrite dict_of_list_NoDup
      by (unfold dict_keys; rewrite map_map; cbn [fst]; now rewrite map_id).
    change (map (fun col : string => (col, @nil Scalar)) (columns t))
      with (table_of_rows (columns t) []).
    replace (len t) with (k + (len t - k)) at 1 by lia.
    rewrite seq_app, foldM_app.
    rewrite (filter_loop t condition keep (seq 0 k) Hw).
    + cbn [bind]. destruct (len t - k) as [|m] eqn:E; [lia|].
      cbn [seq foldM plus].
      rewrite (row_dict_ok t k Hw Hk). cbn [bind]. now rewrite He.
    + apply incl_seq_lt. intros i Hi. apply in_seq. apply in_seq in Hi. lia.
    + intros i Hi. apply Hcond. apply in_seq in Hi. lia.
    + constructor.
Qed.

Lemma filter_keeps_matching_rows_witness :
  exists r,
    Table.filter (mkDataFrame [("k", [Int 2; Int 1; Int 2]);
                               ("v", [Text "a"; Null; Text ""])] ["k"; "v"])
      (fun row => do v <- getitem row "k"; py_lt (Int 1) v) = Ok r /\
    rows r = [[Int 2; Text "a"]; [Int 2; Text ""]].
Proof.
  assert (Hwf : well_formed
                  (mkDataFrame [("k", [Int 2; Int 1; Int 2]);
                                ("v", [Text "a"; Null; Text ""])] ["k"; "v"]))
    by example_well_formed.
  destruct (proj1 (filter_keeps_matching_rows _
                     (fun row => do v <- getitem row "k"; py_lt (Int 1) v)
                     Hwf)
                  (fun i => negb (i =? 1)%nat))
    as (r & Hr & _ & _ & Hrows).
  - intros i Hi. change (i < 3) in Hi.
    destruct i as [|[|[|i]]]; try lia; reflexivity.
  - exists r. split; [exact Hr|]. rewrite Hrows. reflexivity.
Defined.

Lemma dict_get_map_values {V W : Type} (f : V -> W) (d : dict string V)
    (k : string) :
  dict_get (map (fun kv : string * V => (fst kv, f (snd kv))) d) k =
  option_map f (dict_get d k).
Proof.
  induction d as [|[k' v] d IH]; [reflexivity|].
  cbn [map fst snd dict_get]. now destruct (key_eqb k' k).
Qed.

Lemma value_at_reorder (t : DataFrame) (idxs : list nat) (col : string)
    (i : nat) :
  In col (dict_keys (data t)) -> i < List.length idxs ->
  value_at (reorder t idxs) col i = value_at t col (nth i idxs O).
Proof.
  intros Hcol Hi. unfold value_at, column_values, reorder. cbn [data].
  rewrite (@dict_get_map_values column column
             (fun l => map (fun i => nth i l Null) idxs)).
  destruct (dict_get (data t) col) as [l|] eqn:E;
    [|now apply dict_get_in_keys in Hcol].
  cbn [option_map].
  rewrite (nth_indep _ Null (nth O l Null)) by now rewrite length_map.
  rewrite (map_nth (fun i => nth i l Null)).
  reflexivity.
Qed.

Lemma reorder_all (t : DataFrame) :
  well_formed t -> reorder t (seq 0 (len t)) = t.
Proof.
  intros (Hc & Hn & Hl). destruct t as [d c]. unfold reorder.
  cbn [data columns] in *. f_equal.
  rewrite <- (map_id d) at 2. apply map_ext_in. intros [k v] Hin.
  cbn [fst snd]. f_equal.
  rewrite Forall_forall in Hl.
  rewrite <- (Hl v) by (unfold dict_values; now apply (in_map snd) in Hin).
  apply map_nth_seq.
Qed.

Lemma filter_all {A : Type} (p : A -> bool) (l : list A) :
  (forall x, In x l -> p x = true) -> filter p l = l.
Proof.
  induction l as [|x l IH]; intros Hp; [reflexivity|]. cbn [filter].
  rewrite (Hp x (or_introl eq_refl)). f_equal. apply IH.
  intros y Hy. apply Hp. now right.
Qed.

Lemma getitem_row_dict (t : DataFrame) (i : nat) (col : string) :
  In col (columns t) ->
  getitem (row_dict t i) col = Ok (value_at t col i).
Proof.
  intros Hin. unfold getitem, row_dict.
  now rewrite (dict_get_map_names (fun c => value_at t c i) (columns t) col Hin).
Qed.

Lemma filter_by_value_ok (t : DataFrame) (column : string) (value : Scalar) :
  well_formed t -> In column (columns t) ->
  Table.filter_by_value t column value =
  Ok (reorder t (filter (fun i => py_eq (value_at t column i) value)
                        (seq 0 (len t)))).
Proof.
  intros Hw Hin. unfold Table.filter_by_value.
  rewrite (proj2 (name_in_spec column (columns t)) Hin). cbn [negb].
  apply filter_ok; [exact Hw|].
  intros i Hi. now rewrite getitem_row_dict.
Qed.

(** X7. [filter_by_value(column, value)] raises [KeyError] when the table
    has no column of that name.  Otherwise it returns the rows whose
    value in that column equals [value] (by [==], so that [1] selects [1.0]
    too), in their order; and filtering the result again by the same value
    returns the result. *)
Theorem filter_by_value_selects :
  forall (t : DataFrame) (column : string) (value : Scalar),
    well_formed t ->
    (~ In column (columns t) ->
     Table.filter_by_value t column value = Raise KeyError) /\
    (In column (columns t) ->
     exists r,
       Table.filter_by_value t column value = Ok r /\
       well_formed r /\
       columns r = columns t /\
       rows r = map (row_at t)
                  (filter (fun i => py_eq (value_at t column i) value)
                          (seq 0 (len t))) /\
       Table.filter_by_value r column value = Ok r).
Proof.
  intros t column value Hw.
  set (idxs := filter (fun i => py_eq (value_at t column i) value)
                      (seq 0 (len t))).
  assert (Hok : In column (columns t) ->
                Table.filter_by_value t column value = Ok (reorder t idxs))
    by (intros; now apply filter_by_value_ok).
  split.
  - intros Hnot. unfold Table.filter_by_value.
    destruct (name_in column (columns t)) eqn:E; [|reflexivity].
    apply name_in_spec in E. contradiction.
  - intros Hin. exists (reorder t idxs).
    pose proof (well_formed_reorder t idxs Hw) as Hwr.
    split; [now apply Hok|]. split; [exact Hwr|]. split; [reflexivity|].
    split; [apply rows_reorder; [exact Hw | apply filter_seq_lt]|].
    rewrite (filter_by_value_ok (reorder t idxs) column value Hwr Hin).
    assert (Hdata : data t <> []).
    { destruct Hw as (Hc & _ & _). rewrite Hc in Hin.
      now destruct (data t). }
    assert (Hlen : len (reorder t idxs) = List.length idxs)
      by now apply len_reorder.
    rewrite filter_all.
    + now rewrite reorder_all.
    + intros i Hi. apply in_seq in Hi. rewrite Hlen in Hi.
      rewrite value_at_reorder; [| | lia].
      * assert (Hnth : In (nth i idxs O) idxs) by (apply nth_In; lia).
        unfold idxs in Hnth at 2. apply filter_In in Hnth.
        now destruct Hnth.
      * destruct Hw as (Hc & _ & _). now rewrite <- Hc.
Qed.

Lemma filter_by_value_selects_witness :
  exists r,
    Table.filter_by_value
      (mkDataFrame [("k", [Int 2; Int 1; Int 2]);
                    ("v", [Text "a"; Null; Text ""])] ["k"; "v"])
      "k" (Int 2) = Ok r /\
    rows r = [[Int 2; Text "a"]; [Int 2; Text ""]].
Proof.
  assert (Hwf : well_formed
                  (mkDataFrame [("k", [Int 2; Int 1; Int 2]);
                                ("v", [Text "a"; Null; Text ""])] ["k"; "v"]))
    by example_well_formed.
  destruct (proj2 (filter_by_value_selects _ "k" (Int 2) Hwf))
    as (r & Hr & _ & _ & Hrows & _); [now left|].
  exists r. split; [exact Hr|]. rewrite Hrows. reflexivity.
Defined.

(** ** Column transforms *)

Lemma len_set_column (t : DataFrame) (col : string) (values : column) :
  List.length values = len t ->
  len (mkDataFrame (dict_set (data t) col values) (columns t)) = len t.
Proof.
  intros Hlen. unfold len in *. cbn [data].
  destruct (data t) as [|[k v] d]; [exact Hlen|].
  cbn [dict_set]. destruct (key_eqb k col); [exact Hlen|reflexivity].
Qed.

Lemma replace_column_init (t : DataFrame) (col : string) (values : column) :
  well_formed t -> In col (columns t) ->
  List.length values = len t ->
  DataFrame_init (dict_set (data t) col values) =
  Ok (mkDataFrame (dict_set (data t) col values) (columns t)) /\
  well_formed (mkDataFrame (dict_set (data t) col values) (columns t)) /\
  column_values (mkDataFrame (dict_set (data t) col values) (columns t))
    col = values /\
  (forall c, c <> col ->
     column_values (mkDataFrame (dict_set (data t) col values) (columns t))
       c = column_values t c).
Proof.
  intros Hw Hin Hlen. destruct Hw as (Hc & Hn & Hl).
  assert (Hk : dict_keys (dict_set (data t) col values) = columns t).
  { rewrite Hc. apply dict_keys_set_present. now rewrite <- Hc. }
  assert (Hl' : Forall (fun vs : column => List.length vs = len t)
                  (dict_values (dict_set (data t) col values)))
    by now apply len_dict_set.
  split; [|split; [|split]].
  - rewrite (DataFrame_init_ok _ (len t)); [now rewrite Hk | | exact Hl'].
    rewrite Hk, Hc. exact Hn.
  - unfold well_formed. cbn [data columns]. rewrite Hk.
    split; [reflexivity|]. split; [now rewrite Hc|].
    now rewrite len_set_column.
  - unfold column_values. cbn [data]. now rewrite dict_get_set_same.
  - intros c Hne. unfold column_values. cbn [data].
    now rewrite dict_get_set_other.
Qed.

Lemma dict_set_twice {V : Type} (d : dict string V) (k : string) (v v' : V) :
  dict_set (dict_set d k v) k v' = dict_set d k v'.
Proof.
  induction d as [|[k' v0] d IH]; cbn [dict_set].
  - unfold key_eqb, string_KeyEq. now rewrite String.eqb_refl.
  - destruct (key_eqb k' k) eqn:E; cbn [dict_set]; rewrite E;
      [reflexivity | now rewrite IH].
Qed.

Lemma copy_columns (t : DataFrame) :
  well_formed t ->
  dict_comprehension (columns t) (fun col => getitem (data t) col) =
  Ok (data t).
Proof.
  intros (Hc & Hn & _). rewrite Hc. now apply dict_comprehension_copy.
Qed.

(** X8. [fillna_column(column, value)] raises [KeyError] when the table has
    no column of that name.  Otherwise it returns the table in which every
    [None] and every empty string of that column is replaced by [value] and
    nothing else is changed; when [value] is itself neither [None] nor the
    empty string no such cell is left in the column; and filling the result
    again returns the result. *)
Theorem fillna_column_fills :
  forall (t : DataFrame) (col : string) (value : Scalar),
    well_formed t ->
    (~ In col (columns t) ->
     Table.fillna_column t col value = Raise KeyError) /\
    (In col (columns t) ->
     exists r,
       Table.fillna_column t col value = Ok r /\
       well_formed r /\
       columns r = columns t /\
       column_values r col =
         map (fun v => if is_valid v then v else value)
             (column_values t col) /\
       (forall c, c <> col -> column_values r c = column_values t c) /\
       (is_valid value = true ->
        Forall (fun v => is_valid v = true) (column_values r col)) /\
       Table.fillna_column r col value = Ok r).
Proof.
  intros t col value Hw.
  assert (Hok : forall u, well_formed u -> In col (columns u) ->
            Table.fillna_column u col value =
            Ok (mkDataFrame
                  (dict_set (data u) col
                     (map (fun v => if is_valid v then v else value)
                          (column_values u col)))
                  (columns u))).
  { intros u Hu Hin. unfold Table.fillna_column.
    rewrite (proj2 (name_in_spec col (columns u)) Hin). cbn [negb].
    rewrite (copy_columns u Hu). cbn [bind].
    rewrite (getitem_column_values u col Hu Hin). cbn [bind].
    apply replace_column_init; [exact Hu | exact Hin |].
    rewrite length_map. now apply column_values_length. }
  split.
  - intros Hnot. unfold Table.fillna_column.
    destruct (name_in col (columns t)) eqn:E; [|reflexivity].
    apply name_in_spec in E. contradiction.
  - intros Hin.
    destruct (replace_column_init t col
                (map (fun v => if is_valid v then v else value)
                     (column_values t col)) Hw Hin)
      as (_ & Hwr & Hcol & Hother).
    { rewrite length_map. now apply column_values_length. }
    eexists. split; [now apply Hok|]. split; [exact Hwr|].
    split; [reflexivity|]. split; [exact Hcol|]. split; [exact Hother|].
    split.
    + intros Hv. rewrite Hcol. apply Forall_map, Forall_forall.
      intros v _. now destruct (is_valid v) eqn:E.
    + rewrite (Hok _ Hwr Hin). cbn [data columns]. rewrite Hcol.
      f_equal. f_equal.
      rewrite map_map.
      replace (map (fun x => if is_valid (if is_valid x then x else value)
                             then if is_valid x then x else value
                             else value) (column_values t col))
        with (map (fun v => if is_valid v then v else value)
                (column_values t col)).
      * apply dict_set_twice.
      * apply map_ext. intros v.
        destruct (is_valid v) eqn:E; [now rewrite E|].
        now destruct (is_valid value).
Qed.

Lemma fillna_column_fills_witness :
  exists r,
    Table.fillna_column
      (mkDataFrame [("k", [Int 2; Int 1; Int 2]);
                    ("v", [Text "a"; Null; Text ""])] ["k"; "v"])
      "v" (Text "-") = Ok r /\
    column_values r "v" = [Text "a"; Text "-"; Text "-"].
Proof.
  assert (Hwf : well_formed
                  (mkDataFrame [("k", [Int 2; Int 1; Int 2]);
                                ("v", [Text "a"; Null; Text ""])] ["k"; "v"]))
    by example_well_formed.
  destruct (proj2 (fillna_column_fills _ "v" (Text "-") Hwf))
    as (r & Hr & _ & _ & Hcol & _); [right; now left|].
  exists r. split; [exact Hr|]. rewrite Hcol. reflexivity.
Defined.

(** X9. [convert_column_type(column, target_type)] raises [KeyError] when
    the table has no column of that name.  Otherwise, when [target_type]
    raises nothing but [ValueError] and [TypeError] on the values of the
    column, it returns the table in which every [None] and every empty
    string of the column has become [None], every value that [target_type]
    converts is converted, and every value on which it raises is kept as it
    is; names and the other columns are unchanged. *)
Theorem convert_column_type_converts :
  forall (t : DataFrame) (col : string)
         (target_type : Scalar -> result Scalar),
    well_formed t ->
    (~ In col (columns t) ->
     Table.convert_column_type t col target_type = Raise KeyError) /\
    (In col (columns t) ->
     (forall v e, In v (column_values t col) -> is_valid v = true ->
                  target_type v = Raise e ->
                  e = ValueError \/ e = TypeError) ->
     exists r,
       Table.convert_column_type t col target_type = Ok r /\
       well_formed r /\
       columns r = columns t /\
       column_values r col =
         map (fun v => if is_valid v
                       then match target_type v with
                            | Ok w => w
                            | Raise _ => v
                            end
                       else Null)
             (column_values t col) /\
       (forall c, c <> col -> column_values r c = column_values t c)).
Proof.
  intros t col target_type Hw. split.
  - intros Hnot. unfold Table.convert_column_type.
    destruct (name_in col (columns t)) eqn:E; [|reflexivity].
    apply name_in_spec in E. contradiction.
  - intros Hin Htarget.
    set (g := fun v => if is_valid v
                       then match target_type v with
                            | Ok w => w
                            | Raise _ => v
                            end
                       else Null).
    destruct (replace_column_init t col (map g (column_values t col)) Hw Hin)
      as (Hinit & Hwr & Hcol & Hother).
    { rewrite length_map. now apply column_values_length. }
    eexists. split; [|split; [exact Hwr|split; [reflexivity|split; [exact Hcol|exact Hother]]]].
    unfold Table.convert_column_type.
    rewrite (proj2 (name_in_spec col (columns t)) Hin). cbn [negb].
    rewrite (copy_columns t Hw). cbn [bind].
    rewrite (getitem_column_values t col Hw Hin). cbn [bind].
    rewrite (mapM_ok (Store.convert_value target_type) g).
    + cbn [bind]. exact Hinit.
    + intros v Hv. unfold Store.convert_value, g.
      destruct (is_valid v) eqn:Ev; [|reflexivity].
      destruct (target_type v) as [w|e] eqn:Et; [reflexivity|].
      destruct (Htarget v e Hv Ev Et) as [-> | ->]; reflexivity.
Qed.

Lemma convert_column_type_converts_witness :
  exists r,
    Table.convert_column_type
      (mkDataFrame [("k", [Int 2; Int 1; Int 2]);
                    ("v", [Text "7"; Null; Text "x"])] ["k"; "v"])
      "v"
      (fun v => match v with
                | Text s => match py_int s with
                            | Some z => Ok (Int z)
                            | None => Raise ValueError
                            end
                | _ => Ok v
                end) = Ok r /\
    column_values r "v" = [Int 7; Null; Text "x"].
Proof.
  assert (Hwf : well_formed
                  (mkDataFrame [("k", [Int 2; Int 1; Int 2]);
                                ("v", [Text "7"; Null; Text "x"])] ["k"; "v"]))
    by example_well_formed.
  destruct (proj2 (convert_column_type_converts _ "v"
                     (fun v => match v with
                               | Text s => match py_int s with
                                           | Some z => Ok (Int z)
                                           | None => Raise ValueError
                                           end
                               | _ => Ok v
                               end) Hwf))
    as (r & Hr & _ & _ & Hcol & _).
  - right. now left.
  - intros v e _ _ He. destruct v; try discriminate.
    destruct (py_int s); [discriminate|]. injection He as <-. now left.
  - exists r. split; [exact Hr|]. rewrite Hcol. reflexivity.
Defined.

(** X10. [round_column(column, decimals)] raises [KeyError] when the table
    has no column of that name.  Otherwise, when rounding succeeds on the
    numbers of the column, it returns the table in which these numbers are
    rounded and every other value of the column ([None], strings) is kept;
    names and the other columns are unchanged. *)
Theorem round_column_rounds_numbers :
  forall (py_round : Scalar -> Z -> result Scalar) (rounded : Scalar -> Scalar)
         (t : DataFrame) (col : string) (decimals : Z),
    well_formed t ->
    (~ In col (columns t) ->
     Table.round_column py_round t col decimals = Raise KeyError) /\
    (In col (columns t) ->
     (forall v, In v (column_values t col) -> Table.is_number v = true ->
                py_round v decimals = Ok (rounded v)) ->
     exists r,
       Table.round_column py_round t col decimals = Ok r /\
       well_formed r /\
       columns r = columns t /\
       column_values r col =
         map (fun v => if Table.is_number v then rounded v else v)
             (column_values t col) /\
       (forall c, c <> col -> column_values r c = column_values t c)).
Proof.
  intros py_round rounded t col decimals Hw. split.
  - intros Hnot. unfold Table.round_column.
    destruct (name_in col (columns t)) eqn:E; [|reflexivity].
    apply name_in_spec in E. contradiction.
  - intros Hin Hround.
    set (g := fun v => if Table.is_number v then rounded v else v).
    destruct (replace_column_init t col (map g (column_values t col)) Hw Hin)
      as (Hinit & Hwr & Hcol & Hother).
    { rewrite length_map. now apply column_values_length. }
    eexists. split; [|split; [exact Hwr|split; [reflexivity|split; [exact Hcol|exact Hother]]]].
    unfold Table.round_column.
    rewrite (proj2 (name_in_spec col (columns t)) Hin). cbn [negb].
    rewrite (copy_columns t Hw). cbn [bind].
    rewrite (getitem_column_values t col Hw Hin). cbn [bind].
    rewrite (mapM_ok (Store.round_value py_round decimals) g).
    + cbn [bind]. exact Hinit.
    + intros v Hv. unfold Store.round_value, g.
      destruct v; cbn [Table.is_number]; try reflexivity;
        apply Hround; auto.
Qed.

Lemma round_column_rounds_numbers_witness :
  exists r,
    Table.round_column
      (fun v _ => match v with
                  | Int z => Ok (Int z)
                  | _ => Raise TypeError
                  end)
      (mkDataFrame [("k", [Int 2; Int 1; Int 2]);
                    ("v", [Text "a"; Null; Text ""])] ["k"; "v"])
      "k" 2 = Ok r /\
    column_values r "k" = [Int 2; Int 1; Int 2] /\
    column_values r "v" = [Text "a"; Null; Text ""].
Proof.
  assert (Hwf : well_formed
                  (mkDataFrame [("k", [Int 2; Int 1; Int 2]);
                                ("v", [Text "a"; Null; Text ""])] ["k"; "v"]))
    by example_well_formed.
  destruct (proj2 (round_column_rounds_numbers
                     (fun v _ => match v with
                                 | Int z => Ok (Int z)
                                 | _ => Raise TypeError
                                 end)
                     (fun v => v) _ "k" 2 Hwf))
    as (r & Hr & _ & _ & Hcol & Hother).
  - now left.
  - intros v Hv _. cbn in Hv.
    destruct Hv as [<-|[<-|[<-|[]]]]; reflexivity.
  - exists r. split; [exact Hr|]. split.
    + rewrite Hcol. reflexivity.
    + rewrite Hother by discriminate. reflexivity.
Defined.

(** ** Records *)

Lemma to_dict_records_ok (t : DataFrame) :
  well_formed t ->
  Table.to_dict_records t = Ok (map (row_dict t) (seq 0 (len t))).
Proof.
  intros Hw. unfold Table.to_dict_records.
  destruct (len t =? 0)%nat eqn:E.
  - apply Nat.eqb_eq in E. now rewrite E.
  - apply mapM_ok. intros i Hi. apply row_dict_ok; [exact Hw|].
    apply in_seq in Hi. lia.
Qed.

Lemma records_loop (t : DataFrame) (l : list nat) :
  well_formed t ->
  forall rws : list (list Scalar),
    Forall (fun r => List.length r = List.length (columns t)) rws ->
    foldM (fun d (row : dict string Scalar) =>
             foldM (fun d col =>
                      dict_append d col
                        (match dict_get row col with
                         | Some v => v
                         | None => Null
                         end))
                   (columns t) d)
          (map (row_dict t) l) (table_of_rows (columns t) rws) =
    Ok (table_of_rows (columns t) (rws ++ map (row_at t) l)).
Proof.
  intros Hw. induction l as [|i l IH]; intros rws Hrws.
  - cbn. now rewrite app_nil_r.
  - cbn [map foldM].
    assert (Hrow :
      foldM (fun d col =>
               dict_append d col
                 (match dict_get (row_dict t i) col with
                  | Some v => v
                  | None => Null
                  end))
            (columns t) (table_of_rows (columns t) rws) =
      Ok (table_of_rows (columns t) (rws ++ [row_at t i]))).
    { change (foldM (fun d col =>
                       dict_append d col
                         (match dict_get (row_dict t i) col with
                          | Some v => v
                          | None => Null
                          end))
                    (columns t) (table_of_rows (columns t) rws))
        with (append_left t
                (fun col => Ok (match dict_get (row_dict t i) col with
                                | Some v => v
                                | None => Null
                                end))
                (table_of_rows (columns t) rws)).
      rewrite (append_left_cells t _ (fun col => value_at t col i)).
      - apply append_table_row; [|exact Hrws|apply row_at_length].
        destruct Hw as (Hc & Hn & _). now rewrite Hc.
      - intros col Hc. unfold row_dict.
        now rewrite (dict_get_map_names (fun c => value_at t c i)
                       (columns t) col Hc). }
    rewrite Hrow. cbn [bind]. rewrite IH.
    + now rewrite <- app_assoc.
    + apply Forall_app. split; [exact Hrws|].
      constructor; [apply row_at_length | constructor].
Qed.

(** X11. [to_dict_records] returns one dictionary for each row, in order,
    holding the values of the row under the column names.  The constructor
    applied to these records gives the table back when it has a row; for a
    table without rows the list of records is empty and the constructor
    refuses it with [ValueError], so the column names are lost. *)
Theorem records_round_trip :
  forall t : DataFrame,
    well_formed t ->
    Table.to_dict_records t = Ok (map (row_dict t) (seq 0 (len t))) /\
    (0 < len t ->
     Table.DataFrame_init_records (map (row_dict t) (seq 0 (len t))) = Ok t) /\
    (len t = 0 ->
     Table.DataFrame_init_records (map (row_dict t) (seq 0 (len t))) =
     Raise ValueError).
Proof.
  intros t Hw. split; [now apply to_dict_records_ok|]. split.
  - intros Hpos. unfold Table.DataFrame_init_records.
    destruct (len t) as [|n] eqn:E; [lia|].
    assert (Hnd : NoDup (columns t))
      by (destruct Hw as (Hc & Hn & _); now rewrite Hc).
    assert (Hkeys : forall i, dict_keys (row_dict t i) = columns t).
    { intros i. unfold row_dict, dict_keys. rewrite map_map. apply map_id. }
    cbn [seq map]. cbv zeta. rewrite (Hkeys 0).
    change (row_dict t 0 :: map (row_dict t) (seq 1 n))
      with (map (row_dict t) (seq 0 (S n))).
    rewrite dict_of_list_NoDup
      by (unfold dict_keys; rewrite map_map; cbn [fst]; now rewrite map_id).
    change (map (fun col : string => (col, @nil Scalar)) (columns t))
      with (table_of_rows (columns t) []).
    rewrite (records_loop t (seq 0 (S n)) Hw []) by constructor.
    cbn [bind app]. rewrite <- E.
    rewrite table_of_rows_reorder by exact Hw.
    rewrite reorder_all by exact Hw.
    destruct Hw as (Hc & Hn & Hl).
    assert (Hcd : (1 <? count_distinct
                          (map (@List.length Scalar) (dict_values (data t))))%nat
                  = false).
    { apply (count_distinct_same (len t)). apply Forall_map. exact Hl. }
    destruct t as [d' c']. cbn [data columns] in *.
    destruct d' as [|kv d]; [reflexivity|].
    match goal with
    | |- (if ?c then _ else _) = _ =>
        replace c with false by (symmetry; exact Hcd)
    end.
    reflexivity.
  - intros ->. reflexivity.
Qed.

Lemma records_round_trip_witness :
  Table.to_dict_records
    (mkDataFrame [("k", [Int 2; Int 1]); ("v", [Text "a"; Null])] ["k"; "v"])
  = Ok [[("k", Int 2); ("v", Text "a")]; [("k", Int 1); ("v", Null)]] /\
  Table.DataFrame_init_records
    [[("k", Int 2); ("v", Text "a")]; [("k", Int 1); ("v", Null)]]
  = Ok (mkDataFrame [("k", [Int 2; Int 1]); ("v", [Text "a"; Null])]
          ["k"; "v"]).
Proof.
  assert (Hwf : well_formed
                  (mkDataFrame [("k", [Int 2; Int 1]);
                                ("v", [Text "a"; Null])] ["k"; "v"]))
    by example_well_formed.
  destruct (records_round_trip _ Hwf) as (Hrec & Hback & _).
  split; [exact Hrec|]. apply Hback. cbn. lia.
Defined.

(** ** Groups *)

Section IndexMembers.
Context {K : Type} `{KeyEq K} (d : K).

Hypothesis key_sym : forall a b : K, key_eqb a b = true -> key_eqb b a = true.
Hypothesis key_trans : forall a b c : K,
  key_eqb a b = true -> key_eqb b c = true -> key_eqb a c = true.

Lemma dict_set_members (index : dict K (list nat)) (k : K) (i : nat) :
  forall l, dict_get index k = Some l ->
    Permutation (List.concat (map snd (dict_set index k (l ++ [i]))))
                (i :: List.concat (map snd index)).
Proof.
  induction index as [|[k' v] index IH]; intros l Hget; [discriminate|].
  cbn [dict_get] in Hget. cbn [dict_set].
  destruct (key_eqb k' k).
  - injection Hget as <-. cbn [map snd List.concat].
    rewrite <- app_assoc. cbn [app].
    symmetry. apply Permutation_middle.
  - cbn [map snd List.concat]. rewrite (IH l Hget).
    symmetry. apply Permutation_middle.
Qed.

Lemma index_add_members (index : dict K (list nat)) (k : K) (i : nat) :
  Permutation (List.concat (map snd (index_add index k i)))
              (i :: List.concat (map snd index)).
Proof.
  unfold index_add. destruct (dict_get index k) as [l|] eqn:E.
  - now apply dict_set_members.
  - rewrite map_app, concat_app. cbn [map snd List.concat app].
    symmetry. apply Permutation_cons_append.
Qed.

Lemma scan_index_members (ks : list K) :
  Permutation (List.concat (map snd (scan_index ks))) (seq 0 (List.length ks)).
Proof.
  induction ks as [|k ks IH] using rev_ind; [reflexivity|].
  rewrite scan_index_app, index_add_members, IH.
  rewrite length_app. cbn [List.length]. rewrite Nat.add_1_r, seq_S.
  cbn [plus]. apply Permutation_cons_append.
Qed.

Lemma first_seen_groups_members (ks : list K) :
  Permutation (List.concat (map snd (first_seen_groups d ks)))
              (seq 0 (List.length ks)).
Proof.
  rewrite <- (scan_index_first_seen d key_sym key_trans).
  apply scan_index_members.
Qed.

Lemma first_seen_groups_keys (ks : list K) (g : K * list nat) :
  In g (first_seen_groups d ks) ->
  exists i rest,
    snd g = i :: rest /\ fst g = nth i ks d /\
    Forall (fun j => i < j /\ key_eqb (fst g) (nth j ks d) = true) rest.
Proof.
  unfold first_seen_groups. intros Hin. apply in_map_iff in Hin.
  destruct Hin as (i & <- & _). unfold group_of. cbn [fst snd].
  eexists. eexists. split; [reflexivity|]. split; [reflexivity|].
  apply Forall_forall. intros j Hj. apply filter_In in Hj.
  destruct Hj as [Hj Hk]. apply in_seq in Hj. split; [lia|exact Hk].
Qed.
End IndexMembers.


(** X12. [GroupBy._create_groups] puts every row of the table into exactly
    one group: the row numbers of the groups, taken together, are the row
    numbers of the table, each once.  A group starts with the row that
    brought its key; the later rows of the group have a key equal to it;
    and the keys of two different groups are not equal. *)
Theorem groups_partition_rows :
  forall (t : DataFrame) (bys : list string),
    well_formed t ->
    incl bys (columns t) ->
    exists groups,
      _create_groups t bys = Ok groups /\
      Permutation (List.concat (map snd groups)) (seq 0 (len t)) /\
      (forall g, In g groups ->
         exists i rest,
           snd g = i :: rest /\ i < len t /\
           fst g = key_at t bys i /\
           Forall (fun j => i < j /\
                            tuple_eq (fst g) (key_at t bys j) = true) rest) /\
      ForallOrdPairs (fun g g' => tuple_eq (fst g) (fst g') = false) groups.
Proof.
  intros t bys Hw Hby. exists (groups_of t bys).
  split; [now apply _create_groups_ok|]. split; [|split].
  - unfold groups_of.
    rewrite (first_seen_groups_members [] tuple_eq_sym tuple_eq_trans).
    now rewrite row_keys_length.
  - intros g Hg.
    destruct (groups_of_shape t bys g Hg) as [_ Hlt].
    destruct (first_seen_groups_keys [] (row_keys t bys) g Hg)
      as (i & rest & Hs & Hf & Hrest).
    rewrite Hs in Hlt. inversion Hlt as [|? ? Hi Hr]; subst.
    exists i, rest. split; [exact Hs|]. split; [exact Hi|].
    rewrite row_keys_nth in Hf by exact Hi. split; [exact Hf|].
    rewrite Forall_forall in *. intros j Hj.
    destruct (Hrest j Hj) as [Hij Heq]. split; [exact Hij|].
    rewrite row_keys_nth in Heq by now apply Hr. exact Heq.
  - apply (first_seen_groups_distinct [] (row_keys t bys)).
Qed.

Lemma groups_partition_rows_witness :
  exists groups,
    _create_groups
      (mkDataFrame [("k", [Int 2; Int 1; Int 2]);
                    ("v", [Text "a"; Null; Text ""])] ["k"; "v"]) ["k"]
      = Ok groups /\
    groups = [([Int 2], [0; 2]); ([Int 1], [1])] /\
    Permutation (List.concat (map snd groups)) [0; 1; 2].
Proof.
  assert (Hwf : well_formed
                  (mkDataFrame [("k", [Int 2; Int 1; Int 2]);
                                ("v", [Text "a"; Null; Text ""])] ["k"; "v"]))
    by example_well_formed.
  destruct (groups_partition_rows _ ["k"] Hwf)
    as (groups & Hg & Hperm & _).
  - intros c [<-|[]]. now left.
  - exists groups. split; [exact Hg|]. split; [|exact Hperm].
    vm_compute in Hg. now injection Hg as <-.
Defined.

Lemma column_values_from_rows (t : DataFrame) (j : nat) (c : string) :
  well_formed t ->
  nth_error (columns t) j = Some c ->
  column_values t c = map (fun row => nth j row Null) (rows t).
Proof.
  intros Hw Hj.
  assert (Hin : In c (columns t)) by (eapply nth_error_In; exact Hj).
  unfold rows. rewrite map_map.
  rewrite <- (map_nth_seq (column_values t c) Null) at 1.
  rewrite (column_values_length t c Hw Hin).
  apply map_ext. intros i. unfold row_at, key_at.
  assert (Hlt : j < List.length (columns t))
    by (apply nth_error_Some; congruence).
  rewrite (nth_indep (map (fun col => value_at t col i) (columns t)) Null
             (value_at t c i)) by now rewrite length_map.
  rewrite (map_nth (fun col => value_at t col i) (columns t) c).
  now rewrite (nth_error_nth _ _ c Hj).
Qed.

Lemma fold_add_lengths {A : Type} (ls : list (list A)) :
  forall a,
    fold_left Z.add (map (fun l => Z.of_nat (List.length l)) ls) a =
    (a + Z.of_nat (List.length (List.concat ls)))%Z.
Proof.
  induction ls as [|l ls IH]; intros a; cbn [map fold_left List.concat].
  - cbn. lia.
  - rewrite IH, length_app. lia.
Qed.

Lemma bind_ret {A : Type} (m : result A) : (do a <- m; Ok a) = m.
Proof. now destruct m. Qed.

Lemma count_groups_loop (bys : list string)
    (groups : dict (list Scalar) (list nat)) :
  NoDup (bys ++ ["count"]) ->
  forall rws : list (list Scalar),
    Forall (fun r => List.length r = List.length (bys ++ ["count"])) rws ->
    Forall (fun g : list Scalar * list nat =>
              List.length (fst g) = List.length bys) groups ->
    foldM (fun rd (g : list Scalar * list nat) =>
             let (key_values, indices) := g in
             do rd1 <- append_keys bys key_values rd;
             dict_append rd1 "count" (Int (Z.of_nat (List.length indices))))
          groups (table_of_rows (bys ++ ["count"]) rws) =
    Ok (table_of_rows (bys ++ ["count"])
          (rws ++ map (fun g : list Scalar * list nat =>
                         fst g ++ [Int (Z.of_nat (List.length (snd g)))])
                      groups)).
Proof.
  intros Hnd. induction groups as [|[kv idxs] groups IH]; intros rws Hr Hg.
  - cbn [foldM map]. now rewrite app_nil_r.
  - cbn [foldM map fst snd].
    inversion Hg as [|? ? Hkv Hg']; subst. cbn [fst] in Hkv.
    destruct (table_of_rows_shape _ rws Hr) as [Hk _].
    destruct (append_row_in_two_passes
                (table_of_rows (bys ++ ["count"]) rws)
                bys ["count"] kv [Int (Z.of_nat (List.length idxs))])
      as (T1 & E1 & E2).
    + now rewrite Hk.
    + exact Hk.
    + exact Hkv.
    + reflexivity.
    + rewrite append_keys_cells by exact Hkv. rewrite E1. cbn [bind].
      cbn [combine foldM fst snd] in E2. rewrite bind_ret in E2.
      rewrite E2. cbn [bind]. rewrite <- table_of_rows_snoc.
      rewrite IH.
      * now rewrite <- app_assoc.
      * apply Forall_app. split; [exact Hr|]. constructor; [|constructor].
        rewrite !length_app. cbn [List.length]. now rewrite Hkv.
      * exact Hg'.
Qed.

(** X13. [groupby(by).count()], for grouping columns none of which is named
    [count], returns one row for each group, in first-seen order: the key
    of the group and the number of its rows in the column [count].  The
    counts add up to the number of rows of the table. *)
Theorem groupby_count_counts_rows :
  forall (t : DataFrame) (bys : list string),
    well_formed t ->
    NoDup bys ->
    incl bys (columns t) ->
    ~ In "count" bys ->
    exists r,
      (do g <- groupby t bys; Table.GroupBy_count g) = Ok r /\
      well_formed r /\
      columns r = bys ++ ["count"] /\
      rows r = map (fun g : list Scalar * list nat =>
                      fst g ++ [Int (Z.of_nat (List.length (snd g)))])
                   (groups_of t bys) /\
      aggregate r "count" "sum" = Ok (Int (Z.of_nat (len t))).
Proof.
  intros t bys Hw Hnd Hby Hcount.
  set (names := bys ++ ["count"]).
  set (rws := map (fun g : list Scalar * list nat =>
                     fst g ++ [Int (Z.of_nat (List.length (snd g)))])
                  (groups_of t bys)).
  assert (Hnames : NoDup names).
  { unfold names. apply NoDup_app; [exact Hnd | repeat constructor; auto |].
    intros c Hc [<-|[]]. contradiction. }
  assert (Hrws : Forall (fun r => List.length r = List.length names) rws).
  { unfold rws, names. apply Forall_map, Forall_forall. intros g Hg.
    rewrite !length_app. cbn [List.length].
    now rewrite (proj1 (groups_of_shape t bys g Hg)). }
  destruct (table_of_rows_init names rws Hnames Hrws) as [Hinit Hwr].
  exists (mkDataFrame (table_of_rows names rws) names).
  assert (Hrows : rows (mkDataFrame (table_of_rows names rws) names) = rws).
  { apply rows_table_of_rows; [exact Hnames | | exact Hrws].
    unfold names. now destruct bys. }
  split; [|split; [exact Hwr|split; [reflexivity|split; [exact Hrows|]]]].
  - rewrite (groupby_ok t bys Hw Hby). cbn [bind].
    unfold Table.GroupBy_count. cbn [by_ _groups]. cbv zeta.
    rewrite dict_of_list_NoDup
      by (unfold dict_keys; rewrite map_map; cbn [fst]; now rewrite map_id).
    rewrite dict_set_absent
      by (unfold dict_keys; rewrite map_map; cbn [fst]; now rewrite map_id).
    change (map (fun col : string => (col, @nil Scalar)) bys ++ [("count", [])])
      with (map (fun col : string => (col, @nil Scalar)) bys ++
            map (fun col : string => (col, @nil Scalar)) ["count"]).
    rewrite <- map_app.
    change (map (fun col : string => (col, @nil Scalar)) (bys ++ ["count"]))
      with (table_of_rows names []).
    unfold names. rewrite (count_groups_loop bys (groups_of t bys) Hnames []).
    + cbn [bind app]. exact Hinit.
    + constructor.
    + apply Forall_forall. intros g Hg.
      now apply (groups_of_shape t bys g Hg).
  - unfold aggregate. cbn [columns].
    assert (Hin : In "count" names)
      by (unfold names; apply in_or_app; right; now left).
    rewrite (proj2 (name_in_spec "count" names) Hin). cbn [negb].
    pose proof (getitem_column_values _ "count" Hwr Hin) as Hget.
    cbn [data columns] in Hget. cbn [data]. rewrite Hget. cbn [bind].
    rewrite (column_values_from_rows _ (List.length bys) "count" Hwr).
    + rewrite Hrows. unfold rws. rewrite map_map.
      replace (map (fun g : list Scalar * list nat =>
                      nth (List.length bys)
                        (fst g ++ [Int (Z.of_nat (List.length (snd g)))]) Null)
                   (groups_of t bys))
        with (map Int (map (fun l => Z.of_nat (List.length l))
                         (map snd (groups_of t bys)))).
      * unfold agg_value. cbn [String.eqb Ascii.eqb Bool.eqb].
        rewrite filter_all
          by (intros v Hv; apply in_map_iff in Hv;
              destruct Hv as (z & <- & _); reflexivity).
        unfold py_sum. rewrite py_sum_ints, fold_add_lengths.
        pose proof (Permutation_length
                      (first_seen_groups_members [] tuple_eq_sym
                         tuple_eq_trans (row_keys t bys))) as Hp.
        rewrite length_seq, row_keys_length in Hp.
        rewrite Z.add_0_l. do 3 f_equal. exact Hp.
      * rewrite !map_map. apply map_ext_in. intros g Hg. cbn [snd].
        rewrite app_nth2
          by (rewrite (proj1 (groups_of_shape t bys g Hg)); lia).
        rewrite (proj1 (groups_of_shape t bys g Hg)), Nat.sub_diag.
        reflexivity.
    + cbn [columns]. unfold names.
      rewrite nth_error_app2 by lia. now rewrite Nat.sub_diag.
Qed.

Lemma groupby_count_counts_rows_witness :
  exists r,
    (do g <- groupby
               (mkDataFrame [("k", [Int 2; Int 1; Int 2]);
                             ("v", [Text "a"; Null; Text ""])] ["k"; "v"])
               ["k"];
     Table.GroupBy_count g) = Ok r /\
    rows r = [[Int 2; Int 2]; [Int 1; Int 1]] /\
    aggregate r "count" "sum" = Ok (Int 3).
Proof.
  assert (Hwf : well_formed
                  (mkDataFrame [("k", [Int 2; Int 1; Int 2]);
                                ("v", [Text "a"; Null; Text ""])] ["k"; "v"]))
    by example_well_formed.
  destruct (groupby_count_counts_rows _ ["k"] Hwf)
    as (r & Hr & _ & _ & Hrows & Hsum).
  - repeat constructor. simpl. intuition.
  - intros c [<-|[]]. now left.
  - simpl. intuition discriminate.
  - exists r. split; [exact Hr|]. split; [|exact Hsum].
    rewrite Hrows. reflexivity.
Defined.

(** ** Sorting a sorted table *)

Section SortedInput.
Context {K A : Type} (lt : K -> K -> result bool).

Lemma insert_sorted_last (x : K * A) (l : list (K * A)) :
  (forall y, In y l -> lt (fst x) (fst y) = Ok false) ->
  insert_sorted lt x l = Ok (l ++ [x]).
Proof.
  induction l as [|y l IH]; intros Hl; [reflexivity|].
  cbn [insert_sorted]. rewrite (Hl y (or_introl eq_refl)). cbn [bind].
  rewrite IH by (intros z Hz; apply Hl; now right). reflexivity.
Qed.

Lemma stable_sort_sorted_acc (l : list (K * A)) :
  forall acc,
    (forall a b, In a acc -> In b l -> lt (fst b) (fst a) = Ok false) ->
    ForallOrdPairs (fun a b => lt (fst b) (fst a) = Ok false) l ->
    foldM (fun acc x => insert_sorted lt x acc) l acc = Ok (acc ++ l).
Proof.
  induction l as [|x l IH]; intros acc Hacc Hl.
  - cbn. now rewrite app_nil_r.
  - inversion Hl as [|? ? Hx Hl']; subst. cbn [foldM].
    rewrite insert_sorted_last
      by (intros y Hy; apply (Hacc y x Hy); now left).
    cbn [bind]. rewrite IH.
    + now rewrite <- app_assoc.
    + intros a b Ha Hb. apply in_app_or in Ha. destruct Ha as [Ha|[<-|[]]].
      * apply (Hacc a b Ha). now right.
      * rewrite Forall_forall in Hx. now apply Hx.
    + exact Hl'.
Qed.

Lemma stable_sort_sorted (l : list (K * A)) :
  ForallOrdPairs (fun a b => lt (fst b) (fst a) = Ok false) l ->
  stable_sort lt l = Ok l.
Proof.
  intros Hl. unfold stable_sort.
  rewrite stable_sort_sorted_acc; [reflexivity | intros a b [] | exact Hl].
Qed.
End SortedInput.

(** [sort] on a table whose rows are already in order. *)
Lemma sort_sorted_ok (t : DataFrame) (bys : list string) (ascending : bool) :
  well_formed t ->
  incl bys (columns t) ->
  (forall i j, i < j -> j < len t ->
     (if ascending
      then tuple_lt (key_at t bys j) (key_at t bys i)
      else tuple_lt (key_at t bys i) (key_at t bys j)) = Ok false) ->
  sort t bys ascending = Ok t.
Proof.
  intros Hw Hby Hsorted.
  rewrite (sort_reorders t bys ascending (seq 0 (len t)) Hw Hby).
  - now rewrite reorder_all.
  - unfold sorted_indices, py_sorted.
    rewrite (mapM_ok _ (key_at t bys))
      by (intros i Hi; apply in_seq in Hi; apply get_sort_key_ok; auto; lia).
    cbn [bind]. rewrite combine_map_seq. unfold sort_keyed.
    destruct ascending; cbn [negb].
    + rewrite stable_sort_sorted.
      * cbn [bind]. rewrite map_map. cbn [snd]. now rewrite map_id.
      * apply ForallOrdPairs_map. apply ForallOrdPairs_seq.
        intros i j _ Hij Hj. cbn [fst]. apply (Hsorted i j Hij). lia.
    + rewrite stable_sort_sorted.
      * cbn [bind]. rewrite rev_involutive, map_map. cbn [snd].
        now rewrite map_id.
      * apply (ForallOrdPairs_rev
                 (fun x y : list Scalar * nat =>
                    tuple_lt (fst x) (fst y) = Ok false)).
        apply ForallOrdPairs_map. apply ForallOrdPairs_seq.
        intros i j _ Hij Hj. cbn [fst]. apply (Hsorted i j Hij). lia.
  - apply Forall_seq_lt.
Qed.

(** X14. [sort] leaves a table whose rows are already in the order asked for
    as it is: ascending, when no row has a key smaller than the key of a
    row above it; descending, when no row has a key larger than the key of
    a row above it.  In particular sorting by no column at all returns the
    table unchanged, in both directions. *)
Theorem sort_keeps_sorted_table :
  forall (t : DataFrame) (bys : list string) (ascending : bool),
    well_formed t ->
    (incl bys (columns t) ->
     (forall i j, i < j -> j < len t ->
        (if ascending
         then tuple_lt (key_at t bys j) (key_at t bys i)
         else tuple_lt (key_at t bys i) (key_at t bys j)) = Ok false) ->
     sort t bys ascending = Ok t) /\
    sort t [] ascending = Ok t.
Proof.
  intros t bys ascending Hw. split.
  - now apply sort_sorted_ok.
  - apply sort_sorted_ok; [exact Hw | intros c [] |].
    intros i j _ _. now destruct ascending.
Qed.

Lemma sort_keeps_sorted_table_witness :
  sort (mkDataFrame [("k", [Int 1; Int 2; Int 2]);
                     ("v", [Text "a"; Null; Text ""])] ["k"; "v"])
    ["k"] true
  = Ok (mkDataFrame [("k", [Int 1; Int 2; Int 2]);
                     ("v", [Text "a"; Null; Text ""])] ["k"; "v"]).
Proof.
  assert (Hwf : well_formed
                  (mkDataFrame [("k", [Int 1; Int 2; Int 2]);
                                ("v", [Text "a"; Null; Text ""])] ["k"; "v"]))
    by example_well_formed.
  apply (proj1 (sort_keeps_sorted_table _ ["k"] true Hwf)).
  - intros c [<-|[]]. now left.
  - intros i j Hij Hj. change (j < 3) in Hj.
    destruct j as [|[|[|j]]]; try lia;
      destruct i as [|[|i]]; try lia; reflexivity.
Defined.

Lemma StronglySorted_nth {A : Type} (R : A -> A -> Prop) (d : A)
    (l : list A) :
  StronglySorted R l ->
  forall p q, p < q -> q < List.length l -> R (nth p l d) (nth q l d).
Proof.
  induction 1 as [|x l Hs IH Hx]; intros p q Hpq Hq; [cbn in Hq; lia|].
  destruct q as [|q]; [lia|]. cbn [List.length] in Hq.
  destruct p as [|p]; cbn [nth].
  - rewrite Forall_forall in Hx. apply Hx. apply nth_In. lia.
  - apply IH; lia.
Qed.

Lemma key_at_reorder (t : DataFrame) (idxs : list nat) (bys : list string)
    (p : nat) :
  well_formed t -> incl bys (columns t) -> p < List.length idxs ->
  key_at (reorder t idxs) bys p = key_at t bys (nth p idxs O).
Proof.
  intros (Hc & _ & _) Hby Hp. unfold key_at. apply map_ext_in.
  intros col Hcol. apply value_at_reorder; [|exact Hp].
  rewrite <- Hc. now apply Hby.
Qed.

(** X15. Sorting twice by the same columns in the same direction gives what
    sorting once gives, on a table whose keys can be compared. *)
Theorem sort_idempotent :
  forall (t : DataFrame) (bys : list string) (ascending : bool),
    well_formed t ->
    incl bys (columns t) ->
    (forall i j, i < len t -> j < len t ->
                 comparable (key_at t bys i) (key_at t bys j)) ->
    exists r,
      sort t bys ascending = Ok r /\
      sort r bys ascending = Ok r.
Proof.
  intros t bys ascending Hw Hby Hcmp.
  destruct (sorted_indices_ok t bys ascending Hw Hby Hcmp)
    as (idxs & Hidx & Hperm & Hsorted).
  assert (Hlt : Forall (fun i => i < len t) idxs).
  { apply Forall_forall. intros i Hi.
    apply (Permutation_in _ Hperm) in Hi. apply in_seq in Hi. lia. }
  exists (reorder t idxs). split; [now apply sort_reorders|].
  apply sort_sorted_ok.
  - now apply well_formed_reorder.
  - exact Hby.
  - intros p q Hpq Hq.
    assert (Hlen : len (reorder t idxs) <= List.length idxs).
    { unfold len, reorder. cbn [data].
      destruct (data t) as [|[k v] d]; cbn [map fst snd]; [lia|].
      now rewrite length_map. }
    rewrite !key_at_reorder by (auto; lia).
    pose proof (StronglySorted_nth _ O idxs Hsorted p q Hpq
                  ltac:(lia)) as Hord.
    unfold sort_order in Hord.
    destruct ascending.
    + destruct Hord as [H | [H _]].
      * now apply tuple_lt_asym.
      * apply tuple_eq_lt_false. now apply tuple_eq_sym.
    + destruct Hord as [H | [H _]].
      * now apply tuple_lt_asym.
      * now apply tuple_eq_lt_false.
Qed.

Lemma sort_idempotent_witness :
  exists r,
    sort (mkDataFrame [("k", [Int 2; Int 1; Int 2]);
                       ("v", [Text "a"; Null; Text ""])] ["k"; "v"])
      ["k"] true = Ok r /\
    sort r ["k"] true = Ok r.
Proof.
  assert (Hwf : well_formed
                  (mkDataFrame [("k", [Int 2; Int 1; Int 2]);
                                ("v", [Text "a"; Null; Text ""])] ["k"; "v"]))
    by example_well_formed.
  apply (sort_idempotent _ ["k"] true Hwf).
  - intros c [<-|[]]. now left.
  - intros i j Hi Hj. change (i < 3) in Hi. change (j < 3) in Hj.
    destruct i as [|[|[|i]]]; try lia;
      destruct j as [|[|[|j]]]; try lia;
      vm_compute; intuition congruence.
Defined.

(** ** Renaming, adding and removing columns *)

Lemma rename_step_ok (t : DataFrame) (mapping : dict string string)
    (acc : dict string column) (names : list string) (k : string)
    (v : column) :
  dict_get (data t) k = Some v ->
  ~ In (renamed mapping k) (dict_keys acc) ->
  rename_step t mapping (acc, names) k =
  Ok (acc ++ [(renamed mapping k, v)], names ++ [renamed mapping k]).
Proof.
  intros Hget Hfresh. unfold rename_step, getitem. rewrite Hget. cbn [bind].
  pose proof (dict_set_absent acc (renamed mapping k) v Hfresh) as Hset.
  unfold renamed in *. destruct (dict_get mapping k); now rewrite Hset.
Qed.

Lemma rename_loop (t : DataFrame) (mapping : dict string string)
    (kvs : dict string column) :
  (forall k v, In (k, v) kvs -> dict_get (data t) k = Some v) ->
  forall (acc : dict string column) (names : list string),
    NoDup (dict_keys acc ++ map (renamed mapping) (dict_keys kvs)) ->
    foldM (rename_step t mapping) (dict_keys kvs) (acc, names) =
    Ok (acc ++ map (fun kv : string * column =>
                      (renamed mapping (fst kv), snd kv)) kvs,
        names ++ map (renamed mapping) (dict_keys kvs)).
Proof.
  induction kvs as [|[k v] kvs IH]; intros Hget acc names Hnd.
  - cbn. now rewrite !app_nil_r.
  - cbn [dict_keys map fst foldM].
    cbn [dict_keys map fst] in Hnd.
    rewrite (rename_step_ok t mapping acc names k v).
    + cbn [bind]. change (map fst kvs) with (dict_keys kvs).
      rewrite IH.
      * cbn [map fst snd]. now rewrite <- !app_assoc.
      * intros k' v' Hin. apply Hget. now right.
      * unfold dict_keys. rewrite map_app. cbn [map fst].
        rewrite <- app_assoc. exact Hnd.
    + apply Hget. now left.
    + intros Hin. apply (NoDup_remove_2 _ _ _ Hnd). apply in_or_app.
      now left.
Qed.

Lemma rename_columns_ok (t : DataFrame) (mapping : dict string string) :
  well_formed t ->
  NoDup (map (renamed mapping) (columns t)) ->
  rename_columns t mapping =
  Ok (mkDataFrame
        (map (fun kv : string * column => (renamed mapping (fst kv), snd kv))
             (data t))
        (map (renamed mapping) (columns t))) /\
  well_formed
    (mkDataFrame
       (map (fun kv : string * column => (renamed mapping (fst kv), snd kv))
            (data t))
       (map (renamed mapping) (columns t))).
Proof.
  intros (Hc & Hn & Hl) Hnd.
  assert (Hk : dict_keys
                 (map (fun kv : string * column =>
                         (renamed mapping (fst kv), snd kv)) (data t)) =
               map (renamed mapping) (columns t)).
  { rewrite Hc. unfold dict_keys. now rewrite !map_map. }
  assert (Hv : dict_values
                 (map (fun kv : string * column =>
                         (renamed mapping (fst kv), snd kv)) (data t)) =
               dict_values (data t)).
  { unfold dict_values. now rewrite map_map. }
  split.
  - unfold rename_columns. rewrite Hc.
    rewrite (rename_loop t mapping (data t)).
    + cbn [bind app].
      rewrite (DataFrame_init_ok _ (len t)).
      * cbn [bind data]. now rewrite <- Hc.
      * rewrite Hk. exact Hnd.
      * rewrite Hv. exact Hl.
    + intros k v Hin. now apply dict_get_NoDup_in.
    + cbn [dict_keys map app]. now rewrite <- Hc.
  - unfold well_formed. cbn [data columns]. rewrite Hk, Hv.
    split; [reflexivity|]. split; [exact Hnd|].
    replace (len (mkDataFrame
                    (map (fun kv : string * column =>
                            (renamed mapping (fst kv), snd kv)) (data t))
                    (map (renamed mapping) (columns t))))
      with (len t); [exact Hl|].
    unfold len. cbn [data]. now destruct (data t) as [|[k v] d].
Qed.

(** X16. [rename_columns(mapping)], when the new names do not collide, returns
    the table with every column under its new name, in the same position
    and with the same values, so that the rows are unchanged.  A name of
    the mapping that is not a column of the table is ignored, and the empty
    mapping returns an equal table. *)
Theorem rename_columns_keeps_values :
  forall (t : DataFrame) (mapping : dict string string),
    well_formed t ->
    (NoDup (map (renamed mapping) (columns t)) ->
     exists r,
       rename_columns t mapping = Ok r /\
       well_formed r /\
       columns r = map (renamed mapping) (columns t) /\
       (forall c, In c (columns t) ->
                  column_values r (renamed mapping c) = column_values t c) /\
       rows r = rows t) /\
    rename_columns t [] = Ok t.
Proof.
  intros t mapping Hw. split.
  - intros Hnd. destruct (rename_columns_ok t mapping Hw Hnd) as [Hr Hwr].
    eexists. split; [exact Hr|]. split; [exact Hwr|].
    split; [reflexivity|].
    assert (Hcol : forall c, In c (columns t) ->
              column_values
                (mkDataFrame
                   (map (fun kv : string * column =>
                           (renamed mapping (fst kv), snd kv)) (data t))
                   (map (renamed mapping) (columns t)))
                (renamed mapping c) = column_values t c).
    { intros c Hc.
      destruct (well_formed_column_length t c Hw Hc) as (v & Hget & _).
      unfold column_values. cbn [data]. rewrite Hget.
      rewrite (dict_get_NoDup_in _ (renamed mapping c) v);
        [reflexivity | apply Hwr |].
      apply in_map_iff. exists (c, v). split; [reflexivity|].
      clear - Hget. induction (data t) as [|[k w] d IH]; [discriminate|].
      cbn [dict_get] in Hget. unfold key_eqb, string_KeyEq in Hget.
      destruct (String.eqb_spec k c) as [->|Hne].
      - injection Hget as ->. now left.
      - right. now apply IH. }
    split; [exact Hcol|].
    unfold rows.
    replace (len (mkDataFrame
                    (map (fun kv : string * column =>
                            (renamed mapping (fst kv), snd kv)) (data t))
                    (map (renamed mapping) (columns t))))
      with (len t)
      by (unfold len; cbn [data]; now destruct (data t) as [|[k v] d]).
    apply map_ext. intros i. unfold row_at, key_at. cbn [columns].
    rewrite map_map. apply map_ext_in. intros c Hc.
    unfold value_at. now rewrite Hcol.
  - destruct (rename_columns_ok t [] Hw) as [Hr _].
    + unfold renamed. cbn [dict_get]. rewrite map_id.
      destruct Hw as (Hc & Hn & _). now rewrite Hc.
    + rewrite Hr. f_equal. destruct t as [d c]. cbn [data columns].
      unfold renamed. cbn [dict_get]. rewrite map_id. f_equal.
      rewrite <- (map_id d) at 2. apply map_ext. now intros [k v].
Qed.

Lemma rename_columns_keeps_values_witness :
  exists r,
    rename_columns
      (mkDataFrame [("k", [Int 2; Int 1; Int 2]);
                    ("v", [Text "a"; Null; Text ""])] ["k"; "v"])
      [("k", "key"); ("zz", "y")] = Ok r /\
    columns r = ["key"; "v"] /\
    rows r = [[Int 2; Text "a"]; [Int 1; Null]; [Int 2; Text ""]].
Proof.
  assert (Hwf : well_formed
                  (mkDataFrame [("k", [Int 2; Int 1; Int 2]);
                                ("v", [Text "a"; Null; Text ""])] ["k"; "v"]))
    by example_well_formed.
  destruct (proj1 (rename_columns_keeps_values _ [("k", "key"); ("zz", "y")]
                     Hwf))
    as (r & Hr & _ & Hc & _ & Hrows).
  - repeat constructor; simpl; intuition discriminate.
  - exists r. split; [exact Hr|]. split; [exact Hc|].
    rewrite Hrows. reflexivity.
Defined.

(** X17. Adding a column under a name the table does not have and then
    dropping that name gives the table back. *)
Theorem add_column_then_drop :
  forall (t : DataFrame) (column_name : string) (values : column),
    well_formed t ->
    ~ In column_name (columns t) ->
    List.length values = len t ->
    exists r,
      add_column t column_name values = Ok r /\
      columns r = columns t ++ [column_name] /\
      Table.drop r [column_name] = Ok t.
Proof.
  intros t name values Hw Hnew Hlen.
  pose proof Hw as (Hc & Hn & Hl).
  assert (Habsent : ~ In name (dict_keys (data t))) by now rewrite <- Hc.
  set (r := mkDataFrame (data t ++ [(name, values)]) (columns t ++ [name])).
  assert (Hk : dict_keys (data t ++ [(name, values)]) = columns t ++ [name]).
  { unfold dict_keys. rewrite map_app. cbn [map fst]. now rewrite Hc. }
  assert (Hlr : len r = len t).
  { unfold len, r. cbn [data]. unfold len in Hlen.
    destruct (data t) as [|[k v] d]; [exact Hlen | reflexivity]. }
  assert (Hwr : well_formed r).
  { unfold well_formed, r. cbn [data columns]. rewrite Hk.
    split; [reflexivity|]. split.
    - apply NoDup_app; [now rewrite Hc | repeat constructor; auto |].
      intros c Hin [<-|[]]. contradiction.
    - fold r. rewrite Hlr. unfold dict_values. rewrite map_app.
      apply Forall_app. split; [exact Hl|]. now repeat constructor. }
  exists r. split; [|split; [reflexivity|]].
  - unfold add_column. rewrite Hlen, Nat.eqb_refl. cbn [negb].
    rewrite (copy_columns t Hw). cbn [bind].
    rewrite dict_set_absent by exact Habsent.
    rewrite (DataFrame_init_ok _ (len t)).
    + unfold r. now rewrite Hk.
    + destruct Hwr as (_ & Hnr & _). exact Hnr.
    + unfold dict_values. rewrite map_app.
      apply Forall_app. split; [exact Hl|]. now repeat constructor.
  - rewrite (drop_ok r [name] Hwr). unfold r. cbn [data columns].
    assert (Hkeep : forall c, In c (columns t) ->
                      negb (name_in c [name]) = true).
    { intros c Hin. cbn [name_in existsb]. rewrite orb_false_r.
      apply negb_true_iff. apply String.eqb_neq. congruence. }
    rewrite !filter_app. cbn [filter fst name_in existsb].
    rewrite String.eqb_refl. cbn [orb negb]. rewrite !app_nil_r.
    rewrite (filter_all _ (columns t)) by exact Hkeep.
    rewrite (filter_all _ (data t)).
    + now destruct t.
    + intros [k v] Hin. cbn [fst]. apply Hkeep. rewrite Hc.
      unfold dict_keys. now apply (in_map fst) in Hin.
Qed.

Lemma add_column_then_drop_witness :
  exists r,
    add_column (mkDataFrame [("k", [Int 2; Int 1])] ["k"]) "z" [Null; Int 5]
      = Ok r /\
    columns r = ["k"; "z"] /\
    Table.drop r ["z"] = Ok (mkDataFrame [("k", [Int 2; Int 1])] ["k"]).
Proof.
  assert (Hwf : well_formed (mkDataFrame [("k", [Int 2; Int 1])] ["k"]))
    by example_well_formed.
  apply (add_column_then_drop _ "z" [Null; Int 5] Hwf).
  - simpl. intuition discriminate.
  - reflexivity.
Defined.

(** ** The constructor *)

Lemma count_distinct_different (l : list nat) (a b : nat) :
  In a l -> In b l -> a <> b -> (1 <? count_distinct l)%nat = true.
Proof.
  intros Ha Hb Hab. apply Nat.ltb_lt. unfold count_distinct.
  assert (Hincl : incl [a; b] (nodup Nat.eq_dec l)).
  { intros x [<-|[<-|[]]]; now apply nodup_In. }
  assert (Hnd : NoDup [a; b]).
  { repeat constructor; cbn; intuition. }
  apply (NoDup_incl_length Hnd) in Hincl. cbn in Hincl. lia.
Qed.

(** X18. The constructor, applied to a dictionary of columns, raises
    [ValueError] exactly when two of the columns have different lengths.
    Otherwise it returns the table of these columns, whose names are the
    keys in order, and this table is well formed: every column has the
    length [len] reports. *)
Theorem DataFrame_init_checks_lengths :
  forall d : dict string column,
    NoDup (dict_keys d) ->
    (DataFrame_init d = Raise ValueError <->
     exists v w, In v (dict_values d) /\ In w (dict_values d) /\
                 List.length v <> List.length w) /\
    (forall e, DataFrame_init d = Raise e -> e = ValueError) /\
    (forall r, DataFrame_init d = Ok r ->
               r = mkDataFrame d (dict_keys d) /\ well_formed r).
Proof.
  intros d Hn.
  assert (Hdec : (exists v w, In v (dict_values d) /\ In w (dict_values d) /\
                              List.length v <> List.length w) \/
                 Forall (fun values : column =>
                           List.length values =
                           len (mkDataFrame d (dict_keys d)))
                        (dict_values d)).
  { unfold len. cbn [data]. destruct d as [|[k v] d]; [right; constructor|].
    cbn [dict_values map snd].
    destruct (Forall_dec (fun values : column =>
                            List.length values = List.length v)
                (fun values => Nat.eq_dec (List.length values)
                                 (List.length v))
                (v :: map snd d)) as [Hall|Hnot].
    - now right.
    - left. apply neg_Forall_Exists_neg in Hnot;
        [|intros x; apply Nat.eq_dec].
      apply Exists_exists in Hnot. destruct Hnot as (w & Hw & Hne).
      exists w, v. split; [exact Hw|]. split; [now left | exact Hne]. }
  assert (Hok : Forall (fun values : column =>
                          List.length values =
                          len (mkDataFrame d (dict_keys d)))
                       (dict_values d) ->
                DataFrame_init d = Ok (mkDataFrame d (dict_keys d)) /\
                well_formed (mkDataFrame d (dict_keys d))).
  { intros Hall. split.
    - now apply (DataFrame_init_ok d (len (mkDataFrame d (dict_keys d)))).
    - unfold well_formed. cbn [data columns]. auto. }
  assert (Hbad : (exists v w, In v (dict_values d) /\ In w (dict_values d) /\
                              List.length v <> List.length w) ->
                 DataFrame_init d = Raise ValueError).
  { intros (v & w & Hv & Hw & Hne). unfold DataFrame_init.
    rewrite dict_of_list_NoDup by exact Hn.
    destruct d as [|kv d]; [destruct Hv|].
    rewrite (count_distinct_different _ (List.length v) (List.length w));
      [reflexivity | now apply in_map | now apply in_map | exact Hne]. }
  split; [|split].
  - split; [|exact Hbad].
    intros Hraise. destruct Hdec as [Hex|Hall]; [exact Hex|].
    destruct (Hok Hall) as [E _]. congruence.
  - intros e He. destruct Hdec as [Hex|Hall].
    + rewrite (Hbad Hex) in He. congruence.
    + destruct (Hok Hall) as [E _]. congruence.
  - intros r Hr. destruct Hdec as [Hex|Hall].
    + rewrite (Hbad Hex) in Hr. discriminate.
    + destruct (Hok Hall) as [E Hwf]. rewrite E in Hr.
      injection Hr as <-. now split.
Qed.

Lemma DataFrame_init_checks_lengths_witness :
  DataFrame_init [("a", [Int 1]); ("b", [])] = Raise ValueError.
Proof.
  apply (proj1 (DataFrame_init_checks_lengths [("a", [Int 1]); ("b", [])]
                  ltac:(repeat constructor; simpl; intuition discriminate))).
  exists [Int 1], []. simpl. intuition discriminate.
Defined.

(** ** Aggregating a table without rows *)

Lemma groups_of_empty (t : DataFrame) (bys : list string) :
  len t = 0 -> groups_of t bys = [].
Proof.
  intros Hlen. unfold groups_of, row_keys. now rewrite Hlen.
Qed.

(** X19. On a table without rows [groupby(by).agg(aggregations)] returns the
    table without rows whose names are the grouping columns followed by
    the aggregated ones, whatever the aggregations are: the function names
    and the column names are looked at only when a group is processed.  On
    a table with a row, a function name other than the five known ones
    raises [ValueError]. *)
Theorem agg_validates_only_with_groups :
  forall (t : DataFrame) (bys : list string)
         (aggregations : dict string string),
    well_formed t ->
    NoDup bys ->
    incl bys (columns t) ->
    (len t = 0 ->
     NoDup (dict_keys aggregations) ->
     (do g <- groupby t bys; agg g aggregations) =
     Ok (mkDataFrame (map (fun col => (col, [])) (agg_columns bys aggregations))
           (agg_columns bys aggregations))) /\
    (forall col func_name,
        0 < len t ->
        In col (columns t) -> ~ In col bys ->
        ~ In func_name ["count"; "sum"; "mean"; "min"; "max"] ->
        (do g <- groupby t bys; agg g [(col, func_name)]) =
        Raise ValueError).
Proof.
  intros t bys aggregations Hw Hnd Hby. split.
  - intros Hlen Hagg. rewrite (groupby_ok t bys Hw Hby). cbn [bind].
    rewrite (groups_of_empty t bys Hlen). unfold agg. cbn [by_ _groups].
    cbv zeta. cbn [foldM bind].
    match goal with
    | |- DataFrame_init ?init = _ =>
        replace init with (table_of_rows (agg_columns bys aggregations) [])
          by (symmetry; now apply agg_initial)
    end.
    destruct (table_of_rows_init (agg_columns bys aggregations) [])
      as [Hinit _]; [now apply NoDup_agg_columns | constructor |].
    exact Hinit.
  - intros col f Hpos Hcol Hnot Hf.
    rewrite (groupby_ok t bys Hw Hby). cbn [bind].
    assert (Hfn : agg_value f = fun _ => Raise ValueError).
    { unfold agg_value.
      assert (forall s, In s ["count"; "sum"; "mean"; "min"; "max"] ->
                        (f =? s) = false) as Hne.
      { intros s Hs. apply String.eqb_neq. intros ->. contradiction. }
      rewrite !Hne by (cbn; auto 10). reflexivity. }
    assert (Hin : name_in col bys = false).
    { destruct (name_in col bys) eqn:E; [|reflexivity].
      apply name_in_spec in E. contradiction. }
    destruct (groups_of t bys) as [|[kv idxs] groups] eqn:Eg.
    { exfalso. unfold groups_of, first_seen_groups, first_rows in Eg.
      rewrite row_keys_length in Eg.
      destruct (len t) as [|n]; [lia|]. cbn [seq filter] in Eg.
      unfold is_first at 1 in Eg. cbn [seq existsb negb] in Eg.
      discriminate. }
    destruct (groups_of_shape t bys (kv, idxs)) as [Hkv Hidx];
      [rewrite Eg; now left|]. cbn [fst snd] in Hkv, Hidx.
    unfold agg. cbn [by_ _groups]. cbv zeta.
    match goal with
    | |- context [foldM ?step ((kv, idxs) :: groups) ?init] =>
        replace init with (table_of_rows (agg_columns bys [(col, f)]) [])
          by (symmetry; apply agg_initial;
              [exact Hnd | repeat constructor; auto])
    end.
    cbn [foldM].
    assert (Hag : aggregated bys [(col, f)] = [(col, f)]).
    { unfold aggregated. cbn [filter fst]. now rewrite Hin. }
    assert (Hnames : NoDup (agg_columns bys [(col, f)])).
    { apply NoDup_agg_columns; [exact Hnd | repeat constructor; auto]. }
    destruct (append_row_in_two_passes
                (table_of_rows (agg_columns bys [(col, f)]) [])
                bys [col] kv [Null]) as (T1 & E1 & _).
    + destruct (table_of_rows_shape (agg_columns bys [(col, f)]) [])
        as [Hk _]; [constructor|]. now rewrite Hk.
    + destruct (table_of_rows_shape (agg_columns bys [(col, f)]) [])
        as [Hk _]; [constructor|]. rewrite Hk.
      unfold agg_columns. now rewrite Hag.
    + exact Hkv.
    + reflexivity.
    + rewrite append_keys_cells by exact Hkv. rewrite E1. cbn [bind].
      unfold append_aggregates. cbn [by_ df foldM]. rewrite Hin.
      rewrite (values_at_ok t col idxs Hw Hcol Hidx). cbn [bind].
      rewrite Hfn. reflexivity.
Qed.

Lemma agg_validates_only_with_groups_witness :
  (do g <- groupby (mkDataFrame [("a", []); ("b", [])] ["a"; "b"]) ["a"];
   agg g [("zzz", "median")])
  = Ok (mkDataFrame [("a", []); ("zzz", [])] ["a"; "zzz"]) /\
  (do g <- groupby (mkDataFrame [("a", [Int 1]); ("b", [Int 2])] ["a"; "b"])
             ["a"];
   agg g [("b", "median")]) = Raise ValueError.
Proof.
  split.
  - apply (proj1 (agg_validates_only_with_groups
                    (mkDataFrame [("a", []); ("b", [])] ["a"; "b"]) ["a"]
                    [("zzz", "median")]
                    ltac:(example_well_formed)
                    ltac:(repeat constructor; simpl; intuition)
                    ltac:(intros c [<-|[]]; now left))).
    + reflexivity.
    + repeat constructor. simpl. intuition.
  - apply (proj2 (agg_validates_only_with_groups
                    (mkDataFrame [("a", [Int 1]); ("b", [Int 2])] ["a"; "b"])
                    ["a"] []
                    ltac:(example_well_formed)
                    ltac:(repeat constructor; simpl; intuition)
                    ltac:(intros c [<-|[]]; now left))).
    + cbn. lia.
    + right. now left.
    + simpl. intuition discriminate.
    + simpl. intuition discriminate.
Defined.

(** ** Joining on a key that is unique on the right *)

Lemma filter_at_most_one {A : Type} (p : A -> bool) (l : list A) :
  NoDup l ->
  (forall x y, In x l -> In y l -> p x = true -> p y = true -> x = y) ->
  List.length (filter p l) <= 1.
Proof.
  induction 1 as [|x l Hx Hn IH]; intros Huniq; [cbn; lia|].
  cbn [filter]. destruct (p x) eqn:Ex.
  - assert (Hnone : filter p l = []).
    { destruct (filter p l) as [|y l'] eqn:E; [reflexivity|].
      assert (Hy : In y (filter p l)) by (rewrite E; now left).
      apply filter_In in Hy. destruct Hy as [Hy Hpy].
      assert (x = y) by (apply Huniq; auto; [now left | now right]).
      subst. contradiction. }
    rewrite Hnone. cbn. lia.
  - apply IH. intros a b Ha Hb. apply Huniq; now right.
Qed.

Lemma matches_at_most_one (self other : DataFrame)
    (left_key right_key : string) (i : nat) :
  well_formed other -> In right_key (columns other) ->
  (forall j j', j < len other -> j' < len other -> j <> j' ->
     py_eq (value_at other right_key j) (value_at other right_key j')
     = false) ->
  List.length (matches self other left_key right_key i) <= 1.
Proof.
  intros Hw Hin Huniq. unfold matches, matching_rows.
  apply filter_at_most_one; [apply seq_NoDup|].
  intros j j' Hj Hj' Hp Hp'.
  rewrite (column_values_length other right_key Hw Hin) in Hj, Hj'.
  apply in_seq in Hj, Hj'.
  destruct (Nat.eq_dec j j') as [E|E]; [exact E|].
  exfalso.
  assert (Hjj : py_eq (value_at other right_key j)
                      (value_at other right_key j') = true).
  { unfold key_eqb, Scalar_KeyEq in Hp, Hp'. unfold value_at.
    eapply py_eq_trans; [exact Hp|]. now apply py_eq_sym. }
  rewrite Huniq in Hjj by lia. discriminate.
Qed.



(** ** Lines without quotes *)

Lemma join_fields_prepend (separator : ascii) (a f : string)
    (fs : list string) :
  join_fields separator ((a ++ f)%string :: fs) =
  (a ++ join_fields separator (f :: fs))%string.
Proof.
  unfold join_fields. destruct fs as [|g fs]; cbn [String.concat].
  - reflexivity.
  - now rewrite append_assoc.
Qed.

Lemma join_fields_cons (separator : ascii) (x f : string) (fs : list string) :
  join_fields separator (x :: f :: fs) =
  (x ++ String separator EmptyString ++ join_fields separator (f :: fs))%string.
Proof. reflexivity. Qed.

Lemma parse_unquoted_loop (separator : ascii) (line : string) :
  separator <> quote_char ->
  contains quote_char line = false ->
  join_fields separator (parse_csv_loop separator line false EmptyString [])
  = line /\
  Forall (fun f => contains separator f = false)
         (parse_csv_loop separator line false EmptyString []).
Proof.
  intros Hsep. induction line as [|c rest IH]; intros Hq.
  - cbn. split; [reflexivity | now repeat constructor].
  - cbn [contains] in Hq. apply orb_false_iff in Hq. destruct Hq as [Hc Hq].
    destruct (IH Hq) as [IHj IHf]. rewrite parse_csv_loop_cons, Hc.
    destruct (parse_csv_loop separator rest false EmptyString []) as [|f fs] eqn:E;
      [now apply parse_csv_loop_nonempty in E|].
    destruct (Ascii.eqb_spec c separator) as [->|Hne]; cbn [andb negb].
    + rewrite parse_csv_loop_acc, E. cbn [app prepend_field String.append].
      split.
      * rewrite join_fields_cons, IHj. reflexivity.
      * constructor; [reflexivity | exact IHf].
    + rewrite parse_csv_loop_acc, E. cbn [app prepend_field String.append].
      change (String c f) with (String c EmptyString ++ f)%string.
      split.
      * rewrite join_fields_prepend, IHj. reflexivity.
      * inversion IHf; subst. constructor; [|assumption].
        cbn [String.append contains].
        destruct (Ascii.eqb_spec c separator); [congruence|]. assumption.
Qed.

(** X21. A line without a quote, read with a separator that is not the quote,
    is split at every separator and nowhere else: no field holds a
    separator, and the fields joined by the separator give the line
    back. *)
Theorem parse_csv_line_splits_unquoted :
  forall (separator : ascii) (line : string),
    separator <> quote_char ->
    contains quote_char line = false ->
    join_fields separator (parse_csv_line line separator) = line /\
    Forall (fun f => contains separator f = false)
           (parse_csv_line line separator).
Proof.
  intros separator line Hsep Hq. now apply parse_unquoted_loop.
Qed.

Lemma parse_csv_line_splits_unquoted_witness :
  parse_csv_line "a,,b c" ","%char = ["a"; ""; "b c"] /\
  join_fields ","%char (parse_csv_line "a,,b c" ","%char) = "a,,b c".
Proof.
  split; [reflexivity|].
  apply (parse_csv_line_splits_unquoted ","%char "a,,b c");
    [discriminate | reflexivity].
Defined.

(** ** The byte ranges of the parallel reader *)

(** X22. The byte ranges [read_csv_parallel] hands to its workers tile the
    data: there is one range for each process, the first starts where the
    header ends, each one ends where the next starts, and the last ends at
    the end of the file. *)
Theorem chunk_tasks_tile_the_data :
  forall header_size file_size num_processes : nat,
    0 < num_processes ->
    header_size <= file_size ->
    let tasks := chunk_tasks header_size file_size num_processes in
    List.length tasks = num_processes /\
    fst (nth 0 tasks (0, 0)) = header_size /\
    snd (nth (num_processes - 1) tasks (0, 0)) = file_size /\
    (forall i, S i < num_processes ->
               snd (nth i tasks (0, 0)) = fst (nth (S i) tasks (0, 0))) /\
    (forall i, i < num_processes ->
               header_size <= fst (nth i tasks (0, 0)) /\
               fst (nth i tasks (0, 0)) <= snd (nth i tasks (0, 0)) /\
               snd (nth i tasks (0, 0)) <= file_size).
Proof.
  intros hs fs n Hn Hle tasks.
  set (chunk := (fs - hs) / n).
  assert (Hnth : forall i, i < n ->
            nth i tasks (0, 0) =
            (hs + i * chunk,
             if (i <? n - 1)%nat then hs + (i + 1) * chunk else fs)).
  { intros i Hi. unfold tasks, chunk_tasks. cbv zeta.
    rewrite (nth_indep _ (0, 0)
               ((fun i => (hs + i * ((fs - hs) / n),
                           if (i <? n - 1)%nat
                           then hs + (i + 1) * ((fs - hs) / n)
                           else fs)) 0))
      by now rewrite length_map, length_seq.
    rewrite (map_nth (fun i => (hs + i * ((fs - hs) / n),
                                if (i <? n - 1)%nat
                                then hs + (i + 1) * ((fs - hs) / n)
                                else fs))).
    now rewrite seq_nth. }
  assert (Hchunk : n * chunk <= fs - hs).
  { unfold chunk. apply Nat.Div0.mul_div_le. }
  split; [|split; [|split; [|split]]].
  - unfold tasks, chunk_tasks. now rewrite length_map, length_seq.
  - rewrite Hnth by lia. cbn [fst]. lia.
  - rewrite Hnth by lia. cbn [snd].
    destruct (Nat.ltb_spec (n - 1) (n - 1)); [lia | reflexivity].
  - intros i Hi. rewrite !Hnth by lia. cbn [fst snd].
    destruct (Nat.ltb_spec i (n - 1)); lia.
  - intros i Hi. rewrite Hnth by lia. cbn [fst snd].
    assert (Hi' : i * chunk <= n * chunk) by (apply Nat.mul_le_mono_r; lia).
    destruct (Nat.ltb_spec i (n - 1)).
    + assert ((i + 1) * chunk <= n * chunk)
        by (apply Nat.mul_le_mono_r; lia).
      lia.
    + lia.
Qed.

Lemma chunk_tasks_tile_the_data_witness :
  chunk_tasks 3 11 3 = [(3, 5); (5, 7); (7, 11)] /\
  snd (nth 2 (chunk_tasks 3 11 3) (0, 0)) = 11.
Proof.
  split; [reflexivity|].
  apply (chunk_tasks_tile_the_data 3 11 3); lia.
Defined.

(** ** Reading a file line by line *)

Lemma length_append (a b : string) :
  String.length (a ++ b) = String.length a + String.length b.
Proof. induction a as [|c a IH]; cbn; [reflexivity | now rewrite IH]. Qed.

Lemma drop_append (a b : string) : drop (String.length a) (a ++ b) = b.
Proof. induction a as [|c a IH]; cbn; [reflexivity | exact IH]. Qed.

Lemma drop_add (n m : nat) (s : string) : drop (n + m) s = drop m (drop n s).
Proof.
  revert s. induction n as [|n IH]; intros s; [reflexivity|].
  destruct s as [|c s]; cbn [plus drop]; [|apply IH].
  now destruct m.
Qed.

Lemma take_line_append (l rest : string) :
  contains newline_char l = false ->
  contains return_char l = false ->
  take_line (l ++ String newline_char rest) =
  ((l ++ String newline_char EmptyString)%string, S (String.length l)).
Proof.
  induction l as [|c l IH]; intros Hc Hr.
  - cbn [String.append take_line]. now rewrite Ascii.eqb_refl.
  - cbn [contains] in Hc, Hr. apply orb_false_iff in Hc, Hr.
    destruct Hc as [Hc Hl], Hr as [Hr Hl'].
    cbn [String.append take_line]. rewrite Hc, Hr. now rewrite IH.
Qed.

Lemma file_of_lines_cons (l : string) (ls : list string) :
  file_of_lines (l :: ls) =
  (l ++ String newline_char (file_of_lines ls))%string.
Proof.
  unfold file_of_lines. cbn [map]. destruct ls as [|l' ls].
  - reflexivity.
  - cbn [map String.concat].
    change (EmptyString ++ ?x)%string with x.
    rewrite append_assoc. reflexivity.
Qed.

Lemma file_of_lines_length (ls : list string) :
  List.length ls <= String.length (file_of_lines ls).
Proof.
  induction ls as [|l ls IH]; [cbn; lia|].
  rewrite file_of_lines_cons, length_append. cbn [String.length List.length].
  lia.
Qed.

Lemma readline_line (content : string) (pos : nat) (l : string)
    (ls : list string) :
  contains newline_char l = false ->
  contains return_char l = false ->
  drop pos content = file_of_lines (l :: ls) ->
  readline content pos =
    ((l ++ String newline_char EmptyString)%string,
     pos + S (String.length l)) /\
  drop (pos + S (String.length l)) content = file_of_lines ls.
Proof.
  intros Hl Hr Hdrop. rewrite file_of_lines_cons in Hdrop. split.
  - unfold readline. now rewrite Hdrop, take_line_append by assumption.
  - rewrite drop_add, Hdrop.
    replace (S (String.length l))
      with (String.length (l ++ String newline_char EmptyString))
      by (rewrite length_append; cbn [String.length]; lia).
    change (l ++ String newline_char (file_of_lines ls))%string
      with (l ++ (String newline_char EmptyString ++ file_of_lines ls))%string.
    rewrite <- append_assoc. apply drop_append.
Qed.

Lemma rstrip_newline (s : string) :
  rstrip (s ++ String newline_char EmptyString) = rstrip s.
Proof.
  induction s as [|c s IH]; [reflexivity|].
  cbn [String.append rstrip]. now rewrite IH.
Qed.

Lemma lstrip_newline (s : string) :
  lstrip (s ++ String newline_char EmptyString) =
  match lstrip s with
  | EmptyString => EmptyString
  | r => (r ++ String newline_char EmptyString)%string
  end.
Proof.
  induction s as [|c s IH]; [reflexivity|].
  cbn [String.append lstrip]. destruct (isspace c); [exact IH | reflexivity].
Qed.

Lemma strip_newline (s : string) :
  strip (s ++ String newline_char EmptyString) = strip s.
Proof.
  unfold strip. rewrite lstrip_newline.
  destruct (lstrip s) as [|c r]; [reflexivity|].
  apply rstrip_newline.
Qed.

Lemma foldM_map {A B C : Type} (f : C -> B -> result C) (g : A -> B)
    (l : list A) :
  forall acc, foldM f (map g l) acc = foldM (fun a x => f a (g x)) l acc.
Proof.
  induction l as [|x l IH]; intros acc; [reflexivity|].
  cbn [map foldM]. destruct (f acc (g x)); cbn [bind]; [apply IH|reflexivity].
Qed.

Lemma combine_map_r {A B C : Type} (g : B -> C) (l : list A) (r : list B) :
  combine l (map g r) = map (fun p => (fst p, g (snd p))) (combine l r).
Proof.
  revert r. induction l as [|x l IH]; intros [|y r]; cbn; try reflexivity.
  now rewrite IH.
Qed.

Lemma append_record_ok (cols : list string) (separator : ascii)
    (skip_type_inference : bool) (rws : list (list Scalar)) (l : string) :
  NoDup cols ->
  Forall (fun r => List.length r = List.length cols) rws ->
  append_record cols separator skip_type_inference
    (table_of_rows cols rws) (l ++ String newline_char EmptyString) =
  Ok (table_of_rows cols
        (rws ++ record_of_line (List.length cols) separator
                  skip_type_inference l),
      match record_of_line (List.length cols) separator
              skip_type_inference l with
      | [] => false
      | _ :: _ => true
      end).
Proof.
  intros Hnd Hrws. unfold append_record, record_of_line.
  rewrite strip_newline. destruct (strip l) as [|c s].
  - now rewrite app_nil_r.
  - cbv zeta.
    destruct (Nat.eqb_spec (List.length (parse_csv_line (String c s) separator))
                (List.length cols)) as [E|E]; cbn [negb].
    + rewrite <- (foldM_map
                    (fun rd (kv : string * Scalar) =>
                       dict_append rd (fst kv) (snd kv))
                    (fun cf : string * string =>
                       (fst cf, convert_field skip_type_inference (snd cf)))).
      rewrite <- combine_map_r.
      rewrite append_table_row;
        [reflexivity | exact Hnd | exact Hrws | now rewrite length_map].
    + now rewrite app_nil_r.
Qed.

Lemma record_of_line_length (ncols : nat) (separator : ascii)
    (skip_type_inference : bool) (l : string) :
  Forall (fun r => List.length r = ncols)
         (record_of_line ncols separator skip_type_inference l).
Proof.
  unfold record_of_line. destruct (strip l) as [|c s]; [constructor|].
  cbv zeta.
  destruct (Nat.eqb_spec (List.length (parse_csv_line (String c s) separator))
              ncols) as [E|E]; [|constructor].
  constructor; [|constructor]. now rewrite length_map.
Qed.

Lemma record_of_line_cases (ncols : nat) (separator : ascii)
    (skip_type_inference : bool) (l : string) :
  record_of_line ncols separator skip_type_inference l = [] \/
  exists r, record_of_line ncols separator skip_type_inference l = [r].
Proof.
  unfold record_of_line. destruct (strip l) as [|c s]; [now left|].
  cbv zeta.
  destruct (List.length (parse_csv_line (String c s) separator) =? ncols)%nat;
    [right; now eexists | now left].
Qed.

Lemma read_lines_ok (content : string) (cols : list string)
    (separator : ascii) (skip_type_inference : bool) (nrows : option nat) :
  NoDup cols ->
  forall (ls : list string) (fuel pos rows_read : nat)
         (rws : list (list Scalar)),
    Forall one_line ls ->
    drop pos content = file_of_lines ls ->
    List.length ls < fuel ->
    Forall (fun r => List.length r = List.length cols) rws ->
    read_lines fuel content cols separator skip_type_inference nrows pos
      rows_read (table_of_rows cols rws) =
    Ok (table_of_rows cols
          (rws ++
           match nrows with
           | None =>
               flat_map (record_of_line (List.length cols) separator
                           skip_type_inference) ls
           | Some n =>
               firstn (Nat.max 1 (n - rows_read))
                 (flat_map (record_of_line (List.length cols) separator
                              skip_type_inference) ls)
           end)).
Proof.
  intros Hnd. induction ls as [|l ls IH];
    intros fuel pos rows_read rws Hls Hdrop Hfuel Hrws.
  - destruct fuel as [|fuel]; [cbn in Hfuel; lia|].
    cbn [read_lines]. unfold readline. rewrite Hdrop.
    cbn [file_of_lines map String.concat take_line flat_map].
    destruct nrows; rewrite ?firstn_nil, app_nil_r; reflexivity.
  - destruct fuel as [|fuel]; [cbn in Hfuel; lia|].
    inversion Hls as [|? ? [Hl Hr] Hls']; subst.
    destruct (readline_line content pos l ls Hl Hr Hdrop) as [Hread Hnext].
    cbn [read_lines]. rewrite Hread.
    assert (Hne : exists c0 s0,
              (l ++ String newline_char EmptyString)%string = String c0 s0)
      by (destruct l; cbn; eauto).
    destruct Hne as (c0 & s0 & Hne). rewrite Hne. cbv iota. rewrite <- Hne.
    rewrite (append_record_ok cols separator skip_type_inference rws l
               Hnd Hrws); cbn [bind flat_map].
    all: pose proof (record_of_line_length (List.length cols) separator
                       skip_type_inference l) as Hlen.
    all: destruct (record_of_line_cases (List.length cols) separator
                     skip_type_inference l) as [E | [r E]];
      rewrite E in *; cbn [andb app].
    all: try (rewrite app_nil_r;
              rewrite (IH fuel _ rows_read rws Hls' Hnext ltac:(cbn in Hfuel; lia)
                         Hrws); reflexivity).
    all: assert (Hrws' : Forall (fun r0 => List.length r0 = List.length cols)
                           (rws ++ [r]))
      by (apply Forall_app; split; assumption).
    all: destruct nrows as [n|].
    all: try (rewrite (IH fuel _ (S rows_read) (rws ++ [r]) Hls' Hnext
                         ltac:(cbn in Hfuel; lia) Hrws');
              now rewrite <- app_assoc).
    all: destruct (Nat.leb_spec n (S rows_read)) as [Hstop|Hgo].
    all: try (replace (Nat.max 1 (n - rows_read)) with 1 by lia;
              reflexivity).
    all: rewrite (IH fuel _ (S rows_read) (rws ++ [r]) Hls' Hnext
                    ltac:(cbn in Hfuel; lia) Hrws');
      rewrite <- app_assoc; cbn [app];
      replace (Nat.max 1 (n - rows_read)) with (S (Nat.max 1 (n - S rows_read)))
        by lia;
      reflexivity.
Qed.

(** X23. [read_csv] on a file of lines, each ended by a line feed and with
    no line feed or carriage return inside: when the header line is blank
    the call raises [Exception]; otherwise, for distinct header names, it
    returns the table of these names with one row
    for each line that is not blank and has as many fields as the header,
    in the order of the file, every line being read once; the fields are
    converted as [skip_type_inference] says.  With [nrows = n] the reading
    stops after [n] rows, and after one row when [n] is 0, since the limit
    is tested only after a row is stored. *)
Theorem read_csv_returns_the_records :
  forall (header : string) (lines : list string) (separator : ascii)
         (nrows : option nat) (skip_type_inference : bool),
    Forall one_line (header :: lines) ->
    (strip header = EmptyString ->
     read_csv (file_of_lines (header :: lines)) separator nrows
       skip_type_inference = Raise Exception) /\
    (strip header <> EmptyString ->
     NoDup (map strip (parse_csv_line (strip header) separator)) ->
     exists r,
       read_csv (file_of_lines (header :: lines)) separator nrows
         skip_type_inference = Ok r /\
       well_formed r /\
       columns r = map strip (parse_csv_line (strip header) separator) /\
       rows r =
         rows_limit nrows
           (flat_map
              (record_of_line (List.length (columns r)) separator
                 skip_type_inference)
              lines)).
Proof.
  intros header lines separator nrows skip Hlines.
  inversion Hlines as [|? ? [Hh Hcr] Hls]; subst.
  set (content := file_of_lines (header :: lines)).
  destruct (readline_line content 0 header lines Hh Hcr eq_refl)
    as [Hread Hnext].
  split.
  - intros Hblank. unfold read_csv. fold content. rewrite Hread.
    now rewrite strip_newline, Hblank.
  - intros Hheader Hnd.
    set (cols := map strip (parse_csv_line (strip header) separator)) in *.
    set (rws := rows_limit nrows
                  (flat_map (record_of_line (List.length cols) separator skip)
                            lines)).
    assert (Hrws : Forall (fun r => List.length r = List.length cols) rws).
    { assert (Hall : Forall (fun r => List.length r = List.length cols)
                       (flat_map (record_of_line (List.length cols) separator
                                    skip) lines)).
      { apply Forall_forall. intros r Hr. apply in_flat_map in Hr.
        destruct Hr as (l & _ & Hr).
        pose proof (record_of_line_length (List.length cols) separator skip l)
          as Hlen.
        rewrite Forall_forall in Hlen. now apply Hlen. }
      unfold rws, rows_limit. destruct nrows as [n|]; [|exact Hall].
      apply Forall_forall. intros r Hr. rewrite Forall_forall in Hall.
      apply Hall. eapply incl_firstn. exact Hr. }
    destruct (table_of_rows_init cols rws Hnd Hrws) as [Hinit Hwf].
    exists (mkDataFrame (table_of_rows cols rws) cols).
    split; [|split; [exact Hwf|split; [reflexivity|]]].
    + unfold read_csv. fold content. rewrite Hread, strip_newline.
      destruct (strip header) as [|c s] eqn:Es; [congruence|].
      fold cols.
      rewrite dict_of_list_NoDup
        by (unfold dict_keys; rewrite map_map; cbn [fst]; now rewrite map_id).
      change (map (fun col : string => (col, @nil Scalar)) cols)
        with (table_of_rows cols []).
      rewrite (read_lines_ok content cols separator skip nrows Hnd lines).
      * cbn [app bind]. unfold rws, rows_limit in Hinit.
        destruct nrows as [n|]; rewrite ?Nat.sub_0_r; exact Hinit.
      * exact Hls.
      * exact Hnext.
      * pose proof (file_of_lines_length (header :: lines)) as Hlen.
        fold content in Hlen. cbn [List.length] in Hlen. lia.
      * constructor.
    + cbn [columns]. apply rows_table_of_rows; [exact Hnd | | exact Hrws].
      unfold cols, parse_csv_line. intros Hnil.
      apply map_eq_nil in Hnil.
      now apply parse_csv_loop_nonempty in Hnil.
Qed.

Lemma read_csv_returns_the_records_witness :
  exists r,
    read_csv (file_of_lines ["id,name"; "1,a"; ""; "2"; "3,c"]) ","%char
      (Some 0) false = Ok r /\
    columns r = ["id"; "name"] /\
    rows r = [[Int 1; Text "a"]].
Proof.
  destruct (proj2 (read_csv_returns_the_records "id,name"
                     ["1,a"; ""; "2"; "3,c"] ","%char (Some 0) false
                     ltac:(repeat constructor)))
    as (r & Hr & _ & Hc & Hrows).
  - discriminate.
  - vm_compute. repeat constructor; simpl; intuition discriminate.
  - exists r. split; [exact Hr|]. split; [exact Hc|].
    rewrite Hrows, Hc. reflexivity.
Defined.

(** ** Descriptive statistics *)

Lemma filter_nil_existsb {A : Type} (p : A -> bool) (l : list A) :
  existsb p l = match filter p l with [] => false | _ :: _ => true end.
Proof.
  induction l as [|x l IH]; [reflexivity|]. cbn [existsb filter].
  destruct (p x); [reflexivity | exact IH].
Qed.

Lemma describe_loop (t : DataFrame) (cols : list string) :
  well_formed t ->
  incl cols (columns t) ->
  NoDup cols ->
  forall acc stats : dict string (dict string Scalar),
    (forall c, In c cols -> ~ In c (dict_keys acc)) ->
    foldM (fun stats col =>
             do values <- getitem (data t) col;
             let numeric_values := filter Table.is_number values in
             match numeric_values with
             | [] => Ok stats
             | _ :: _ =>
                 do total <- py_sum numeric_values;
                 do mean <- py_truediv total (List.length numeric_values);
                 do lo <- py_min numeric_values;
                 do hi <- py_max numeric_values;
                 do total' <- py_sum numeric_values;
                 Ok (dict_set stats col
                       [("count",
                         Int (Z.of_nat (List.length numeric_values)));
                        ("mean", mean); ("min", lo); ("max", hi);
                        ("sum", total')])
             end)
          cols acc = Ok stats ->
    dict_keys stats =
      dict_keys acc ++
      filter (fun c => existsb Table.is_number (column_values t c)) cols /\
    (forall c, ~ In c cols -> dict_get stats c = dict_get acc c) /\
    (forall c, In c cols ->
       existsb Table.is_number (column_values t c) = true ->
       exists total mean lo hi,
         py_sum (filter Table.is_number (column_values t c)) = Ok total /\
         py_truediv total
           (List.length (filter Table.is_number (column_values t c)))
           = Ok mean /\
         py_min (filter Table.is_number (column_values t c)) = Ok lo /\
         py_max (filter Table.is_number (column_values t c)) = Ok hi /\
         dict_get stats c =
           Some [("count",
                  Int (Z.of_nat
                         (List.length
                            (filter Table.is_number (column_values t c)))));
                 ("mean", mean); ("min", lo); ("max", hi); ("sum", total)]).
Proof.
  intros Hw. induction cols as [|col cols IH];
    intros Hincl Hnd acc stats Hfresh Hrun.
  - cbn [foldM] in Hrun. injection Hrun as <-. cbn [filter].
    rewrite app_nil_r. split; [reflexivity|]. split; [reflexivity|].
    intros c [].
  - inversion Hnd as [|? ? Hcol Hnd']; subst.
    cbn [foldM] in Hrun.
    rewrite (getitem_column_values t col Hw (Hincl col (or_introl eq_refl)))
      in Hrun.
    cbn [bind] in Hrun. cbv zeta in Hrun. cbn [filter].
    rewrite (filter_nil_existsb Table.is_number (column_values t col)).
    destruct (filter Table.is_number (column_values t col))
      as [|v nums] eqn:En.
    + cbn [bind] in Hrun.
      destruct (IH (fun c Hc => Hincl c (or_intror Hc)) Hnd' acc stats
                  (fun c Hc => Hfresh c (or_intror Hc)) Hrun)
        as (Hk & Hout & Hin).
      split; [exact Hk|]. split.
      * intros c Hc. apply Hout. intros H. apply Hc. now right.
      * intros c [<-|Hc] Hnum.
        -- rewrite filter_nil_existsb, En in Hnum. discriminate.
        -- now apply Hin.
    + destruct (py_sum (v :: nums)) as [total|] eqn:Es;
        [cbn [bind] in Hrun | discriminate].
      destruct (py_truediv total (List.length (v :: nums))) as [mean|] eqn:Em;
        [cbn [bind] in Hrun | discriminate].
      destruct (py_min (v :: nums)) as [lo|] eqn:El;
        [cbn [bind] in Hrun | discriminate].
      destruct (py_max (v :: nums)) as [hi|] eqn:Eh;
        [cbn [bind] in Hrun | discriminate].
      assert (Hnew : ~ In col (dict_keys acc))
        by (apply Hfresh; now left).
      rewrite dict_set_absent in Hrun by exact Hnew.
      apply (IH (fun c Hc => Hincl c (or_intror Hc)) Hnd') in Hrun.
      2:{ intros c Hc. unfold dict_keys. rewrite map_app. cbn [map fst].
          intros H. apply in_app_or in H. destruct H as [H|[<-|[]]].
          - apply (Hfresh c); [now right | exact H].
          - contradiction. }
      destruct Hrun as (Hk & Hout & Hin).
      split; [|split].
      * rewrite Hk. unfold dict_keys. rewrite map_app. cbn [map fst].
        now rewrite <- app_assoc.
      * intros c Hc. rewrite Hout by (intros H; apply Hc; now right).
        assert (Hne : col <> c) by (intros ->; apply Hc; now left).
        clear - Hne. induction acc as [|[k w] acc IHa]; cbn [app dict_get].
        -- unfold key_eqb, string_KeyEq.
           destruct (String.eqb_spec col c); [congruence|reflexivity].
        -- destruct (key_eqb k c); [reflexivity | exact IHa].
      * intros c [<-|Hc] Hnum.
        -- exists total, mean, lo, hi. rewrite En.
           repeat (split; [assumption|]).
           rewrite Hout by exact Hcol.
           now apply dict_get_app_here.
        -- now apply Hin.
Qed.

Lemma filter_valid_numbers (values : column) :
  Forall (fun v => forall s, v <> Text s) values ->
  filter is_valid values = filter Table.is_number values.
Proof.
  induction 1 as [|v values Hv Hrest IH]; [reflexivity|].
  cbn [filter]. rewrite IH.
  destruct v as [| z | f | s]; try reflexivity.
  now destruct (Hv s).
Qed.

(** X24. [describe], when it returns, has an entry for exactly the columns
    that hold at least one number, in the order of the columns.  The entry
    of a column counts its numbers ([None] and strings are left out); and
    for a column without strings its sum, mean, minimum and maximum are the
    ones [aggregate] computes. *)
Theorem describe_summarises_numeric_columns :
  forall (t : DataFrame) (stats : dict string (dict string Scalar)),
    well_formed t ->
    Table.describe t = Ok stats ->
    dict_keys stats =
      filter (fun c => existsb Table.is_number (column_values t c))
             (columns t) /\
    (forall c entry,
        dict_get stats c = Some entry ->
        In c (columns t) /\
        getitem entry "count" =
          Ok (Int (Z.of_nat
                     (List.length
                        (filter Table.is_number (column_values t c))))) /\
        (Forall (fun v => forall s, v <> Text s) (column_values t c) ->
         aggregate t c "sum" = getitem entry "sum" /\
         aggregate t c "mean" = getitem entry "mean" /\
         aggregate t c "min" = getitem entry "min" /\
         aggregate t c "max" = getitem entry "max")).
Proof.
  intros t stats Hw Hrun. unfold Table.describe in Hrun.
  assert (Hnd : NoDup (columns t))
    by (destruct Hw as (Hc & Hn & _); now rewrite Hc).
  destruct (describe_loop t (columns t) Hw (fun c H => H) Hnd [] stats)
    as (Hk & Hout & Hin); [intros c _ [] | exact Hrun |].
  cbn [dict_keys map app] in Hk. split; [exact Hk|].
  intros c entry Hget.
  assert (Hc : In c (dict_keys stats))
    by (apply dict_get_in_keys; congruence).
  rewrite Hk in Hc. apply filter_In in Hc. destruct Hc as [Hc Hnum].
  destruct (Hin c Hc Hnum) as (total & mean & lo & hi & Hs & Hm & Hl & Hh & He).
  rewrite He in Hget. injection Hget as <-.
  split; [exact Hc|]. split; [reflexivity|].
  intros Htext.
  assert (Hagg : forall f, aggregate t c f = agg_value f (column_values t c)).
  { intros f. unfold aggregate.
    rewrite (proj2 (name_in_spec c (columns t)) Hc). cbn [negb].
    now rewrite (getitem_column_values t c Hw Hc). }
  rewrite !Hagg. unfold agg_value.
  cbn [String.eqb Ascii.eqb Bool.eqb].
  rewrite (filter_valid_numbers _ Htext).
  rewrite filter_nil_existsb in Hnum.
  destruct (filter Table.is_number (column_values t c)) as [|v nums] eqn:En;
    [discriminate|].
  rewrite Hs. cbn [bind]. rewrite Hm, Hl, Hh.
  repeat split; reflexivity.
Qed.

Lemma describe_summarises_numeric_columns_witness :
  exists stats,
    Table.describe
      (mkDataFrame [("k", [Int 2; Null; Int 4]);
                    ("v", [Text "a"; Null; Text ""])] ["k"; "v"]) = Ok stats /\
    dict_keys stats = ["k"] /\
    exists entry,
      dict_get stats "k" = Some entry /\
      getitem entry "count" = Ok (Int 2) /\
      getitem entry "sum" = Ok (Int 6).
Proof.
  assert (Hwf : well_formed
                  (mkDataFrame [("k", [Int 2; Null; Int 4]);
                                ("v", [Text "a"; Null; Text ""])] ["k"; "v"]))
    by example_well_formed.
  assert (Hrun : exists stats,
            Table.describe
              (mkDataFrame [("k", [Int 2; Null; Int 4]);
                            ("v", [Text "a"; Null; Text ""])] ["k"; "v"])
            = Ok stats) by (eexists; vm_compute; reflexivity).
  destruct Hrun as [stats Hrun].
  destruct (describe_summarises_numeric_columns _ stats Hwf Hrun)
    as [Hk Hentry].
  exists stats. split; [exact Hrun|]. split; [exact Hk|].
  assert (Hget : exists entry, dict_get stats "k" = Some entry).
  { vm_compute in Hrun. injection Hrun as <-. eexists. reflexivity. }
  destruct Hget as [entry Hget]. exists entry. split; [exact Hget|].
  destruct (Hentry "k" entry Hget) as (_ & Hcount & Hagg). split; [exact Hcount|].
  destruct Hagg as (Hsum & _).
  - repeat constructor; discriminate.
  - rewrite <- Hsum. reflexivity.
Defined.

(** ** Groups and filters *)

Lemma dict_get_distinct {K V : Type} `{KeyEq K} (d : dict K V) (g : K * V) :
  ForallOrdPairs (fun e e' : K * V => key_eqb (fst e) (fst e') = false) d ->
  In g d ->
  key_eqb (fst g) (fst g) = true ->
  dict_get d (fst g) = Some (snd g).
Proof.
  induction 1 as [|e d He Hd IH]; intros Hin Hrefl; [destruct Hin|].
  destruct e as [k v]. cbn [dict_get]. destruct Hin as [<-|Hin].
  - cbn [fst snd] in *. now rewrite Hrefl.
  - rewrite Forall_forall in He. specialize (He g Hin). cbn [fst] in He.
    rewrite He. now apply IH.
Qed.

Lemma column_values_reorder (t : DataFrame) (idxs : list nat) (c : string) :
  In c (columns t) -> well_formed t ->
  column_values (reorder t idxs) c = values_at t c idxs.
Proof.
  intros Hc Hw.
  destruct (well_formed_column_length t c Hw Hc) as (values & Hget & _).
  unfold column_values, reorder, values_at, value_at, column_values.
  cbn [data].
  rewrite (@dict_get_map_values column column
             (fun l => map (fun i => nth i l Null) idxs)).
  now rewrite Hget.
Qed.

Lemma group_rows_are_matching_rows (t : DataFrame) (b : string)
    (g : list Scalar * list nat) :
  well_formed t -> In b (columns t) ->
  (forall i, i < len t ->
             py_eq (value_at t b i) (value_at t b i) = true) ->
  In g (groups_of t [b]) ->
  exists k,
    fst g = [k] /\
    snd g = filter (fun i => py_eq (value_at t b i) k) (seq 0 (len t)).
Proof.
  intros Hw Hb Hrefl Hg.
  destruct (groups_of_shape t [b] g Hg) as [_ Hlt].
  destruct (first_seen_groups_keys [] (row_keys t [b]) g Hg)
    as (i & rest & Hs & Hf & _).
  rewrite Hs in Hlt. inversion Hlt as [|? ? Hi _]; subst.
  rewrite row_keys_nth in Hf by exact Hi. cbn [key_at map] in Hf.
  exists (value_at t b i). split; [exact Hf|].
  assert (Hkey : key_eqb (fst g) (fst g) = true).
  { rewrite Hf. unfold key_eqb, tuple_KeyEq. cbn [tuple_eq].
    now rewrite (Hrefl i Hi). }
  pose proof (dict_get_distinct (groups_of t [b]) g
                (first_seen_groups_distinct [] (row_keys t [b])) Hg Hkey)
    as Hget.
  unfold groups_of in Hget.
  rewrite <- (scan_index_first_seen [] tuple_eq_sym tuple_eq_trans) in Hget.
  rewrite (dict_get_scan_index [] tuple_eq_sym tuple_eq_trans) in Hget.
  assert (Hm : matching_rows [] (row_keys t [b]) (fst g) = snd g).
  { destruct (matching_rows [] (row_keys t [b]) (fst g)); congruence. }
  rewrite <- Hm. unfold matching_rows. rewrite row_keys_length.
  apply filter_ext_in. intros j Hj. apply in_seq in Hj.
  rewrite row_keys_nth by lia. rewrite Hf.
  unfold key_eqb, tuple_KeyEq. cbn [key_at map tuple_eq].
  now rewrite andb_true_r.
Qed.

(** X25. Grouping by a column and aggregating another gives, for each group,
    what filtering the table by the key of the group and aggregating the
    filtered table gives: each row of
    [groupby(b).agg({c: func_name})] holds a key [k] of the column [b] and
    the value of [filter_by_value(b, k).aggregate(c, func_name)].  The key
    column must hold no NaN, which is not equal to itself. *)
Theorem group_cell_is_filtered_aggregate :
  forall (t : DataFrame) (b c func_name : string),
    well_formed t ->
    In b (columns t) ->
    In c (columns t) ->
    c <> b ->
    (forall i, i < len t ->
               py_eq (value_at t b i) (value_at t b i) = true) ->
    (forall g, In g (groups_of t [b]) ->
               is_ok (agg_value func_name (values_at t c (snd g))) = true) ->
    exists r,
      (do g <- groupby t [b]; agg g [(c, func_name)]) = Ok r /\
      columns r = [b; c] /\
      Forall (fun row =>
                exists k v ft,
                  row = [k; v] /\
                  Table.filter_by_value t b k = Ok ft /\
                  aggregate ft c func_name = Ok v)
             (rows r).
Proof.
  intros t b c f Hw Hb Hc Hne Hrefl Hok.
  assert (Hin : name_in c [b] = false).
  { cbn [name_in existsb]. rewrite orb_false_r. now apply String.eqb_neq. }
  assert (Hag : aggregated [b] [(c, f)] = [(c, f)]).
  { unfold aggregated. cbn [filter fst]. now rewrite Hin. }
  assert (Hcols : agg_columns [b] [(c, f)] = [b; c]).
  { unfold agg_columns. now rewrite Hag. }
  assert (Hnd : NoDup [b; c]).
  { repeat constructor; cbn; intuition. }
  pose proof (groupby_agg_ok t [b] [(c, f)] Hw) as Hagg.
  rewrite Hcols in Hagg.
  set (rws := map (group_row t [b] [(c, f)]) (groups_of t [b])) in *.
  exists (mkDataFrame (table_of_rows [b; c] rws) [b; c]).
  assert (Hlen : Forall (fun r => List.length r = 2) rws).
  { unfold rws. apply Forall_map, Forall_forall. intros g Hg.
    rewrite (group_row_length t [b] [(c, f)] g Hg). now rewrite Hcols. }
  split; [|split; [reflexivity|]].
  - apply Hagg.
    + repeat constructor; auto.
    + intros x [<-|[]]. exact Hb.
    + repeat constructor; auto.
    + rewrite Hag. intros cf [<-|[]]. exact Hc.
    + rewrite Hag. intros g cf Hg [<-|[]]. now apply Hok.
  - rewrite rows_table_of_rows; [| exact Hnd | discriminate | exact Hlen].
    unfold rws. apply Forall_map, Forall_forall. intros g Hg.
    destruct (group_rows_are_matching_rows t b g Hw Hb Hrefl Hg)
      as (k & Hk & Hrows).
    specialize (Hok g Hg).
    destruct (agg_value f (values_at t c (snd g))) as [v|] eqn:Ev;
      [|discriminate].
    exists k, v,
      (reorder t (filter (fun i => py_eq (value_at t b i) k)
                         (seq 0 (len t)))).
    split; [|split].
    + unfold group_row. rewrite Hag, Hk. cbn [map fst snd app].
      unfold agg_cell. now rewrite Ev.
    + now apply filter_by_value_ok.
    + unfold aggregate.
      change (columns (reorder t (filter (fun i => py_eq (value_at t b i) k)
                                         (seq 0 (len t)))))
        with (columns t).
      rewrite (proj2 (name_in_spec c (columns t)) Hc). cbn [negb].
      rewrite (getitem_column_values (reorder t _) c
                 (well_formed_reorder t _ Hw) Hc).
      cbn [bind]. rewrite (column_values_reorder t _ c Hc Hw).
      now rewrite <- Hrows.
Qed.

Lemma group_cell_is_filtered_aggregate_witness :
  exists r,
    (do g <- groupby
               (mkDataFrame [("s", [Text "CA"; Text "TX"; Text "CA"]);
                             ("n", [Int 5; Int 3; Int 2])] ["s"; "n"]) ["s"];
     agg g [("n", "sum")]) = Ok r /\
    rows r = [[Text "CA"; Int 7]; [Text "TX"; Int 3]] /\
    Forall (fun row =>
              exists k v ft,
                row = [k; v] /\
                Table.filter_by_value
                  (mkDataFrame [("s", [Text "CA"; Text "TX"; Text "CA"]);
                                ("n", [Int 5; Int 3; Int 2])] ["s"; "n"])
                  "s" k = Ok ft /\
                aggregate ft "n" "sum" = Ok v)
           (rows r).
Proof.
  assert (Hwf : well_formed
                  (mkDataFrame [("s", [Text "CA"; Text "TX"; Text "CA"]);
                                ("n", [Int 5; Int 3; Int 2])] ["s"; "n"]))
    by example_well_formed.
  destruct (group_cell_is_filtered_aggregate _ "s" "n" "sum" Hwf)
    as (r & Hr & _ & Hrows).
  - now left.
  - right. now left.
  - discriminate.
  - intros i Hi. change (i < 3) in Hi.
    destruct i as [|[|[|i]]]; try lia; reflexivity.
  - intros g Hg. vm_compute in Hg.
    destruct Hg as [<-|[<-|[]]]; reflexivity.
  - exists r. split; [exact Hr|]. split; [|exact Hrows].
    vm_compute in Hr. injection Hr as <-. reflexivity.
Defined.

(** ** Records as CSV writers write them *)

Lemma parse_written_field (separator : ascii) (field rest : string) :
  separator <> quote_char ->
  parse_csv_line (written separator field ++ String separator rest) separator
  = field :: parse_csv_line rest separator.
Proof.
  intros Hsep. unfold written.
  assert (Hs : Ascii.eqb separator quote_char = false)
    by now apply Ascii.eqb_neq.
  assert (Hrest : parse_csv_line (String separator rest) separator =
                  EmptyString :: parse_csv_line rest separator).
  { unfold parse_csv_line. rewrite parse_csv_loop_cons, Hs, Ascii.eqb_refl.
    cbn [andb negb app]. rewrite parse_csv_loop_acc. cbn [app].
    destruct (parse_csv_loop separator rest false "" []) eqn:E;
      [now apply parse_csv_loop_nonempty in E | reflexivity]. }
  destruct (contains quote_char field || contains separator field) eqn:E.
  - pose proof (parse_csv_line_quoted separator "" field
                  (String separator rest) eq_refl eq_refl) as H.
    cbn [String.append] in H. cbn [String.append].
    change (quoted field ++ String separator rest)%string
      with (String quote_char
              ((escape_quotes field ++ String quote_char "")
               ++ String separator rest)) in *.
    rewrite H by (cbn [starts_with]; exact Hs).
    rewrite Hrest. cbn [prepend_field]. now rewrite append_empty_r.
  - apply orb_false_iff in E. destruct E as [Hq Hc].
    unfold parse_csv_line.
    rewrite (parse_csv_loop_plain separator field (String separator rest)
               "" [] Hq Hc).
    cbn [String.append].
    rewrite parse_csv_loop_cons, Hs, Ascii.eqb_refl. cbn [andb negb app].
    rewrite parse_csv_loop_acc. cbn [app].
    destruct (parse_csv_loop separator rest false "" []) eqn:E;
      [now apply parse_csv_loop_nonempty in E | reflexivity].
Qed.

Lemma parse_written_last (separator : ascii) (field : string) :
  separator <> quote_char ->
  parse_csv_line (written separator field) separator = [field].
Proof.
  intros Hsep. unfold written.
  destruct (contains quote_char field || contains separator field) eqn:E.
  - pose proof (parse_csv_line_quoted separator "" field "" eq_refl eq_refl
                  eq_refl) as H.
    cbn [String.append] in H.
    change ("" ++ quoted field ++ "")%string with (quoted field ++ "")%string
      in H.
    rewrite append_empty_r in H. rewrite H.
    cbn. now rewrite append_empty_r.
  - apply orb_false_iff in E. destruct E as [Hq Hc].
    unfold parse_csv_line.
    pose proof (parse_csv_loop_plain separator field "" "" [] Hq Hc) as H.
    rewrite append_empty_r in H. rewrite H. reflexivity.
Qed.

(** X26. A record written the way CSV writers write it is read back field by
    field: each field is written between quotes, with its quotes doubled,
    when it holds a quote or the separator, and as it is otherwise; the
    fields are joined by the separator, which is not the quote. *)
Theorem parse_csv_line_reads_written_record :
  forall (separator : ascii) (fields : list string),
    separator <> quote_char ->
    fields <> [] ->
    parse_csv_line (written_record separator fields) separator = fields.
Proof.
  intros separator fields Hsep Hne. unfold written_record.
  induction fields as [|x fields IH]; [congruence|].
  destruct fields as [|y fields].
  - change (join_fields separator (map (written separator) [x]))
      with (written separator x).
    now apply parse_written_last.
  - change (join_fields separator (map (written separator) (x :: y :: fields)))
      with (written separator x ++
            String separator
              (join_fields separator
                 (map (written separator) (y :: fields))))%string.
    rewrite parse_written_field by exact Hsep.
    rewrite IH by congruence. reflexivity.
Qed.

Lemma parse_csv_line_reads_written_record_witness :
  parse_csv_line
    (written_record ","%char
       ["plain"; "Smith, J"; ("say " ++ String quote_char "hi")%string; ""])
    ","%char
  = ["plain"; "Smith, J"; ("say " ++ String quote_char "hi")%string; ""].
Proof.
  apply parse_csv_line_reads_written_record; discriminate.
Defined.

(** ** The kinds of join *)

(** X27. [join] does not check its [how] argument: a kind other than
    [left], [right] and [outer] is accepted and gives the inner join. *)
Theorem join_unknown_kind_is_inner :
  forall (self other : DataFrame) (on left_on right_on : option string)
         (how : string),
    how <> "left" -> how <> "right" -> how <> "outer" ->
    join self other on left_on right_on how =
    join self other on left_on right_on "inner".
Proof.
  intros self other on left_on right_on how Hl Hr Ho.
  assert (H1 : how_in how ["left"; "outer"] = false).
  { unfold how_in. cbn [existsb].
    apply String.eqb_neq in Hl. apply String.eqb_neq in Ho.
    now rewrite Hl, Ho. }
  assert (H2 : how_in how ["right"; "outer"] = false).
  { unfold how_in. cbn [existsb].
    apply String.eqb_neq in Hr. apply String.eqb_neq in Ho.
    now rewrite Hr, Ho. }
  unfold join.
  destruct (match on, left_on, right_on with
            | Some k, _, _ => Ok (k, k)
            | None, Some l, Some r => Ok (l, r)
            | _, _, _ => Raise ValueError
            end) as [[left_key right_key]|e]; [|reflexivity].
  cbn [bind].
  destruct (negb (name_in left_key (columns self))); [reflexivity|].
  destruct (negb (name_in right_key (columns other))); [reflexivity|].
  destruct (build_right_index other right_key) as [right_index|e];
    [|reflexivity].
  cbn [bind]. cbv zeta.
  rewrite (foldM_ext
             (join_left_row self other left_key right_key how right_index)
             (join_left_row self other left_key right_key "inner"
                right_index)).
  - rewrite H2. reflexivity.
  - intros [rd matched] i _. unfold join_left_row. now rewrite H1.
Qed.

Lemma join_unknown_kind_is_inner_witness :
  exists r,
    join (mkDataFrame [("K", [Int 1; Int 2]); ("v", [Text "a"; Text "b"])]
            ["K"; "v"])
         (mkDataFrame [("K", [Int 1; Int 3]); ("w", [Text "x"; Text "z"])]
            ["K"; "w"])
         (Some "K") None None "cross" = Ok r /\
    rows r = [[Int 1; Text "a"; Text "x"]].
Proof.
  rewrite (join_unknown_kind_is_inner _ _ (Some "K") None None "cross")
    by discriminate.
  eexists. split; [vm_compute; reflexivity | reflexivity].
Defined.

(** ** The service [get_top_cities] *)

Lemma head_ok (t : DataFrame) (n : Z) :
  well_formed t ->
  Table.head t n = Ok (reorder t (Store.slice_to (seq 0 (len t)) n)).
Proof.
  intros Hw.
  destruct (map_columns_init (fun l => Store.slice_to l n) t
              (List.length (Store.slice_to (seq 0 (len t)) n)) Hw)
    as [Hinit _].
  { intros l Hl. rewrite slice_to_nth, length_map. now rewrite Hl. }
  unfold Table.head. etransitivity; [exact Hinit|]. f_equal.
  apply map_columns_reorder; [exact Hw|].
  intros l Hl. now rewrite slice_to_nth, Hl.
Qed.

Lemma round_column_ok (py_round : Scalar -> Z -> result Scalar)
    (rounded : Scalar -> Scalar) (t : DataFrame) (col : string)
    (decimals : Z) :
  well_formed t -> In col (columns t) ->
  (forall v, Table.is_number v = true ->
             py_round v decimals = Ok (rounded v)) ->
  Table.round_column py_round t col decimals =
  Ok (mkDataFrame
        (dict_set (data t) col
           (map (fun v => if Table.is_number v then rounded v else v)
                (column_values t col)))
        (columns t)).
Proof.
  intros Hw Hin Hround.
  set (g := fun v => if Table.is_number v then rounded v else v).
  destruct (replace_column_init t col (map g (column_values t col)) Hw Hin)
    as (Hinit & _).
  { rewrite length_map. now apply column_values_length. }
  unfold Table.round_column.
  rewrite (proj2 (name_in_spec col (columns t)) Hin). cbn [negb].
  rewrite (copy_columns t Hw). cbn [bind].
  rewrite (getitem_column_values t col Hw Hin). cbn [bind].
  rewrite (mapM_ok (Store.round_value py_round decimals) g).
  - cbn [bind]. exact Hinit.
  - intros v Hv. unfold Store.round_value, g.
    destruct v; cbn [Table.is_number]; try reflexivity; now apply Hround.
Qed.

Lemma reorder_reorder (t : DataFrame) (a b : list nat) :
  Forall (fun i => i < List.length a) b ->
  reorder (reorder t a) b = reorder t (map (fun i => nth i a O) b).
Proof.
  intros Hb. unfold reorder. cbn [data columns]. f_equal.
  rewrite map_map. apply map_ext. intros [k l]. cbn [fst snd]. f_equal.
  rewrite map_map. apply map_ext_in. intros i Hi.
  rewrite Forall_forall in Hb.
  rewrite (nth_indep _ Null (nth O l Null))
    by (rewrite length_map; now apply Hb).
  now rewrite (map_nth (fun j => nth j l Null)).
Qed.

Lemma tuple_lt_int (a b : Z) : tuple_lt [Int a] [Int b] = Ok (a <? b)%Z.
Proof.
  cbn [tuple_lt]. rewrite py_eq_int, py_lt_int.
  destruct (Z.eqb_spec a b) as [->|Hne]; [|reflexivity].
  now rewrite Z.ltb_irrefl.
Qed.

Lemma tuple_eq_int (a b : Z) : tuple_eq [Int a] [Int b] = (a =? b)%Z.
Proof. cbn [tuple_eq]. now rewrite py_eq_int, andb_true_r. Qed.

Lemma renamed_cities_injective (names : list string) :
  NoDup names ->
  ~ In "city" names -> ~ In "state" names ->
  NoDup (map (renamed [("City", "city"); ("State", "state")]) names).
Proof.
  intros Hnd Hcity Hstate. apply NoDup_map_NoDup_ForallPairs; [|exact Hnd].
  intros x y Hx Hy. unfold renamed. cbn [dict_get].
  unfold key_eqb, string_KeyEq.
  destruct (String.eqb_spec "City" x) as [<-|Hcx];
    destruct (String.eqb_spec "City" y) as [<-|Hcy];
    try (destruct (String.eqb_spec "State" x) as [<-|Hsx]);
    try (destruct (String.eqb_spec "State" y) as [<-|Hsy]);
    intros E; subst; try reflexivity; try discriminate;
    try contradiction.
Qed.

Lemma column_values_renamed (t : DataFrame) (mapping : dict string string)
    (c : string) :
  well_formed t ->
  NoDup (map (renamed mapping) (columns t)) ->
  In c (columns t) ->
  column_values
    (mkDataFrame
       (map (fun kv : string * column => (renamed mapping (fst kv), snd kv))
            (data t))
       (map (renamed mapping) (columns t)))
    (renamed mapping c) = column_values t c.
Proof.
  intros Hw Hnd Hc.
  destruct (rename_columns_ok t mapping Hw Hnd) as [_ Hwr].
  destruct (well_formed_column_length t c Hw Hc) as (v & Hget & _).
  unfold column_values. cbn [data]. rewrite Hget.
  rewrite (dict_get_NoDup_in _ (renamed mapping c) v);
    [reflexivity | apply Hwr |].
  apply in_map_iff. exists (c, v). split; [reflexivity|].
  clear - Hget. induction (data t) as [|[k w] d IH]; [discriminate|].
  cbn [dict_get] in Hget. unfold key_eqb, string_KeyEq in Hget.
  destruct (String.eqb_spec k c) as [->|Hne].
  - injection Hget as ->. now left.
  - right. now apply IH.
Qed.

Lemma map_nth_list {A B : Type} (F : A -> B) (l : list A) (d : A) :
  map (fun i => F (nth i l d)) (seq 0 (List.length l)) = map F l.
Proof.
  rewrite <- (map_map (fun i => nth i l d) F). now rewrite map_nth_seq.
Qed.

(** The end of the pipeline, from the rows [idxs] of the city summary on:
    rounding, renaming, selecting and building the records. *)
Lemma top_cities_records (py_round : Scalar -> Z -> result Scalar)
    (rounded : Scalar -> Scalar) (t : DataFrame) (idxs : list nat) :
  well_formed t ->
  incl ["City"; "State"; "total_accidents"; "avg_severity"] (columns t) ->
  ~ In "city" (columns t) -> ~ In "state" (columns t) ->
  (forall v, Table.is_number v = true -> py_round v 2%Z = Ok (rounded v)) ->
  (do df <- Table.round_column py_round (reorder t idxs) "avg_severity" 2%Z;
   do df <- rename_columns df [("City", "city"); ("State", "state")];
   do df <- Table.select df
              ["city"; "state"; "total_accidents"; "avg_severity"];
   Table.to_dict_records df) =
  Ok (map (city_record rounded t) idxs).
Proof.
  intros Hw Hcols Hcity Hstate Hround.
  set (mapping := [("City", "city"); ("State", "state")]).
  set (g := fun v => if Table.is_number v then rounded v else v).
  set (t3 := reorder t idxs).
  assert (Hw3 : well_formed t3) by now apply well_formed_reorder.
  assert (Hc3 : forall c, In c ["City"; "State"; "total_accidents";
                                "avg_severity"] -> In c (columns t3))
    by (intros c Hc; now apply Hcols).
  assert (Hdata : data t <> []).
  { destruct Hw as (Hc & _ & _).
    assert (Hin : In "City" (columns t)) by (apply Hcols; now left).
    rewrite Hc in Hin. now destruct (data t). }
  assert (Hlen3 : len t3 = List.length idxs) by now apply len_reorder.
  (* rounding *)
  rewrite (round_column_ok py_round rounded t3 "avg_severity" 2%Z Hw3)
    by (auto; apply Hc3; cbn; auto).
  cbn [bind]. fold g.
  set (t4 := mkDataFrame
               (dict_set (data t3) "avg_severity"
                  (map g (column_values t3 "avg_severity")))
               (columns t3)).
  destruct (replace_column_init t3 "avg_severity"
              (map g (column_values t3 "avg_severity")) Hw3)
    as (_ & Hw4 & Havg4 & Hother4).
  { apply Hc3. cbn. auto. }
  { rewrite length_map. apply column_values_length; [exact Hw3|].
    apply Hc3. cbn. auto. }
  fold t4 in Hw4, Havg4, Hother4.
  (* renaming *)
  assert (Hnd5 : NoDup (map (renamed mapping) (columns t4))).
  { apply renamed_cities_injective; [|exact Hcity|exact Hstate].
    destruct Hw as (Hc & Hn & _). cbn [columns t4 t3 reorder].
    now rewrite Hc. }
  destruct (rename_columns_ok t4 mapping Hw4 Hnd5) as [Hren Hw5].
  rewrite Hren. cbn [bind].
  set (t5 := mkDataFrame
               (map (fun kv : string * column =>
                       (renamed mapping (fst kv), snd kv)) (data t4))
               (map (renamed mapping) (columns t4))) in *.
  assert (Hval5 : forall c, In c (columns t) ->
            column_values t5 (renamed mapping c) = column_values t4 c).
  { intros c Hc. now apply column_values_renamed. }
  (* selecting *)
  set (cols := ["city"; "state"; "total_accidents"; "avg_severity"]).
  assert (Hincl : incl cols (columns t5)).
  { intros c Hc. unfold t5. cbn [columns].
    assert (Hr : exists c0, In c0 (columns t) /\ renamed mapping c0 = c).
    { cbn in Hc. destruct Hc as [<-|[<-|[<-|[<-|[]]]]].
      - exists "City". split; [apply Hcols; cbn; auto | reflexivity].
      - exists "State". split; [apply Hcols; cbn; auto | reflexivity].
      - exists "total_accidents".
        split; [apply Hcols; cbn; auto | reflexivity].
      - exists "avg_severity".
        split; [apply Hcols; cbn; auto | reflexivity]. }
    destruct Hr as (c0 & Hc0 & <-). now apply in_map. }
  assert (Hndc : NoDup cols)
    by (repeat constructor; cbn; intuition discriminate).
  destruct (select_ok t5 cols Hw5 Hincl Hndc) as [Hsel Hw6].
  rewrite Hsel. cbn [bind].
  set (t6 := mkDataFrame (map (fun c => (c, column_values t5 c)) cols) cols)
    in *.
  rewrite (to_dict_records_ok t6 Hw6). f_equal.
  (* the columns of the result *)
  assert (Hcity5 : column_values t5 "city" = values_at t "City" idxs).
  { transitivity (column_values t4 "City");
      [apply (Hval5 "City"); apply Hcols; cbn; auto|].
    rewrite Hother4 by discriminate.
    apply column_values_reorder; [apply Hcols; cbn; auto | exact Hw]. }
  assert (Hstate5 : column_values t5 "state" = values_at t "State" idxs).
  { transitivity (column_values t4 "State");
      [apply (Hval5 "State"); apply Hcols; cbn; auto|].
    rewrite Hother4 by discriminate.
    apply column_values_reorder; [apply Hcols; cbn; auto | exact Hw]. }
  assert (Hta5 : column_values t5 "total_accidents" =
                 values_at t "total_accidents" idxs).
  { transitivity (column_values t4 "total_accidents");
      [apply (Hval5 "total_accidents"); apply Hcols; cbn; auto|].
    rewrite Hother4 by discriminate.
    apply column_values_reorder; [apply Hcols; cbn; auto | exact Hw]. }
  assert (Havg5 : column_values t5 "avg_severity" =
                  map g (values_at t "avg_severity" idxs)).
  { transitivity (column_values t4 "avg_severity");
      [apply (Hval5 "avg_severity"); apply Hcols; cbn; auto|].
    rewrite Havg4. f_equal.
    apply column_values_reorder; [apply Hcols; cbn; auto | exact Hw]. }
  assert (Hlen6 : len t6 = List.length idxs).
  { unfold len, t6. cbn [data map cols]. rewrite Hcity5.
    unfold values_at. apply length_map. }
  rewrite Hlen6, <- (map_nth_list (city_record rounded t) idxs O).
  apply map_ext_in. intros i Hi. apply in_seq in Hi.
  assert (Hnth : forall F : nat -> Scalar,
            nth i (map F idxs) Null = F (nth i idxs O)).
  { intros F. rewrite (nth_indep _ Null (F O)) by (rewrite length_map; lia).
    apply map_nth. }
  assert (Hv : forall c vs,
            In c cols -> column_values t5 c = vs ->
            value_at t6 c i = nth i vs Null).
  { intros c vs Hc <-. unfold value_at. f_equal.
    unfold column_values at 1, t6. cbn [data].
    now rewrite (dict_get_map_names (column_values t5) cols c Hc). }
  unfold row_dict. cbn [columns t6 map cols].
  rewrite (Hv "city" _ ltac:(cbn; auto) Hcity5),
          (Hv "state" _ ltac:(cbn; auto) Hstate5),
          (Hv "total_accidents" _ ltac:(cbn; auto) Hta5),
          (Hv "avg_severity" _ ltac:(cbn; auto) Havg5).
  unfold values_at. rewrite map_map, !Hnth. reflexivity.
Qed.

Lemma data_reorder_nonempty (t : DataFrame) (idxs : list nat) :
  data t <> [] -> data (reorder t idxs) <> [].
Proof. unfold reorder. cbn [data]. now destruct (data t). Qed.

Lemma nth_map_indices (f : nat -> nat) (l : list nat) (p : nat) :
  p < List.length l -> nth p (map f l) O = f (nth p l O).
Proof.
  intros Hp. rewrite (nth_indep _ O (f O)) by (rewrite length_map; lia).
  apply map_nth.
Qed.



(** ** Tables own their columns *)

Module StoreOwnership.
Import Store.

(** X29. The table a transform returns shares no object with the tables that
    existed before the call: its dictionary of columns, its list of names
    and every one of its columns are objects the call created, so that a
    later change of one of them cannot reach an older table. *)
Theorem result_owns_its_columns :
  forall (op : transform) (h : heap) (t a d c : addr),
    fst (call op t h) = Ok a ->
    nth_error (snd (call op t h)) a = Some (OFrame d c) ->
    List.length h <= a /\
    List.length h <= d /\
    List.length h <= c /\
    (forall es,
        nth_error (snd (call op t h)) d = Some (ODict es) ->
        Forall (fun e : string * addr => List.length h <= snd e) es).
Proof.
  intros op h t a d c Hcall Hframe.
  destruct (StoreFacts.keeps_call (List.length h) op t h (le_n _)
              (StoreFacts.closed_length h))
    as (_ & _ & Hclosed & Hpost).
  pose proof (Hpost a Hcall) as Ha.
  pose proof (Hclosed a (OFrame d c) Ha Hframe) as [Hd Hc].
  repeat split; try assumption.
  intros es Hes. exact (Hclosed d (ODict es) Hd Hes).
Qed.

Lemma result_owns_its_columns_witness :
  let h := [OList [Int 1; Null]; ODict [("a", 0)]; ONames ["a"]; OFrame 1 2] in
  let op := Select ["a"] in
  exists a d c es,
    fst (call op 3 h) = Ok a /\
    nth_error (snd (call op 3 h)) a = Some (OFrame d c) /\
    nth_error (snd (call op 3 h)) d = Some (ODict es) /\
    List.length h <= d /\
    Forall (fun e : string * addr => List.length h <= snd e) es.
Proof.
  cbv zeta.
  pose (h := [OList [Int 1; Null]; ODict [("a", 0)]; ONames ["a"]; OFrame 1 2]).
  assert (Hcall : exists a, fst (call (Select ["a"]) 3 h) = Ok a)
    by (eexists; vm_compute; reflexivity).
  destruct Hcall as [a Hcall].
  assert (Hframe : exists d c, nth_error (snd (call (Select ["a"]) 3 h)) a
                               = Some (OFrame d c)).
  { vm_compute in Hcall. injection Hcall as <-.
    eexists. eexists. vm_compute. reflexivity. }
  destruct Hframe as (d & c & Hframe).
  destruct (result_owns_its_columns (Select ["a"]) h 3 a d c Hcall Hframe)
    as (_ & Hd & _ & Hes).
  assert (Hdict : exists es, nth_error (snd (call (Select ["a"]) 3 h)) d
                             = Some (ODict es)).
  { vm_compute in Hcall. injection Hcall as <-.
    vm_compute in Hframe. injection Hframe as <- <-.
    eexists. vm_compute. reflexivity. }
  destruct Hdict as (es & Hdict).
  exists a, d, c, es. repeat split; try assumption. now apply Hes.
Defined.

End StoreOwnership.
